(** * The CNTK reader core: block randomizer, image transformers, packer and shim

    A shallow embedding of [BlockRandomizer.cpp], [ImageTransformers.cpp]
    (with the [FrameModePacker] and [HeapMemoryProvider] parts that follow it)
    and [ReaderShim.cpp], and the properties of these functions.

    Conventions of the embedding.
    - [size_t] is a [Z] in [0, 2^64); every [size_t] operation of the source
      is written with its wrap-around ([size_t (a + b)], [size_t (a - b)]).
    - A [std::vector] is a [list]; [operator[]] and [back()] outside the
      vector are undefined behaviour and are reported as [Undefined].
    - Failing code is a computation in [outcome]: [RuntimeError(...)],
      [LogicError(...)], a violated [assert] (only in a build without
      [NDEBUG]), undefined behaviour, and a loop that exhausts its fuel are
      distinct results.
    - The C library generator [srand]/[rand] is a table [crand seed n]: the
      [n]-th number [rand()] returns after [srand(seed)]. *)

From Stdlib Require Import ZArith QArith Qround Qpower Lia Bool Floats Ascii.
From stdpp Require Import base list gmap strings.

Local Open Scope Z_scope.

(** ** Outcomes of a call *)

Inductive outcome (A : Type) : Type :=
  | Ok (a : A)
  | AssertionFailed
  | RuntimeError
  | LogicError
  | Undefined
  | Diverges.

Arguments Ok {A} a.
Arguments AssertionFailed {A}.
Arguments RuntimeError {A}.
Arguments LogicError {A}.
Arguments Undefined {A}.
Arguments Diverges {A}.

Definition bind {A B : Type} (m : outcome A) (k : A -> outcome B) : outcome B :=
  match m with
  | Ok a => k a
  | AssertionFailed => AssertionFailed
  | RuntimeError => RuntimeError
  | LogicError => LogicError
  | Undefined => Undefined
  | Diverges => Diverges
  end.

Notation "x <- m ;; k" := (bind m (fun x => k))
  (at level 20, m at level 99, k at level 200, only parsing).
Notation "' pat <- m ;; k" := (bind m (fun x => match x with pat => k end))
  (at level 20, pat pattern, m at level 99, k at level 200, only parsing).

Lemma bind_Ok_inv {A B : Type} (m : outcome A) (k : A -> outcome B) (b : B) :
  bind m k = Ok b -> exists a, m = Ok a /\ k a = Ok b.
Proof. destruct m; simpl; intros H; try discriminate. eauto. Qed.

(** [assert(c)]: nothing in a build with [NDEBUG], a check otherwise. *)
Definition assert (NDEBUG : bool) (c : bool) : outcome unit :=
  if NDEBUG then Ok tt else if c then Ok tt else AssertionFailed.

(** ** [size_t] and vectors *)

Definition SIZE_MAX : Z := 18446744073709551615.

Definition size_t (z : Z) : Z := z mod 18446744073709551616.

Definition in_size_t (z : Z) : Prop := 0 <= z <= SIZE_MAX.

Lemma size_t_id z : in_size_t z -> size_t z = z.
Proof. unfold in_size_t, size_t, SIZE_MAX. intros. apply Z.mod_small. lia. Qed.

Lemma size_t_range z : in_size_t (size_t z).
Proof.
  unfold in_size_t, size_t, SIZE_MAX.
  pose proof (Z.mod_pos_bound z 18446744073709551616). lia.
Qed.

Definition vec_at {A : Type} (v : list A) (i : Z) : outcome A :=
  match v !! Z.to_nat i with
  | Some x => Ok x
  | None => Undefined
  end.

Definition vec_set {A : Type} (v : list A) (i : Z) (x : A) : outcome (list A) :=
  if decide (Z.to_nat i < length v)%nat then Ok (<[Z.to_nat i := x]> v) else Undefined.

Definition vec_back {A : Type} (v : list A) : outcome A :=
  match last v with
  | Some x => Ok x
  | None => Undefined
  end.

Lemma vec_at_Ok {A : Type} (v : list A) (i : Z) (x : A) :
  vec_at v i = Ok x <-> v !! Z.to_nat i = Some x.
Proof.
  unfold vec_at. destruct (v !! Z.to_nat i); split; intros H; congruence.
Qed.

Lemma vec_at_lt {A : Type} (v : list A) (i : Z) :
  (Z.to_nat i < length v)%nat -> exists x, vec_at v i = Ok x.
Proof.
  intros H. destruct (lookup_lt_is_Some_2 v _ H) as [x Hx].
  exists x. by apply vec_at_Ok.
Qed.

Lemma vec_set_Ok {A : Type} (v v' : list A) (i : Z) (x : A) :
  vec_set v i x = Ok v' ->
  (Z.to_nat i < length v)%nat /\ v' = <[Z.to_nat i := x]> v.
Proof. unfold vec_set. case_decide; intros ?; by simplify_eq. Qed.

(** ** BlockRandomizer: data *)

Module BR.

Record SequenceDescription := {
  id : Z;
  chunkId : Z;
  numberOfSamples : Z
}.

Definition Timeline := list SequenceDescription.

Record ChunkInformation := {
  sequencePositionStart : Z;
  samplePositionStart : Z
}.

Record RandomizedChunk := {
  info : ChunkInformation;
  originalChunkIndex : Z;
  windowbegin : Z;
  windowend : Z
}.

(** The calls the randomizer makes on the deserializer, in order. *)
Inductive DeserializerCall :=
  | StartEpochCall
  | RequireChunk (originalChunkIndex : Z)
  | ReleaseChunk (originalChunkIndex : Z)
  | GetSequencesById (originalIds : list Z).

(** The deserializer as the randomizer sees it: the corpus timeline it
    hands out and the calls received so far. *)
Record Deserializer := {
  GetSequenceDescriptions : Timeline;
  calls : list DeserializerCall
}.

Definition call (c : DeserializerCall) (d : Deserializer) : Deserializer :=
  {| GetSequenceDescriptions := GetSequenceDescriptions d;
     calls := calls d ++ [c] |}.

Record EpochConfiguration := {
  workerRank : Z;
  numberOfWorkers : Z;
  minibatchSize : Z;
  totalSize : Z;
  index : Z
}.

(** [requestDataSize]: the "one sweep" marker of [DataReader.h]. *)
Definition requestDataSize : Z := SIZE_MAX.

(** The state of the C library generator: the last [srand] argument and
    the number of [rand()] calls since. *)
Record Rng := {
  seed : Z;
  drawn : nat
}.

(** The object, with the generator state [libc_rand] it works on. *)
Record BlockRandomizer := {
  m_verbosity : Z;
  m_randomizationRangeInSamples : Z;
  m_deserializer : Deserializer;
  m_numSequences : Z;
  m_numChunks : Z;
  m_numSamples : Z;
  m_frameMode : bool;
  m_chunkInformation : list ChunkInformation;
  m_sweep : Z;
  m_sweepStartInSamples : Z;
  m_randomizedChunks : list RandomizedChunk;
  m_sequencePositionToChunkIndex : list Z;
  m_randomTimeline : list SequenceDescription;
  m_sequencePositionInSweep : Z;
  m_samplePositionInEpoch : Z;
  m_epochSize : Z;
  m_workerRank : Z;
  m_numberOfWorkers : Z;
  libc_rand : Rng
}.

(** ** Assignments to members

    [set_f x s] is the object [s] after [f = x]. *)

Definition set_m_deserializer (x : Deserializer) (s : BlockRandomizer) : BlockRandomizer :=
  {| m_verbosity := m_verbosity s;
     m_randomizationRangeInSamples := m_randomizationRangeInSamples s;
     m_deserializer := x; m_numSequences := m_numSequences s;
     m_numChunks := m_numChunks s; m_numSamples := m_numSamples s;
     m_frameMode := m_frameMode s;
     m_chunkInformation := m_chunkInformation s; m_sweep := m_sweep s;
     m_sweepStartInSamples := m_sweepStartInSamples s;
     m_randomizedChunks := m_randomizedChunks s;
     m_sequencePositionToChunkIndex := m_sequencePositionToChunkIndex s;
     m_randomTimeline := m_randomTimeline s;
     m_sequencePositionInSweep := m_sequencePositionInSweep s;
     m_samplePositionInEpoch := m_samplePositionInEpoch s;
     m_epochSize := m_epochSize s; m_workerRank := m_workerRank s;
     m_numberOfWorkers := m_numberOfWorkers s; libc_rand := libc_rand s |}.

Definition set_m_sweep (x : Z) (s : BlockRandomizer) : BlockRandomizer :=
  {| m_verbosity := m_verbosity s;
     m_randomizationRangeInSamples := m_randomizationRangeInSamples s;
     m_deserializer := m_deserializer s; m_numSequences := m_numSequences s;
     m_numChunks := m_numChunks s; m_numSamples := m_numSamples s;
     m_frameMode := m_frameMode s;
     m_chunkInformation := m_chunkInformation s; m_sweep := x;
     m_sweepStartInSamples := m_sweepStartInSamples s;
     m_randomizedChunks := m_randomizedChunks s;
     m_sequencePositionToChunkIndex := m_sequencePositionToChunkIndex s;
     m_randomTimeline := m_randomTimeline s;
     m_sequencePositionInSweep := m_sequencePositionInSweep s;
     m_samplePositionInEpoch := m_samplePositionInEpoch s;
     m_epochSize := m_epochSize s; m_workerRank := m_workerRank s;
     m_numberOfWorkers := m_numberOfWorkers s; libc_rand := libc_rand s |}.

Definition set_m_sweepStartInSamples (x : Z) (s : BlockRandomizer) : BlockRandomizer :=
  {| m_verbosity := m_verbosity s;
     m_randomizationRangeInSamples := m_randomizationRangeInSamples s;
     m_deserializer := m_deserializer s; m_numSequences := m_numSequences s;
     m_numChunks := m_numChunks s; m_numSamples := m_numSamples s;
     m_frameMode := m_frameMode s;
     m_chunkInformation := m_chunkInformation s; m_sweep := m_sweep s;
     m_sweepStartInSamples := x; m_randomizedChunks := m_randomizedChunks s;
     m_sequencePositionToChunkIndex := m_sequencePositionToChunkIndex s;
     m_randomTimeline := m_randomTimeline s;
     m_sequencePositionInSweep := m_sequencePositionInSweep s;
     m_samplePositionInEpoch := m_samplePositionInEpoch s;
     m_epochSize := m_epochSize s; m_workerRank := m_workerRank s;
     m_numberOfWorkers := m_numberOfWorkers s; libc_rand := libc_rand s |}.

Definition set_m_randomizedChunks (x : list RandomizedChunk) (s : BlockRandomizer) : BlockRandomizer :=
  {| m_verbosity := m_verbosity s;
     m_randomizationRangeInSamples := m_randomizationRangeInSamples s;
     m_deserializer := m_deserializer s; m_numSequences := m_numSequences s;
     m_numChunks := m_numChunks s; m_numSamples := m_numSamples s;
     m_frameMode := m_frameMode s;
     m_chunkInformation := m_chunkInformation s; m_sweep := m_sweep s;
     m_sweepStartInSamples := m_sweepStartInSamples s;
     m_randomizedChunks := x;
     m_sequencePositionToChunkIndex := m_sequencePositionToChunkIndex s;
     m_randomTimeline := m_randomTimeline s;
     m_sequencePositionInSweep := m_sequencePositionInSweep s;
     m_samplePositionInEpoch := m_samplePositionInEpoch s;
     m_epochSize := m_epochSize s; m_workerRank := m_workerRank s;
     m_numberOfWorkers := m_numberOfWorkers s; libc_rand := libc_rand s |}.

Definition set_m_sequencePositionToChunkIndex (x : list Z) (s : BlockRandomizer) : BlockRandomizer :=
  {| m_verbosity := m_verbosity s;
     m_randomizationRangeInSamples := m_randomizationRangeInSamples s;
     m_deserializer := m_deserializer s; m_numSequences := m_numSequences s;
     m_numChunks := m_numChunks s; m_numSamples := m_numSamples s;
     m_frameMode := m_frameMode s;
     m_chunkInformation := m_chunkInformation s; m_sweep := m_sweep s;
     m_sweepStartInSamples := m_sweepStartInSamples s;
     m_randomizedChunks := m_randomizedChunks s;
     m_sequencePositionToChunkIndex := x;
     m_randomTimeline := m_randomTimeline s;
     m_sequencePositionInSweep := m_sequencePositionInSweep s;
     m_samplePositionInEpoch := m_samplePositionInEpoch s;
     m_epochSize := m_epochSize s; m_workerRank := m_workerRank s;
     m_numberOfWorkers := m_numberOfWorkers s; libc_rand := libc_rand s |}.

Definition set_m_randomTimeline (x : list SequenceDescription) (s : BlockRandomizer) : BlockRandomizer :=
  {| m_verbosity := m_verbosity s;
     m_randomizationRangeInSamples := m_randomizationRangeInSamples s;
     m_deserializer := m_deserializer s; m_numSequences := m_numSequences s;
     m_numChunks := m_numChunks s; m_numSamples := m_numSamples s;
     m_frameMode := m_frameMode s;
     m_chunkInformation := m_chunkInformation s; m_sweep := m_sweep s;
     m_sweepStartInSamples := m_sweepStartInSamples s;
     m_randomizedChunks := m_randomizedChunks s;
     m_sequencePositionToChunkIndex := m_sequencePositionToChunkIndex s;
     m_randomTimeline := x;
     m_sequencePositionInSweep := m_sequencePositionInSweep s;
     m_samplePositionInEpoch := m_samplePositionInEpoch s;
     m_epochSize := m_epochSize s; m_workerRank := m_workerRank s;
     m_numberOfWorkers := m_numberOfWorkers s; libc_rand := libc_rand s |}.

Definition set_m_sequencePositionInSweep (x : Z) (s : BlockRandomizer) : BlockRandomizer :=
  {| m_verbosity := m_verbosity s;
     m_randomizationRangeInSamples := m_randomizationRangeInSamples s;
     m_deserializer := m_deserializer s; m_numSequences := m_numSequences s;
     m_numChunks := m_numChunks s; m_numSamples := m_numSamples s;
     m_frameMode := m_frameMode s;
     m_chunkInformation := m_chunkInformation s; m_sweep := m_sweep s;
     m_sweepStartInSamples := m_sweepStartInSamples s;
     m_randomizedChunks := m_randomizedChunks s;
     m_sequencePositionToChunkIndex := m_sequencePositionToChunkIndex s;
     m_randomTimeline := m_randomTimeline s; m_sequencePositionInSweep := x;
     m_samplePositionInEpoch := m_samplePositionInEpoch s;
     m_epochSize := m_epochSize s; m_workerRank := m_workerRank s;
     m_numberOfWorkers := m_numberOfWorkers s; libc_rand := libc_rand s |}.

Definition set_m_samplePositionInEpoch (x : Z) (s : BlockRandomizer) : BlockRandomizer :=
  {| m_verbosity := m_verbosity s;
     m_randomizationRangeInSamples := m_randomizationRangeInSamples s;
     m_deserializer := m_deserializer s; m_numSequences := m_numSequences s;
     m_numChunks := m_numChunks s; m_numSamples := m_numSamples s;
     m_frameMode := m_frameMode s;
     m_chunkInformation := m_chunkInformation s; m_sweep := m_sweep s;
     m_sweepStartInSamples := m_sweepStartInSamples s;
     m_randomizedChunks := m_randomizedChunks s;
     m_sequencePositionToChunkIndex := m_sequencePositionToChunkIndex s;
     m_randomTimeline := m_randomTimeline s;
     m_sequencePositionInSweep := m_sequencePositionInSweep s;
     m_samplePositionInEpoch := x; m_epochSize := m_epochSize s;
     m_workerRank := m_workerRank s;
     m_numberOfWorkers := m_numberOfWorkers s; libc_rand := libc_rand s |}.

Definition set_m_epochSize (x : Z) (s : BlockRandomizer) : BlockRandomizer :=
  {| m_verbosity := m_verbosity s;
     m_randomizationRangeInSamples := m_randomizationRangeInSamples s;
     m_deserializer := m_deserializer s; m_numSequences := m_numSequences s;
     m_numChunks := m_numChunks s; m_numSamples := m_numSamples s;
     m_frameMode := m_frameMode s;
     m_chunkInformation := m_chunkInformation s; m_sweep := m_sweep s;
     m_sweepStartInSamples := m_sweepStartInSamples s;
     m_randomizedChunks := m_randomizedChunks s;
     m_sequencePositionToChunkIndex := m_sequencePositionToChunkIndex s;
     m_randomTimeline := m_randomTimeline s;
     m_sequencePositionInSweep := m_sequencePositionInSweep s;
     m_samplePositionInEpoch := m_samplePositionInEpoch s; m_epochSize := x;
     m_workerRank := m_workerRank s;
     m_numberOfWorkers := m_numberOfWorkers s; libc_rand := libc_rand s |}.

Definition set_m_workerRank (x : Z) (s : BlockRandomizer) : BlockRandomizer :=
  {| m_verbosity := m_verbosity s;
     m_randomizationRangeInSamples := m_randomizationRangeInSamples s;
     m_deserializer := m_deserializer s; m_numSequences := m_numSequences s;
     m_numChunks := m_numChunks s; m_numSamples := m_numSamples s;
     m_frameMode := m_frameMode s;
     m_chunkInformation := m_chunkInformation s; m_sweep := m_sweep s;
     m_sweepStartInSamples := m_sweepStartInSamples s;
     m_randomizedChunks := m_randomizedChunks s;
     m_sequencePositionToChunkIndex := m_sequencePositionToChunkIndex s;
     m_randomTimeline := m_randomTimeline s;
     m_sequencePositionInSweep := m_sequencePositionInSweep s;
     m_samplePositionInEpoch := m_samplePositionInEpoch s;
     m_epochSize := m_epochSize s; m_workerRank := x;
     m_numberOfWorkers := m_numberOfWorkers s; libc_rand := libc_rand s |}.

Definition set_m_numberOfWorkers (x : Z) (s : BlockRandomizer) : BlockRandomizer :=
  {| m_verbosity := m_verbosity s;
     m_randomizationRangeInSamples := m_randomizationRangeInSamples s;
     m_deserializer := m_deserializer s; m_numSequences := m_numSequences s;
     m_numChunks := m_numChunks s; m_numSamples := m_numSamples s;
     m_frameMode := m_frameMode s;
     m_chunkInformation := m_chunkInformation s; m_sweep := m_sweep s;
     m_sweepStartInSamples := m_sweepStartInSamples s;
     m_randomizedChunks := m_randomizedChunks s;
     m_sequencePositionToChunkIndex := m_sequencePositionToChunkIndex s;
     m_randomTimeline := m_randomTimeline s;
     m_sequencePositionInSweep := m_sequencePositionInSweep s;
     m_samplePositionInEpoch := m_samplePositionInEpoch s;
     m_epochSize := m_epochSize s; m_workerRank := m_workerRank s;
     m_numberOfWorkers := x; libc_rand := libc_rand s |}.

Definition set_libc_rand (x : Rng) (s : BlockRandomizer) : BlockRandomizer :=
  {| m_verbosity := m_verbosity s;
     m_randomizationRangeInSamples := m_randomizationRangeInSamples s;
     m_deserializer := m_deserializer s; m_numSequences := m_numSequences s;
     m_numChunks := m_numChunks s; m_numSamples := m_numSamples s;
     m_frameMode := m_frameMode s;
     m_chunkInformation := m_chunkInformation s; m_sweep := m_sweep s;
     m_sweepStartInSamples := m_sweepStartInSamples s;
     m_randomizedChunks := m_randomizedChunks s;
     m_sequencePositionToChunkIndex := m_sequencePositionToChunkIndex s;
     m_randomTimeline := m_randomTimeline s;
     m_sequencePositionInSweep := m_sequencePositionInSweep s;
     m_samplePositionInEpoch := m_samplePositionInEpoch s;
     m_epochSize := m_epochSize s; m_workerRank := m_workerRank s;
     m_numberOfWorkers := m_numberOfWorkers s; libc_rand := x |}.

(** ** [IsValid] *)

Definition valid_step (previous current : SequenceDescription) : bool :=
  (size_t (id previous + 1) =? id current)
  && (chunkId previous <=? chunkId current)
  && (chunkId current <=? size_t (chunkId previous + 1))
  && (0 <? numberOfSamples current).

(** [std::find_if_not] with the lambda that updates [previous]: the search
    stops at the first sequence the lambda rejects. *)
Fixpoint IsValid_from (previous : SequenceDescription) (timeline : Timeline) : bool :=
  match timeline with
  | [] => true
  | current :: rest =>
      if valid_step previous current then IsValid_from current rest else false
  end.

Definition IsValid (timeline : Timeline) : bool :=
  IsValid_from {| id := size_t (-1); chunkId := 0; numberOfSamples := 0 |} timeline.

(** ** The constructor *)

(** The loop over the timeline that fills [m_chunkInformation] and sums
    the samples; [maxN] is [maxNumberOfSamples]. *)
Fixpoint scan_timeline (timeline : Timeline) (ci : list ChunkInformation)
    (maxN numSamples : Z) : outcome (list ChunkInformation * Z * Z) :=
  match timeline with
  | [] => Ok (ci, maxN, numSamples)
  | seqDesc :: rest =>
      chunkInformation <- vec_at ci (chunkId seqDesc);;
      ci' <- vec_set ci (chunkId seqDesc)
               {| sequencePositionStart :=
                    Z.min (sequencePositionStart chunkInformation) (id seqDesc);
                  samplePositionStart :=
                    Z.min (samplePositionStart chunkInformation) numSamples |};;
      scan_timeline rest ci'
        (Z.max maxN (numberOfSamples seqDesc))
        (size_t (numSamples + numberOfSamples seqDesc))
  end.

Section Construction.

Variable NDEBUG : bool.

(** [deserializer] is a [shared_ptr]: [None] is the null pointer, which the
    first line dereferences when the assertion is compiled out. The members
    the initializer list leaves out ([m_sweepStartInSamples],
    [m_workerRank], [m_numberOfWorkers]) are written by [StartEpoch] before
    they are read; they start at 0 here, and so does the generator state. *)
Definition BlockRandomizer_new (verbosity randomizationRangeInSamples : Z)
    (deserializer : option Deserializer) : outcome BlockRandomizer :=
  _ <- assert NDEBUG (bool_decide (deserializer <> None));;
  match deserializer with
  | None => Undefined
  | Some d =>
      let timeline := GetSequenceDescriptions d in
      _ <- assert NDEBUG (IsValid timeline);;
      back <- vec_back timeline;;
      let numSequences := size_t (id back + 1) in
      let numChunks := size_t (chunkId back + 1) in
      let ci0 := replicate (Z.to_nat (size_t (numChunks + 1)))
                   {| sequencePositionStart := SIZE_MAX;
                      samplePositionStart := SIZE_MAX |} in
      '(ci, maxNumberOfSamples, numSamples) <- scan_timeline timeline ci0 0 0;;
      ci' <- vec_set ci numChunks
               {| sequencePositionStart := numSequences;
                  samplePositionStart := numSamples |};;
      Ok {| m_verbosity := verbosity;
            m_randomizationRangeInSamples := randomizationRangeInSamples;
            m_deserializer := d;
            m_numSequences := numSequences;
            m_numChunks := numChunks;
            m_numSamples := numSamples;
            m_frameMode := (maxNumberOfSamples =? 1);
            m_chunkInformation := ci';
            m_sweep := SIZE_MAX;
            m_sweepStartInSamples := 0;
            m_randomizedChunks := [];
            m_sequencePositionToChunkIndex := [];
            m_randomTimeline := [];
            m_sequencePositionInSweep := SIZE_MAX;
            m_samplePositionInEpoch := SIZE_MAX;
            m_epochSize := SIZE_MAX;
            m_workerRank := 0;
            m_numberOfWorkers := 0;
            libc_rand := {| seed := 0; drawn := 0%nat |} |}
  end.

End Construction.

(** ** Randomization *)

Definition INT_MAX : Z := 2147483647.

(** [std::swap(v[i], v[j])]. *)
Definition vec_swap {A : Type} (v : list A) (i j : Z) : outcome (list A) :=
  vi <- vec_at v i;;
  vj <- vec_at v j;;
  Ok (<[Z.to_nat j := vi]> (<[Z.to_nat i := vj]> v)).

Definition IsValidForPosition (s : BlockRandomizer) (targetPosition : Z)
    (seqDesc : SequenceDescription) : outcome bool :=
  ci <- vec_at (m_sequencePositionToChunkIndex s) targetPosition;;
  chunk <- vec_at (m_randomizedChunks s) ci;;
  Ok ((windowbegin chunk <=? chunkId seqDesc) && (chunkId seqDesc <? windowend chunk)).

(** The first loop of [RandomizeChunks]: the shuffled chunks laid on the
    randomized timeline. A [RandomizedChunk] built from three values has its
    window members zero until the second loop writes them. *)
Fixpoint place_chunks (ci : list ChunkInformation) (randomizedChunkIndices : list Z)
    (n : nat) (chunkId samplePosition sequencePosition : Z)
    (acc : list RandomizedChunk) : outcome (list RandomizedChunk * Z * Z) :=
  match n with
  | O => Ok (acc, samplePosition, sequencePosition)
  | S n' =>
      originalChunkIndex <- vec_at randomizedChunkIndices chunkId;;
      next <- vec_at ci (size_t (originalChunkIndex + 1));;
      this <- vec_at ci originalChunkIndex;;
      let numSequences :=
        size_t (sequencePositionStart next - sequencePositionStart this) in
      let numSamples :=
        size_t (samplePositionStart next - samplePositionStart this) in
      place_chunks ci randomizedChunkIndices n' (chunkId + 1)
        (size_t (samplePosition + numSamples))
        (size_t (sequencePosition + numSequences))
        (acc ++ [ {| info := {| sequencePositionStart := sequencePosition;
                                samplePositionStart := samplePosition |};
                     originalChunkIndex := originalChunkIndex;
                     windowbegin := 0;
                     windowend := 0 |} ])
  end.

(** [while (chunk.info.samplePositionStart -
            m_randomizedChunks[chunk.windowbegin].info.samplePositionStart
            > halfWindowRange) chunk.windowbegin++;]
    [start] is [chunk.info.samplePositionStart]. *)
Fixpoint advance_windowbegin (fuel : nat) (chunks : list RandomizedChunk)
    (start halfWindowRange wb : Z) : outcome Z :=
  match fuel with
  | O => Diverges
  | S fuel' =>
      b <- vec_at chunks wb;;
      if size_t (start - samplePositionStart (info b)) >? halfWindowRange
      then advance_windowbegin fuel' chunks start halfWindowRange (size_t (wb + 1))
      else Ok wb
  end.

(** [while (chunk.windowend < m_numChunks &&
            m_randomizedChunks[chunk.windowend + 1].info.samplePositionStart
            - chunk.info.samplePositionStart < halfWindowRange)
       chunk.windowend++;] *)
Fixpoint advance_windowend (fuel : nat) (chunks : list RandomizedChunk)
    (numChunks start halfWindowRange we : Z) : outcome Z :=
  match fuel with
  | O => Diverges
  | S fuel' =>
      if we <? numChunks then
        e <- vec_at chunks (size_t (we + 1));;
        if size_t (samplePositionStart (info e) - start) <? halfWindowRange
        then advance_windowend fuel' chunks numChunks start halfWindowRange
               (size_t (we + 1))
        else Ok we
      else Ok we
  end.

(** The second loop of [RandomizeChunks]. Both inner loops move an index
    through the vector, one step per pass: [S (length chunks)] passes are
    more than either can make without leaving the vector. *)
Fixpoint compute_windows (n : nat) (chunkId numChunks halfWindowRange : Z)
    (chunks : list RandomizedChunk) : outcome (list RandomizedChunk) :=
  match n with
  | O => Ok chunks
  | S n' =>
      chunk <- vec_at chunks chunkId;;
      '(wb0, we0) <-
        (if chunkId =? 0 then Ok (0, 1)
         else left_ <- vec_at chunks (size_t (chunkId - 1));;
              Ok (windowbegin left_, windowend left_));;
      let start := samplePositionStart (info chunk) in
      wb <- advance_windowbegin (S (length chunks)) chunks start halfWindowRange wb0;;
      we <- advance_windowend (S (length chunks)) chunks numChunks start
              halfWindowRange we0;;
      chunks' <- vec_set chunks chunkId
                   {| info := info chunk;
                      originalChunkIndex := originalChunkIndex chunk;
                      windowbegin := wb;
                      windowend := we |};;
      compute_windows n' (chunkId + 1) numChunks halfWindowRange chunks'
  end.

(** The third loop of [RandomizeChunks]. *)
Fixpoint fill_sequencePositionToChunkIndex (n : nat) (k : Z)
    (chunks : list RandomizedChunk) (acc : list Z) : outcome (list Z) :=
  match n with
  | O => Ok acc
  | S n' =>
      next <- vec_at chunks (size_t (k + 1));;
      this <- vec_at chunks k;;
      let numSequences :=
        size_t (sequencePositionStart (info next) - sequencePositionStart (info this)) in
      fill_sequencePositionToChunkIndex n' (k + 1) chunks
        (acc ++ replicate (Z.to_nat numSequences) k)
  end.

(** The inner loop of the timeline set-up in [Randomize]: the sequences of
    one original chunk, with [chunkId] rewritten. *)
Fixpoint copy_chunk (n : nat) (timeline : Timeline) (sequencePosition chunkId_ : Z)
    (acc : list SequenceDescription) : outcome (list SequenceDescription) :=
  match n with
  | O => Ok acc
  | S n' =>
      d <- vec_at timeline sequencePosition;;
      copy_chunk n' timeline (sequencePosition + 1) chunkId_
        (acc ++ [ {| id := id d; chunkId := chunkId_;
                     numberOfSamples := numberOfSamples d |} ])
  end.

Fixpoint fill_randomTimeline (n : nat) (chunkId_ : Z) (timeline : Timeline)
    (ci : list ChunkInformation) (chunks : list RandomizedChunk)
    (acc : list SequenceDescription) : outcome (list SequenceDescription) :=
  match n with
  | O => Ok acc
  | S n' =>
      chunk <- vec_at chunks chunkId_;;
      let originalChunkIndex := originalChunkIndex chunk in
      this <- vec_at ci originalChunkIndex;;
      next <- vec_at ci (size_t (originalChunkIndex + 1));;
      acc' <- copy_chunk
                (Z.to_nat (sequencePositionStart next - sequencePositionStart this))
                timeline (sequencePositionStart this) chunkId_ acc;;
      fill_randomTimeline n' (chunkId_ + 1) timeline ci chunks acc'
  end.

(** The final loop of [Randomize]. *)
Fixpoint verify_timeline (n : nat) (i : Z) (s : BlockRandomizer)
    (tl : list SequenceDescription) : outcome unit :=
  match n with
  | O => Ok tt
  | S n' =>
      d <- vec_at tl i;;
      v <- IsValidForPosition s i d;;
      if negb v then LogicError else verify_timeline n' (i + 1) s tl
  end.

(** The loop of assertions before the shuffle (a build without [NDEBUG]). *)
Fixpoint assert_positions (n : nat) (i : Z) (s : BlockRandomizer)
    (tl : list SequenceDescription) : outcome unit :=
  match n with
  | O => Ok tt
  | S n' =>
      d <- vec_at tl i;;
      v <- IsValidForPosition s i d;;
      if negb v then AssertionFailed else assert_positions n' (i + 1) s tl
  end.

Section Randomization.

Variable NDEBUG : bool.

(** [RAND_MAX] of the C library and its generator: [crand seed n] is the
    [n]-th value [rand()] returns after [srand(seed)]. *)
Variable RAND_MAX : Z.
Variable crand : Z -> nat -> Z.

(** How many draws the retry loop of [Randomize] may take at one position
    before the run is reported as [Diverges]. *)
Variable patience : nat.

Definition srand (seed_ : Z) : Rng :=
  {| seed := seed_ mod 4294967296; drawn := 0%nat |}.

Definition c_rand (g : Rng) : Z * Rng :=
  (crand (seed g) (drawn g), {| seed := seed g; drawn := S (drawn g) |}).

(** [rand(begin, end)]. The two [::rand()] calls are taken left to right;
    the [int] expression [::rand() * RAND_MAX + ::rand()] overflows beyond
    [INT_MAX], and [% (end - begin)] divides by zero on an empty range. *)
Definition rand (begin end_ : Z) (g : Rng) : outcome (Z * Rng) :=
  let '(r1, g1) := c_rand g in
  let '(r2, g2) := c_rand g1 in
  let product := r1 * RAND_MAX + r2 in
  if product >? INT_MAX then Undefined
  else
    let randno := size_t product in
    let range := size_t (end_ - begin) in
    if range =? 0 then Undefined
    else Ok (size_t (begin + randno mod range), g2).

Fixpoint randomShuffle_loop {A : Type} (n : nat) (i : Z) (v : list A) (g : Rng)
    : outcome (list A * Rng) :=
  match n with
  | O => Ok (v, g)
  | S n' =>
      '(irand, g1) <- rand 0 (Z.of_nat (length v)) g;;
      if irand =? i then randomShuffle_loop n' (i + 1) v g1
      else
        v' <- vec_swap v i irand;;
        randomShuffle_loop n' (i + 1) v' g1
  end.

Definition randomShuffle {A : Type} (v : list A) (randomseed : Z)
    : outcome (list A * Rng) :=
  if Z.of_nat (length v) >? size_t (RAND_MAX * RAND_MAX) then RuntimeError
  else randomShuffle_loop (length v) 0 v (srand randomseed).

Definition RandomizeChunks (s : BlockRandomizer) : outcome BlockRandomizer :=
  let randomizedChunkIndices := seqZ 0 (m_numChunks s) in
  '(randomizedChunkIndices, g) <- randomShuffle randomizedChunkIndices (m_sweep s);;
  '(chunks, samplePosition, sequencePosition) <-
    place_chunks (m_chunkInformation s) randomizedChunkIndices
      (Z.to_nat (m_numChunks s)) 0 (m_sweepStartInSamples s) 0 [];;
  let chunks :=
    chunks ++ [ {| info := {| sequencePositionStart := sequencePosition;
                              samplePositionStart := samplePosition |};
                   originalChunkIndex := SIZE_MAX;
                   windowbegin := 0;
                   windowend := 0 |} ] in
  let halfWindowRange := m_randomizationRangeInSamples s / 2 in
  chunks <- compute_windows (Z.to_nat (m_numChunks s)) 0 (m_numChunks s)
              halfWindowRange chunks;;
  positions <- fill_sequencePositionToChunkIndex (Z.to_nat (m_numChunks s)) 0 chunks [];;
  _ <- assert NDEBUG (Z.of_nat (length positions) =? m_numSequences s);;
  Ok (set_libc_rand g
        (set_m_sequencePositionToChunkIndex positions
           (set_m_randomizedChunks chunks s))).

(** The retry loop [for (;;)] at position [i]. *)
Fixpoint pick (fuel : nat) (s : BlockRandomizer) (tl : list SequenceDescription)
    (i posbegin posend : Z) (g : Rng) : outcome (list SequenceDescription * Rng) :=
  match fuel with
  | O => Diverges
  | S fuel' =>
      '(j, g1) <- rand posbegin posend g;;
      dj <- vec_at tl j;;
      vj <- IsValidForPosition s i dj;;
      if negb vj then pick fuel' s tl i posbegin posend g1
      else
        di <- vec_at tl i;;
        vi <- IsValidForPosition s j di;;
        if negb vi then pick fuel' s tl i posbegin posend g1
        else
          tl' <- vec_swap tl i j;;
          Ok (tl', g1)
  end.

(** The shuffle loop of [Randomize] over the positions [i], [i+1], ... *)
Fixpoint shuffle_timeline (n : nat) (i : Z) (s : BlockRandomizer)
    (tl : list SequenceDescription) (g : Rng)
    : outcome (list SequenceDescription * Rng) :=
  match n with
  | O => Ok (tl, g)
  | S n' =>
      chunkId_ <- vec_at (m_sequencePositionToChunkIndex s) i;;
      chunk <- vec_at (m_randomizedChunks s) chunkId_;;
      cb <- vec_at (m_randomizedChunks s) (windowbegin chunk);;
      ce <- vec_at (m_randomizedChunks s) (windowend chunk);;
      let posbegin := sequencePositionStart (info cb) in
      let posend := sequencePositionStart (info ce) in
      '(tl', g') <- pick patience s tl i posbegin posend g;;
      shuffle_timeline n' (i + 1) s tl' g'
  end.

Definition Randomize (s : BlockRandomizer) : outcome BlockRandomizer :=
  let timeline := GetSequenceDescriptions (m_deserializer s) in
  s1 <- RandomizeChunks s;;
  tl <- fill_randomTimeline (Z.to_nat (m_numChunks s1)) 0 timeline
          (m_chunkInformation s1) (m_randomizedChunks s1) [];;
  _ <- assert NDEBUG (Z.of_nat (length tl) =? m_numSequences s1);;
  _ <- (if NDEBUG then Ok tt else assert_positions (length tl) 0 s1 tl);;
  '(tl', g) <- shuffle_timeline (length tl) 0 s1 tl (srand (size_t (m_sweep s1 + 1)));;
  _ <- verify_timeline (length tl') 0 s1 tl';;
  Ok (set_libc_rand g (set_m_randomTimeline tl' s1)).

Definition RandomizeIfNewSweepIsEntered (s : BlockRandomizer) : outcome BlockRandomizer :=
  if m_numSequences s <=? m_sequencePositionInSweep s then
    let s1 := set_m_sweep (size_t (m_sweep s + 1)) s in
    let s2 := set_m_sweepStartInSamples
                (size_t (m_sweepStartInSamples s1 + m_numSamples s1)) s1 in
    s3 <- Randomize s2;;
    Ok (set_m_sequencePositionInSweep 0 s3)
  else Ok s.

Definition RandomizeForGlobalSamplePosition (samplePosition : Z) (s : BlockRandomizer)
    : outcome BlockRandomizer :=
  if m_numSamples s =? 0 then Undefined
  else
    let sweep := samplePosition / m_numSamples s in
    s' <- (if negb (m_sweep s =? sweep) then
             Randomize (set_m_sweepStartInSamples (size_t (sweep * m_numSamples s))
                          (set_m_sweep sweep s))
           else Ok s);;
    Ok (set_m_sequencePositionInSweep (samplePosition mod m_numSamples s') s').

Definition StartEpoch (config : EpochConfiguration) (s : BlockRandomizer)
    : outcome BlockRandomizer :=
  let s := set_m_deserializer (call StartEpochCall (m_deserializer s)) s in
  let s := set_m_workerRank (workerRank config) s in
  let s := set_m_numberOfWorkers (numberOfWorkers config) s in
  let s := set_m_epochSize
             (if totalSize config =? requestDataSize then m_numSamples s
              else totalSize config) s in
  let s := set_m_samplePositionInEpoch 0 s in
  let timeframe := size_t (m_epochSize s * index config) in
  _ <- assert NDEBUG (m_frameMode s);;
  _ <- assert NDEBUG (negb (timeframe =? SIZE_MAX));;
  RandomizeForGlobalSamplePosition timeframe s.

(** The two statements that follow a sequence, selected or skipped:
    [m_samplePositionInEpoch += seqDesc.numberOfSamples;
     m_sequencePositionInSweep++;] *)
Definition move_past (seqDesc : SequenceDescription) (s : BlockRandomizer)
    : BlockRandomizer :=
  set_m_sequencePositionInSweep (size_t (m_sequencePositionInSweep s + 1))
    (set_m_samplePositionInEpoch
       (size_t (m_samplePositionInEpoch s + numberOfSamples seqDesc)) s).

(** [fuel] bounds the passes of the [while] loop. *)
Fixpoint AdvanceToNextPositionForThisWorker (fuel : nat) (s : BlockRandomizer)
    : outcome (bool * BlockRandomizer) :=
  match fuel with
  | O => Diverges
  | S fuel' =>
      if m_samplePositionInEpoch s <? m_epochSize s then
        s1 <- RandomizeIfNewSweepIsEntered s;;
        seqDesc <- vec_at (m_randomTimeline s1) (m_sequencePositionInSweep s1);;
        if m_numberOfWorkers s1 =? 0 then Undefined
        else if chunkId seqDesc mod m_numberOfWorkers s1 =? m_workerRank s1
        then Ok (m_epochSize s1 <=? m_samplePositionInEpoch s1, s1)
        else AdvanceToNextPositionForThisWorker fuel' (move_past seqDesc s1)
      else Ok (m_epochSize s <=? m_samplePositionInEpoch s, s)
  end.

(** What [GetNextSequences] returns: the flag, and the data the
    deserializer hands back, one entry per requested original id (the entry
    is the original id). *)
Record Sequences := {
  m_endOfEpoch : bool;
  m_data : list Z
}.

(** The loop [while (ids.size() < count)] with [n] ids still to find. Next
    to each id (a position in the sweep) stands the description read at
    that position when it was selected. *)
Fixpoint select_ids (fuel : nat) (n : nat) (s : BlockRandomizer)
    : outcome (list (Z * SequenceDescription) * bool * BlockRandomizer) :=
  match n with
  | O => Ok ([], false, s)
  | S n' =>
      '(endOfEpoch, s1) <- AdvanceToNextPositionForThisWorker fuel s;;
      if (endOfEpoch : bool) then Ok ([], true, s1)
      else
        _ <- assert NDEBUG (m_sequencePositionInSweep s1 <? m_numSequences s1);;
        seqDesc <- vec_at (m_randomTimeline s1) (m_sequencePositionInSweep s1);;
        '(ids, endOfEpoch', s2) <- select_ids fuel n' (move_past seqDesc s1);;
        Ok ((m_sequencePositionInSweep s1, seqDesc) :: ids, endOfEpoch', s2)
  end.

(** The loop over the randomized chunks that requires and releases. *)
Fixpoint require_release (n : nat) (chunkId_ : Z) (chunks : list RandomizedChunk)
    (windowbegin_ windowend_ : Z) (d : Deserializer) : outcome Deserializer :=
  match n with
  | O => Ok d
  | S n' =>
      chunk <- vec_at chunks chunkId_;;
      let originalChunkIndex := originalChunkIndex chunk in
      let d' :=
        if (windowbegin_ <=? chunkId_) && (chunkId_ <? windowend_)
        then call (RequireChunk originalChunkIndex) d
        else call (ReleaseChunk originalChunkIndex) d in
      require_release n' (chunkId_ + 1) chunks windowbegin_ windowend_ d'
  end.

Fixpoint original_ids (tl : list SequenceDescription) (ids : list Z)
    : outcome (list Z) :=
  match ids with
  | [] => Ok []
  | i :: rest =>
      seqDesc <- vec_at tl i;;
      originalIds <- original_ids tl rest;;
      Ok (id seqDesc :: originalIds)
  end.

Definition GetNextSequences (fuel : nat) (count : Z) (s : BlockRandomizer)
    : outcome (Sequences * BlockRandomizer) :=
  _ <- assert NDEBUG (negb (m_samplePositionInEpoch s =? SIZE_MAX));;
  '(selected, endOfEpoch, s1) <- select_ids fuel (Z.to_nat count) s;;
  let ids := selected.*1 in
  match ids with
  | [] => Ok ({| m_endOfEpoch := endOfEpoch; m_data := [] |}, s1)
  | ids0 :: _ =>
      c0 <- vec_at (m_sequencePositionToChunkIndex s1) ids0;;
      chunk0 <- vec_at (m_randomizedChunks s1) c0;;
      idsback <- vec_back ids;;
      c1 <- vec_at (m_sequencePositionToChunkIndex s1) idsback;;
      chunk1 <- vec_at (m_randomizedChunks s1) c1;;
      d <- require_release (Z.to_nat (m_numChunks s1)) 0 (m_randomizedChunks s1)
             (windowbegin chunk0) (windowend chunk1) (m_deserializer s1);;
      originalIds <- original_ids (m_randomTimeline s1) ids;;
      Ok ({| m_endOfEpoch := endOfEpoch; m_data := originalIds |},
          set_m_deserializer (call (GetSequencesById originalIds) d) s1)
  end.

End Randomization.

(** ** Timeline validity *)

(** The sequence ids are [k], [k+1], [k+2], ... *)
Definition ids_from (k : Z) (timeline : Timeline) : Prop :=
  forall (i : nat) (d : SequenceDescription),
    timeline !! i = Some d -> id d = k + Z.of_nat i.

(** Each chunk id is the one before it or the next one, starting from a
    predecessor with chunk id [p]. *)
Fixpoint chunk_steps (p : Z) (timeline : Timeline) : Prop :=
  match timeline with
  | [] => True
  | d :: rest => p <= chunkId d <= p + 1 /\ chunk_steps (chunkId d) rest
  end.

(** What [IsValid] accepts, in plain arithmetic: the check of the first
    sequence runs against the predecessor [{-1, 0, 0}], so the first chunk
    id is 0 or 1. *)
Definition accepted (timeline : Timeline) : Prop :=
  ids_from 0 timeline
  /\ chunk_steps 0 timeline
  /\ Forall (fun d => 1 <= numberOfSamples d) timeline.

(** Validity in the words of the specification: ids 0, 1, 2, ...; adjacent
    sequences differ in chunk id by 0 or 1; at least one sample each. *)
Fixpoint adjacent_chunks (timeline : Timeline) : Prop :=
  match timeline with
  | a :: rest =>
      match rest with
      | b :: _ => (chunkId b = chunkId a \/ chunkId b = chunkId a + 1)
      | [] => True
      end /\ adjacent_chunks rest
  | [] => True
  end.

Definition valid_in_spec (timeline : Timeline) : Prop :=
  ids_from 0 timeline
  /\ adjacent_chunks timeline
  /\ Forall (fun d => 1 <= numberOfSamples d) timeline.

(** A timeline the program can receive: every field is a [size_t], and the
    vector is shorter than [SIZE_MAX - 1]. *)
Definition representable (d : SequenceDescription) : Prop :=
  in_size_t (id d) /\ in_size_t (chunkId d) /\ in_size_t (numberOfSamples d).

Definition timeline_wf (timeline : Timeline) : Prop :=
  Forall representable timeline /\ Z.of_nat (length timeline) < SIZE_MAX - 1.

Lemma ids_from_cons k d rest :
  ids_from k (d :: rest) <-> id d = k /\ ids_from (k + 1) rest.
Proof.
  unfold ids_from. split.
  - intros H. split.
    + specialize (H 0%nat d eq_refl). lia.
    + intros i d' Hd'. specialize (H (S i) d' Hd'). lia.
  - intros [H0 H] [|i] d' Hd'; simpl in Hd'.
    + simplify_eq. lia.
    + specialize (H i d' Hd'). lia.
Qed.

Lemma valid_step_iff previous current k :
  size_t (id previous + 1) = k ->
  0 <= chunkId previous <= k -> k < SIZE_MAX ->
  valid_step previous current = true <->
  id current = k
  /\ chunkId previous <= chunkId current <= chunkId previous + 1
  /\ 1 <= numberOfSamples current.
Proof.
  intros Hk Hc Hmax. unfold valid_step.
  rewrite Hk, (size_t_id (chunkId previous + 1)) by (unfold in_size_t; lia).
  rewrite !andb_true_iff, Z.eqb_eq, !Z.leb_le, Z.ltb_lt. lia.
Qed.

Lemma IsValid_from_iff timeline : forall previous k,
  size_t (id previous + 1) = k ->
  0 <= chunkId previous <= k ->
  k + Z.of_nat (length timeline) < SIZE_MAX ->
  IsValid_from previous timeline = true <->
  ids_from k timeline
  /\ chunk_steps (chunkId previous) timeline
  /\ Forall (fun d => 1 <= numberOfSamples d) timeline.
Proof.
  induction timeline as [|current rest IH]; intros previous k Hk Hc Hlen.
  - simpl. split; [|done]. intros _. split; [|done]. by intros i d ?.
  - simpl in Hlen. cbn [IsValid_from chunk_steps].
    rewrite ids_from_cons, Forall_cons.
    pose proof (valid_step_iff previous current k Hk Hc ltac:(lia)) as Hstep.
    destruct (valid_step previous current) eqn:Hv.
    + destruct (proj1 Hstep eq_refl) as (Hid & Hch & Hn).
      rewrite (IH current (k + 1)).
      * tauto.
      * rewrite Hid. apply size_t_id. unfold in_size_t. lia.
      * lia.
      * lia.
    + split; [done|]. intros ((Hid & _) & (Hch & _) & (Hn & _)).
      assert (false = true) by (apply Hstep; tauto). done.
Qed.

Lemma IsValid_iff_accepted timeline :
  timeline_wf timeline -> IsValid timeline = true <-> accepted timeline.
Proof.
  intros [_ Hlen]. unfold IsValid, accepted.
  apply (IsValid_from_iff timeline
           {| id := size_t (-1); chunkId := 0; numberOfSamples := 0 |} 0);
    simpl; [done|lia|unfold SIZE_MAX in *; lia].
Qed.

(** Along accepted steps the chunk ids never decrease, and each step adds
    at most one. *)
Lemma chunk_steps_last timeline : forall p b,
  chunk_steps p timeline -> last timeline = Some b ->
  chunkId b <= p + Z.of_nat (length timeline)
  /\ forall d, d ∈ timeline -> p <= chunkId d <= chunkId b.
Proof.
  induction timeline as [|c rest IH]; intros p b Hs Hl; [done|].
  destruct Hs as [Hc Hs]. destruct rest as [|c' rest'].
  - simpl in Hl. simplify_eq. simpl. split; [lia|].
    intros d Hd. apply list_elem_of_singleton in Hd. subst. lia.
  - rewrite last_cons_cons in Hl.
    destruct (IH _ _ Hs Hl) as [Hb Hall].
    split; [simpl in *; lia|].
    intros d Hd. apply elem_of_cons in Hd as [->|Hd].
    + specialize (Hall c' ltac:(left)). lia.
    + specialize (Hall d Hd). lia.
Qed.

Lemma scan_timeline_Ok timeline : forall ci maxN numSamples,
  (forall d, d ∈ timeline -> (Z.to_nat (chunkId d) < length ci)%nat) ->
  exists ci' maxN' numSamples',
    scan_timeline timeline ci maxN numSamples = Ok (ci', maxN', numSamples')
    /\ length ci' = length ci.
Proof.
  induction timeline as [|d rest IH]; intros ci maxN numSamples Hin.
  - simpl. eauto.
  - cbn [scan_timeline].
    pose proof (Hin d ltac:(left)) as Hd.
    destruct (vec_at_lt ci _ Hd) as [x ->]. cbn [bind].
    unfold vec_set. rewrite decide_True by done. cbn [bind].
    edestruct IH as (ci' & m' & n' & -> & Hlen).
    + intros d' Hd'. rewrite length_insert. apply Hin. by right.
    + rewrite length_insert in Hlen. eauto.
Qed.

Lemma BlockRandomizer_new_Ok timeline :
  timeline_wf timeline -> IsValid timeline = true -> timeline <> [] ->
  forall NDEBUG verbosity range cs,
    exists r, BlockRandomizer_new NDEBUG verbosity range
                (Some {| GetSequenceDescriptions := timeline; calls := cs |}) = Ok r.
Proof.
  intros Hwf Hvalid Hne NDEBUG verbosity range cs.
  pose proof (proj1 (IsValid_iff_accepted timeline Hwf) Hvalid) as (_ & Hsteps & _).
  destruct Hwf as [_ Hlen].
  unfold BlockRandomizer_new. cbn [GetSequenceDescriptions].
  rewrite Hvalid.
  assert (Hassert : assert NDEBUG true = Ok tt) by (by destruct NDEBUG).
  rewrite bool_decide_eq_true_2 by done.
  rewrite !Hassert. cbn [bind].
  destruct (last timeline) as [back|] eqn:Hback;
    [|by apply last_None in Hback].
  unfold vec_back. rewrite Hback. cbn [bind].
  destruct (chunk_steps_last timeline 0 back Hsteps Hback) as [Hb Hall].
  assert (0 <= chunkId back) as Hb0.
  { apply (Hall back). apply last_Some_elem_of. done. }
  assert (size_t (chunkId back + 1) = chunkId back + 1) as ->
    by (apply size_t_id; unfold in_size_t, SIZE_MAX in *; lia).
  assert (size_t (chunkId back + 1 + 1) = chunkId back + 2) as ->
    by (rewrite size_t_id; unfold in_size_t, SIZE_MAX in *; lia).
  edestruct (scan_timeline_Ok timeline) as (ci' & m' & n' & -> & Hlen').
  - intros d Hd. rewrite length_replicate. specialize (Hall d Hd). lia.
  - cbn [bind]. unfold vec_set. rewrite length_replicate in Hlen'.
    rewrite decide_True by lia. cbn [bind]. eauto.
Qed.

Lemma BlockRandomizer_new_rejects timeline :
  IsValid timeline = false ->
  forall verbosity range cs,
    BlockRandomizer_new false verbosity range
      (Some {| GetSequenceDescriptions := timeline; calls := cs |}) = AssertionFailed.
Proof.
  intros H verbosity range cs. unfold BlockRandomizer_new.
  cbn [GetSequenceDescriptions]. rewrite H.
  by rewrite bool_decide_eq_true_2.
Qed.

(** C5 (as amended). [IsValid] is true exactly on the timelines whose ids
    are 0, 1, 2, ..., whose chunk ids start at 0 or 1 (one step from the
    predecessor chunk id 0 the check starts with) and then stay or grow by
    one, and whose sequences all have a sample; in a build with assertions
    the constructor stops on the assertion exactly when [IsValid] is false,
    and it returns an object for every non-empty timeline [IsValid]
    accepts. *)
Theorem IsValid_and_construction (timeline : Timeline) :
  timeline_wf timeline ->
  (IsValid timeline = true <-> accepted timeline)
  /\ (IsValid timeline = false ->
      forall verbosity range cs,
        BlockRandomizer_new false verbosity range
          (Some {| GetSequenceDescriptions := timeline; calls := cs |})
        = AssertionFailed)
  /\ (IsValid timeline = true -> timeline <> [] ->
      forall verbosity range cs,
        exists r, BlockRandomizer_new false verbosity range
                    (Some {| GetSequenceDescriptions := timeline; calls := cs |})
                  = Ok r).
Proof.
  intros Hwf. split; [by apply IsValid_iff_accepted|]. split.
  - apply BlockRandomizer_new_rejects.
  - intros Hv Hne verbosity range cs. by apply BlockRandomizer_new_Ok.
Qed.

(** Two chunks of two single-sample sequences each. *)
Definition timeline_2x2 : Timeline :=
  [ {| id := 0; chunkId := 0; numberOfSamples := 1 |};
    {| id := 1; chunkId := 0; numberOfSamples := 1 |};
    {| id := 2; chunkId := 1; numberOfSamples := 1 |};
    {| id := 3; chunkId := 1; numberOfSamples := 1 |} ].

Lemma timeline_2x2_wf : timeline_wf timeline_2x2.
Proof.
  split; [|by vm_compute].
  unfold timeline_2x2, representable, in_size_t, SIZE_MAX.
  repeat constructor; simpl; lia.
Defined.

Lemma IsValid_and_construction_witness :
  timeline_wf timeline_2x2
  /\ (IsValid timeline_2x2 = true <-> accepted timeline_2x2)
  /\ exists r, BlockRandomizer_new false 0 0
                 (Some {| GetSequenceDescriptions := timeline_2x2; calls := [] |})
               = Ok r.
Proof.
  split; [exact timeline_2x2_wf|].
  destruct (IsValid_and_construction timeline_2x2 timeline_2x2_wf) as (H1 & _ & H3).
  split; [exact H1|].
  apply H3; [reflexivity | discriminate].
Defined.

(** A single sequence in chunk 5: valid in the words of the specification
    (there is no adjacent pair), rejected by [IsValid]. *)
Definition timeline_chunk5 : Timeline :=
  [ {| id := 0; chunkId := 5; numberOfSamples := 1 |} ].

(** C5 (as stated) fails: a timeline with ids 0.., no decreasing or jumping
    chunk id between adjacent sequences and no empty sequence, on which
    [IsValid] is false and construction stops on the assertion. *)
Lemma IsValid_rejects_spec_valid_timeline :
  valid_in_spec timeline_chunk5
  /\ IsValid timeline_chunk5 = false
  /\ BlockRandomizer_new false 0 0
       (Some {| GetSequenceDescriptions := timeline_chunk5; calls := [] |})
     = AssertionFailed.
Proof.
  split; [|split; reflexivity].
  split; [|split].
  - intros [|i] d Hd; simpl in Hd; [by simplify_eq | done].
  - simpl. done.
  - repeat constructor. simpl. lia.
Qed.

(** ** Locality of the randomized timeline *)

Section Locality.

Variable NDEBUG : bool.
Variable RAND_MAX : Z.
Variable crand : Z -> nat -> Z.
Variable patience : nat.

(** Every position below [k] holds a sequence that is valid there. *)
Definition valid_below (s : BlockRandomizer) (k : nat)
    (tl : list SequenceDescription) : Prop :=
  forall (p : nat) (d : SequenceDescription),
    (p < k)%nat -> tl !! p = Some d ->
    IsValidForPosition s (Z.of_nat p) d = Ok true.

Lemma IsValidForPosition_to_nat s a b d :
  Z.to_nat a = Z.to_nat b ->
  IsValidForPosition s a d = IsValidForPosition s b d.
Proof. intros H. unfold IsValidForPosition, vec_at. by rewrite H. Qed.

Lemma vec_swap_Ok {A : Type} (v v' : list A) (i j : Z) :
  vec_swap v i j = Ok v' ->
  exists vi vj, v !! Z.to_nat i = Some vi /\ v !! Z.to_nat j = Some vj
                /\ v' = <[Z.to_nat j := vi]> (<[Z.to_nat i := vj]> v).
Proof.
  unfold vec_swap. intros H.
  apply bind_Ok_inv in H as (vi & Hi & H).
  apply bind_Ok_inv in H as (vj & Hj & H).
  apply vec_at_Ok in Hi, Hj. simplify_eq. eauto.
Qed.

(** What a successful retry loop has done: it swapped position [i] with a
    position [j] such that each of the two sequences is valid at its new
    position. *)
Lemma pick_Ok fuel s tl i posbegin posend : forall g tl' g',
  pick RAND_MAX crand fuel s tl i posbegin posend g = Ok (tl', g') ->
  exists j di dj,
    tl !! Z.to_nat i = Some di /\ tl !! Z.to_nat j = Some dj
    /\ IsValidForPosition s i dj = Ok true
    /\ IsValidForPosition s j di = Ok true
    /\ tl' = <[Z.to_nat j := di]> (<[Z.to_nat i := dj]> tl).
Proof.
  induction fuel as [|fuel IH]; intros g tl' g' H; [done|].
  cbn [pick] in H.
  apply bind_Ok_inv in H as ([j g1] & _ & H).
  apply bind_Ok_inv in H as (dj & Hdj & H).
  apply bind_Ok_inv in H as (vj & Hvj & H).
  destruct vj; cbn [negb] in H; [|by eapply IH].
  apply bind_Ok_inv in H as (di & Hdi & H).
  apply bind_Ok_inv in H as (vi & Hvi & H).
  destruct vi; cbn [negb] in H; [|by eapply IH].
  apply bind_Ok_inv in H as (tl2 & Hswap & H). simplify_eq.
  apply vec_swap_Ok in Hswap as (di' & dj' & Hi & Hj & ->).
  apply vec_at_Ok in Hdj, Hdi. simplify_eq.
  exists j, di, dj. done.
Qed.

Lemma swap_keeps_valid s tl (k : nat) j di dj :
  valid_below s k tl ->
  tl !! k = Some di -> tl !! Z.to_nat j = Some dj ->
  IsValidForPosition s (Z.of_nat k) dj = Ok true ->
  IsValidForPosition s j di = Ok true ->
  valid_below s (S k) (<[Z.to_nat j := di]> (<[k := dj]> tl)).
Proof.
  intros Hinv Hi Hj Hvj Hvi p d Hp Hd.
  apply lookup_lt_Some in Hi as Hik. apply lookup_lt_Some in Hj as Hjk.
  destruct (decide (p = Z.to_nat j)) as [->|Hpj].
  - rewrite list_lookup_insert_eq in Hd by (by rewrite length_insert).
    simplify_eq.
    rewrite (IsValidForPosition_to_nat s _ j); [done|lia].
  - rewrite list_lookup_insert_ne in Hd by done.
    destruct (decide (p = k)) as [->|Hpk].
    + rewrite list_lookup_insert_eq in Hd by done. by simplify_eq.
    + rewrite list_lookup_insert_ne in Hd by done.
      apply (Hinv p d); [lia|done].
Qed.

Lemma shuffle_timeline_valid n : forall (k : nat) s tl g tl' g',
  shuffle_timeline RAND_MAX crand patience n (Z.of_nat k) s tl g = Ok (tl', g') ->
  valid_below s k tl ->
  valid_below s (k + n) tl' /\ length tl' = length tl.
Proof.
  induction n as [|n IH]; intros k s tl g tl' g' H Hinv.
  - simpl in H. simplify_eq. by rewrite Nat.add_0_r.
  - cbn [shuffle_timeline] in H.
    apply bind_Ok_inv in H as (c & _ & H).
    apply bind_Ok_inv in H as (chunk & _ & H).
    apply bind_Ok_inv in H as (cb & _ & H).
    apply bind_Ok_inv in H as (ce & _ & H).
    apply bind_Ok_inv in H as ([tl1 g1] & Hpick & H).
    apply pick_Ok in Hpick as (j & di & dj & Hi & Hj & Hvj & Hvi & ->).
    rewrite Nat2Z.id in Hi. 
    replace (Z.of_nat k + 1) with (Z.of_nat (S k)) in H by lia.
    apply IH in H as [Hv Hlen].
    + rewrite !length_insert in Hlen.
      split; [|done]. by replace (k + S n)%nat with (S k + n)%nat by lia.
    + rewrite Nat2Z.id. by apply swap_keeps_valid.
Qed.

End Locality.

(** ** The windows computed by [RandomizeChunks] *)

(** Members of the randomized chunk at index [k] ([0] outside the vector). *)
Definition sampleStart (chunks : list RandomizedChunk) (k : Z) : Z :=
  match chunks !! Z.to_nat k with
  | Some ch => samplePositionStart (info ch)
  | None => 0
  end.

Definition windowbegin_of (chunks : list RandomizedChunk) (k : Z) : Z :=
  match chunks !! Z.to_nat k with
  | Some ch => windowbegin ch
  | None => 0
  end.

Definition windowend_of (chunks : list RandomizedChunk) (k : Z) : Z :=
  match chunks !! Z.to_nat k with
  | Some ch => windowend ch
  | None => 0
  end.

(** The sample positions of the randomized chunks, sentinel included, are
    non-decreasing [size_t] values. *)
Definition starts_ordered (chunks : list RandomizedChunk) (numChunks : Z) : Prop :=
  (forall k, 0 <= k <= numChunks -> in_size_t (sampleStart chunks k))
  /\ (forall k, 0 <= k < numChunks ->
        sampleStart chunks k <= sampleStart chunks (k + 1)).

(** The window of chunk [c]. [windowbegin] is the smallest index whose
    chunk starts at most [half] samples before chunk [c]. [windowend] is
    where the second loop stops: the first index [e], counting up from 1
    (chunk 0) or from the left neighbour's [windowend], with
    [e = numChunks] or [sampleStart(e+1) - sampleStart(c) >= half] in
    [size_t] arithmetic. Neither bound is below the left neighbour's. *)
Definition window_spec (chunks : list RandomizedChunk) (numChunks half c : Z) : Prop :=
  let wb := windowbegin_of chunks c in
  let we := windowend_of chunks c in
  let wb0 := if c =? 0 then 0 else windowbegin_of chunks (c - 1) in
  let we0 := if c =? 0 then 1 else windowend_of chunks (c - 1) in
  (0 <= wb <= c
   /\ sampleStart chunks c - sampleStart chunks wb <= half
   /\ forall b, 0 <= b < wb -> half < sampleStart chunks c - sampleStart chunks b)
  /\ (we <= numChunks
      /\ (we < numChunks ->
          half <= size_t (sampleStart chunks (we + 1) - sampleStart chunks c))
      /\ forall e, we0 <= e < we ->
           size_t (sampleStart chunks (e + 1) - sampleStart chunks c) < half)
  /\ wb0 <= wb /\ we0 <= we /\ 1 <= we.

Lemma starts_ordered_le chunks numChunks a b :
  starts_ordered chunks numChunks -> 0 <= a -> a <= b -> b <= numChunks ->
  sampleStart chunks a <= sampleStart chunks b.
Proof.
  intros [_ Hmono] Ha Hab Hb.
  assert (forall n : nat, a + Z.of_nat n <= numChunks ->
            sampleStart chunks a <= sampleStart chunks (a + Z.of_nat n)) as H.
  { induction n as [|n IH]; intros Hn.
    - by rewrite Z.add_0_r.
    - etrans; [apply IH; lia|].
      replace (a + Z.of_nat (S n)) with (a + Z.of_nat n + 1) by lia.
      apply Hmono. lia. }
  specialize (H (Z.to_nat (b - a))).
  replace (a + Z.of_nat (Z.to_nat (b - a))) with b in H by lia.
  apply H. lia.
Qed.

Lemma vec_at_sampleStart chunks k ch :
  vec_at chunks k = Ok ch -> sampleStart chunks k = samplePositionStart (info ch).
Proof. intros H%vec_at_Ok. unfold sampleStart. by rewrite H. Qed.

Lemma advance_windowbegin_spec chunks numChunks half c :
  starts_ordered chunks numChunks ->
  Z.of_nat (length chunks) = numChunks + 1 -> numChunks < SIZE_MAX ->
  0 <= half -> c < numChunks ->
  forall fuel wb,
    0 <= wb <= c -> (Z.to_nat (c - wb) < fuel)%nat ->
    exists wb',
      advance_windowbegin fuel chunks (sampleStart chunks c) half wb = Ok wb'
      /\ wb <= wb' <= c
      /\ sampleStart chunks c - sampleStart chunks wb' <= half
      /\ forall b, wb <= b < wb' ->
           half < sampleStart chunks c - sampleStart chunks b.
Proof.
  intros Hord Hlen Hmax Hhalf Hc.
  induction fuel as [|fuel IH]; intros wb Hwb Hfuel; [lia|].
  cbn [advance_windowbegin].
  destruct (vec_at_lt chunks wb ltac:(lia)) as [b Hb].
  rewrite Hb. cbn [bind].
  rewrite <- (vec_at_sampleStart _ _ _ Hb).
  pose proof (starts_ordered_le chunks numChunks wb c Hord ltac:(lia) ltac:(lia) ltac:(lia)) as Hle.
  destruct Hord as [Hrange Hmono].
  pose proof (Hrange wb ltac:(lia)) as Hr1. pose proof (Hrange c ltac:(lia)) as Hr2.
  rewrite size_t_id by (unfold in_size_t in *; lia).
  destruct (sampleStart chunks c - sampleStart chunks wb >? half) eqn:E.
  - apply Z.gtb_lt in E.
    assert (wb < c) as Hlt.
    { destruct (decide (wb = c)) as [->|]; [lia|lia]. }
    rewrite size_t_id by (unfold in_size_t; lia).
    destruct (IH (wb + 1) ltac:(lia) ltac:(lia)) as (wb' & -> & Hb1 & Hb2 & Hb3).
    exists wb'. split; [done|]. split; [lia|]. split; [done|].
    intros k Hk. destruct (decide (k = wb)) as [->|]; [lia|apply Hb3; lia].
  - exists wb. split; [done|]. split; [lia|]. split; [lia|]. intros; lia.
Qed.

Lemma advance_windowend_spec chunks numChunks half start :
  Z.of_nat (length chunks) = numChunks + 1 -> numChunks < SIZE_MAX ->
  forall fuel we,
    0 <= we -> (Z.to_nat (numChunks - we) < fuel)%nat ->
    exists we',
      advance_windowend fuel chunks numChunks start half we = Ok we'
      /\ we <= we'
      /\ (we <= numChunks -> we' <= numChunks)
      /\ (we' < numChunks -> half <= size_t (sampleStart chunks (we' + 1) - start))
      /\ forall e, we <= e < we' ->
           size_t (sampleStart chunks (e + 1) - start) < half.
Proof.
  intros Hlen Hmax.
  induction fuel as [|fuel IH]; intros we Hwe Hfuel; [lia|].
  cbn [advance_windowend].
  destruct (we <? numChunks) eqn:E.
  - apply Z.ltb_lt in E.
    rewrite (size_t_id (we + 1)) by (unfold in_size_t; lia).
    destruct (vec_at_lt chunks (we + 1) ltac:(lia)) as [e He].
    rewrite He. cbn [bind].
    rewrite <- (vec_at_sampleStart _ _ _ He).
    destruct (size_t (sampleStart chunks (we + 1) - start) <? half) eqn:E2.
    + apply Z.ltb_lt in E2.
      destruct (IH (we + 1) ltac:(lia) ltac:(lia)) as (we' & -> & H1 & H2 & H3 & H4).
      exists we'. split; [done|]. split; [lia|]. split; [lia|]. split; [done|].
      intros k Hk. destruct (decide (k = we)) as [->|]; [done|apply H4; lia].
    + apply Z.ltb_ge in E2.
      exists we. split; [done|]. split; [lia|]. split; [lia|]. split; [done|].
      intros; lia.
  - apply Z.ltb_ge in E.
    exists we. split; [done|]. split; [lia|]. split; [lia|]. split; [lia|].
    intros; lia.
Qed.

Definition windows_done (chunks : list RandomizedChunk) (numChunks half c : Z) : Prop :=
  forall c', 0 <= c' < c -> window_spec chunks numChunks half c'.

(** Writing the window members of one chunk. *)
Section SetWindow.

Variables (chunks : list RandomizedChunk) (c : Z) (chunk : RandomizedChunk) (wb we : Z).
Hypothesis Hc : 0 <= c.
Hypothesis Hchunk : chunks !! Z.to_nat c = Some chunk.

Let chunks1 : list RandomizedChunk :=
  <[Z.to_nat c := {| info := info chunk;
                      originalChunkIndex := originalChunkIndex chunk;
                      windowbegin := wb; windowend := we |}]> chunks.

Lemma set_window_sampleStart k : sampleStart chunks1 k = sampleStart chunks k.
Proof.
  unfold sampleStart, chunks1.
  destruct (decide (Z.to_nat k = Z.to_nat c)) as [->|Hne].
  - rewrite list_lookup_insert_eq by (by eapply lookup_lt_Some).
    by rewrite Hchunk.
  - by rewrite list_lookup_insert_ne.
Qed.

Lemma set_window_at :
  windowbegin_of chunks1 c = wb /\ windowend_of chunks1 c = we.
Proof.
  unfold windowbegin_of, windowend_of, chunks1.
  by rewrite list_lookup_insert_eq by (by eapply lookup_lt_Some).
Qed.

Lemma set_window_other k :
  0 <= k -> k <> c ->
  windowbegin_of chunks1 k = windowbegin_of chunks k
  /\ windowend_of chunks1 k = windowend_of chunks k.
Proof.
  intros Hk Hne. unfold windowbegin_of, windowend_of, chunks1.
  by rewrite list_lookup_insert_ne by lia.
Qed.

Lemma set_window_keeps k ch :
  chunks !! k = Some ch ->
  exists ch', chunks1 !! k = Some ch' /\ info ch' = info ch
              /\ originalChunkIndex ch' = originalChunkIndex ch.
Proof.
  intros Hk. unfold chunks1.
  destruct (decide (k = Z.to_nat c)) as [->|Hne].
  - rewrite list_lookup_insert_eq by (by eapply lookup_lt_Some).
    eexists. split; [done|]. by simplify_eq.
  - rewrite list_lookup_insert_ne by done. eauto.
Qed.

End SetWindow.

Lemma window_spec_ext a b numChunks half c :
  (forall k, sampleStart a k = sampleStart b k) ->
  windowbegin_of a c = windowbegin_of b c ->
  windowend_of a c = windowend_of b c ->
  windowbegin_of a (c - 1) = windowbegin_of b (c - 1) ->
  windowend_of a (c - 1) = windowend_of b (c - 1) ->
  window_spec a numChunks half c -> window_spec b numChunks half c.
Proof.
  intros HS H1 H2 H3 H4. unfold window_spec.
  rewrite H1, H2, H3, H4.
  intros ((A1 & A2 & A3) & (B1 & B2 & B3) & C).
  split; [split; [done|split]|split; [split; [done|split]|done]].
  - by rewrite <- !HS.
  - intros k Hk. rewrite <- !HS. by apply A3.
  - intros Hlt. rewrite <- !HS. by apply B2.
  - intros e He. rewrite <- !HS. by apply B3.
Qed.

Lemma compute_windows_spec numChunks half :
  numChunks < SIZE_MAX -> 0 <= half ->
  forall n c chunks,
    starts_ordered chunks numChunks ->
    Z.of_nat (length chunks) = numChunks + 1 ->
    0 <= c -> c + Z.of_nat n = numChunks ->
    windows_done chunks numChunks half c ->
    exists chunks',
      compute_windows n c numChunks half chunks = Ok chunks'
      /\ windows_done chunks' numChunks half numChunks
      /\ length chunks' = length chunks
      /\ (forall k, sampleStart chunks' k = sampleStart chunks k)
      /\ (forall k ch, chunks !! k = Some ch ->
            exists ch', chunks' !! k = Some ch' /\ info ch' = info ch
                        /\ originalChunkIndex ch' = originalChunkIndex ch).
Proof.
  intros Hmax Hhalf.
  induction n as [|n IH]; intros c chunks Hord Hlen Hc Hn Hdone.
  - exists chunks. simpl. assert (c = numChunks) as -> by lia.
    do 4 (split; [done|]). eauto.
  - cbn [compute_windows].
    destruct (vec_at_lt chunks c ltac:(lia)) as [chunk Hchunk].
    rewrite Hchunk. cbn [bind].
    set (wb0 := if c =? 0 then 0 else windowbegin_of chunks (c - 1)).
    set (we0 := if c =? 0 then 1 else windowend_of chunks (c - 1)).
    assert ((if c =? 0 then Ok (0, 1)
             else left_ <- vec_at chunks (size_t (c - 1));;
                  Ok (windowbegin left_, windowend left_)) = Ok (wb0, we0)) as ->.
    { unfold wb0, we0. destruct (c =? 0) eqn:E; [done|]. apply Z.eqb_neq in E.
      rewrite size_t_id by (unfold in_size_t; lia).
      destruct (vec_at_lt chunks (c - 1) ltac:(lia)) as [l Hl].
      rewrite Hl. cbn [bind].
      apply vec_at_Ok in Hl. unfold windowbegin_of, windowend_of. by rewrite Hl. }
    cbn [bind].
    assert (0 <= wb0 <= c /\ 1 <= we0 <= numChunks
            /\ forall b, 0 <= b < wb0 ->
                 half < sampleStart chunks c - sampleStart chunks b)
      as (Hwb0 & Hwe0 & Hbelow).
    { unfold wb0, we0. destruct (c =? 0) eqn:E.
      - apply Z.eqb_eq in E. split; [lia|]. split; [lia|]. intros; lia.
      - apply Z.eqb_neq in E.
        destruct (Hdone (c - 1) ltac:(lia))
          as ((A1 & A2 & A3) & (B1 & B2 & B3) & C1 & C2 & C3).
        split; [lia|]. split; [lia|]. intros b Hb. specialize (A3 b Hb).
        pose proof (starts_ordered_le chunks numChunks (c - 1) c Hord
                      ltac:(lia) ltac:(lia) ltac:(lia)). lia. }
    rewrite <- (vec_at_sampleStart _ _ _ Hchunk).
    destruct (advance_windowbegin_spec chunks numChunks half c Hord Hlen Hmax
                Hhalf ltac:(lia) (S (length chunks)) wb0 Hwb0 ltac:(lia))
      as (wb & -> & W1 & W2 & W3).
    cbn [bind].
    destruct (advance_windowend_spec chunks numChunks half (sampleStart chunks c)
                Hlen Hmax (S (length chunks)) we0 ltac:(lia) ltac:(lia))
      as (we & -> & E1 & E2 & E3 & E4).
    cbn [bind].
    unfold vec_set. rewrite decide_True by lia. cbn [bind].
    apply vec_at_Ok in Hchunk.
    pose proof (set_window_sampleStart chunks c chunk wb we Hchunk) as HS.
    pose proof (set_window_at chunks c chunk wb we Hchunk) as [Hat1 Hat2].
    pose proof (set_window_other chunks c chunk wb we Hc) as Hother.
    pose proof (set_window_keeps chunks c chunk wb we Hchunk) as Hkeeps.
    set (chunks1 := <[ _ := _ ]> chunks) in *.
    destruct (IH (c + 1) chunks1) as (chunks' & -> & D1 & D2 & D3 & D4).
    + destruct Hord as [Hr Hm]. split; intros k Hk; rewrite !HS; auto.
    + unfold chunks1. by rewrite length_insert.
    + lia.
    + lia.
    + intros c' Hc'. destruct (decide (c' = c)) as [->|Hne].
      * unfold window_spec. rewrite Hat1, Hat2.
        assert ((if c =? 0 then 0 else windowbegin_of chunks1 (c - 1)) = wb0) as ->.
        { unfold wb0. destruct (c =? 0) eqn:E; [done|]. apply Z.eqb_neq in E.
          by apply Hother; lia. }
        assert ((if c =? 0 then 1 else windowend_of chunks1 (c - 1)) = we0) as ->.
        { unfold we0. destruct (c =? 0) eqn:E; [done|]. apply Z.eqb_neq in E.
          by apply Hother; lia. }
        split; [split; [lia|split]|split; [split; [lia|split]|lia]].
        -- by rewrite !HS.
        -- intros b Hb. rewrite !HS.
           destruct (decide (b < wb0)); [by apply Hbelow; lia|apply W3; lia].
        -- intros Hlt. rewrite !HS. by apply E3.
        -- intros e He. rewrite !HS. by apply E4.
      * apply (window_spec_ext chunks chunks1).
        -- intros k. by rewrite HS.
        -- symmetry. by apply Hother; lia.
        -- symmetry. by apply Hother; lia.
        -- destruct (decide (0 <= c' - 1)).
           ++ symmetry. by apply Hother; lia.
           ++ unfold windowbegin_of. replace (Z.to_nat (c' - 1)) with (Z.to_nat c') by lia.
              symmetry. apply (Hother c'); lia.
        -- destruct (decide (0 <= c' - 1)).
           ++ symmetry. by apply Hother; lia.
           ++ unfold windowend_of. replace (Z.to_nat (c' - 1)) with (Z.to_nat c') by lia.
              symmetry. apply (Hother c'); lia.
        -- apply Hdone. lia.
    + exists chunks'. split; [done|]. split; [done|].
      split; [by rewrite D2; unfold chunks1; rewrite length_insert|].
      split; [intros k; by rewrite D3, HS|].
      intros k ch Hk. destruct (Hkeeps k ch Hk) as (ch1 & Hk1 & I1 & I2).
      destruct (D4 k ch1 Hk1) as (ch' & Hk' & I3 & I4).
      exists ch'. split; [done|]. split; congruence.
Qed.

Lemma place_chunks_length ci indices n : forall chunkId_ sp sq acc r sp' sq',
  place_chunks ci indices n chunkId_ sp sq acc = Ok (r, sp', sq') ->
  length r = (length acc + n)%nat.
Proof.
  induction n as [|n IH]; intros chunkId_ sp sq acc r sp' sq' H.
  - simpl in H. simplify_eq. lia.
  - cbn [place_chunks] in H.
    apply bind_Ok_inv in H as (o & _ & H).
    apply bind_Ok_inv in H as (next & _ & H).
    apply bind_Ok_inv in H as (this & _ & H).
    apply IH in H. rewrite length_app in H. simpl in H. lia.
Qed.

Lemma compute_windows_sampleStart numChunks half n : forall c chunks chunks',
  compute_windows n c numChunks half chunks = Ok chunks' ->
  length chunks' = length chunks
  /\ forall k, sampleStart chunks' k = sampleStart chunks k.
Proof.
  induction n as [|n IH]; intros c chunks chunks' H.
  - simpl in H. by simplify_eq.
  - cbn [compute_windows] in H.
    apply bind_Ok_inv in H as (chunk & Hchunk & H).
    apply bind_Ok_inv in H as ([wb0 we0] & _ & H).
    apply bind_Ok_inv in H as (wb & _ & H).
    apply bind_Ok_inv in H as (we & _ & H).
    apply bind_Ok_inv in H as (chunks1 & Hset & H).
    apply vec_set_Ok in Hset as [Hlt ->]. apply vec_at_Ok in Hchunk.
    apply IH in H as [Hlen HS]. rewrite length_insert in Hlen.
    split; [done|]. intros k. rewrite HS.
    by apply set_window_sampleStart.
Qed.

(** *** The laid-out chunks do not wrap *)

(** [m_chunkInformation[k].samplePositionStart]. *)
Definition chunk_start (ci : list ChunkInformation) (k : Z) : Z :=
  match ci !! Z.to_nat k with
  | Some c => samplePositionStart c
  | None => 0
  end.

(** The number of samples of the original chunk [o]. *)
Definition chunk_samples (ci : list ChunkInformation) (o : Z) : Z :=
  chunk_start ci (o + 1) - chunk_start ci o.

(** The original chunks start at non-decreasing sample positions. *)
Definition chunk_starts_ordered (ci : list ChunkInformation) (numChunks : Z) : Prop :=
  forall k, 0 <= k < numChunks -> 0 <= chunk_start ci k <= chunk_start ci (k + 1).

Definition total (f : Z -> Z) (l : list Z) : Z := foldr (fun x acc => f x + acc) 0 l.

Lemma total_app f l1 l2 : total f (l1 ++ l2) = total f l1 + total f l2.
Proof. induction l1 as [|x l1 IH]; cbn; [done|]. fold (total f (l1 ++ l2)). rewrite IH. unfold total. lia. Qed.

Lemma total_Permutation f l l' : l ≡ₚ l' -> total f l = total f l'.
Proof.
  induction 1 as [|x l l' _ IH|x y l|l l' l'' _ IH1 _ IH2]; cbn.
  - done.
  - fold (total f l) (total f l'). lia.
  - lia.
  - congruence.
Qed.

Lemma total_nonneg f l : (forall x, x ∈ l -> 0 <= f x) -> 0 <= total f l.
Proof.
  induction l as [|x l IH]; intros H; cbn; [done|]. fold (total f l).
  pose proof (H x ltac:(left)). pose proof (IH ltac:(intros; apply H; by right)). lia.
Qed.

Lemma total_take_le f l k :
  (forall x, x ∈ l -> 0 <= f x) -> 0 <= total f (take k l) <= total f l.
Proof.
  intros H. rewrite <- (take_drop k l) at 3. rewrite total_app.
  assert (0 <= total f (take k l)).
  { apply total_nonneg. intros x Hx. apply H. by apply (subseteq_take k l). }
  assert (0 <= total f (drop k l)).
  { apply total_nonneg. intros x Hx. apply H. by apply (subseteq_drop k l). }
  lia.
Qed.

Lemma total_chunk_samples ci (n : nat) : forall a,
  total (chunk_samples ci) (seqZ a (Z.of_nat n))
  = chunk_start ci (a + Z.of_nat n) - chunk_start ci a.
Proof.
  induction n as [|n IH]; intros a.
  - change (Z.of_nat 0) with 0. rewrite seqZ_nil, Z.add_0_r by lia. cbn. lia.
  - rewrite Nat2Z.inj_succ, seqZ_cons by lia. cbn [total foldr].
    fold (total (chunk_samples ci) (seqZ (Z.succ a) (Z.pred (Z.succ (Z.of_nat n))))).
    rewrite Z.pred_succ, IH. unfold chunk_samples.
    replace (Z.succ a + Z.of_nat n) with (a + Z.succ (Z.of_nat n)) by lia.
    replace (Z.succ a) with (a + 1) by lia. lia.
Qed.

Lemma total_take_mono f l (j k : nat) :
  (forall x, x ∈ l -> 0 <= f x) -> (j <= k)%nat ->
  0 <= total f (take j l) <= total f (take k l).
Proof.
  intros H Hjk. replace (take j l) with (take j (take k l)).
  - apply total_take_le. intros x Hx. apply H. by apply (subseteq_take k l).
  - rewrite take_take. f_equal. lia.
Qed.

Section Layout.

Variable NDEBUG : bool.
Variable RAND_MAX : Z.
Variable crand : Z -> nat -> Z.

Lemma randomShuffle_loop_Permutation {A : Type} (n : nat) :
  forall i (v v' : list A) g g',
    randomShuffle_loop RAND_MAX crand n i v g = Ok (v', g') -> v' ≡ₚ v.
Proof.
  induction n as [|n IH]; intros i v v' g g' H.
  - cbn in H. by simplify_eq.
  - cbn [randomShuffle_loop] in H.
    apply bind_Ok_inv in H as ([irand g1] & _ & H).
    destruct (irand =? i).
    + by eapply IH.
    + apply bind_Ok_inv in H as (v1 & Hswap & H).
      apply vec_swap_Ok in Hswap as (vi & vj & Hi & Hj & ->).
      rewrite (IH _ _ _ _ _ H). by apply Permutation_insert_swap.
Qed.

Lemma randomShuffle_Permutation {A : Type} (v v' : list A) randomseed g :
  randomShuffle RAND_MAX crand v randomseed = Ok (v', g) -> v' ≡ₚ v.
Proof.
  unfold randomShuffle. destruct (_ >? _); [done|].
  apply randomShuffle_loop_Permutation.
Qed.

Section Place.

Variable ci : list ChunkInformation.
Variable indices : list Z.
Variable numChunks sweepStart : Z.

Hypothesis indices_shuffled : indices ≡ₚ seqZ 0 numChunks.
Hypothesis numChunks_range : 0 <= numChunks < SIZE_MAX.
Hypothesis ci_ordered : chunk_starts_ordered ci numChunks.
Hypothesis sweepStart_range :
  0 <= sweepStart
  /\ sweepStart + (chunk_start ci numChunks - chunk_start ci 0) <= SIZE_MAX.

Lemma indices_range o : o ∈ indices -> 0 <= o < numChunks.
Proof. rewrite indices_shuffled, elem_of_seqZ. lia. Qed.

Lemma chunk_samples_nonneg o : o ∈ indices -> 0 <= chunk_samples ci o.
Proof.
  intros Ho%indices_range. unfold chunk_samples.
  pose proof (ci_ordered o Ho). lia.
Qed.

Lemma total_indices :
  total (chunk_samples ci) indices = chunk_start ci numChunks - chunk_start ci 0.
Proof.
  rewrite (total_Permutation _ _ _ indices_shuffled).
  rewrite <- (Z2Nat.id numChunks) at 1 by lia.
  rewrite total_chunk_samples, Z2Nat.id by lia. done.
Qed.

(** Where the first [k] shuffled chunks end. *)
Definition laid (k : nat) : Z := sweepStart + total (chunk_samples ci) (take k indices).

Lemma laid_range (j k : nat) :
  (j <= k)%nat -> 0 <= laid j /\ laid j <= laid k /\ laid k <= SIZE_MAX.
Proof.
  intros Hjk. unfold laid.
  pose proof (total_take_mono _ _ j k chunk_samples_nonneg Hjk) as Hmono.
  pose proof (total_take_le (chunk_samples ci) indices k chunk_samples_nonneg) as Hle.
  rewrite total_indices in Hle. lia.
Qed.

Lemma place_chunks_laid (n : nat) : forall (c : nat) sq acc r sp' sq',
  Z.of_nat c + Z.of_nat n = numChunks ->
  length acc = c ->
  (forall k, (k < c)%nat -> sampleStart acc (Z.of_nat k) = laid k) ->
  place_chunks ci indices n (Z.of_nat c) (laid c) sq acc = Ok (r, sp', sq') ->
  sp' = laid (Z.to_nat numChunks)
  /\ forall k, (k < Z.to_nat numChunks)%nat -> sampleStart r (Z.of_nat k) = laid k.
Proof.
  induction n as [|n IH]; intros c sq acc r sp' sq' Hc Hlen Hacc H.
  - cbn in H. injection H as Hr Hsp Hsq. subst r sp' sq'.
    replace (Z.to_nat numChunks) with c by lia.
    split; [done|]. exact Hacc.
  - cbn [place_chunks] in H.
    apply bind_Ok_inv in H as (o & Ho & H).
    apply bind_Ok_inv in H as (next & Hnext & H).
    apply bind_Ok_inv in H as (this & Hthis & H).
    apply vec_at_Ok in Ho, Hnext, Hthis. rewrite Nat2Z.id in Ho.
    assert (o ∈ indices) as Hin by (by eapply list_elem_of_lookup_2).
    pose proof (indices_range o Hin) as Hrange.
    rewrite size_t_id in Hnext by (unfold in_size_t; lia).
    assert (samplePositionStart next - samplePositionStart this = chunk_samples ci o)
      as Hsamples.
    { unfold chunk_samples, chunk_start. by rewrite Hnext, Hthis. }
    rewrite Hsamples in H.
    assert (laid (S c) = laid c + chunk_samples ci o) as Hlaid.
    { unfold laid. rewrite (take_S_r _ _ _ Ho), total_app. cbn. lia. }
    pose proof (laid_range c (S c) ltac:(lia)) as Hr.
    pose proof (laid_range 0 c ltac:(lia)) as Hr0.
    rewrite (size_t_id (chunk_samples ci o)) in H by (unfold in_size_t; lia).
    rewrite (size_t_id (laid c + _)) in H by (unfold in_size_t; lia).
    rewrite <- Hlaid in H.
    replace (Z.of_nat c + 1) with (Z.of_nat (S c)) in H by lia.
    eapply IH in H; [exact H|lia|rewrite length_app; cbn; lia|].
    intros k Hk. unfold sampleStart. rewrite Nat2Z.id.
    destruct (decide (k < c)%nat) as [Hlt|Hge].
    + rewrite lookup_app_l by lia. specialize (Hacc k Hlt).
      unfold sampleStart in Hacc. by rewrite Nat2Z.id in Hacc.
    + assert (k = c) as -> by lia.
      rewrite lookup_app_r by lia. by rewrite Hlen, Nat.sub_diag.
Qed.

End Place.

(** The sample positions laid out by [RandomizeChunks] are ordered, when
    the original chunks are and the sweep ends within [size_t]. *)
Lemma RandomizeChunks_starts_ordered (s s' : BlockRandomizer) :
  RandomizeChunks NDEBUG RAND_MAX crand s = Ok s' ->
  0 <= m_numChunks s < SIZE_MAX ->
  chunk_starts_ordered (m_chunkInformation s) (m_numChunks s) ->
  0 <= m_sweepStartInSamples s ->
  m_sweepStartInSamples s
    + (chunk_start (m_chunkInformation s) (m_numChunks s)
       - chunk_start (m_chunkInformation s) 0) <= SIZE_MAX ->
  starts_ordered (m_randomizedChunks s') (m_numChunks s).
Proof.
  unfold RandomizeChunks. intros H Hn Hci Hsweep Hend.
  apply bind_Ok_inv in H as ([indices g] & Hshuffle & H).
  apply bind_Ok_inv in H as ([[placed sp] sq] & Hplace & H).
  apply bind_Ok_inv in H as (chunks' & Hwin & H).
  apply bind_Ok_inv in H as (positions & _ & H).
  apply bind_Ok_inv in H as ([] & _ & H).
  simplify_eq. cbn.
  apply randomShuffle_Permutation in Hshuffle.
  pose proof (place_chunks_length _ _ _ _ _ _ _ _ _ _ Hplace) as Hlen. cbn in Hlen.
  assert (laid (m_chunkInformation s) indices (m_sweepStartInSamples s) 0
          = m_sweepStartInSamples s) as Hlaid0.
  { unfold laid, total. rewrite take_0. cbn. lia. }
  rewrite <- Hlaid0 in Hplace at 1.
  apply (place_chunks_laid _ _ _ _ Hshuffle Hn Hci (conj Hsweep Hend)
           _ 0%nat) in Hplace as [-> Hplaced]; [|lia|done|intros; lia].
  destruct (compute_windows_sampleStart _ _ _ _ _ _ Hwin) as [_ HS].
  assert (forall k, 0 <= k <= m_numChunks s ->
            sampleStart chunks' k
            = laid (m_chunkInformation s) indices (m_sweepStartInSamples s) (Z.to_nat k))
    as Hstart.
  { intros k Hk. rewrite HS.
    destruct (decide (k < m_numChunks s)) as [Hlt|Hge].
    - rewrite <- (Hplaced (Z.to_nat k)) by lia.
      unfold sampleStart. rewrite Nat2Z.id. by rewrite lookup_app_l by lia.
    - assert (k = m_numChunks s) as -> by lia.
      unfold sampleStart. rewrite lookup_app_r by lia.
      replace (Z.to_nat (m_numChunks s) - length placed)%nat with 0%nat by lia.
      done. }
  split; intros k Hk.
  - rewrite Hstart by lia.
    pose proof (laid_range _ _ _ _ Hshuffle Hn Hci (conj Hsweep Hend)
                  (Z.to_nat k) (Z.to_nat k) ltac:(lia)).
    unfold in_size_t. lia.
  - rewrite !Hstart by lia.
    pose proof (laid_range _ _ _ _ Hshuffle Hn Hci (conj Hsweep Hend)
                  (Z.to_nat k) (Z.to_nat (k + 1)) ltac:(lia)).
    lia.
Qed.

End Layout.

(** *** The length of the randomized timeline *)

(** [m_chunkInformation[k].sequencePositionStart]. *)
Definition sequence_start (ci : list ChunkInformation) (k : Z) : Z :=
  match ci !! Z.to_nat k with
  | Some c => sequencePositionStart c
  | None => 0
  end.

(** The number of sequences of the original chunk [o]. *)
Definition chunk_sequences (ci : list ChunkInformation) (o : Z) : Z :=
  sequence_start ci (o + 1) - sequence_start ci o.

(** The original chunks start at non-decreasing positions of the
    timeline and hold its [m_numSequences] sequences. *)
Definition sequences_laid_out (s : BlockRandomizer) : Prop :=
  0 <= m_numChunks s < SIZE_MAX
  /\ (forall k, 0 <= k < m_numChunks s ->
        sequence_start (m_chunkInformation s) k
        <= sequence_start (m_chunkInformation s) (k + 1))
  /\ sequence_start (m_chunkInformation s) (m_numChunks s)
     - sequence_start (m_chunkInformation s) 0 = m_numSequences s.

Lemma total_chunk_sequences ci (n : nat) : forall a,
  total (chunk_sequences ci) (seqZ a (Z.of_nat n))
  = sequence_start ci (a + Z.of_nat n) - sequence_start ci a.
Proof.
  induction n as [|n IH]; intros a.
  - change (Z.of_nat 0) with 0. rewrite seqZ_nil, Z.add_0_r by lia. cbn. lia.
  - rewrite Nat2Z.inj_succ, seqZ_cons by lia. cbn [total foldr].
    fold (total (chunk_sequences ci) (seqZ (Z.succ a) (Z.pred (Z.succ (Z.of_nat n))))).
    rewrite Z.pred_succ, IH. unfold chunk_sequences.
    replace (Z.succ a + Z.of_nat n) with (a + Z.succ (Z.of_nat n)) by lia.
    replace (Z.succ a) with (a + 1) by lia. lia.
Qed.

Lemma place_chunks_original ci indices (n : nat) : forall (c : nat) sp sq acc r sp' sq',
  length acc = c ->
  (forall k, (k < c)%nat -> originalChunkIndex <$> acc !! k = indices !! k) ->
  place_chunks ci indices n (Z.of_nat c) sp sq acc = Ok (r, sp', sq') ->
  forall k, (k < c + n)%nat -> originalChunkIndex <$> r !! k = indices !! k.
Proof.
  induction n as [|n IH]; intros c sp sq acc r sp' sq' Hlen Hacc H k Hk.
  - cbn in H. simplify_eq. apply Hacc. lia.
  - cbn [place_chunks] in H.
    apply bind_Ok_inv in H as (o & Ho & H).
    apply bind_Ok_inv in H as (next & _ & H).
    apply bind_Ok_inv in H as (this & _ & H).
    apply vec_at_Ok in Ho. rewrite Nat2Z.id in Ho.
    replace (Z.of_nat c + 1) with (Z.of_nat (S c)) in H by lia.
    eapply IH in H; [exact H|rewrite length_app; cbn; lia| |lia].
    intros k' Hk'. destruct (decide (k' < c)%nat) as [Hlt|Hge].
    + rewrite lookup_app_l by lia. by apply Hacc.
    + assert (k' = c) as -> by lia.
      rewrite lookup_app_r by lia. by rewrite Hlen, Nat.sub_diag, Ho.
Qed.

Lemma compute_windows_original numChunks half n : forall c chunks chunks',
  compute_windows n c numChunks half chunks = Ok chunks' ->
  forall k : nat, originalChunkIndex <$> chunks' !! k = originalChunkIndex <$> chunks !! k.
Proof.
  induction n as [|n IH]; intros c chunks chunks' H k.
  - simpl in H. by simplify_eq.
  - cbn [compute_windows] in H.
    apply bind_Ok_inv in H as (chunk & Hchunk & H).
    apply bind_Ok_inv in H as ([wb0 we0] & _ & H).
    apply bind_Ok_inv in H as (wb & _ & H).
    apply bind_Ok_inv in H as (we & _ & H).
    apply bind_Ok_inv in H as (chunks1 & Hset & H).
    apply vec_set_Ok in Hset as [Hlt ->]. apply vec_at_Ok in Hchunk.
    rewrite (IH _ _ _ H k).
    destruct (decide (k = Z.to_nat c)) as [->|Hne].
    + rewrite list_lookup_insert_eq by done. by rewrite Hchunk.
    + by rewrite list_lookup_insert_ne.
Qed.

Lemma copy_chunk_length (n : nat) : forall timeline sp c acc acc',
  copy_chunk n timeline sp c acc = Ok acc' -> length acc' = (length acc + n)%nat.
Proof.
  induction n as [|n IH]; intros timeline sp c acc acc' H.
  - cbn in H. simplify_eq. lia.
  - cbn [copy_chunk] in H.
    apply bind_Ok_inv in H as (d & _ & H).
    apply IH in H. rewrite length_app in H. cbn in H. lia.
Qed.

Lemma fill_randomTimeline_length timeline ci chunks indices numChunks (n : nat) :
  0 <= numChunks < SIZE_MAX ->
  (forall o, o ∈ indices -> 0 <= o < numChunks) ->
  (forall o, 0 <= o < numChunks -> 0 <= chunk_sequences ci o) ->
  (forall k : nat, (Z.of_nat k < numChunks) ->
     originalChunkIndex <$> chunks !! k = indices !! k) ->
  forall (c : nat) acc acc',
    Z.of_nat c + Z.of_nat n = numChunks ->
    length indices = Z.to_nat numChunks ->
    fill_randomTimeline n (Z.of_nat c) timeline ci chunks acc = Ok acc' ->
    Z.of_nat (length acc')
    = Z.of_nat (length acc) + total (chunk_sequences ci) (drop c indices).
Proof.
  intros Hn Hrange Hnonneg Horig.
  induction n as [|n IH]; intros c acc acc' Hc Hlen H.
  - cbn in H. simplify_eq. rewrite drop_ge by lia. cbn. lia.
  - cbn [fill_randomTimeline] in H.
    apply bind_Ok_inv in H as (chunk & Hchunk & H).
    apply bind_Ok_inv in H as (this & Hthis & H).
    apply bind_Ok_inv in H as (next & Hnext & H).
    apply bind_Ok_inv in H as (acc1 & Hcopy & H).
    apply vec_at_Ok in Hchunk, Hthis, Hnext. rewrite Nat2Z.id in Hchunk.
    pose proof (Horig c ltac:(lia)) as Ho. rewrite Hchunk in Ho. cbn in Ho.
    symmetry in Ho.
    assert (originalChunkIndex chunk ∈ indices) as Hin
      by (by eapply list_elem_of_lookup_2).
    pose proof (Hrange _ Hin) as Hr.
    rewrite size_t_id in Hnext by (unfold in_size_t; lia).
    assert (sequencePositionStart next - sequencePositionStart this
            = chunk_sequences ci (originalChunkIndex chunk)) as Hseq.
    { unfold chunk_sequences, sequence_start. by rewrite Hnext, Hthis. }
    rewrite Hseq in Hcopy. apply copy_chunk_length in Hcopy.
    replace (Z.of_nat c + 1) with (Z.of_nat (S c)) in H by lia.
    apply IH in H; [|lia|done].
    rewrite H, Hcopy. rewrite (drop_S _ _ _ Ho). cbn [total foldr].
    fold (total (chunk_sequences ci) (drop (S c) indices)).
    pose proof (Hnonneg _ Hr). lia.
Qed.

Section Length.

Variable NDEBUG : bool.
Variable RAND_MAX : Z.
Variable crand : Z -> nat -> Z.

(** What [RandomizeChunks] keeps, and the original chunks of the chunks it
    lays out: a permutation of [0 .. numChunks - 1]. *)
Lemma RandomizeChunks_original (s s1 : BlockRandomizer) :
  RandomizeChunks NDEBUG RAND_MAX crand s = Ok s1 ->
  m_chunkInformation s1 = m_chunkInformation s
  /\ m_numChunks s1 = m_numChunks s
  /\ m_numSequences s1 = m_numSequences s
  /\ m_deserializer s1 = m_deserializer s
  /\ exists indices,
       indices ≡ₚ seqZ 0 (m_numChunks s)
       /\ forall k : nat, Z.of_nat k < m_numChunks s ->
            originalChunkIndex <$> m_randomizedChunks s1 !! k = indices !! k.
Proof.
  unfold RandomizeChunks. intros H.
  apply bind_Ok_inv in H as ([indices g] & Hshuffle & H).
  apply bind_Ok_inv in H as ([[placed sp] sq] & Hplace & H).
  apply bind_Ok_inv in H as (chunks' & Hwin & H).
  apply bind_Ok_inv in H as (positions & _ & H).
  apply bind_Ok_inv in H as ([] & _ & H).
  simplify_eq. cbn. do 4 (split; [done|]).
  exists indices. split; [by eapply randomShuffle_Permutation|].
  intros k Hk. rewrite (compute_windows_original _ _ _ _ _ _ Hwin k).
  pose proof (place_chunks_length _ _ _ _ _ _ _ _ _ _ Hplace) as Hlen. cbn in Hlen.
  rewrite lookup_app_l by lia.
  apply (place_chunks_original _ _ _ 0%nat _ _ [] _ _ _ eq_refl
           ltac:(intros; lia) Hplace). lia.
Qed.

End Length.

Section RandomizedTimeline.

Variable NDEBUG : bool.
Variable RAND_MAX : Z.
Variable crand : Z -> nat -> Z.
Variable patience : nat.

(** The timeline set up by chunks has one position per sequence. *)
Lemma fill_randomTimeline_numSequences (s s1 : BlockRandomizer) timeline tl :
  RandomizeChunks NDEBUG RAND_MAX crand s = Ok s1 ->
  fill_randomTimeline (Z.to_nat (m_numChunks s1)) 0 timeline
    (m_chunkInformation s1) (m_randomizedChunks s1) [] = Ok tl ->
  sequences_laid_out s ->
  Z.of_nat (length tl) = m_numSequences s.
Proof.
  intros Hchunks Hfill (Hn & Hordered & Htotal).
  destruct (RandomizeChunks_original _ _ _ _ _ Hchunks)
    as (Hci & HnumChunks & _ & _ & indices & Hperm & Horig).
  rewrite Hci, HnumChunks in Hfill.
  assert (length indices = Z.to_nat (m_numChunks s)) as Hlen.
  { rewrite (Permutation_length Hperm), length_seqZ. done. }
  apply (fill_randomTimeline_length _ _ _ indices (m_numChunks s) _ Hn) with (c := 0%nat)
    in Hfill.
  - rewrite Hfill, drop_0, (total_Permutation _ _ _ Hperm). cbn [length].
    rewrite <- (Z2Nat.id (m_numChunks s)) at 1 by lia.
    rewrite total_chunk_sequences, Z2Nat.id by lia.
    change (Z.of_nat 0) with 0. rewrite !Z.add_0_l. exact Htotal.
  - intros o Ho. rewrite Hperm, elem_of_seqZ in Ho. lia.
  - intros o Ho. unfold chunk_sequences. specialize (Hordered o Ho). lia.
  - exact Horig.
  - lia.
  - exact Hlen.
Qed.

(** C1. After [Randomize] has returned, every position of the randomized
    timeline holds a sequence whose (rewritten) chunk id lies in the window
    of the position's chunk: [IsValidForPosition(i, m_randomTimeline[i])]
    at every [i]. The proof is the invariant of the shuffle loop, not the
    final check. The timeline has [m_numSequences] positions, in a build
    with assertions and whenever the original chunks partition the
    sequences. *)
Theorem Randomize_locality (s s' : BlockRandomizer) :
  Randomize NDEBUG RAND_MAX crand patience s = Ok s' ->
  (forall i : Z,
      0 <= i < Z.of_nat (length (m_randomTimeline s')) ->
      exists d, vec_at (m_randomTimeline s') i = Ok d
                /\ IsValidForPosition s' i d = Ok true)
  /\ (NDEBUG = false \/ sequences_laid_out s ->
      Z.of_nat (length (m_randomTimeline s')) = m_numSequences s').
Proof.
  unfold Randomize. intros H.
  apply bind_Ok_inv in H as (s1 & Hchunks & H).
  apply bind_Ok_inv in H as (tl & Hfill & H).
  apply bind_Ok_inv in H as ([] & Hsize & H).
  apply bind_Ok_inv in H as ([] & _ & H).
  apply bind_Ok_inv in H as ([tl' g] & Hshuffle & H).
  apply bind_Ok_inv in H as ([] & _ & H).
  simplify_eq. cbn.
  apply (shuffle_timeline_valid RAND_MAX crand patience _ 0%nat) in Hshuffle as [Hvalid Hlen];
    [|intros p d Hp; lia].
  split.
  - intros i Hi.
    destruct (lookup_lt_is_Some_2 tl' (Z.to_nat i) ltac:(lia)) as [d Hd].
    exists d. split; [by apply vec_at_Ok|].
    rewrite (IsValidForPosition_to_nat _ _ (Z.of_nat (Z.to_nat i))) by lia.
    change (IsValidForPosition s1 (Z.of_nat (Z.to_nat i)) d = Ok true).
    apply Hvalid; [lia|done].
  - rewrite Hlen. intros [HNDEBUG|Hlaid].
    + rewrite HNDEBUG in Hsize. unfold assert in Hsize.
      destruct (Z.of_nat (length tl) =? m_numSequences s1) eqn:E; [|done].
      by apply Z.eqb_eq in E.
    + destruct (RandomizeChunks_original _ _ _ _ _ Hchunks) as (_ & _ & -> & _).
      by eapply fill_randomTimeline_numSequences.
Qed.

End RandomizedTimeline.

Section Windows.

Variable NDEBUG : bool.
Variable RAND_MAX : Z.
Variable crand : Z -> nat -> Z.

(** C2 (as amended). For the chunks [RandomizeChunks] has laid out, with
    [half = randomizationRangeInSamples / 2]: [windowbegin(c)] is the
    smallest index [b <= c] with [sampleStart(c) - sampleStart(b) <= half];
    [windowend(c)] is the exclusive bound where the loop stops, the first
    index [e] from 1 (for chunk 0) or from [windowend(c-1)] on with
    [e = numChunks] or [sampleStart(e+1) - sampleStart(c) >= half]; and
    both bounds are non-decreasing in [c]. *)
Theorem RandomizeChunks_windows (s s' : BlockRandomizer) :
  RandomizeChunks NDEBUG RAND_MAX crand s = Ok s' ->
  0 <= m_randomizationRangeInSamples s ->
  0 <= m_numChunks s < SIZE_MAX ->
  chunk_starts_ordered (m_chunkInformation s) (m_numChunks s) ->
  0 <= m_sweepStartInSamples s ->
  m_sweepStartInSamples s
    + (chunk_start (m_chunkInformation s) (m_numChunks s)
       - chunk_start (m_chunkInformation s) 0) <= SIZE_MAX ->
  forall c, 0 <= c < m_numChunks s ->
    window_spec (m_randomizedChunks s') (m_numChunks s)
      (m_randomizationRangeInSamples s / 2) c.
Proof.
  intros H HW Hn Hci Hsweep Hend.
  pose proof (RandomizeChunks_starts_ordered NDEBUG RAND_MAX crand s s'
                H Hn Hci Hsweep Hend) as Hord.
  unfold RandomizeChunks in H.
  apply bind_Ok_inv in H as ([indices g] & _ & H).
  apply bind_Ok_inv in H as ([[placed sp] sq] & Hplace & H).
  apply bind_Ok_inv in H as (chunks' & Hwin & H).
  apply bind_Ok_inv in H as (positions & _ & H).
  apply bind_Ok_inv in H as ([] & _ & H).
  simplify_eq. cbn in Hord |- *.
  apply place_chunks_length in Hplace. simpl in Hplace.
  destruct (compute_windows_sampleStart _ _ _ _ _ _ Hwin) as [Hlen HS].
  edestruct (compute_windows_spec (m_numChunks s) (m_randomizationRangeInSamples s / 2)
               ltac:(lia) ltac:(by apply Z.div_pos)
               (Z.to_nat (m_numChunks s)) 0) as (chunks'' & Hwin' & Hdone & _).
  - destruct Hord as [Hr Hm].
    split; intros k Hk; rewrite <- !HS; auto.
  - rewrite length_app. simpl. lia.
  - lia.
  - lia.
  - intros c' Hc'. lia.
  - rewrite Hwin in Hwin'. simplify_eq. exact Hdone.
Qed.

End Windows.

(** ** Requiring and releasing chunks *)

Definition originalChunkIndex_of (chunks : list RandomizedChunk) (k : Z) : Z :=
  match chunks !! Z.to_nat k with
  | Some ch => originalChunkIndex ch
  | None => 0
  end.

(** The chunk of a position in the sweep: [m_sequencePositionToChunkIndex[i]]. *)
Definition chunkOf (s : BlockRandomizer) (i : Z) : Z :=
  match m_sequencePositionToChunkIndex s !! Z.to_nat i with
  | Some c => c
  | None => 0
  end.

(** The call made for the randomized chunk [k] under the window
    [[wb, we)]. *)
Definition chunk_call (chunks : list RandomizedChunk) (wb we k : Z) : DeserializerCall :=
  if (wb <=? k) && (k <? we)
  then RequireChunk (originalChunkIndex_of chunks k)
  else ReleaseChunk (originalChunkIndex_of chunks k).

Lemma require_release_calls chunks wb we n : forall k d d',
  0 <= k ->
  require_release n k chunks wb we d = Ok d' ->
  calls d' = calls d ++ map (chunk_call chunks wb we) (seqZ k (Z.of_nat n))
  /\ GetSequenceDescriptions d' = GetSequenceDescriptions d.
Proof.
  induction n as [|n IH]; intros k d d' Hk H.
  - simpl in H. simplify_eq. simpl. by rewrite app_nil_r.
  - cbn [require_release] in H.
    apply bind_Ok_inv in H as (chunk & Hchunk & H).
    apply IH in H as [Hcalls Hsame]; [|lia].
    rewrite Nat2Z.inj_succ, seqZ_cons by lia.
    replace (Z.pred (Z.succ (Z.of_nat n))) with (Z.of_nat n) by lia.
    replace (Z.succ k) with (k + 1) by lia.
    apply vec_at_Ok in Hchunk.
    assert (originalChunkIndex chunk = originalChunkIndex_of chunks k) as Ho
      by (unfold originalChunkIndex_of; by rewrite Hchunk).
    rewrite Ho in Hcalls, Hsame.
    cbn [map]. unfold chunk_call at 1.
    destruct ((wb <=? k) && (k <? we)); cbn in Hcalls, Hsame;
      rewrite Hcalls, <- app_assoc; done.
Qed.

Section ChunkCalls.

Variable NDEBUG : bool.
Variable RAND_MAX : Z.
Variable crand : Z -> nat -> Z.
Variable patience : nat.

(** C4. A [GetNextSequences] call that returns has selected its batch of
    ids; when the batch is empty it makes no call on the deserializer, and
    otherwise it makes, for [k = 0, ..., numChunks - 1] in this order, the
    call [RequireChunk] on the original index of randomized chunk [k] when
    [windowbegin(chunkOf(firstId)) <= k < windowend(chunkOf(lastId))] and
    [ReleaseChunk] on it when not, and then requests the data. *)
Theorem GetNextSequences_chunk_calls (fuel : nat) (count : Z)
    (s s' : BlockRandomizer) (result : Sequences) :
  GetNextSequences NDEBUG RAND_MAX crand patience fuel count s = Ok (result, s') ->
  exists selected endOfEpoch s1,
    select_ids NDEBUG RAND_MAX crand patience fuel (Z.to_nat count) s
      = Ok (selected, endOfEpoch, s1)
    /\ m_endOfEpoch result = endOfEpoch
    /\ (selected = [] -> s' = s1)
    /\ forall firstId lastId,
         head selected.*1 = Some firstId -> last selected.*1 = Some lastId ->
         let chunks := m_randomizedChunks s1 in
         let wb := windowbegin_of chunks (chunkOf s1 firstId) in
         let we := windowend_of chunks (chunkOf s1 lastId) in
         calls (m_deserializer s')
         = calls (m_deserializer s1)
           ++ map (chunk_call chunks wb we) (seqZ 0 (m_numChunks s1))
           ++ [GetSequencesById (m_data result)].
Proof.
  unfold GetNextSequences. intros H.
  apply bind_Ok_inv in H as ([] & _ & H).
  apply bind_Ok_inv in H as ([[selected endOfEpoch] s1] & Hsel & H).
  exists selected, endOfEpoch, s1. split; [done|].
  destruct (selected.*1) as [|ids0 ids] eqn:Hids.
  - simplify_eq. cbn. split; [done|]. split; [done|]. intros ? ? [=].
  - apply bind_Ok_inv in H as (c0 & Hc0 & H).
    apply bind_Ok_inv in H as (chunk0 & Hchunk0 & H).
    apply bind_Ok_inv in H as (idsback & Hback & H).
    apply bind_Ok_inv in H as (c1 & Hc1 & H).
    apply bind_Ok_inv in H as (chunk1 & Hchunk1 & H).
    apply bind_Ok_inv in H as (d & Hd & H).
    apply bind_Ok_inv in H as (originalIds & _ & H).
    simplify_eq. cbn [m_endOfEpoch m_data].
    split; [done|]. split; [by destruct selected|].
    intros firstId lastId [= <-] Hlast.
    unfold vec_back in Hback. rewrite Hlast in Hback. simplify_eq.
    apply vec_at_Ok in Hc0, Hc1, Hchunk0, Hchunk1.
    cbn zeta. unfold chunkOf. rewrite Hc0, Hc1.
    unfold windowbegin_of, windowend_of. rewrite Hchunk0, Hchunk1.
    apply require_release_calls in Hd as [Hcalls _]; [|lia].
    cbn. rewrite Hcalls, <- app_assoc.
    destruct (decide (0 <= m_numChunks s1)).
    + by rewrite Z2Nat.id.
    + replace (Z.to_nat (m_numChunks s1)) with 0%nat by lia.
      rewrite (seqZ_nil 0 (m_numChunks s1)) by lia. done.
Qed.

End ChunkCalls.

(** ** Distribution over workers *)

Definition omap {A B : Type} (f : A -> B) (m : outcome A) : outcome B :=
  a <- m;; Ok (f a).

Lemma bind_ext {A B : Type} (m : outcome A) (k1 k2 : A -> outcome B) :
  (forall a, k1 a = k2 a) -> bind m k1 = bind m k2.
Proof. intros H. destruct m; simpl; auto. Qed.

Lemma omap_bind {A B C : Type} (f : B -> C) (m : outcome A) (k : A -> outcome B) :
  omap f (bind m k) = bind m (fun a => omap f (k a)).
Proof. by destruct m. Qed.

(** The object with another rank and worker count. *)
Definition with_worker (r N : Z) (s : BlockRandomizer) : BlockRandomizer :=
  set_m_numberOfWorkers N (set_m_workerRank r s).

Definition as_worker (r N : Z) (config : EpochConfiguration) : EpochConfiguration :=
  {| workerRank := r; numberOfWorkers := N;
     minibatchSize := minibatchSize config;
     totalSize := totalSize config;
     index := index config |}.

(** Two objects with the same randomized chunks and position table. *)
Definition same_tables (s s' : BlockRandomizer) : Prop :=
  m_randomizedChunks s = m_randomizedChunks s'
  /\ m_sequencePositionToChunkIndex s = m_sequencePositionToChunkIndex s'.

Lemma IsValidForPosition_same s s' i d :
  same_tables s s' -> IsValidForPosition s i d = IsValidForPosition s' i d.
Proof. intros [H1 H2]. unfold IsValidForPosition. by rewrite H1, H2. Qed.

Lemma verify_timeline_same s s' tl n : forall i,
  same_tables s s' -> verify_timeline n i s tl = verify_timeline n i s' tl.
Proof.
  induction n as [|n IH]; intros i Hs; [done|]. cbn [verify_timeline].
  apply bind_ext. intros d. rewrite (IsValidForPosition_same s s') by done.
  apply bind_ext. intros v. destruct v; cbn [negb]; auto.
Qed.

Lemma assert_positions_same s s' tl n : forall i,
  same_tables s s' -> assert_positions n i s tl = assert_positions n i s' tl.
Proof.
  induction n as [|n IH]; intros i Hs; [done|]. cbn [assert_positions].
  apply bind_ext. intros d. rewrite (IsValidForPosition_same s s') by done.
  apply bind_ext. intros v. destruct v; cbn [negb]; auto.
Qed.

Section Workers.

Variable NDEBUG : bool.
Variable RAND_MAX : Z.
Variable crand : Z -> nat -> Z.
Variable patience : nat.

Local Abbreviation Randomize := (Randomize NDEBUG RAND_MAX crand patience).
Local Abbreviation RandomizeChunks := (RandomizeChunks NDEBUG RAND_MAX crand).
Local Abbreviation RandomizeIfNewSweepIsEntered :=
  (RandomizeIfNewSweepIsEntered NDEBUG RAND_MAX crand patience).
Local Abbreviation RandomizeForGlobalSamplePosition :=
  (RandomizeForGlobalSamplePosition NDEBUG RAND_MAX crand patience).
Local Abbreviation StartEpoch := (StartEpoch NDEBUG RAND_MAX crand patience).
Local Abbreviation AdvanceToNextPositionForThisWorker :=
  (AdvanceToNextPositionForThisWorker NDEBUG RAND_MAX crand patience).
Local Abbreviation select_ids := (select_ids NDEBUG RAND_MAX crand patience).

Lemma pick_same s s' tl i posbegin posend fuel : forall g,
  same_tables s s' ->
  pick RAND_MAX crand fuel s tl i posbegin posend g
  = pick RAND_MAX crand fuel s' tl i posbegin posend g.
Proof.
  induction fuel as [|fuel IH]; intros g Hs; [done|]. cbn [pick].
  apply bind_ext. intros [j g1]. apply bind_ext. intros dj.
  rewrite (IsValidForPosition_same s s') by done.
  apply bind_ext. intros vj. destruct vj; cbn [negb]; [|by apply IH].
  apply bind_ext. intros di.
  rewrite (IsValidForPosition_same s s') by done.
  apply bind_ext. intros vi. destruct vi; cbn [negb]; [done|by apply IH].
Qed.

Lemma shuffle_timeline_same s s' n : forall i tl g,
  same_tables s s' ->
  shuffle_timeline RAND_MAX crand patience n i s tl g
  = shuffle_timeline RAND_MAX crand patience n i s' tl g.
Proof.
  induction n as [|n IH]; intros i tl g Hs; [done|]. cbn [shuffle_timeline].
  destruct Hs as [H1 H2]. rewrite H1, H2.
  do 4 (apply bind_ext; intros ?).
  rewrite (pick_same s s') by done.
  apply bind_ext. intros [tl' g']. by apply IH.
Qed.

(** The randomization does not read the rank or the worker count, and
    does not write them. *)
Lemma RandomizeChunks_worker r N s :
  RandomizeChunks (with_worker r N s) = omap (with_worker r N) (RandomizeChunks s).
Proof.
  unfold RandomizeChunks. rewrite ?omap_bind.
  apply bind_ext. intros [indices g]. rewrite ?omap_bind.
  apply bind_ext. intros [[chunks sp] sq]. rewrite ?omap_bind.
  apply bind_ext. intros chunks'. rewrite ?omap_bind.
  apply bind_ext. intros positions. rewrite ?omap_bind.
  apply bind_ext. intros []. reflexivity.
Qed.

Lemma Randomize_worker r N s :
  Randomize (with_worker r N s) = omap (with_worker r N) (Randomize s).
Proof.
  unfold BR.Randomize. rewrite RandomizeChunks_worker.
  unfold omap at 1. rewrite omap_bind.
  destruct (RandomizeChunks s) as [s1| | | | |]; try reflexivity. cbn [bind].
  rewrite ?omap_bind. apply bind_ext. intros tl. rewrite ?omap_bind.
  apply bind_ext. intros []. rewrite ?omap_bind.
  rewrite (assert_positions_same (with_worker r N s1) s1) by done.
  apply bind_ext. intros []. rewrite ?omap_bind.
  rewrite (shuffle_timeline_same (with_worker r N s1) s1) by done.
  apply bind_ext. intros [tl' g]. rewrite ?omap_bind.
  rewrite (verify_timeline_same (with_worker r N s1) s1) by done.
  apply bind_ext. intros []. reflexivity.
Qed.

Lemma RandomizeIfNewSweepIsEntered_worker r N s :
  RandomizeIfNewSweepIsEntered (with_worker r N s)
  = omap (with_worker r N) (RandomizeIfNewSweepIsEntered s).
Proof.
  unfold BR.RandomizeIfNewSweepIsEntered.
  change (m_numSequences (with_worker r N s)) with (m_numSequences s).
  change (m_sequencePositionInSweep (with_worker r N s))
    with (m_sequencePositionInSweep s).
  destruct (m_numSequences s <=? m_sequencePositionInSweep s); [|reflexivity].
  cbn zeta.
  change (set_m_sweepStartInSamples _ (set_m_sweep _ (with_worker r N s)))
    with (with_worker r N
            (set_m_sweepStartInSamples
               (size_t (m_sweepStartInSamples s + m_numSamples s))
               (set_m_sweep (size_t (m_sweep s + 1)) s))).
  rewrite Randomize_worker. unfold omap. 
  destruct (Randomize _); reflexivity.
Qed.

Lemma RandomizeForGlobalSamplePosition_worker r N p s :
  RandomizeForGlobalSamplePosition p (with_worker r N s)
  = omap (with_worker r N) (RandomizeForGlobalSamplePosition p s).
Proof.
  unfold BR.RandomizeForGlobalSamplePosition.
  change (m_numSamples (with_worker r N s)) with (m_numSamples s).
  change (m_sweep (with_worker r N s)) with (m_sweep s).
  destruct (m_numSamples s =? 0); [reflexivity|]. cbn zeta.
  destruct (negb (m_sweep s =? p / m_numSamples s)).
  - change (set_m_sweepStartInSamples ?a (set_m_sweep ?b (with_worker r N s)))
      with (with_worker r N (set_m_sweepStartInSamples a (set_m_sweep b s))).
    rewrite Randomize_worker. unfold omap.
    destruct (Randomize _); reflexivity.
  - reflexivity.
Qed.

Lemma StartEpoch_worker r N config s :
  StartEpoch (as_worker r N config) s
  = omap (with_worker r N) (StartEpoch config s).
Proof.
  unfold BR.StartEpoch. cbn zeta. rewrite ?omap_bind.
  apply bind_ext. intros []. rewrite ?omap_bind.
  apply bind_ext. intros [].
  rewrite <- RandomizeForGlobalSamplePosition_worker. reflexivity.
Qed.

(** *** The positions an epoch visits *)

Definition ended (s : BlockRandomizer) : Prop :=
  (m_samplePositionInEpoch s <? m_epochSize s) = false.

(** [path s tr s']: from [s] the cursor moves past the positions [tr], one
    after the other, whatever the worker; each entry is the position in its
    sweep and the description read there. *)
Inductive path : BlockRandomizer -> list (Z * SequenceDescription) ->
                 BlockRandomizer -> Prop :=
  | path_nil s : path s [] s
  | path_step s s1 d tr s' :
      (m_samplePositionInEpoch s <? m_epochSize s) = true ->
      RandomizeIfNewSweepIsEntered s = Ok s1 ->
      assert NDEBUG (m_sequencePositionInSweep s1 <? m_numSequences s1) = Ok tt ->
      vec_at (m_randomTimeline s1) (m_sequencePositionInSweep s1) = Ok d ->
      path (move_past d s1) tr s' ->
      path s ((m_sequencePositionInSweep s1, d) :: tr) s'.

Lemma path_app a t1 b t2 c : path a t1 b -> path b t2 c -> path a (t1 ++ t2) c.
Proof.
  induction 1 as [|s s1 d tr s' H1 H2 H3 H4 _ IH]; intros Hbc; [done|].
  simpl. eapply path_step; eauto.
Qed.

(** The selections of an epoch: the calls of the selection loop of
    [GetNextSequences], [count] ids each, up to the call that reports the
    end of the epoch. [epoch_from n] starts inside a call with [n] ids
    still to find. *)
Inductive epoch_from (fuel count : nat) : nat -> BlockRandomizer ->
    list (Z * SequenceDescription) -> BlockRandomizer -> Prop :=
  | epoch_last n s ids s' :
      select_ids fuel n s = Ok (ids, true, s') ->
      epoch_from fuel count n s ids s'
  | epoch_more n s ids s1 rest s' :
      select_ids fuel n s = Ok (ids, false, s1) ->
      epoch_from fuel count count s1 rest s' ->
      epoch_from fuel count n s (ids ++ rest) s'.

Definition epoch (fuel count : nat) :=
  epoch_from fuel count count.

(** The sequences of worker [r] of [N]. *)
Definition belongs (N r : Z) (x : Z * SequenceDescription) : bool :=
  chunkId x.2 mod N =? r.

Lemma Randomize_cursor s s' :
  Randomize s = Ok s' ->
  m_samplePositionInEpoch s' = m_samplePositionInEpoch s
  /\ m_epochSize s' = m_epochSize s.
Proof.
  unfold BR.Randomize, BR.RandomizeChunks. intros H.
  apply bind_Ok_inv in H as (s1 & Hchunks & H).
  apply bind_Ok_inv in Hchunks as ([indices g] & _ & Hchunks).
  apply bind_Ok_inv in Hchunks as ([[chunks sp] sq] & _ & Hchunks).
  apply bind_Ok_inv in Hchunks as (chunks' & _ & Hchunks).
  apply bind_Ok_inv in Hchunks as (positions & _ & Hchunks).
  apply bind_Ok_inv in Hchunks as ([] & _ & Hchunks).
  apply bind_Ok_inv in H as (tl & _ & H).
  apply bind_Ok_inv in H as ([] & _ & H).
  apply bind_Ok_inv in H as ([] & _ & H).
  apply bind_Ok_inv in H as ([tl' g'] & _ & H).
  apply bind_Ok_inv in H as ([] & _ & H).
  by simplify_eq.
Qed.

Lemma RandomizeIfNewSweepIsEntered_cursor s s' :
  RandomizeIfNewSweepIsEntered s = Ok s' ->
  m_samplePositionInEpoch s' = m_samplePositionInEpoch s
  /\ m_epochSize s' = m_epochSize s.
Proof.
  unfold BR.RandomizeIfNewSweepIsEntered.
  destruct (m_numSequences s <=? m_sequencePositionInSweep s);
    [|intros; by simplify_eq].
  cbn zeta. intros H. apply bind_Ok_inv in H as (s3 & H3 & H).
  apply Randomize_cursor in H3 as [H1 H2]. by simplify_eq.
Qed.

(** *** Fuel *)

Lemma Advance_mono fuel : forall fuel' s v,
  (fuel <= fuel')%nat ->
  AdvanceToNextPositionForThisWorker fuel s = Ok v ->
  AdvanceToNextPositionForThisWorker fuel' s = Ok v.
Proof.
  induction fuel as [|fuel IH]; intros fuel' s v Hle H; [done|].
  destruct fuel' as [|fuel']; [lia|].
  cbn [BR.AdvanceToNextPositionForThisWorker] in H |- *.
  destruct (m_samplePositionInEpoch s <? m_epochSize s); [|done].
  destruct (RandomizeIfNewSweepIsEntered s) as [s1| | | | |]; try done.
  cbn [bind] in H |- *.
  destruct (vec_at (m_randomTimeline s1) (m_sequencePositionInSweep s1))
    as [d| | | | |]; try done.
  cbn [bind] in H |- *.
  destruct (m_numberOfWorkers s1 =? 0); [done|].
  destruct (chunkId d mod m_numberOfWorkers s1 =? m_workerRank s1); [done|].
  apply IH; [lia|done].
Qed.

Lemma select_ids_mono fuel fuel' n : forall s v,
  (fuel <= fuel')%nat ->
  select_ids fuel n s = Ok v -> select_ids fuel' n s = Ok v.
Proof.
  induction n as [|n IH]; intros s v Hle H; [done|].
  cbn [BR.select_ids] in H |- *.
  apply bind_Ok_inv in H as ([e s1] & Hadv & H).
  rewrite (Advance_mono _ _ _ _ Hle Hadv). cbn [bind].
  destruct e; [done|].
  apply bind_Ok_inv in H as ([] & -> & H). cbn [bind].
  apply bind_Ok_inv in H as (d & -> & H). cbn [bind].
  apply bind_Ok_inv in H as ([[ids e'] s2] & Hsel & H).
  by rewrite (IH _ _ Hle Hsel).
Qed.

Lemma epoch_from_mono fuel fuel' count n s out s' :
  (fuel <= fuel')%nat ->
  epoch_from fuel count n s out s' -> epoch_from fuel' count n s out s'.
Proof.
  intros Hle. induction 1 as [n s ids s' H|n s ids s1 rest s' H _ IH].
  - apply epoch_last. by eapply select_ids_mono.
  - eapply epoch_more; [by eapply select_ids_mono|done].
Qed.

(** *** One worker along the path *)

Section OneWorker.

Variables (r N : Z).
Hypothesis HN : N <> 0.

Lemma Advance_end fuel x :
  ended x ->
  AdvanceToNextPositionForThisWorker (S fuel) (with_worker r N x)
  = Ok (true, with_worker r N x).
Proof.
  unfold ended. intros H. cbn [BR.AdvanceToNextPositionForThisWorker].
  change (m_samplePositionInEpoch (with_worker r N x)) with (m_samplePositionInEpoch x).
  change (m_epochSize (with_worker r N x)) with (m_epochSize x).
  rewrite H. do 2 f_equal. apply Z.ltb_ge in H. by apply Z.leb_le.
Qed.

Lemma Advance_visit fuel x x1 d :
  (m_samplePositionInEpoch x <? m_epochSize x) = true ->
  RandomizeIfNewSweepIsEntered x = Ok x1 ->
  vec_at (m_randomTimeline x1) (m_sequencePositionInSweep x1) = Ok d ->
  AdvanceToNextPositionForThisWorker (S fuel) (with_worker r N x)
  = if belongs N r (m_sequencePositionInSweep x1, d)
    then Ok (false, with_worker r N x1)
    else AdvanceToNextPositionForThisWorker fuel
           (with_worker r N (move_past d x1)).
Proof.
  intros Hlt Hrand Hd. cbn [BR.AdvanceToNextPositionForThisWorker].
  change (m_samplePositionInEpoch (with_worker r N x)) with (m_samplePositionInEpoch x).
  change (m_epochSize (with_worker r N x)) with (m_epochSize x).
  rewrite Hlt, RandomizeIfNewSweepIsEntered_worker, Hrand. cbn [omap bind].
  change (m_randomTimeline (with_worker r N x1)) with (m_randomTimeline x1).
  change (m_sequencePositionInSweep (with_worker r N x1))
    with (m_sequencePositionInSweep x1).
  rewrite Hd. cbn [bind].
  change (m_numberOfWorkers (with_worker r N x1)) with N.
  change (m_workerRank (with_worker r N x1)) with r.
  rewrite (proj2 (Z.eqb_neq N 0) HN).
  unfold belongs. cbn [snd].
  destruct (chunkId d mod N =? r); [|reflexivity].
  do 2 f_equal.
  change (m_epochSize (with_worker r N x1)) with (m_epochSize x1).
  change (m_samplePositionInEpoch (with_worker r N x1))
    with (m_samplePositionInEpoch x1).
  destruct (RandomizeIfNewSweepIsEntered_cursor _ _ Hrand) as [-> ->].
  apply Z.ltb_lt in Hlt. apply Z.leb_gt. done.
Qed.

Lemma epoch_from_zero fuel count x out x' :
  epoch_from fuel count count x out x' -> epoch_from fuel count 0 x out x'.
Proof. intros H. by apply (epoch_more fuel count 0%nat x [] x out x'). Qed.

Lemma epoch_from_end fuel count n x :
  (1 <= count)%nat -> ended x ->
  epoch_from (S fuel) count n (with_worker r N x) [] (with_worker r N x).
Proof.
  intros Hcount Hend.
  assert (forall n', epoch_from (S fuel) count (S n') (with_worker r N x) []
                       (with_worker r N x)) as Hpos.
  { intros n'. apply epoch_last. cbn [BR.select_ids].
    by rewrite Advance_end. }
  destruct n as [|n']; [|done].
  apply epoch_from_zero. destruct count; [lia|done].
Qed.

(** A worker that follows the path to the end of the epoch selects the
    positions of the path that belong to it, and nothing else. *)
Lemma worker_follows_path count x tr x' :
  (1 <= count)%nat -> path x tr x' -> ended x' ->
  forall n, exists fuel,
    epoch_from fuel count n (with_worker r N x) (filter (belongs N r) tr)
      (with_worker r N x').
Proof.
  intros Hcount Hpath.
  induction Hpath as [x|x x1 d tr x' Hlt Hrand Hassert Hd _ IH]; intros Hend n.
  - exists 1%nat. by apply epoch_from_end.
  - specialize (IH Hend).
    assert (forall n', exists fuel,
              epoch_from fuel count (S n') (with_worker r N x)
                (filter (belongs N r) ((m_sequencePositionInSweep x1, d) :: tr))
                (with_worker r N x')) as Hpos.
    { intros n'. rewrite filter_cons.
      destruct (belongs N r (m_sequencePositionInSweep x1, d)) eqn:Hb.
      - rewrite decide_True by done.
        destruct (IH n') as [fuel E].
        apply (epoch_from_mono fuel (S fuel)) in E; [|lia].
        exists (S fuel).
        assert (forall ids e s2,
                  select_ids (S fuel) n' (with_worker r N (move_past d x1))
                    = Ok (ids, e, s2) ->
                  select_ids (S fuel) (S n') (with_worker r N x)
                    = Ok ((m_sequencePositionInSweep x1, d) :: ids, e, s2)) as Hsel.
        { intros ids e s2 Hsel. cbn [BR.select_ids].
          rewrite (Advance_visit fuel x x1 d Hlt Hrand Hd), Hb. cbn [bind].
          change (m_sequencePositionInSweep (with_worker r N x1))
            with (m_sequencePositionInSweep x1).
          change (m_numSequences (with_worker r N x1)) with (m_numSequences x1).
          change (m_randomTimeline (with_worker r N x1)) with (m_randomTimeline x1).
          rewrite Hassert, Hd. cbn [bind].
          change (move_past d (with_worker r N x1))
            with (with_worker r N (move_past d x1)).
          by rewrite Hsel. }
        inversion E as [? ? ids ? Hs|? ? ids s2 rest ? Hs Hrest]; subst.
        + apply epoch_last. by apply Hsel.
        + rewrite app_comm_cons. eapply epoch_more; [by apply Hsel|done].
      - rewrite decide_False by (by intros []).
        destruct (IH (S n')) as [fuel E]. exists (S fuel).
        assert (exists a, AdvanceToNextPositionForThisWorker fuel
                            (with_worker r N (move_past d x1)) = Ok a) as [a Ha].
        { inversion E as [? ? ids ? Hs|? ? ids s2 rest ? Hs Hrest]; subst;
            cbn [BR.select_ids] in Hs;
            apply bind_Ok_inv in Hs as (a & Ha & _); eauto. }
        apply (epoch_from_mono fuel (S fuel)) in E; [|lia].
        assert (select_ids (S fuel) (S n') (with_worker r N x)
                = select_ids (S fuel) (S n') (with_worker r N (move_past d x1)))
          as Hsame.
        { cbn [BR.select_ids].
          rewrite (Advance_visit fuel x x1 d Hlt Hrand Hd), Hb, Ha.
          by rewrite (Advance_mono fuel (S fuel) _ _ ltac:(lia) Ha). }
        inversion E as [? ? ids ? Hs|? ? ids s2 rest ? Hs Hrest]; subst.
        + apply epoch_last. by rewrite Hsame.
        + eapply epoch_more; [by rewrite Hsame|done]. }
    destruct n as [|n']; [|by apply Hpos].
    destruct count as [|c]; [lia|].
    destruct (Hpos c) as [fuel E]. exists fuel. by apply epoch_from_zero.
Qed.

End OneWorker.

(** *** The single worker visits every position *)

Lemma Advance_single fuel x e y :
  AdvanceToNextPositionForThisWorker fuel (with_worker 0 1 x) = Ok (e, y) ->
  (e = true /\ ended x /\ y = with_worker 0 1 x)
  \/ (e = false /\ exists x1 d,
        (m_samplePositionInEpoch x <? m_epochSize x) = true
        /\ RandomizeIfNewSweepIsEntered x = Ok x1
        /\ vec_at (m_randomTimeline x1) (m_sequencePositionInSweep x1) = Ok d
        /\ y = with_worker 0 1 x1).
Proof.
  destruct fuel as [|fuel]; [done|]. intros H.
  destruct (m_samplePositionInEpoch x <? m_epochSize x) eqn:Hlt.
  - right.
    cbn [BR.AdvanceToNextPositionForThisWorker] in H.
    change (m_samplePositionInEpoch (with_worker 0 1 x))
      with (m_samplePositionInEpoch x) in H.
    change (m_epochSize (with_worker 0 1 x)) with (m_epochSize x) in H.
    rewrite Hlt, RandomizeIfNewSweepIsEntered_worker in H.
    destruct (RandomizeIfNewSweepIsEntered x) as [x1| | | | |] eqn:Hrand; try done.
    cbn [omap bind] in H.
    change (m_randomTimeline (with_worker 0 1 x1)) with (m_randomTimeline x1) in H.
    change (m_sequencePositionInSweep (with_worker 0 1 x1))
      with (m_sequencePositionInSweep x1) in H.
    destruct (vec_at (m_randomTimeline x1) (m_sequencePositionInSweep x1))
      as [d| | | | |] eqn:Hd; try done.
    cbn [bind] in H.
    change (m_numberOfWorkers (with_worker 0 1 x1)) with 1 in H.
    change (m_workerRank (with_worker 0 1 x1)) with 0 in H.
    rewrite Z.mod_1_r in H. cbn in H.
    destruct (RandomizeIfNewSweepIsEntered_cursor _ _ Hrand) as [E1 E2].
    rewrite E1, E2 in H. apply Z.ltb_lt in Hlt as Hlt'.
    rewrite (proj2 (Z.leb_gt _ _) Hlt') in H. simplify_eq.
    split; [done|]. exists x1, d. done.
  - left. rewrite (Advance_end 0 1 fuel x Hlt) in H. by simplify_eq.
Qed.

Lemma select_ids_single fuel n : forall x ids e y,
  select_ids fuel n (with_worker 0 1 x) = Ok (ids, e, y) ->
  exists x1, y = with_worker 0 1 x1 /\ path x ids x1 /\ (e = true -> ended x1).
Proof.
  induction n as [|n IH]; intros x ids e y H.
  - simpl in H. simplify_eq. exists x. split; [done|]. split; [constructor|done].
  - cbn [BR.select_ids] in H.
    apply bind_Ok_inv in H as ([e0 y0] & Hadv & H).
    apply Advance_single in Hadv
      as [(-> & Hend & ->)|(-> & x1 & d & Hlt & Hrand & Hd & ->)].
    + simplify_eq. exists x. split; [done|]. split; [constructor|done].
    + apply bind_Ok_inv in H as ([] & Hassert & H).
      apply bind_Ok_inv in H as (d' & Hd' & H).
      apply bind_Ok_inv in H as ([[ids' e'] s2] & Hsel & H).
      change (m_randomTimeline (with_worker 0 1 x1)) with (m_randomTimeline x1) in Hd'.
      change (m_sequencePositionInSweep (with_worker 0 1 x1))
        with (m_sequencePositionInSweep x1) in Hd', Hassert, H.
      change (m_numSequences (with_worker 0 1 x1)) with (m_numSequences x1) in Hassert.
      simplify_eq.
      change (move_past ?a (with_worker 0 1 x1))
        with (with_worker 0 1 (move_past a x1)) in Hsel.
      apply IH in Hsel as (x2 & -> & Hpath & Hend).
      exists x2. split; [done|]. split; [|done].
      by eapply path_step.
Qed.

Lemma epoch_single fuel count n y out y' :
  epoch_from fuel count n y out y' ->
  forall x, y = with_worker 0 1 x ->
  exists x', y' = with_worker 0 1 x' /\ path x out x' /\ ended x'.
Proof.
  induction 1 as [n s ids s' H|n s ids s1 rest s' H _ IH]; intros x ->.
  - apply select_ids_single in H as (x1 & -> & Hpath & Hend). eauto.
  - apply select_ids_single in H as (x1 & -> & Hpath & _).
    destruct (IH x1 eq_refl) as (x' & -> & Hpath' & Hend).
    exists x'. split; [done|]. split; [|done]. by eapply path_app.
Qed.

(** The selections of an epoch do not depend on the fuel. *)
Lemma epoch_from_deterministic fuel1 fuel2 count n s out1 s1 out2 s2 :
  epoch_from fuel1 count n s out1 s1 ->
  epoch_from fuel2 count n s out2 s2 ->
  out1 = out2 /\ s1 = s2.
Proof.
  intros H1 H2.
  apply (epoch_from_mono fuel1 (fuel1 `max` fuel2)) in H1; [|lia].
  apply (epoch_from_mono fuel2 (fuel1 `max` fuel2)) in H2; [|lia].
  revert out2 s2 H2.
  induction H1 as [n s ids s' H|n s ids s1' rest s' H _ IH]; intros out2 s2 H2;
    inversion H2 as [? ? ids2 ? Hs|? ? ids2 s2' rest2 ? Hs Hrest]; subst;
    rewrite H in Hs; simplify_eq; [done|].
  destruct (IH _ _ Hrest) as [-> ->]. done.
Qed.

(** *** The workers' shares *)

Lemma filter_belongs_cons N r x l :
  filter (belongs N r) (x :: l)
  = if decide (chunkId x.2 mod N = r)
    then x :: filter (belongs N r) l else filter (belongs N r) l.
Proof.
  rewrite filter_cons.
  destruct (decide (chunkId x.2 mod N = r)) as [e|n].
  - rewrite decide_True; [done|].
    unfold belongs. by apply Is_true_true, Z.eqb_eq.
  - rewrite decide_False; [done|].
    unfold belongs. by intros H%Is_true_true%Z.eqb_eq.
Qed.

Lemma shares_cons_notin N x l (L : list Z) :
  chunkId x.2 mod N ∉ L ->
  concat (map (fun r => filter (belongs N r) (x :: l)) L)
  = concat (map (fun r => filter (belongs N r) l) L).
Proof.
  induction L as [|r L IH]; intros Hnotin; [done|].
  apply not_elem_of_cons in Hnotin as [Hne Hnotin].
  cbn [map concat]. rewrite filter_belongs_cons, decide_False by done.
  by rewrite IH.
Qed.

Lemma shares_cons_in N x l (L : list Z) :
  NoDup L -> chunkId x.2 mod N ∈ L ->
  concat (map (fun r => filter (belongs N r) (x :: l)) L)
  ≡ₚ x :: concat (map (fun r => filter (belongs N r) l) L).
Proof.
  induction L as [|r L IH]; intros Hnodup Hin; [by apply elem_of_nil in Hin|].
  apply NoDup_cons in Hnodup as [Hr Hnodup].
  cbn [map concat]. rewrite filter_belongs_cons.
  case_decide as Hk.
  - rewrite shares_cons_notin by (by rewrite Hk). done.
  - apply elem_of_cons in Hin as [Hin|Hin]; [done|].
    rewrite (IH Hnodup Hin). by rewrite Permutation_middle.
Qed.

(** Every selection goes to exactly one of the ranks [0 .. N-1]. *)
Lemma shares_partition N (l : list (Z * SequenceDescription)) :
  0 < N ->
  concat (map (fun r => filter (belongs N r) l) (seqZ 0 N)) ≡ₚ l.
Proof.
  intros HN. induction l as [|x l IH].
  - induction (seqZ 0 N) as [|r L IHL]; [done|]. cbn [map concat]. by rewrite IHL.
  - rewrite shares_cons_in, IH; [done|apply NoDup_seqZ|].
    apply elem_of_seqZ. pose proof (Z.mod_pos_bound (chunkId x.2) N HN). lia.
Qed.

Lemma shares_disjoint N r1 r2 (x : Z * SequenceDescription)
    (l : list (Z * SequenceDescription)) :
  r1 <> r2 -> x ∈ filter (belongs N r1) l -> x ∉ filter (belongs N r2) l.
Proof.
  intros Hne [H1 _]%list_elem_of_filter [H2 _]%list_elem_of_filter.
  unfold belongs in H1, H2.
  apply Is_true_true, Z.eqb_eq in H1. apply Is_true_true, Z.eqb_eq in H2. lia.
Qed.

(** The positions the workers select. The same epoch (the same
    configuration but for rank and worker
    count) run by a single worker and by worker [r] of [N]: worker [r]
    selects exactly the positions visited by the single worker whose
    sequence has its randomized chunk id congruent to [r] modulo [N], in
    the same order; it moves the cursor past the others all the same, so
    both end with the same [m_samplePositionInEpoch]. The shares of two
    ranks have no selection in common, and the shares of the ranks
    [0 .. N-1] together are the single worker's selections. *)
Theorem worker_partition (config : EpochConfiguration) (s0 : BlockRandomizer)
    (count fuel : nat) (N : Z) (s1 s1' : BlockRandomizer)
    (out1 : list (Z * SequenceDescription)) :
  (1 <= count)%nat -> 0 < N ->
  StartEpoch (as_worker 0 1 config) s0 = Ok s1 ->
  epoch fuel count s1 out1 s1' ->
  (forall r, exists sr sr',
      StartEpoch (as_worker r N config) s0 = Ok sr
      /\ (exists fuel', epoch fuel' count sr (filter (belongs N r) out1) sr')
      /\ (forall fuel' out s',
            epoch fuel' count sr out s' ->
            out = filter (belongs N r) out1 /\ s' = sr')
      /\ m_samplePositionInEpoch sr' = m_samplePositionInEpoch s1')
  /\ (forall r1 r2 x,
        r1 <> r2 -> x ∈ filter (belongs N r1) out1 ->
        x ∉ filter (belongs N r2) out1)
  /\ concat (map (fun r => filter (belongs N r) out1) (seqZ 0 N)) ≡ₚ out1.
Proof.
  intros Hcount HN Hstart Hepoch.
  split; [|split; [intros; by eapply shares_disjoint|by apply shares_partition]].
  intros r.
  rewrite StartEpoch_worker in Hstart.
  destruct (BR.StartEpoch NDEBUG RAND_MAX crand patience config s0)
    as [z| | | | |] eqn:Hz; try done.
  cbn in Hstart. simplify_eq.
  destruct (epoch_single _ _ _ _ _ _ Hepoch z eq_refl) as (x' & -> & Hpath & Hend).
  destruct (worker_follows_path r N ltac:(lia) count z out1 x' Hcount Hpath Hend count)
    as [fuel' Hr].
  exists (with_worker r N z), (with_worker r N x').
  split; [by rewrite StartEpoch_worker, Hz|].
  split; [by exists fuel'|].
  split; [|done].
  intros fuel'' out s' H. by eapply epoch_from_deterministic.
Qed.

End Workers.

(** ** A concrete corpus and generator *)

(** The generator of the Microsoft C runtime ([RAND_MAX = 32767]). *)
Fixpoint lcg_state (seed_ : Z) (n : nat) : Z :=
  match n with
  | O => seed_
  | S n' => (lcg_state seed_ n' * 214013 + 2531011) mod 4294967296
  end.

Definition msvc_rand (seed_ : Z) (n : nat) : Z :=
  (lcg_state seed_ (S n) / 65536) mod 32768.

(** Three chunks of two single-sample sequences each. *)
Definition timeline_3x2 : Timeline :=
  [ {| id := 0; chunkId := 0; numberOfSamples := 1 |};
    {| id := 1; chunkId := 0; numberOfSamples := 1 |};
    {| id := 2; chunkId := 1; numberOfSamples := 1 |};
    {| id := 3; chunkId := 1; numberOfSamples := 1 |};
    {| id := 4; chunkId := 2; numberOfSamples := 1 |};
    {| id := 5; chunkId := 2; numberOfSamples := 1 |} ].

Definition corpus (timeline : Timeline) : option Deserializer :=
  Some {| GetSequenceDescriptions := timeline; calls := [] |}.

(** The spec's definition of [windowend(c)]: the largest index [e] with
    [sampleStart(e+1) - sampleStart(c) < half]. *)
Definition windowend_in_spec (chunks : list RandomizedChunk)
    (numChunks half c we : Z) : Prop :=
  sampleStart chunks (we + 1) - sampleStart chunks c < half
  /\ forall e, 0 <= e < numChunks ->
       sampleStart chunks (e + 1) - sampleStart chunks c < half -> e <= we.

Lemma Randomize_locality_witness :
  exists s s',
    BlockRandomizer_new true 0 12 (corpus timeline_2x2) = Ok s
    /\ Randomize true 32767 msvc_rand 20
         (set_m_sweepStartInSamples 0 (set_m_sweep 0 s)) = Ok s'
    /\ (forall i : Z,
          0 <= i < Z.of_nat (length (m_randomTimeline s')) ->
          exists d, vec_at (m_randomTimeline s') i = Ok d
                    /\ IsValidForPosition s' i d = Ok true)
    /\ Z.of_nat (length (m_randomTimeline s')) = m_numSequences s'.
Proof.
  eexists. eexists.
  split; [vm_compute; reflexivity|].
  lazymatch goal with |- Randomize _ _ _ _ ?x = _ /\ _ => pose (s0 := x) end.
  split; [vm_compute; reflexivity|].
  destruct (Randomize_locality true 32767 msvc_rand 20 s0 _ eq_refl) as [Hvalid Hlength].
  split; [exact Hvalid|]. apply Hlength. right.
  split; [vm_compute; split; [discriminate|reflexivity]|].
  split; [|vm_compute; reflexivity].
  intros k Hk.
  assert (k = 0 \/ k = 1) as [->| ->] by (cbn in Hk; lia); vm_compute; discriminate.
Defined.

Lemma RandomizeChunks_windows_witness :
  exists s s',
    BlockRandomizer_new false 0 6 (corpus timeline_3x2) = Ok s
    /\ RandomizeChunks false 32767 msvc_rand
         (set_m_sweepStartInSamples 0 (set_m_sweep 0 s)) = Ok s'
    /\ forall c, 0 <= c < 3 -> window_spec (m_randomizedChunks s') 3 3 c.
Proof.
  eexists. eexists.
  split; [vm_compute; reflexivity|].
  lazymatch goal with |- RandomizeChunks _ _ _ ?x = _ /\ _ => pose (s0 := x) end.
  split; [vm_compute; reflexivity|].
  apply (RandomizeChunks_windows false 32767 msvc_rand s0).
  - vm_compute. reflexivity.
  - vm_compute. discriminate.
  - vm_compute. split; [discriminate|reflexivity].
  - intros k Hk.
    assert (k = 0 \/ k = 1 \/ k = 2) as [->|[->| ->]] by (cbn in Hk; lia);
      vm_compute; split; discriminate.
  - vm_compute. discriminate.
  - vm_compute. discriminate.
Defined.

(** C2 (as stated) fails. Three chunks of two samples, [W = 6]: chunk 0
    gets [windowend = 1], and [sampleStart(2) - sampleStart(0) = 4] is not
    below [W/2 = 3]; the largest index with the stated property is 0. *)
Lemma windowend_is_not_the_largest_index :
  exists s s',
    BlockRandomizer_new false 0 6 (corpus timeline_3x2) = Ok s
    /\ RandomizeChunks false 32767 msvc_rand
         (set_m_sweepStartInSamples 0 (set_m_sweep 0 s)) = Ok s'
    /\ windowend_of (m_randomizedChunks s') 0 = 1
    /\ ~ windowend_in_spec (m_randomizedChunks s') 3 (6 / 2) 0
           (windowend_of (m_randomizedChunks s') 0)
    /\ windowend_in_spec (m_randomizedChunks s') 3 (6 / 2) 0 0.
Proof.
  eexists. eexists.
  split; [vm_compute; reflexivity|].
  split; [vm_compute; reflexivity|].
  split; [reflexivity|]. split.
  - intros [H _]. vm_compute in H. discriminate.
  - split; [reflexivity|]. intros e He.
    assert (e = 0 \/ e = 1 \/ e = 2) as [->|[->| ->]] by lia;
      vm_compute; intros H; congruence.
Qed.

(** One sweep, starting at epoch 0. *)
Definition one_sweep : EpochConfiguration :=
  {| workerRank := 0; numberOfWorkers := 1; minibatchSize := 2;
     totalSize := requestDataSize; index := 0 |}.

Lemma GetNextSequences_chunk_calls_witness :
  exists s0 s1 result s',
    BlockRandomizer_new false 0 12 (corpus timeline_2x2) = Ok s0
    /\ StartEpoch false 32767 msvc_rand 20 one_sweep s0 = Ok s1
    /\ GetNextSequences false 32767 msvc_rand 20 5 2 s1 = Ok (result, s')
    /\ exists selected endOfEpoch s2,
         select_ids false 32767 msvc_rand 20 5 (Z.to_nat 2) s1
           = Ok (selected, endOfEpoch, s2)
         /\ m_endOfEpoch result = endOfEpoch
         /\ (selected = [] -> s' = s2)
         /\ forall firstId lastId,
              head selected.*1 = Some firstId -> last selected.*1 = Some lastId ->
              let chunks := m_randomizedChunks s2 in
              let wb := windowbegin_of chunks (chunkOf s2 firstId) in
              let we := windowend_of chunks (chunkOf s2 lastId) in
              calls (m_deserializer s')
              = calls (m_deserializer s2)
                ++ map (chunk_call chunks wb we) (seqZ 0 (m_numChunks s2))
                ++ [GetSequencesById (m_data result)].
Proof.
  do 4 eexists.
  split; [vm_compute; reflexivity|].
  split; [vm_compute; reflexivity|].
  split; [vm_compute; reflexivity|].
  apply (GetNextSequences_chunk_calls false 32767 msvc_rand 20).
  vm_compute. reflexivity.
Defined.

Lemma worker_partition_witness :
  exists s0 s1 out1 s1',
    BlockRandomizer_new false 0 12 (corpus timeline_2x2) = Ok s0
    /\ StartEpoch false 32767 msvc_rand 20 (as_worker 0 1 one_sweep) s0 = Ok s1
    /\ epoch false 32767 msvc_rand 20 5 2 s1 out1 s1'
    /\ (forall r, exists sr sr',
          StartEpoch false 32767 msvc_rand 20 (as_worker r 2 one_sweep) s0 = Ok sr
          /\ (exists fuel',
                epoch false 32767 msvc_rand 20 fuel' 2 sr
                  (filter (belongs 2 r) out1) sr')
          /\ (forall fuel' out s',
                epoch false 32767 msvc_rand 20 fuel' 2 sr out s' ->
                out = filter (belongs 2 r) out1 /\ s' = sr')
          /\ m_samplePositionInEpoch sr' = m_samplePositionInEpoch s1')
    /\ (forall r1 r2 x,
          r1 <> r2 -> x ∈ filter (belongs 2 r1) out1 ->
          x ∉ filter (belongs 2 r2) out1)
    /\ concat (map (fun r => filter (belongs 2 r) out1) (seqZ 0 2)) ≡ₚ out1.
Proof.
  do 4 eexists.
  split; [vm_compute; reflexivity|].
  split; [vm_compute; reflexivity|].
  split.
  - eapply epoch_more; [vm_compute; reflexivity|].
    eapply epoch_more; [vm_compute; reflexivity|].
    apply epoch_last. vm_compute. reflexivity.
  - eapply (worker_partition false 32767 msvc_rand 20 one_sweep _ 2 5 2).
    + lia.
    + lia.
    + vm_compute. reflexivity.
    + eapply epoch_more; [vm_compute; reflexivity|].
      eapply epoch_more; [vm_compute; reflexivity|].
      apply epoch_last. vm_compute. reflexivity.
Defined.

(** *** An epoch that enters a second sweep *)

(** A worker's epoch as its caller sees it: [GetNextSequences] called with
    [count] until a call reports the end of the epoch ([calls] calls at
    most); the data of the calls, in order. *)
Fixpoint read_epoch (NDEBUG : bool) (RAND_MAX : Z) (crand : Z -> nat -> Z)
    (patience : nat) (calls fuel : nat) (count : Z) (s : BlockRandomizer)
    : outcome (list (list Z)) :=
  match calls with
  | O => Diverges
  | S calls' =>
      '(result, s1) <- GetNextSequences NDEBUG RAND_MAX crand patience fuel count s;;
      if m_endOfEpoch result then Ok [m_data result]
      else
        rest <- read_epoch NDEBUG RAND_MAX crand patience calls' fuel count s1;;
        Ok (m_data result :: rest)
  end.

(** The positions the calls select, with the descriptions read there when
    they were selected: the loop of [GetNextSequences] alone, call after
    call. *)
Fixpoint select_epoch (NDEBUG : bool) (RAND_MAX : Z) (crand : Z -> nat -> Z)
    (patience : nat) (calls fuel count : nat) (s : BlockRandomizer)
    : outcome (list (Z * SequenceDescription)) :=
  match calls with
  | O => Diverges
  | S calls' =>
      '(ids, endOfEpoch, s1) <- select_ids NDEBUG RAND_MAX crand patience fuel count s;;
      if (endOfEpoch : bool) then Ok ids
      else
        rest <- select_epoch NDEBUG RAND_MAX crand patience calls' fuel count s1;;
        Ok (ids ++ rest)
  end.

Lemma select_epoch_epoch NDEBUG RAND_MAX crand patience calls fuel count :
  forall s out,
    select_epoch NDEBUG RAND_MAX crand patience calls fuel count s = Ok out ->
    exists s', epoch NDEBUG RAND_MAX crand patience fuel count s out s'.
Proof.
  induction calls as [|calls IH]; intros s out H; [done|].
  cbn [select_epoch] in H.
  apply bind_Ok_inv in H as ([[ids endOfEpoch] s1] & Hsel & H).
  destruct endOfEpoch.
  - simplify_eq. exists s1. by apply epoch_last.
  - apply bind_Ok_inv in H as (rest & Hrest & H). simplify_eq.
    destruct (IH _ _ Hrest) as [s' Hepoch].
    exists s'. by eapply epoch_more.
Qed.

(** An epoch of [totalSize] samples, starting at epoch 0, for worker [r]
    of [N], read from the corpus of two chunks of two sequences of one
    sample, [count] sequences a call. *)
Definition epoch_of (totalSize_ r N : Z) : EpochConfiguration :=
  {| workerRank := r; numberOfWorkers := N; minibatchSize := 3;
     totalSize := totalSize_; index := 0 |}.

Definition yielded (NDEBUG : bool) (config : EpochConfiguration) (count : Z)
    : outcome (list (list Z)) :=
  s0 <- BlockRandomizer_new NDEBUG 0 12 (corpus timeline_2x2);;
  s1 <- StartEpoch NDEBUG 32767 msvc_rand 20 config s0;;
  read_epoch NDEBUG 32767 msvc_rand 20 10 10 count s1.

Definition selected (NDEBUG : bool) (config : EpochConfiguration) (count : Z)
    : outcome (list (Z * Z)) :=
  s0 <- BlockRandomizer_new NDEBUG 0 12 (corpus timeline_2x2);;
  s1 <- StartEpoch NDEBUG 32767 msvc_rand 20 config s0;;
  out <- select_epoch NDEBUG 32767 msvc_rand 20 10 10 (Z.to_nat count) s1;;
  Ok (map (fun x => (x.1, id x.2)) out).

(** C3. The corpus of two chunks of two sequences of one sample, an epoch
    of six samples (it ends in the second sweep), three sequences a call.
    The single worker selects the positions 0, 1, 2, 3 of the first sweep
    and 0, 1 of the second, where the sequences 3, 2, 1, 0 and 1, 2 stand.
    Its second call selects position 3 of the first sweep and positions
    0, 1 of the second, and reads the ids at these positions after the
    loop, all in the timeline of the second sweep: it yields 3, 1, 2, and
    sequence 0 is never yielded. Worker 0 of 2 is handed the sequences
    1, 2, 2 and worker 1 the sequences 0, 3, 1, where the positions they
    selected hold 3, 2, 2 and 1, 0, 1: together they are not what the
    single worker is handed. *)
Theorem GetNextSequences_reads_ids_in_the_new_sweep (NDEBUG : bool) :
  selected NDEBUG (epoch_of 6 0 1) 3
  = Ok [(0, 3); (1, 2); (2, 1); (3, 0); (0, 1); (1, 2)]
  /\ yielded NDEBUG (epoch_of 6 0 1) 3 = Ok [[3; 2; 1]; [3; 1; 2]; []]
  /\ selected NDEBUG (epoch_of 6 0 2) 3 = Ok [(0, 3); (1, 2); (1, 2)]
  /\ yielded NDEBUG (epoch_of 6 0 2) 3 = Ok [[1; 2; 2]; []]
  /\ selected NDEBUG (epoch_of 6 1 2) 3 = Ok [(2, 1); (3, 0); (0, 1)]
  /\ yielded NDEBUG (epoch_of 6 1 2) 3 = Ok [[0; 3; 1]; []]
  /\ ~ ([1; 2; 2] ++ [0; 3; 1] ≡ₚ [3; 2; 1] ++ [3; 1; 2]).
Proof.
  split; [by destruct NDEBUG; vm_compute|].
  split; [by destruct NDEBUG; vm_compute|].
  split; [by destruct NDEBUG; vm_compute|].
  split; [by destruct NDEBUG; vm_compute|].
  split; [by destruct NDEBUG; vm_compute|].
  split; [by destruct NDEBUG; vm_compute|].
  intros H. apply (Permutation_in 0) in H; [|cbn; tauto].
  cbn in H. intuition discriminate.
Qed.

(** Within one sweep the ids are read in the timeline they were selected
    in. *)
Example one_sweep_yielded (NDEBUG : bool) :
  selected NDEBUG (epoch_of 4 0 1) 3 = Ok [(0, 3); (1, 2); (2, 1); (3, 0)]
  /\ yielded NDEBUG (epoch_of 4 0 1) 3 = Ok [[3; 2; 1]; [0]]
  /\ yielded NDEBUG (epoch_of 4 0 2) 3 = Ok [[3; 2]]
  /\ yielded NDEBUG (epoch_of 4 1 2) 3 = Ok [[1; 0]].
Proof. repeat split; by destruct NDEBUG; vm_compute. Qed.

End BR.

(** * Image transformers *)

Module Transformers.

(** ** [double] *)

(** The rational a finite [double] stands for. *)
Definition double_value (f : float) : option Q :=
  match Prim2SF f with
  | S754_zero _ => Some 0%Q
  | S754_finite s m e =>
      Some ((if s then -1 else 1) * inject_Z (Z.pos m) * 2 ^ e)%Q
  | _ => None
  end.

(** Conversion of an [int] to [double] (exact). *)
Definition int_to_double (n : Z) : float :=
  if n <? 0 then PrimFloat.opp (PrimFloat.of_uint63 (Uint63.of_Z (- n)))
  else PrimFloat.of_uint63 (Uint63.of_Z n).

(** [static_cast<int>] of a [double]: truncation toward zero, undefined
    when the truncated value is no [int] (or there is none). *)
Definition double_to_int (f : float) : outcome Z :=
  match double_value f with
  | Some q =>
      let t := if Qle_bool 0 q then Qfloor q else Qceiling q in
      if (- BR.INT_MAX - 1 <=? t) && (t <=? BR.INT_MAX) then Ok t else Undefined
  | None => Undefined
  end.

(** ** CropTransformer *)

Inductive CropType := Center | Random.

Inductive RatioJitterType := JitterNone | UniRatio | UniLength | UniArea.

(** [cv::Rect(x, y, width, height)]. *)
Record Rect := {
  x : Z;
  y : Z;
  width : Z;
  height : Z
}.

Section Crop.

Variable NDEBUG : bool.

(** The engine [std::mt19937], and [UniIntT(a, b)(rng)]: one draw of
    [std::uniform_int_distribution<int>] on [[a, b]], which is uniform on
    that range by the library's contract. *)
Variable mt19937 : Type.
Variable UniIntT : Z -> Z -> mt19937 -> Z * mt19937.

(** [static_cast<int>(std::min(crow, ccol) * cropRatio)]: the product is a
    [double]. *)
Definition cropSize_of (crow ccol : Z) (cropRatio : float) : outcome Z :=
  double_to_int (PrimFloat.mul (int_to_double (Z.min crow ccol)) cropRatio).

Definition GetCropRect (type : CropType) (crow ccol : Z) (cropRatio : float)
    (rng : mt19937) : outcome (Rect * mt19937) :=
  _ <- assert NDEBUG (0 <? crow);;
  _ <- assert NDEBUG (0 <? ccol);;
  _ <- assert NDEBUG (PrimFloat.ltb 0 cropRatio && PrimFloat.leb cropRatio 1);;
  cropSize <- cropSize_of crow ccol cropRatio;;
  let '(xOff, yOff, rng') :=
    match type with
    | Center => (Z.quot (ccol - cropSize) 2, Z.quot (crow - cropSize) 2, rng)
    | Random =>
        let '(xOff, rng1) := UniIntT 0 (ccol - cropSize) rng in
        let '(yOff, rng2) := UniIntT 0 (crow - cropSize) rng1 in
        (xOff, yOff, rng2)
    end in
  _ <- assert NDEBUG ((0 <=? xOff) && (xOff <=? ccol - cropSize));;
  _ <- assert NDEBUG ((0 <=? yOff) && (yOff <=? crow - cropSize));;
  Ok ({| x := xOff; y := yOff; width := cropSize; height := cropSize |}, rng').

End Crop.

(** *** The product as a [double] *)

Lemma digits2_pos_bounds (m : positive) :
  2 ^ (Z.pos (digits2_pos m) - 1) <= Z.pos m < 2 ^ Z.pos (digits2_pos m).
Proof.
  induction m as [m IH|m IH|]; cbn [digits2_pos].
  - rewrite Pos2Z.inj_succ.
    replace (Z.succ (Z.pos (digits2_pos m)) - 1) with (Z.succ (Z.pos (digits2_pos m) - 1)) by lia.
    rewrite !Z.pow_succ_r by lia. lia.
  - rewrite Pos2Z.inj_succ.
    replace (Z.succ (Z.pos (digits2_pos m)) - 1) with (Z.succ (Z.pos (digits2_pos m) - 1)) by lia.
    rewrite !Z.pow_succ_r by lia. lia.
  - cbn. lia.
Qed.

(** [b] is [a] shifted right by [j] bits: the mantissa is the quotient,
    and [b] is exact when [a] was and no bit was lost. *)
Definition shifted (j : Z) (a b : shr_record) : Prop :=
  0 <= shr_m b
  /\ shr_m b * 2 ^ j <= shr_m a < (shr_m b + 1) * 2 ^ j
  /\ (shr_r a = false -> shr_s a = false -> shr_m a = shr_m b * 2 ^ j ->
      shr_r b = false /\ shr_s b = false).

Lemma shifted_shr_1 (a : shr_record) : 0 <= shr_m a -> shifted 1 a (shr_1 a).
Proof.
  destruct a as [m r s]. cbn [shr_m]. intros Hm. unfold shifted.
  destruct m as [|[p|p|]|p]; cbn [shr_1 shr_m shr_r shr_s]; try lia.
  all: split; [lia|]; split; [lia|]; intros -> -> H; (done || lia).
Qed.

Lemma shifted_trans (j k : Z) (a b c : shr_record) :
  0 <= j -> 0 <= k -> shifted j a b -> shifted k b c -> shifted (j + k) a c.
Proof.
  intros Hj Hk (Hb & Hab & Hexact) (Hc & Hbc & Hexact').
  assert (0 < 2 ^ j) by (apply Z.pow_pos_nonneg; lia).
  assert (0 < 2 ^ k) by (apply Z.pow_pos_nonneg; lia).
  unfold shifted. rewrite Z.pow_add_r by lia.
  split; [done|]. split; [nia|].
  intros Hr Hs Hm.
  assert (shr_m a = shr_m b * 2 ^ j) as Hma by nia.
  assert (shr_m b = shr_m c * 2 ^ k) as Hmb by nia.
  destruct (Hexact Hr Hs Hma) as [Hrb Hsb]. exact (Hexact' Hrb Hsb Hmb).
Qed.

Lemma shifted_iter_pos (p : positive) (a : shr_record) :
  0 <= shr_m a -> shifted (Z.pos p) a (SpecFloat.iter_pos shr_1 p a).
Proof.
  revert a. induction p as [p IH|p IH|]; intros a Ha; cbn [SpecFloat.iter_pos].
  - pose proof (shifted_shr_1 a Ha) as H1.
    pose proof (IH _ (proj1 H1)) as H2.
    pose proof (IH _ (proj1 H2)) as H3.
    replace (Z.pos p~1) with (1 + Z.pos p + Z.pos p) by lia.
    eapply shifted_trans; [lia|lia| |exact H3].
    eapply shifted_trans; [lia|lia|exact H1|exact H2].
  - pose proof (IH _ Ha) as H1.
    pose proof (IH _ (proj1 H1)) as H2.
    replace (Z.pos p~0) with (Z.pos p + Z.pos p) by lia.
    eapply shifted_trans; [lia|lia|exact H1|exact H2].
  - by apply shifted_shr_1.
Qed.

Lemma shifted_refl (a : shr_record) : 0 <= shr_m a -> shifted 0 a a.
Proof. intros Ha. unfold shifted. rewrite Z.pow_0_r. repeat split; (done || lia). Qed.

(** [shr] by [k] bits, for any [k]. *)
Lemma shifted_shr (a : shr_record) (e k : Z) :
  0 <= shr_m a ->
  shifted (Z.max k 0) a (shr a e k).1 /\ (shr a e k).2 = e + Z.max k 0.
Proof.
  intros Ha. destruct k as [|p|p]; cbn [shr fst snd].
  - split; [by apply shifted_refl|lia].
  - split; [|lia]. rewrite Z.max_l by lia. by apply shifted_iter_pos.
  - split; [|lia]. rewrite Z.max_r by lia. by apply shifted_refl.
Qed.

Lemma round_nearest_even_le (m : Z) (l : location) :
  m <= round_nearest_even m l <= m + 1
  /\ (l = loc_Exact -> round_nearest_even m l = m).
Proof.
  destruct l as [|[]]; cbn [round_nearest_even]; try destruct (Z.even m); lia || (split; [lia|done]).
Qed.

Lemma fexp_nonpos (m : positive) (e N : Z) :
  e <= 0 -> 0 <= N < 2 ^ 52 -> Z.pos m <= N * 2 ^ (- e) ->
  fexp prec emax (Z.pos (digits2_pos m) + e) <= 0.
Proof.
  intros He HN Hm. unfold fexp, SpecFloat.emin, prec, emax.
  destruct (digits2_pos_bounds m) as [Hd _].
  assert (0 < 2 ^ (- e)) by (apply Z.pow_pos_nonneg; lia).
  assert (2 ^ (Z.pos (digits2_pos m) - 1) < 2 ^ (52 - e)) as Hlt.
  { replace (52 - e) with (52 + - e) by lia. rewrite Z.pow_add_r by lia. nia. }
  apply Z.pow_lt_mono_r_iff in Hlt; lia.
Qed.

(** Rounding a positive [M * 2^E] that is at most an integer [N] gives
    zero or a finite [m * 2^e] that is at most [N]. *)
Lemma binary_round_aux_below (sx : bool) (M : positive) (E N : Z) :
  E <= 0 -> 0 <= N < 2 ^ 52 -> Z.pos M <= N * 2 ^ (- E) ->
  binary_round_aux prec emax sx (Z.pos M) E loc_Exact = S754_zero sx
  \/ exists m e,
       binary_round_aux prec emax sx (Z.pos M) E loc_Exact = S754_finite sx m e
       /\ e <= 0 /\ Z.pos m <= N * 2 ^ (- e).
Proof.
  intros HE HN HM. unfold binary_round_aux, shr_fexp.
  cbn [shr_record_of_loc Zdigits2].
  pose proof (fexp_nonpos M E N HE HN HM) as Hfexp.
  set (k1 := fexp prec emax (Z.pos (digits2_pos M) + E) - E) in *.
  destruct (shifted_shr {| shr_m := Z.pos M; shr_r := false; shr_s := false |} E k1)
    as [(Hm1 & Hbound1 & Hexact1) He1]; [done|].
  destruct (shr _ E k1) as [mrs1 e1]. cbn [fst snd shr_m shr_r shr_s] in *.
  set (j1 := Z.max k1 0) in *.
  destruct (round_nearest_even_le (shr_m mrs1) (loc_of_shr_record mrs1))
    as [Hround Hround_exact].
  set (m1 := round_nearest_even (shr_m mrs1) (loc_of_shr_record mrs1)) in *.
  assert (e1 <= 0) as He1' by lia.
  assert (0 < 2 ^ j1) as Hj1 by (apply Z.pow_pos_nonneg; lia).
  assert (0 < 2 ^ (- e1)) as Hpe1 by (apply Z.pow_pos_nonneg; lia).
  assert (2 ^ (- E) = 2 ^ (- e1) * 2 ^ j1) as HpE.
  { rewrite <- Z.pow_add_r by lia. f_equal. lia. }
  assert (m1 <= N * 2 ^ (- e1)) as Hm1'.
  { destruct (Z_le_gt_dec (shr_m mrs1 + 1) (N * 2 ^ (- e1))) as [|Hgt]; [lia|].
    assert (Z.pos M = shr_m mrs1 * 2 ^ j1) as Heq by nia.
    destruct (Hexact1 eq_refl eq_refl Heq) as [Hr Hs].
    rewrite Hround_exact; [nia|].
    destruct mrs1 as [? r s]. cbn in Hr, Hs. by subst. }
  destruct m1 as [|p1|p1] eqn:Ep1; [| |lia].
  - (* the first rounding gives 0 *)
    left. cbn [shr_record_of_loc Zdigits2].
    destruct (shifted_shr {| shr_m := 0; shr_r := false; shr_s := false |} e1
                (fexp prec emax (0 + e1) - e1)) as [(Hm2 & Hbound2 & _) _]; [done|].
    destruct (shr _ e1 _) as [mrs2 e2]. cbn [fst snd shr_m] in *.
    assert (0 < 2 ^ Z.max (fexp prec emax (0 + e1) - e1) 0)
      by (apply Z.pow_pos_nonneg; lia).
    assert (shr_m mrs2 = 0) as -> by nia. done.
  - cbn [shr_record_of_loc Zdigits2].
    pose proof (fexp_nonpos p1 e1 N He1' HN Hm1') as Hfexp2.
    set (k2 := fexp prec emax (Z.pos (digits2_pos p1) + e1) - e1) in *.
    destruct (shifted_shr {| shr_m := Z.pos p1; shr_r := false; shr_s := false |} e1 k2)
      as [(Hm2 & Hbound2 & _) He2]; [done|].
    destruct (shr _ e1 k2) as [mrs2 e2]. cbn [fst snd shr_m] in *.
    set (j2 := Z.max k2 0) in *.
    assert (e2 <= 0) as He2' by lia.
    assert (0 < 2 ^ j2) as Hj2 by (apply Z.pow_pos_nonneg; lia).
    assert (0 < 2 ^ (- e2)) as Hpe2 by (apply Z.pow_pos_nonneg; lia).
    assert (2 ^ (- e1) = 2 ^ (- e2) * 2 ^ j2) as Hpe.
    { rewrite <- Z.pow_add_r by lia. f_equal. lia. }
    destruct (shr_m mrs2) as [|m2|m2] eqn:Em2; [by left| |lia].
    right. exists m2, e2.
    rewrite (proj2 (Z.leb_le e2 (emax - prec))) by (unfold emax, prec; lia).
    split; [done|]. split; [done|]. nia.
Qed.

Lemma iter_xO (d m : positive) : Z.pos (Pos.iter xO m d) = Z.pos m * 2 ^ Z.pos d.
Proof.
  induction d as [|d IH] using Pos.peano_ind.
  - cbn [Pos.iter]. lia.
  - rewrite Pos.iter_succ, Pos2Z.inj_succ, Z.pow_succ_r by lia.
    change (Z.pos (Pos.iter xO m d)~0) with (2 * Z.pos (Pos.iter xO m d)). lia.
Qed.

(** A value that is zero or a finite [m * 2^e] with [0 <= m * 2^e <= N]. *)
Definition below (f : spec_float) (N : Z) : Prop :=
  f = S754_zero false
  \/ exists m e, f = S754_finite false m e /\ e <= 0 /\ Z.pos m <= N * 2 ^ (- e).

(** A positive [int], as a [double], is at most itself (it is itself). *)
Lemma int_to_double_below (n : Z) :
  0 < n <= BR.INT_MAX -> below (Prim2SF (int_to_double n)) n.
Proof.
  intros Hn. unfold BR.INT_MAX in Hn. unfold int_to_double.
  rewrite (proj2 (Z.ltb_ge n 0)) by lia.
  rewrite of_uint63_spec, Uint63.of_Z_spec.
  rewrite Z.mod_small by (change Uint63.wB with (2 ^ 63); lia).
  destruct n as [|p|p]; [lia| |lia].
  cbn [binary_normalize]. unfold binary_round, shl_align.
  assert (Z.pos p <= Z.pos p * 2 ^ (- 0)) as H0 by (cbn; lia).
  destruct (fexp prec emax (Z.pos (digits2_pos p) + 0) - 0) as [|d|d] eqn:Ed.
  - destruct (binary_round_aux_below false p 0 (Z.pos p)) as [H|H];
      [lia|lia|exact H0|by left|by right].
  - destruct (binary_round_aux_below false p 0 (Z.pos p)) as [H|H];
      [lia|lia|exact H0|by left|by right].
  - set (ez := fexp prec emax (Z.pos (digits2_pos p) + 0)) in *.
    assert (ez = Z.neg d) as Hez by lia.
    destruct (binary_round_aux_below false (Pos.iter xO p d) ez (Z.pos p)) as [H|H];
      [lia|lia| |by left|by right].
    replace (- ez) with (Z.pos d) by lia. rewrite iter_xO. lia.
Qed.

(** A [double] in (0, 1] is a finite [m * 2^e] with [m * 2^e <= 1]. *)
Lemma ratio_below (r : float) :
  PrimFloat.ltb 0 r = true -> PrimFloat.leb r 1 = true ->
  exists m e, Prim2SF r = S754_finite false m e /\ e <= 0 /\ Z.pos m <= 2 ^ (- e).
Proof.
  intros Hlt Hle. rewrite ltb_spec in Hlt. rewrite leb_spec in Hle.
  pose proof (Prim2SF_valid r) as Hvalid.
  change (Prim2SF 0) with (S754_zero false) in Hlt.
  change (Prim2SF 1) with (S754_finite false 4503599627370496 (-52)) in Hle.
  destruct (Prim2SF r) as [s|s| |s m e]; try discriminate.
  - destruct s; discriminate.
  - destruct s; [discriminate|]. exists m, e. split; [done|].
    cbn [valid_binary] in Hvalid. unfold bounded, canonical_mantissa in Hvalid.
    apply andb_true_iff in Hvalid as [Hcanon _]. apply Z.eqb_eq in Hcanon.
    unfold fexp, SpecFloat.emin, prec, emax in Hcanon.
    destruct (digits2_pos_bounds m) as [_ Hd].
    unfold SFleb, SFcompare in Hle.
    destruct (Z.compare_spec e (-52)) as [->|He|He]; [| |discriminate].
    + split; [lia|]. cbn [Z.opp].
      rewrite Pos.compare_cont_spec in Hle. cbn [Pos.switch_Eq] in Hle.
      destruct (Pos.compare_spec m 4503599627370496) as [Hm|Hm|Hm];
        [|apply Pos2Z.pos_lt_pos in Hm|discriminate].
      * rewrite Hm. done.
      * apply Z.lt_le_incl. exact Hm.
    + split; [lia|].
      assert (Z.pos (digits2_pos m) <= 53) as Hd53 by lia.
      assert (2 ^ Z.pos (digits2_pos m) <= 2 ^ 53) by (apply Z.pow_le_mono_r; lia).
      assert (2 ^ 53 <= 2 ^ (- e)) by (apply Z.pow_le_mono_r; lia).
      lia.
Qed.

Lemma finite_value_below (m : positive) (e N : Z) :
  e <= 0 -> Z.pos m <= N * 2 ^ (- e) ->
  (0 <= 1 * inject_Z (Z.pos m) * 2 ^ e)%Q
  /\ (1 * inject_Z (Z.pos m) * 2 ^ e <= inject_Z N)%Q.
Proof.
  intros He Hm.
  assert (0 < 2 ^ (- e)) as Hpos by (apply Z.pow_pos_nonneg; lia).
  assert ((2 ^ e == / inject_Z (2 ^ (- e)))%Q) as ->.
  { rewrite Zpower_Qpower by lia. rewrite <- Qpower_opp.
    replace (- - e) with e by lia. reflexivity. }
  rewrite Qmult_1_l.
  assert ((0 < inject_Z (2 ^ (- e)))%Q) as HposQ.
  { change 0%Q with (inject_Z 0). rewrite <- Zlt_Qlt. exact Hpos. }
  split.
  - apply Qle_shift_div_l; [exact HposQ|]. rewrite Qmult_0_l.
    change 0%Q with (inject_Z 0). rewrite <- Zle_Qle. lia.
  - apply Qle_shift_div_r; [exact HposQ|].
    rewrite <- inject_Z_mult, <- Zle_Qle. exact Hm.
Qed.

(** The [double] product of a positive [int] and a ratio in (0, 1] is a
    number between 0 and the [int]. *)
Lemma product_value (n : Z) (r : float) :
  0 < n <= BR.INT_MAX -> PrimFloat.ltb 0 r = true -> PrimFloat.leb r 1 = true ->
  exists q,
    double_value (PrimFloat.mul (int_to_double n) r) = Some q
    /\ (0 <= q)%Q /\ (q <= inject_Z n)%Q.
Proof.
  intros Hn Hlt Hle. unfold double_value. rewrite mul_spec.
  destruct (ratio_below r Hlt Hle) as (mr & er & -> & Her & Hmr).
  destruct (int_to_double_below n Hn) as [->|(mn & en & -> & Hen & Hmn)].
  - exists 0%Q. cbn. split; [done|]. split; [done|].
    change 0%Q with (inject_Z 0). rewrite <- Zle_Qle. lia.
  - unfold SF64mul, SFmul. cbn [xorb].
    assert (0 < 2 ^ (- en)) by (apply Z.pow_pos_nonneg; lia).
    assert (0 < 2 ^ (- er)) by (apply Z.pow_pos_nonneg; lia).
    destruct (binary_round_aux_below false (mn * mr) (en + er) n)
      as [->|(m & e & -> & He & Hm)].
    + lia.
    + unfold BR.INT_MAX in Hn. lia.
    + replace (- (en + er)) with (- en + - er) by lia.
      rewrite Z.pow_add_r, Pos2Z.inj_mul by lia. nia.
    + exists 0%Q. split; [done|]. split; [done|].
      change 0%Q with (inject_Z 0). rewrite <- Zle_Qle. lia.
    + eexists. split; [done|]. by apply finite_value_below.
Qed.

(** *** The crop rectangle *)

Section CropRect.

Variable NDEBUG : bool.
Variable mt19937 : Type.
Variable UniIntT : Z -> Z -> mt19937 -> Z * mt19937.

(** The contract of [std::uniform_int_distribution]: a draw on [[a, b]]
    lies in [[a, b]]. *)
Hypothesis UniIntT_range :
  forall a b g, a <= b -> a <= (UniIntT a b g).1 <= b.

Lemma assert_true c : c = true -> assert NDEBUG c = Ok tt.
Proof. intros ->. by destruct NDEBUG. Qed.

Lemma Qfloor_within (q : Q) (m : Z) :
  (0 <= q)%Q -> (q <= inject_Z m)%Q -> 0 <= Qfloor q <= m.
Proof.
  intros H0 Hm. split.
  - apply (Qfloor_resp_le 0 q) in H0. exact H0.
  - apply Qfloor_resp_le in Hm. by rewrite Qfloor_Z in Hm.
Qed.

(** C6. For positive [crow], [ccol] and [cropRatio] in (0, 1], the
    [double] product [min(crow, ccol) * cropRatio] is a number [q] between
    0 and [min(crow, ccol)], and with [S] its floor: the center crop is the
    square of side [S] at [((ccol - S) / 2, (crow - S) / 2)]; the random
    crop is a square of side [S] whose offsets are the two draws of
    [UniIntT] on [[0, ccol - S]] and [[0, crow - S]], in this order, and
    lie in these ranges; and 100 rows by 200 columns at ratio 0.5 give the
    50 x 50 square at (75, 25). *)
Theorem GetCropRect_spec (crow ccol : Z) (cropRatio : float) (rng : mt19937) :
  0 < crow <= BR.INT_MAX -> 0 < ccol <= BR.INT_MAX ->
  PrimFloat.ltb 0 cropRatio = true -> PrimFloat.leb cropRatio 1 = true ->
  exists q : Q,
    double_value (PrimFloat.mul (int_to_double (Z.min crow ccol)) cropRatio) = Some q
    /\ (0 <= q <= inject_Z (Z.min crow ccol))%Q
    /\ let S := Qfloor q in
       GetCropRect NDEBUG mt19937 UniIntT Center crow ccol cropRatio rng
         = Ok ({| x := (ccol - S) / 2; y := (crow - S) / 2; width := S; height := S |}, rng)
       /\ (let draw1 := UniIntT 0 (ccol - S) rng in
           let draw2 := UniIntT 0 (crow - S) draw1.2 in
           GetCropRect NDEBUG mt19937 UniIntT Random crow ccol cropRatio rng
             = Ok ({| x := draw1.1; y := draw2.1; width := S; height := S |}, draw2.2)
           /\ 0 <= draw1.1 <= ccol - S /\ 0 <= draw2.1 <= crow - S)
       /\ GetCropRect NDEBUG mt19937 UniIntT Center 100 200 0.5%float rng
            = Ok ({| x := 75; y := 25; width := 50; height := 50 |}, rng).
Proof.
  intros Hrow Hcol Hlt Hle.
  destruct (product_value (Z.min crow ccol) cropRatio ltac:(lia) Hlt Hle)
    as (q & Hq & Hq0 & Hqm).
  exists q. split; [exact Hq|]. split; [done|]. intros S.
  destruct (Qfloor_within q _ Hq0 Hqm) as [HS0 HSm]. fold S in HS0, HSm.
  assert (cropSize_of crow ccol cropRatio = Ok S) as Hsize.
  { unfold cropSize_of, double_to_int. rewrite Hq.
    rewrite (proj2 (Qle_bool_iff 0 q) Hq0). fold S.
    unfold BR.INT_MAX in *.
    rewrite (proj2 (andb_true_iff _ _)); [done|].
    split; apply Z.leb_le; lia. }
  split; [|split].
  - unfold GetCropRect.
    rewrite !assert_true, Hsize by (rewrite ?Hlt, ?Hle; try apply Z.ltb_lt; lia || done).
    cbn [bind].
    rewrite !Z.quot_div_nonneg by lia.
    rewrite !assert_true; [done| |].
    + apply andb_true_iff. split; apply Z.leb_le; [apply Z.div_pos; lia|].
      apply Z.div_le_upper_bound; lia.
    + apply andb_true_iff. split; apply Z.leb_le; [apply Z.div_pos; lia|].
      apply Z.div_le_upper_bound; lia.
  - cbn zeta.
    pose proof (UniIntT_range 0 (ccol - S) rng ltac:(lia)) as H1.
    pose proof (UniIntT_range 0 (crow - S) (UniIntT 0 (ccol - S) rng).2 ltac:(lia)) as H2.
    split; [|done].
    unfold GetCropRect.
    rewrite !assert_true, Hsize by (rewrite ?Hlt, ?Hle; try apply Z.ltb_lt; lia || done).
    cbn [bind].
    destruct (UniIntT 0 (ccol - S) rng) as [xOff rng1] eqn:E1.
    cbn [fst snd] in *.
    destruct (UniIntT 0 (crow - S) rng1) as [yOff rng2] eqn:E2.
    cbn [fst snd] in *.
    rewrite !assert_true; [done| |]; apply andb_true_iff; split; apply Z.leb_le; lia.
  - unfold GetCropRect. rewrite !assert_true by done.
    assert (cropSize_of 100 200 0.5%float = Ok 50) as -> by (vm_compute; reflexivity).
    cbn [bind]. rewrite !assert_true by done. done.
Qed.

End CropRect.

(** A stand-in for the engine, for examples: a counter, with the draw
    [a + counter mod (b - a + 1)]. *)
Definition counter_draw (a b : Z) (g : Z) : Z * Z :=
  (a + g mod (b - a + 1), g + 1).

Lemma counter_draw_range a b g : a <= b -> a <= (counter_draw a b g).1 <= b.
Proof.
  intros H. unfold counter_draw. cbn [fst].
  pose proof (Z.mod_pos_bound g (b - a + 1) ltac:(lia)). lia.
Defined.

Lemma GetCropRect_spec_witness :
  exists q : Q,
    double_value (PrimFloat.mul (int_to_double (Z.min 10 20)) 0.25%float) = Some q
    /\ (0 <= q <= inject_Z (Z.min 10 20))%Q
    /\ let S := Qfloor q in
       GetCropRect false Z counter_draw Center 10 20 0.25%float 7
         = Ok ({| x := (20 - S) / 2; y := (10 - S) / 2; width := S; height := S |}, 7)
       /\ (let draw1 := counter_draw 0 (20 - S) 7 in
           let draw2 := counter_draw 0 (10 - S) draw1.2 in
           GetCropRect false Z counter_draw Random 10 20 0.25%float 7
             = Ok ({| x := draw1.1; y := draw2.1; width := S; height := S |}, draw2.2)
           /\ 0 <= draw1.1 <= 20 - S /\ 0 <= draw2.1 <= 10 - S)
       /\ GetCropRect false Z counter_draw Center 100 200 0.5%float 7
            = Ok ({| x := 75; y := 25; width := 50; height := 50 |}, 7).
Proof.
  apply (GetCropRect_spec false Z counter_draw counter_draw_range 10 20 0.25%float 7).
  - unfold BR.INT_MAX. lia.
  - unfold BR.INT_MAX. lia.
  - reflexivity.
  - reflexivity.
Defined.

(** The product is rounded to [double] before the conversion to [int]:
    at the [double] nearest to 1/3, whose exact product with 3 is just
    below 1, the side of a 3 x 3 image is 1. *)
Example cropSize_of_rounded_product :
  cropSize_of 3 3 0x1.5555555555555p-2%float = Ok 1
  /\ exists q, double_value 0x1.5555555555555p-2%float = Some q /\ (3 * q < 1)%Q.
Proof.
  split; [vm_compute; reflexivity|].
  eexists. split; [vm_compute; reflexivity|]. reflexivity.
Qed.

(** ** Configuration values *)

(** [std::tolower] in the C locale. *)
Definition tolower (c : ascii) : ascii :=
  let n := N_of_ascii c in
  if ((65 <=? n) && (n <=? 90))%N then ascii_of_N (n + 32) else c.

Fixpoint lower (s : string) : string :=
  match s with
  | EmptyString => EmptyString
  | String c rest => String (tolower c) (lower rest)
  end.

(** Modelled from the spec: [AreEqualIgnoreCase] of [StringUtils.h], which
    is not among the sources; enum values are matched case-insensitively. *)
Definition AreEqualIgnoreCase (a b : string) : bool :=
  String.eqb (lower a) (lower b).

Definition ParseCropType (src : string) : outcome CropType :=
  if String.eqb src "" || AreEqualIgnoreCase src "center" then Ok Center
  else if AreEqualIgnoreCase src "random" then Ok Random
  else RuntimeError.

Definition ParseJitterType (src : string) : outcome RatioJitterType :=
  if String.eqb src "" || AreEqualIgnoreCase src "none" then Ok JitterNone
  else if AreEqualIgnoreCase src "uniratio" then Ok UniRatio
  else if AreEqualIgnoreCase src "unilength" then Ok UniLength
  else if AreEqualIgnoreCase src "uniarea" then Ok UniArea
  else RuntimeError.

(** ** ScaleTransformer *)

Module Scale.

(** OpenCV's interpolation flags. *)
Definition INTER_NEAREST : Z := 0.
Definition INTER_LINEAR : Z := 1.
Definition INTER_CUBIC : Z := 2.
Definition INTER_LANCZOS4 : Z := 4.

(** The values [InitFromConfig] reads from the stream's configuration. *)
Record Config := {
  width : Z;
  height : Z;
  channels : Z;
  interpolations : string
}.

Record ScaleTransformer := {
  m_imgWidth : Z;
  m_imgHeight : Z;
  m_imgChannels : Z;
  m_interpMap : gmap string Z;
  m_interp : list Z
}.

(** [m_interpMap] as [Initialize] fills it. *)
Definition interpMap : gmap string Z :=
  <["lanczos" := INTER_LANCZOS4]>
    (<["cubic" := INTER_CUBIC]>
       (<["linear" := INTER_LINEAR]>
          (<["nearest" := INTER_NEAREST]> ∅))).

(** The tokens [std::getline(ss, token, ':')] yields until it fails: the
    text between colons; nothing after a final colon. *)
Fixpoint getline_tokens (s : string) (token : string) : list string :=
  match s with
  | EmptyString => if String.eqb token "" then [] else [token]
  | String c rest =>
      if Ascii.eqb c ":" then token :: getline_tokens rest ""
      else getline_tokens rest (token ++ String c "")
  end.

Definition InitFromConfig (config : Config) (t : ScaleTransformer)
    : outcome ScaleTransformer :=
  let cfeat := size_t (width config * height config * channels config) in
  if (cfeat =? 0) || (cfeat >? SIZE_MAX / 2) then RuntimeError
  else
    let interp :=
      omap (fun token => m_interpMap t !! lower token)
        (getline_tokens (interpolations config) "") in
    Ok {| m_imgWidth := width config;
          m_imgHeight := height config;
          m_imgChannels := channels config;
          m_interpMap := m_interpMap t;
          m_interp := if decide (length interp = 0%nat) then [INTER_LINEAR]
                      else interp |}.

End Scale.

(** ** MeanTransformer *)

Module Mean.

(** A [cv::Mat] with elements of type [Elem]. *)
Record Mat (Elem : Type) := {
  rows : Z;
  cols : Z;
  channels : Z;
  data : list Elem
}.

Arguments rows {Elem} _.
Arguments cols {Elem} _.
Arguments channels {Elem} _.
Arguments data {Elem} _.

(** What a mean file holds: [MeanImg], [Channel], [Row], [Col]. *)
Record MeanFile (Elem : Type) := {
  MeanImg : Mat Elem;
  Channel : Z;
  Row : Z;
  Col : Z
}.

Arguments MeanImg {Elem} _.
Arguments Channel {Elem} _.
Arguments Row {Elem} _.
Arguments Col {Elem} _.

Section Mean.

Variable NDEBUG : bool.
Variable Elem : Type.

(** OpenCV: [a - b] on matrices, and [Mat::reshape(cn, rows)]. *)
Variable cv_subtract : Mat Elem -> Mat Elem -> outcome (Mat Elem).
Variable cv_reshape : Mat Elem -> Z -> Z -> outcome (Mat Elem).

(** The file system as [cv::FileStorage] sees it: the content of a mean
    file, [None] when it cannot be opened. *)
Variable read_mean_file : string -> option (MeanFile Elem).

(** [a.size() == b.size()]: [cv::Size] is (width, height) = (cols, rows). *)
Definition same_size (a b : Mat Elem) : bool :=
  (cols a =? cols b) && (rows a =? rows b).

Definition size_is (a : Mat Elem) (w h : Z) : bool :=
  (cols a =? w) && (rows a =? h).

(** [Mat::release()]. *)
Definition release (a : Mat Elem) : Mat Elem :=
  {| rows := 0; cols := 0; channels := channels a; data := [] |}.

Definition InitFromConfig (meanFile : string) (m_meanImg : Mat Elem)
    : outcome (Mat Elem) :=
  if String.eqb meanFile "" then Ok (release m_meanImg)
  else
    match read_mean_file meanFile with
    | None => RuntimeError
    | Some fs =>
        let m := MeanImg fs in
        if negb (Channel fs * Row fs * Col fs =? channels m * rows m * cols m)
        then RuntimeError
        else cv_reshape m (Channel fs) (Row fs)
    end.

Definition Apply (m_meanImg mat : Mat Elem) : outcome (Mat Elem) :=
  _ <- assert NDEBUG
         (size_is m_meanImg 0 0
          || (same_size m_meanImg mat && (channels m_meanImg =? channels mat)));;
  if same_size m_meanImg mat then cv_subtract mat m_meanImg else Ok mat.

End Mean.

End Mean.

(** ** Unknown configuration values *)

Lemma AreEqualIgnoreCase_spec (a b : string) :
  AreEqualIgnoreCase a b = true <-> lower a = lower b.
Proof. unfold AreEqualIgnoreCase. apply String.eqb_eq. Qed.

Lemma AreEqualIgnoreCase_false (a b : string) :
  AreEqualIgnoreCase a b = false <-> lower a <> lower b.
Proof. unfold AreEqualIgnoreCase. apply String.eqb_neq. Qed.

Lemma ParseCropType_error (src : string) :
  ParseCropType src = RuntimeError
  <-> src <> "" /\ lower src <> "center" /\ lower src <> "random".
Proof.
  unfold ParseCropType.
  destruct (String.eqb_spec src "") as [->|Hne]; cbn [orb].
  - split; [done|]. by intros [? _].
  - destruct (AreEqualIgnoreCase src "center") eqn:E1.
    + apply AreEqualIgnoreCase_spec in E1. split; [done|]. intros (_ & H & _). done.
    + apply AreEqualIgnoreCase_false in E1.
      destruct (AreEqualIgnoreCase src "random") eqn:E2.
      * apply AreEqualIgnoreCase_spec in E2. split; [done|]. intros (_ & _ & H). done.
      * apply AreEqualIgnoreCase_false in E2. done.
Qed.

Lemma ParseJitterType_error (src : string) :
  ParseJitterType src = RuntimeError
  <-> src <> "" /\ lower src <> "none" /\ lower src <> "uniratio"
      /\ lower src <> "unilength" /\ lower src <> "uniarea".
Proof.
  unfold ParseJitterType.
  destruct (String.eqb_spec src "") as [->|Hne]; cbn [orb].
  - split; [done|]. by intros [? _].
  - destruct (AreEqualIgnoreCase src "none") eqn:E1;
      [apply AreEqualIgnoreCase_spec in E1; split; [done|]; intros (_ & H & _); done|].
    destruct (AreEqualIgnoreCase src "uniratio") eqn:E2;
      [apply AreEqualIgnoreCase_spec in E2; split; [done|]; intros (_ & _ & H & _); done|].
    destruct (AreEqualIgnoreCase src "unilength") eqn:E3;
      [apply AreEqualIgnoreCase_spec in E3; split; [done|]; intros (_ & _ & _ & H & _); done|].
    destruct (AreEqualIgnoreCase src "uniarea") eqn:E4;
      [apply AreEqualIgnoreCase_spec in E4; split; [done|]; intros (_ & _ & _ & _ & H); done|].
    apply AreEqualIgnoreCase_false in E1, E2, E3, E4. done.
Qed.

(** The image dimensions [InitFromConfig] refuses. *)
Definition invalid_dimensions (config : Scale.Config) : Prop :=
  let cfeat :=
    size_t (Scale.width config * Scale.height config * Scale.channels config) in
  cfeat = 0 \/ cfeat > SIZE_MAX / 2.

(** C9 (as amended). An unknown [cropType] or [jitterType] value is a
    [RuntimeError] of the parser, and nothing else is. The initialization
    of ScaleTransformer fails on invalid image dimensions only: the tokens
    of [interpolations] that are not (up to case) [nearest], [linear],
    [cubic] or [lanczos] are dropped, and [linear] is used when no token is
    left. *)
Theorem unknown_configuration_values :
  (forall src, ParseCropType src = RuntimeError
        <-> src <> "" /\ lower src <> "center" /\ lower src <> "random")
  /\ (forall src, ParseJitterType src = RuntimeError
        <-> src <> "" /\ lower src <> "none" /\ lower src <> "uniratio"
            /\ lower src <> "unilength" /\ lower src <> "uniarea")
  /\ (forall config t,
        invalid_dimensions config -> Scale.InitFromConfig config t = RuntimeError)
  /\ (forall config t,
        ~ invalid_dimensions config ->
        Scale.m_interpMap t = Scale.interpMap ->
        exists t',
          Scale.InitFromConfig config t = Ok t'
          /\ let known :=
               omap (fun token => Scale.interpMap !! lower token)
                 (Scale.getline_tokens (Scale.interpolations config) "") in
             Scale.m_interp t'
             = if decide (known = []) then [Scale.INTER_LINEAR] else known).
Proof.
  split; [exact ParseCropType_error|]. split; [exact ParseJitterType_error|].
  split.
  - intros config t Hbad. unfold invalid_dimensions in Hbad. cbn zeta in Hbad.
    unfold Scale.InitFromConfig. cbn zeta.
    rewrite (proj2 (orb_true_iff _ _)); [done|].
    destruct Hbad as [H|H]; [left; by apply Z.eqb_eq|right; by apply Z.gtb_lt; lia].
  - intros config t Hok Hmap. unfold invalid_dimensions in Hok. cbn zeta in Hok.
    unfold Scale.InitFromConfig. cbn zeta.
    rewrite (proj2 (orb_false_iff _ _)).
    + eexists. split; [done|]. cbn. rewrite Hmap.
      destruct (omap _ _) as [|k known]; [by rewrite !decide_True|].
      by rewrite !decide_False.
    + split; [apply Z.eqb_neq; tauto|].
      destruct (_ >? _) eqn:E; [|done]. apply Z.gtb_lt in E. lia.
Qed.

Definition scale_32x24 : Scale.Config :=
  {| Scale.width := 32; Scale.height := 24; Scale.channels := 3;
     Scale.interpolations := "Cubic:bogus:LINEAR" |}.

Definition scale_bogus : Scale.Config :=
  {| Scale.width := 32; Scale.height := 24; Scale.channels := 3;
     Scale.interpolations := "bogus" |}.

Definition scale_fresh : Scale.ScaleTransformer :=
  {| Scale.m_imgWidth := 0; Scale.m_imgHeight := 0; Scale.m_imgChannels := 0;
     Scale.m_interpMap := Scale.interpMap; Scale.m_interp := [] |}.

Example InitFromConfig_mixed_tokens :
  Scale.m_interp <$> (match Scale.InitFromConfig scale_32x24 scale_fresh with
                      | Ok t => Some t
                      | _ => None
                      end)
  = Some [Scale.INTER_CUBIC; Scale.INTER_LINEAR].
Proof. vm_compute. reflexivity. Qed.

(** C9 (as stated) fails: [bogus] is no interpolation, and the
    initialization returns, with [linear]; the same value as [cropType] is
    an error. *)
Lemma InitFromConfig_accepts_unknown_interpolation :
  Scale.InitFromConfig scale_bogus scale_fresh
  = Ok {| Scale.m_imgWidth := 32; Scale.m_imgHeight := 24;
          Scale.m_imgChannels := 3; Scale.m_interpMap := Scale.interpMap;
          Scale.m_interp := [Scale.INTER_LINEAR] |}
  /\ ParseCropType "bogus" = RuntimeError.
Proof. split; vm_compute; reflexivity. Qed.

Lemma unknown_configuration_values_witness :
  ParseCropType "bogus" = RuntimeError
  /\ ParseJitterType "bogus" = RuntimeError
  /\ exists t',
       Scale.InitFromConfig scale_32x24 scale_fresh = Ok t'
       /\ Scale.m_interp t' = [Scale.INTER_CUBIC; Scale.INTER_LINEAR].
Proof.
  destruct unknown_configuration_values as (Hcrop & Hjitter & _ & Hscale).
  split; [apply Hcrop; by vm_compute|]. split; [apply Hjitter; by vm_compute|].
  destruct (Hscale scale_32x24 scale_fresh) as (t' & Hinit & Hinterp).
  - vm_compute. intros [H|H]; discriminate.
  - reflexivity.
  - exists t'. split; [exact Hinit|]. rewrite Hinterp. vm_compute. reflexivity.
Defined.

(** ** The mean subtraction *)

Section MeanApply.

Variable NDEBUG : bool.
Variable Elem : Type.
Variable cv_subtract : Mean.Mat Elem -> Mean.Mat Elem -> outcome (Mean.Mat Elem).
Variable cv_reshape : Mean.Mat Elem -> Z -> Z -> outcome (Mean.Mat Elem).
Variable read_mean_file : string -> option (Mean.MeanFile Elem).

Local Abbreviation Apply := (Mean.Apply NDEBUG Elem cv_subtract).
Local Abbreviation InitFromConfig :=
  (Mean.InitFromConfig Elem cv_reshape read_mean_file).

(** The guard of [Apply]: the difference [mat - m_meanImg] is taken exactly
    when the mean has the size (columns and rows) of the input; the channel
    count is not part of the test, only of the assertion. When the sizes
    differ the input is returned as it is, and so it is with an empty
    [meanFile], whose mean is the released 0 x 0 matrix, on an input that
    is not 0 x 0. In a build with assertions a mean that is neither 0 x 0
    nor of the input's size and channel count stops at the assertion. *)
Lemma Apply_guard (m_meanImg mat : Mean.Mat Elem) :
  (Mean.same_size Elem m_meanImg mat = true ->
   NDEBUG = true \/ Mean.size_is Elem m_meanImg 0 0 = true
   \/ Mean.channels m_meanImg = Mean.channels mat ->
   Apply m_meanImg mat = cv_subtract mat m_meanImg)
  /\ (Mean.same_size Elem m_meanImg mat = false ->
      NDEBUG = true \/ Mean.size_is Elem m_meanImg 0 0 = true ->
      Apply m_meanImg mat = Ok mat)
  /\ (NDEBUG = false -> Mean.size_is Elem m_meanImg 0 0 = false ->
      Mean.same_size Elem m_meanImg mat = false
      \/ Mean.channels m_meanImg <> Mean.channels mat ->
      Apply m_meanImg mat = AssertionFailed)
  /\ (InitFromConfig "" m_meanImg = Ok (Mean.release Elem m_meanImg)
      /\ (Mean.size_is Elem mat 0 0 = false ->
          Apply (Mean.release Elem m_meanImg) mat = Ok mat)).
Proof.
  unfold Mean.Apply, assert.
  split; [|split; [|split; [|split]]].
  - intros Hsize Hpre. rewrite Hsize. cbn [andb].
    destruct Hpre as [H|[H|H]]; rewrite H; [done| |].
    + by destruct NDEBUG.
    + rewrite Z.eqb_refl, orb_true_r. by destruct NDEBUG.
  - intros Hsize Hpre. rewrite Hsize. cbn [andb].
    destruct Hpre as [H|H]; rewrite H; [done|]. by destruct NDEBUG.
  - intros H1 H2 Hbad. rewrite H1, H2. cbn [orb].
    destruct Hbad as [H|Hch]; [by rewrite H|].
    apply Z.eqb_neq in Hch. rewrite Hch. by rewrite andb_false_r.
  - done.
  - intros Hmat.
    assert (Mean.same_size Elem (Mean.release Elem m_meanImg) mat = false) as H.
    { unfold Mean.same_size, Mean.size_is in *. cbn [Mean.release Mean.cols Mean.rows].
      rewrite (Z.eqb_sym 0 (Mean.cols mat)), (Z.eqb_sym 0 (Mean.rows mat)).
      exact Hmat. }
    rewrite H. by destruct NDEBUG.
Qed.

End MeanApply.




End Transformers.

(** * HeapMemoryProvider *)

Module HeapMemoryProvider.

Definition size_of_first_pointer : Z := 8.

Definition nullptr : Z := 0.

(** The heap as the provider uses it: the blocks [::operator new] has
    handed out (base address and size), the pointer-sized words written
    into them, and the address of the next block. *)
Record Heap := {
  blocks : gmap Z Z;
  words : gmap Z Z;
  next_block : Z
}.

(** What a call does to the heap, in order. *)
Inductive Access :=
  | New (base size : Z)
  | WriteWord (address value : Z)
  | ReadWord (address : Z)
  | Delete (base : Z).

(** [::operator new(size)]: a fresh block, 16-aligned. *)
Definition operator_new (size : Z) (h : Heap) : Z * Heap :=
  let base := next_block h in
  (base, {| blocks := <[base := size]> (blocks h);
            words := words h;
            next_block := base + (size + 15) / 16 * 16 |}).

(** Whether [a] is a power of two. *)
Definition is_power_of_two (a : Z) : bool :=
  (0 <? a) && (a =? 2 ^ Z.log2 a).

(** [std::align(alignment, size, ptr, space)] of the standard library. The
    standard requires [alignment] to be a power of two, and the behaviour
    is undefined otherwise (the implementations compute with a bit mask,
    which then gives an address that is no multiple of [alignment]). For a
    power of two it is the first address at or after [ptr] that is a
    multiple of [alignment], null when [size] bytes from there do not fit
    in [space]. *)
Definition std_align (alignment size ptr space : Z) : outcome Z :=
  if is_power_of_two alignment then
    let aligned := (ptr + alignment - 1) / alignment * alignment in
    Ok (if aligned - ptr + size <=? space then aligned else nullptr)
  else Undefined.

Definition Alloc (elementSize numberOfElements : Z) (h : Heap)
    : outcome (Z * Heap * list Access) :=
  let alignment := Z.max elementSize size_of_first_pointer in
  let request_size := size_t (elementSize * numberOfElements + alignment) in
  let needed := size_t (size_of_first_pointer + request_size) in
  let '(allocated, h1) := operator_new needed h in
  let allowed_space := allocated + size_of_first_pointer in
  p <- std_align alignment elementSize allowed_space request_size;;
  if p =? nullptr then Undefined
  else
    Ok (p,
        {| blocks := blocks h1;
           words := <[p - size_of_first_pointer := allocated]> (words h1);
           next_block := next_block h1 |},
        [New allocated needed; WriteWord (p - size_of_first_pointer) allocated]).

Definition Free (p : Z) (h : Heap) : outcome (Heap * list Access) :=
  if p =? nullptr then Ok (h, [])
  else
    match words h !! (p - size_of_first_pointer) with
    | None => Undefined
    | Some alloc =>
        match blocks h !! alloc with
        | None => Undefined
        | Some _ =>
            Ok ({| blocks := delete alloc (blocks h);
                   words := words h;
                   next_block := next_block h |},
                [ReadWord (p - size_of_first_pointer); Delete alloc])
        end
    end.

(** C10. [Free] of the null pointer returns at once, in every heap: no
    word is read, nothing is deleted, the heap is as it was. The null
    pointer is the only one of which [Free] returns without an access. *)
Theorem Free_nullptr (h : Heap) :
  Free nullptr h = Ok (h, [])
  /\ forall p h' trace, Free p h = Ok (h', trace) -> (trace = [] <-> p = nullptr).
Proof.
  split; [reflexivity|].
  intros p h' trace H. unfold Free in H.
  destruct (p =? nullptr) eqn:E.
  - apply Z.eqb_eq in E. by simplify_eq.
  - apply Z.eqb_neq in E.
    destruct (words h !! (p - size_of_first_pointer)) as [alloc|]; [|done].
    destruct (blocks h !! alloc); [|done].
    simplify_eq. split; [done|]. intros ?. done.
Qed.

(** A pointer [Alloc] has returned is not null, and [Free] of it reads the
    word before it and deletes the block [Alloc] got. *)
Lemma Free_Alloc (elementSize numberOfElements : Z) (h h1 : Heap) (p : Z)
    (trace : list Access) :
  Alloc elementSize numberOfElements h = Ok (p, h1, trace) ->
  p <> nullptr
  /\ Free p h1
     = Ok ({| blocks := delete (next_block h) (blocks h1);
              words := words h1;
              next_block := next_block h1 |},
           [ReadWord (p - size_of_first_pointer); Delete (next_block h)]).
Proof.
  unfold Alloc, operator_new. cbn zeta. intros H.
  apply bind_Ok_inv in H as (q & _ & H).
  destruct (q =? nullptr) eqn:E; [done|]. simplify_eq.
  apply Z.eqb_neq in E. split; [done|].
  unfold Free. rewrite (proj2 (Z.eqb_neq _ _) E). cbn.
  rewrite lookup_insert_eq. by rewrite lookup_insert_eq.
Qed.

Definition empty_heap : Heap :=
  {| blocks := ∅; words := ∅; next_block := 4096 |}.

Lemma Free_nullptr_witness :
  Free nullptr empty_heap = Ok (empty_heap, [])
  /\ ((@nil Access) = [] <-> nullptr = nullptr).
Proof.
  destruct (Free_nullptr empty_heap) as [Hnull Honly].
  split; [exact Hnull|]. exact (Honly nullptr empty_heap [] Hnull).
Defined.

Example Alloc_then_Free :
  exists p h1 trace,
    Alloc 4 10 empty_heap = Ok (p, h1, trace)
    /\ p = 4104
    /\ exists h2, Free p h1 = Ok (h2, [ReadWord 4096; Delete 4096])
                  /\ blocks h2 = ∅.
Proof.
  do 3 eexists. split; [vm_compute; reflexivity|]. split; [reflexivity|].
  eexists. split; [vm_compute; reflexivity|]. reflexivity.
Qed.

End HeapMemoryProvider.

(** * FrameModePacker and ReaderShim *)

Module Packer.

Inductive StorageType := dense | sparse_csc | other_storage (code : Z).

Inductive ElementType := tfloat | tdouble | tatom | other_element (code : Z).

(** [GetSizeByType] of [ElementTypeUtils.h]. *)
Definition GetSizeByType (type : ElementType) : outcome Z :=
  match type with
  | tfloat => Ok 4
  | tdouble => Ok 8
  | tatom => Ok 1
  | other_element _ => RuntimeError
  end.

(** A stream description; [numElements] is
    [sampleLayout->GetNumElements()]. *)
Record StreamDescription := {
  id : Z;
  name : string;
  storageType : StorageType;
  elementType : ElementType;
  numElements : Z
}.

(** The payload of one sequence in one stream: the bytes behind [data],
    and the members the packer reads after its casts to
    [DenseSequenceData] and [SparseSequenceData]. *)
Record SequenceData := {
  data : list Byte.byte;
  numberOfSamples : Z;
  indices : list (list Z)
}.

Record Sequences := {
  m_endOfEpoch : bool;
  m_data : list (list SequenceData)
}.

(** [MBLayout] after [Init(numParallelSequences, numTimeSteps)]. *)
Record MBLayout := {
  numParallelSequences : Z;
  numTimeSteps : Z
}.

Definition GetNumCols (l : MBLayout) : Z :=
  size_t (numParallelSequences l * numTimeSteps l).

(** A stream of a minibatch. [stream_data] is the content of the stream
    buffer the pointer refers to, as the caller finds it on return. *)
Record Stream := {
  stream_data : list Byte.byte;
  dataSize : Z;
  layout : MBLayout
}.

Record Minibatch := {
  atEndOfEpoch : bool;
  minibatch : list Stream
}.

(** [std::copy] of [src] into the buffer at byte [offset]. *)
Definition write_bytes (buffer : list Byte.byte) (offset : Z) (src : list Byte.byte)
    : outcome (list Byte.byte) :=
  if decide (Z.to_nat offset + length src <= length buffer)%nat
  then Ok (take (Z.to_nat offset) buffer ++ src
           ++ drop (Z.to_nat offset + length src) buffer)
  else Undefined.

(** The [n] bytes of [src] from byte [offset] on. *)
Definition read_bytes (src : list Byte.byte) (offset n : Z) : outcome (list Byte.byte) :=
  if decide (Z.to_nat offset + Z.to_nat n <= length src)%nat
  then Ok (take (Z.to_nat n) (drop (Z.to_nat offset) src))
  else Undefined.

Section Packer.

Variable NDEBUG : bool.

(** The transformer chain the packer pulls from. *)
Variable Transformer : Type.
Variable GetNextSequences : Z -> Transformer -> outcome (Sequences * Transformer).

Record FrameModePacker := {
  m_transformer : Transformer;
  m_mbSize : Z;
  m_outputStreams : list StreamDescription;
  m_inputStreams : list StreamDescription;
  m_streamBuffers : list (list Byte.byte);
  m_minibatchLayout : MBLayout
}.

(** The scatter loop of the sparse case: the non-zero elements
    [nonZeroIndex], [nonZeroIndex + 1], ... *)
Fixpoint scatter (rows : list Z) (nonZeroIndex : Z) (source : list Byte.byte)
    (elementSize base : Z) (buffer : list Byte.byte) : outcome (list Byte.byte) :=
  match rows with
  | [] => Ok buffer
  | rowIndex :: rest =>
      element <- read_bytes source (size_t (nonZeroIndex * elementSize)) elementSize;;
      buffer' <- write_bytes buffer (size_t (base + size_t (rowIndex * elementSize)))
                   element;;
      scatter rest (nonZeroIndex + 1) source elementSize base buffer'
  end.

(** The body of the loop over [j]: sample [i], stream [j]. *)
Definition pack_stream (inputStreams : list StreamDescription) (i j : Z)
    (sequence : SequenceData) (buffers : list (list Byte.byte))
    : outcome (list (list Byte.byte)) :=
  stream <- vec_at inputStreams j;;
  elementSize <- GetSizeByType (elementType stream);;
  let dimensions := size_t (numElements stream * elementSize) in
  let source := data sequence in
  match storageType stream with
  | dense =>
      _ <- assert NDEBUG (numberOfSamples sequence =? 1);;
      bytes <- read_bytes source 0 dimensions;;
      buffer <- vec_at buffers j;;
      buffer' <- write_bytes buffer (size_t (dimensions * i)) bytes;;
      vec_set buffers j buffer'
  | sparse_csc =>
      _ <- assert NDEBUG (Z.of_nat (length (indices sequence)) =? 1);;
      buffer <- vec_at buffers j;;
      buffer0 <- write_bytes buffer (size_t (i * dimensions))
                   (replicate (Z.to_nat dimensions) Byte.x00);;
      rows <- vec_at (indices sequence) 0;;
      buffer' <- scatter rows 0 source elementSize (size_t (dimensions * i)) buffer0;;
      vec_set buffers j buffer'
  | other_storage _ => RuntimeError
  end.

Fixpoint pack_streams (inputStreams : list StreamDescription) (i j : Z)
    (sample : list SequenceData) (buffers : list (list Byte.byte))
    : outcome (list (list Byte.byte)) :=
  match sample with
  | [] => Ok buffers
  | sequence :: rest =>
      buffers' <- pack_stream inputStreams i j sequence buffers;;
      pack_streams inputStreams i (j + 1) rest buffers'
  end.

Fixpoint pack_samples (inputStreams : list StreamDescription) (i : Z)
    (samples : list (list SequenceData)) (buffers : list (list Byte.byte))
    : outcome (list (list Byte.byte)) :=
  match samples with
  | [] => Ok buffers
  | sample :: rest =>
      _ <- assert NDEBUG (Z.of_nat (length buffers) =? Z.of_nat (length sample));;
      buffers' <- pack_streams inputStreams i 0 sample buffers;;
      pack_samples inputStreams (i + 1) rest buffers'
  end.

(** The loop over the output streams that fills [m.minibatch]. *)
Fixpoint output_streams (outputStreams : list StreamDescription) (i : Z)
    (buffers : list (list Byte.byte)) (count : Z) (l : MBLayout)
    : outcome (list Stream) :=
  match outputStreams with
  | [] => Ok []
  | stream :: rest =>
      elementSize <- GetSizeByType (elementType stream);;
      let dimensions := size_t (numElements stream * elementSize) in
      buffer <- vec_at buffers i;;
      streams <- output_streams rest (i + 1) buffers count l;;
      Ok ({| stream_data := buffer;
             dataSize := size_t (count * dimensions);
             layout := l |} :: streams)
  end.

Definition ReadMinibatch (p : FrameModePacker) : outcome (Minibatch * FrameModePacker) :=
  _ <- assert NDEBUG (0 <? m_mbSize p);;
  '(images, transformer') <- GetNextSequences (m_mbSize p) (m_transformer p);;
  let atEnd := if m_endOfEpoch images then true else false in
  buffers <- pack_samples (m_inputStreams p) 0 (m_data images) (m_streamBuffers p);;
  let count := Z.of_nat (length (m_data images)) in
  if count =? 0 then
    Ok ({| atEndOfEpoch := atEnd; minibatch := [] |},
        {| m_transformer := transformer';
           m_mbSize := m_mbSize p;
           m_outputStreams := m_outputStreams p;
           m_inputStreams := m_inputStreams p;
           m_streamBuffers := buffers;
           m_minibatchLayout := m_minibatchLayout p |})
  else
    let l := {| numParallelSequences := count; numTimeSteps := 1 |} in
    streams <- output_streams (m_outputStreams p) 0 buffers count l;;
    Ok ({| atEndOfEpoch := atEnd; minibatch := streams |},
        {| m_transformer := transformer';
           m_mbSize := m_mbSize p;
           m_outputStreams := m_outputStreams p;
           m_inputStreams := m_inputStreams p;
           m_streamBuffers := buffers;
           m_minibatchLayout := l |}).

(** ** ReaderShim *)

(** A [Matrix<ElemType>] of the caller. *)
Record Matrix := {
  deviceId : Z;
  numRows : Z;
  numCols : Z;
  values : list Byte.byte
}.

(** [sizeof(ElemType)]. *)
Variable sizeofElemType : Z.

(** The shim; its reader is the packer of the pipeline (the [Reader] class
    between the two is not among the sources). *)
Record ReaderShim := {
  m_layout : MBLayout;
  m_reader : FrameModePacker;
  m_streams : list StreamDescription;
  m_nameToStreamId : gmap string Z;
  shim_endOfEpoch : bool
}.

(** [SetValue(rowNumber, columnNumber, deviceId, data, matrixFlagNormal)]:
    the matrix takes its elements from [data]. *)
Definition SetValue (rowNumber columnNumber device : Z) (source : list Byte.byte)
    : outcome Matrix :=
  bytes <- read_bytes source 0 (size_t (rowNumber * columnNumber) * sizeofElemType);;
  Ok {| deviceId := device; numRows := rowNumber; numCols := columnNumber;
        values := bytes |}.

(** The loop that copies the minibatch to the matrices. [operator[]] on
    [m_nameToStreamId] enters an unknown name with stream id 0. *)
Fixpoint copy_to_matrices (m : Minibatch) (streams : list StreamDescription)
    (matrices : list (string * Matrix)) (names : gmap string Z) (l : MBLayout)
    : outcome (list (string * Matrix) * gmap string Z * MBLayout) :=
  match matrices with
  | [] => Ok ([], names, l)
  | (mxname, mx) :: rest =>
      _ <- assert NDEBUG (bool_decide (is_Some (names !! mxname)));;
      let streamId := default 0 (names !! mxname) in
      let names' := <[mxname := streamId]> names in
      stream <- vec_at (minibatch m) streamId;;
      let l' := layout stream in
      let columnNumber := GetNumCols l' in
      description <- vec_at streams streamId;;
      let rowNumber := numElements description in
      mx' <- SetValue rowNumber columnNumber (deviceId mx) (stream_data stream);;
      '(rest', names'', l'') <- copy_to_matrices m streams rest names' l';;
      Ok ((mxname, mx') :: rest', names'', l'')
  end.

(** [matrices] is the [std::map] of the caller, in key order. *)
Definition GetMinibatch (sh : ReaderShim) (matrices : list (string * Matrix))
    : outcome (bool * ReaderShim * list (string * Matrix)) :=
  if shim_endOfEpoch sh then Ok (false, sh, matrices)
  else
    match matrices with
    | [] => Undefined
    | (_, first) :: _ =>
        _ <- assert NDEBUG
               (forallb (fun mx => deviceId mx.2 =? deviceId first) matrices);;
        '(m, reader') <- ReadMinibatch (m_reader sh);;
        let endOfEpoch := if atEndOfEpoch m then true else shim_endOfEpoch sh in
        let sh1 := {| m_layout := m_layout sh; m_reader := reader';
                      m_streams := m_streams sh;
                      m_nameToStreamId := m_nameToStreamId sh;
                      shim_endOfEpoch := endOfEpoch |} in
        if atEndOfEpoch m && bool_decide (minibatch m = []) then
          Ok (false, sh1, matrices)
        else if bool_decide (minibatch m = []) then Ok (false, sh1, matrices)
        else
          '(matrices', names', l') <-
            copy_to_matrices m (m_streams sh1) matrices (m_nameToStreamId sh1)
              (m_layout sh1);;
          Ok (true,
              {| m_layout := l'; m_reader := reader';
                 m_streams := m_streams sh1;
                 m_nameToStreamId := names';
                 shim_endOfEpoch := endOfEpoch |},
              matrices')
    end.

End Packer.

Arguments m_transformer {Transformer} _.
Arguments m_mbSize {Transformer} _.
Arguments m_outputStreams {Transformer} _.
Arguments m_inputStreams {Transformer} _.
Arguments m_streamBuffers {Transformer} _.
Arguments m_minibatchLayout {Transformer} _.
Arguments m_layout {Transformer} _.
Arguments m_reader {Transformer} _.
Arguments m_streams {Transformer} _.
Arguments m_nameToStreamId {Transformer} _.
Arguments shim_endOfEpoch {Transformer} _.

(** ** Packing *)

Definition sizeOf (type : ElementType) : Z :=
  match type with
  | tfloat => 4
  | tdouble => 8
  | tatom => 1
  | other_element _ => 0
  end.

(** The bytes of one sample in a stream. *)
Definition dimensions (stream : StreamDescription) : Z :=
  numElements stream * sizeOf (elementType stream).

Definition known_type (type : ElementType) : Prop :=
  match type with
  | other_element _ => False
  | _ => True
  end.

Lemma GetSizeByType_known type :
  known_type type -> GetSizeByType type = Ok (sizeOf type).
Proof. by destruct type. Qed.

(** The bytes the packer takes from sample [sample] for stream [j] of
    description [stream]. *)
Definition sample_bytes (stream : StreamDescription) (j : nat)
    (sample : list SequenceData) : list Byte.byte :=
  match sample !! j with
  | Some sequence => take (Z.to_nat (dimensions stream)) (data sequence)
  | None => []
  end.

Lemma write_bytes_prefix (buffer src : list Byte.byte) (offset : nat) :
  (offset + length src <= length buffer)%nat ->
  let buffer' := take offset buffer ++ src ++ drop (offset + length src) buffer in
  length buffer' = length buffer
  /\ take (offset + length src) buffer' = take offset buffer ++ src.
Proof.
  intros H. cbn zeta. split.
  - rewrite !length_app, length_take, length_drop. lia.
  - rewrite app_assoc, take_app_length'; [done|].
    rewrite length_app, length_take. lia.
Qed.

Section Packing.

Variable NDEBUG : bool.
Variable Transformer : Type.
Variable GetNextSequences : Z -> Transformer -> outcome (Sequences * Transformer).

Local Abbreviation FrameModePacker := (FrameModePacker Transformer).
Local Abbreviation ReadMinibatch := (ReadMinibatch NDEBUG Transformer GetNextSequences).

(** A frame-mode batch that fits the packer [p]: every sample has one dense
    single-sample sequence per stream, with at least the bytes of a sample;
    the stream buffers hold [m_mbSize] samples, and the batch has no more. *)
Record fits (p : FrameModePacker) (samples : list (list SequenceData)) : Prop := {
  fits_mbSize : 0 < m_mbSize p;
  fits_count : Z.of_nat (length samples) <= m_mbSize p;
  fits_inputs : length (m_inputStreams p) = length (m_streamBuffers p);
  fits_outputs : length (m_outputStreams p) = length (m_streamBuffers p);
  fits_input : forall (j : nat) stream,
    m_inputStreams p !! j = Some stream ->
    storageType stream = dense /\ known_type (elementType stream)
    /\ 0 <= numElements stream
    /\ in_size_t (dimensions stream * m_mbSize p)
    /\ exists buffer, m_streamBuffers p !! j = Some buffer
         /\ dimensions stream * m_mbSize p <= Z.of_nat (length buffer);
  fits_output : forall (j : nat) stream,
    m_outputStreams p !! j = Some stream ->
    known_type (elementType stream)
    /\ 0 <= numElements stream
    /\ in_size_t (dimensions stream * m_mbSize p);
  fits_sample : forall (i : nat) sample,
    samples !! i = Some sample ->
    length sample = length (m_streamBuffers p)
    /\ forall (j : nat) sequence stream,
         sample !! j = Some sequence -> m_inputStreams p !! j = Some stream ->
         numberOfSamples sequence = 1
         /\ dimensions stream <= Z.of_nat (length (data sequence))
}.

Lemma sizeOf_nonneg type : 0 <= sizeOf type.
Proof. destruct type; simpl; lia. Qed.

Lemma pack_stream_dense (inputStreams : list StreamDescription) (i j : nat)
    (stream : StreamDescription) (sequence : SequenceData)
    (buffers : list (list Byte.byte)) (buffer : list Byte.byte) :
  inputStreams !! j = Some stream ->
  storageType stream = dense -> known_type (elementType stream) ->
  0 <= numElements stream ->
  in_size_t (dimensions stream * (Z.of_nat i + 1)) ->
  numberOfSamples sequence = 1 ->
  dimensions stream <= Z.of_nat (length (data sequence)) ->
  buffers !! j = Some buffer ->
  dimensions stream * (Z.of_nat i + 1) <= Z.of_nat (length buffer) ->
  let D := Z.to_nat (dimensions stream) in
  pack_stream NDEBUG inputStreams (Z.of_nat i) (Z.of_nat j) sequence buffers
  = Ok (<[j := take (D * i) buffer ++ take D (data sequence)
               ++ drop (D * i + D) buffer]> buffers).
Proof.
  intros Hstream Hdense Hknown Hn Hrange Hone Hdata Hbuffer Hlen D.
  pose proof (sizeOf_nonneg (elementType stream)) as Hs.
  assert (0 <= dimensions stream) as HD by (unfold dimensions; lia).
  unfold pack_stream, vec_at. rewrite Nat2Z.id, Hstream. cbn [bind].
  rewrite (GetSizeByType_known _ Hknown). cbn [bind]. fold (dimensions stream).
  unfold in_size_t in Hrange.
  rewrite (size_t_id (dimensions stream)) by (unfold in_size_t; nia).
  rewrite Hdense, Hone. cbn [Z.eqb Pos.eqb].
  assert (assert NDEBUG true = Ok tt) as -> by (by destruct NDEBUG). cbn [bind].
  unfold read_bytes. rewrite decide_True by (cbn; lia). cbn [bind].
  rewrite Hbuffer. cbn [bind].
  rewrite size_t_id by (unfold in_size_t; nia).
  unfold write_bytes. rewrite length_take.
  replace (Z.to_nat (dimensions stream * Z.of_nat i)) with (D * i)%nat by (unfold D; nia).
  change (Z.to_nat 0) with 0%nat. rewrite drop_0.
  fold D.
  assert (D `min` length (data sequence) = D)%nat as -> by (unfold D; lia).
  rewrite decide_True by (unfold D; nia). cbn [bind].
  unfold vec_set. rewrite Nat2Z.id.
  rewrite decide_True by (by eapply lookup_lt_Some). done.
Qed.

(** Stream [j] after the samples [done]: its buffer has kept its length,
    and starts with the bytes of these samples, one after the other. *)
Definition packed (inputStreams : list StreamDescription)
    (buffers0 buffers : list (list Byte.byte))
    (done : list (list SequenceData)) (j : nat) : Prop :=
  forall stream, inputStreams !! j = Some stream ->
    exists buffer0 buffer,
      buffers0 !! j = Some buffer0 /\ buffers !! j = Some buffer
      /\ length buffer = length buffer0
      /\ take (Z.to_nat (dimensions stream) * length done) buffer
         = concat (map (sample_bytes stream j) done).

Section PackSample.

Variable p : FrameModePacker.
Variable done : list (list SequenceData).
Variable sample : list SequenceData.

Hypothesis Hmb : Z.of_nat (length done) + 1 <= m_mbSize p.
Hypothesis Hinputs : length (m_inputStreams p) = length (m_streamBuffers p).
Hypothesis Hsample : length sample = length (m_streamBuffers p).
Hypothesis Hinput : forall (j : nat) stream,
  m_inputStreams p !! j = Some stream ->
  storageType stream = dense /\ known_type (elementType stream)
  /\ 0 <= numElements stream
  /\ in_size_t (dimensions stream * m_mbSize p)
  /\ exists buffer, m_streamBuffers p !! j = Some buffer
       /\ dimensions stream * m_mbSize p <= Z.of_nat (length buffer).
Hypothesis Hsequence : forall (j : nat) sequence stream,
  sample !! j = Some sequence -> m_inputStreams p !! j = Some stream ->
  numberOfSamples sequence = 1
  /\ dimensions stream <= Z.of_nat (length (data sequence)).

Lemma pack_streams_packed (rest : list SequenceData) :
  forall (before : list SequenceData) (buffers : list (list Byte.byte)),
    sample = before ++ rest ->
    length buffers = length (m_streamBuffers p) ->
    (forall j, (j < length before)%nat ->
       packed (m_inputStreams p) (m_streamBuffers p) buffers (done ++ [sample]) j) ->
    (forall j, (length before <= j)%nat ->
       packed (m_inputStreams p) (m_streamBuffers p) buffers done j) ->
    exists buffers',
      pack_streams NDEBUG (m_inputStreams p) (Z.of_nat (length done))
        (Z.of_nat (length before)) rest buffers = Ok buffers'
      /\ length buffers' = length (m_streamBuffers p)
      /\ forall j,
           packed (m_inputStreams p) (m_streamBuffers p) buffers' (done ++ [sample]) j.
Proof.
  induction rest as [|sequence rest IH]; intros before buffers Hsplit Hlen Hnew Hold.
  - exists buffers. split; [done|]. split; [done|]. intros j.
    destruct (decide (j < length before)%nat); [by apply Hnew|].
    intros stream Hstream. apply lookup_lt_Some in Hstream.
    rewrite app_nil_r in Hsplit. subst before. lia.
  - cbn [pack_streams].
    set (j0 := length before).
    assert (sample !! j0 = Some sequence) as Hseq.
    { rewrite Hsplit. by rewrite list_lookup_middle. }
    assert (j0 < length (m_inputStreams p))%nat as Hj0.
    { apply lookup_lt_Some in Hseq. lia. }
    destruct (lookup_lt_is_Some_2 _ _ Hj0) as [stream Hstream].
    destruct (Hinput j0 stream Hstream)
      as (Hdense & Hknown & Hn & Hrange & buffer0 & Hbuffer0 & Hcap).
    destruct (Hsequence j0 sequence stream Hseq Hstream) as [Hone Hdata].
    destruct (Hold j0 ltac:(lia) stream Hstream)
      as (buffer0' & buffer & Hb0 & Hb & Hblen & Hprefix).
    simplify_eq.
    pose proof (sizeOf_nonneg (elementType stream)) as Hs.
    assert (0 <= dimensions stream) as HD by (unfold dimensions; lia).
    unfold in_size_t in Hrange.
    rewrite (pack_stream_dense (m_inputStreams p) (length done) j0 stream sequence
               buffers buffer Hstream Hdense Hknown Hn)
      by (unfold in_size_t; try done; nia).
    cbn [bind]. cbn zeta.
    set (D := Z.to_nat (dimensions stream)) in *.
    set (buffer' := take (D * length done) buffer ++ take D (data sequence)
                    ++ drop (D * length done + D) buffer).
    assert (length (take D (data sequence)) = D) as HlenD
      by (rewrite length_take; unfold D; lia).
    destruct (write_bytes_prefix buffer (take D (data sequence)) (D * length done))
      as [Hlen' Hprefix']; [rewrite HlenD; unfold D; nia|].
    rewrite HlenD in Hlen', Hprefix'. fold buffer' in Hlen', Hprefix'.
    replace (Z.of_nat j0 + 1) with (Z.of_nat (length (before ++ [sequence])))
      by (rewrite length_app; simpl; lia).
    apply IH.
    + by rewrite <- app_assoc.
    + by rewrite length_insert.
    + intros j Hj. rewrite length_app in Hj. simpl in Hj.
      destruct (decide (j = j0)) as [->|Hne].
      * intros stream' Hstream'. simplify_eq.
        exists buffer0, buffer'. split; [done|].
        split; [by rewrite list_lookup_insert_eq by (by eapply lookup_lt_Some)|].
        split; [lia|].
        rewrite length_app, map_app, concat_app. cbn [length map concat].
        rewrite app_nil_r.
        replace (Z.to_nat (dimensions stream) * (length done + 1))%nat
          with (Z.to_nat (dimensions stream) * length done
                + Z.to_nat (dimensions stream))%nat by lia.
        rewrite Hprefix', Hprefix. f_equal.
        unfold sample_bytes. by rewrite Hseq.
      * intros stream' Hstream'.
        destruct (Hnew j ltac:(unfold j0 in *; lia) stream' Hstream')
          as (b0 & b & ? & ? & ? & ?).
        exists b0, b. by rewrite list_lookup_insert_ne.
    + intros j Hj. rewrite length_app in Hj. simpl in Hj.
      intros stream' Hstream'.
      destruct (Hold j ltac:(lia) stream' Hstream') as (b0 & b & ? & ? & ? & ?).
      exists b0, b. rewrite list_lookup_insert_ne by (unfold j0; lia). done.
Qed.

End PackSample.

Lemma pack_samples_packed (p : FrameModePacker) (samples : list (list SequenceData)) :
  fits p samples ->
  forall (rest done : list (list SequenceData)) (buffers : list (list Byte.byte)),
    samples = done ++ rest ->
    length buffers = length (m_streamBuffers p) ->
    (forall j, packed (m_inputStreams p) (m_streamBuffers p) buffers done j) ->
    exists buffers',
      pack_samples NDEBUG (m_inputStreams p) (Z.of_nat (length done)) rest buffers
        = Ok buffers'
      /\ length buffers' = length (m_streamBuffers p)
      /\ forall j, packed (m_inputStreams p) (m_streamBuffers p) buffers' samples j.
Proof.
  intros Hfits.
  induction rest as [|sample rest IH]; intros done buffers Hsplit Hlen Hdone.
  - exists buffers. rewrite app_nil_r in Hsplit. by subst.
  - cbn [pack_samples].
    assert (samples !! length done = Some sample) as Hsample
      by (rewrite Hsplit; by rewrite list_lookup_middle).
    destruct (fits_sample p samples Hfits _ _ Hsample) as [Hk Hseq].
    rewrite Hlen, Hk, Z.eqb_refl.
    assert (assert NDEBUG true = Ok tt) as -> by (by destruct NDEBUG). cbn [bind].
    pose proof (fits_count p samples Hfits) as Hcount.
    rewrite Hsplit, length_app in Hcount. simpl in Hcount.
    destruct (pack_streams_packed p done sample ltac:(lia)
                (fits_inputs p samples Hfits) Hk (fits_input p samples Hfits) Hseq
                sample [] buffers eq_refl Hlen)
      as (buffers1 & Hpack & Hlen1 & Hpacked1).
    + simpl. intros; lia.
    + intros j _. apply Hdone.
    + change (Z.of_nat (length (@nil SequenceData))) with 0 in Hpack.
      rewrite Hpack. cbn [bind].
      replace (Z.of_nat (length done) + 1) with (Z.of_nat (length (done ++ [sample])))
        by (rewrite length_app; simpl; lia).
      apply IH; [by rewrite <- app_assoc|done|done].
Qed.

Lemma output_streams_Ok (buffers : list (list Byte.byte)) (count mb : Z) (l : MBLayout) :
  0 <= count <= mb -> 0 < mb ->
  forall (outs : list StreamDescription) (i0 : nat),
    (forall (t : nat) os, outs !! t = Some os ->
       known_type (elementType os) /\ 0 <= numElements os
       /\ in_size_t (dimensions os * mb)) ->
    (i0 + length outs <= length buffers)%nat ->
    exists streams,
      output_streams outs (Z.of_nat i0) buffers count l = Ok streams
      /\ length streams = length outs
      /\ forall (t : nat) os st,
           outs !! t = Some os -> streams !! t = Some st ->
           dataSize st = count * dimensions os /\ layout st = l
           /\ buffers !! (i0 + t)%nat = Some (stream_data st).
Proof.
  intros Hcount Hmb. induction outs as [|os outs IH]; intros i0 Hknown Hlen.
  - exists []. split; [done|]. split; [done|]. intros t ? ? H. done.
  - cbn [output_streams]. simpl in Hlen.
    destruct (Hknown 0%nat os eq_refl) as (Hk & Hn & Hrange).
    rewrite (GetSizeByType_known _ Hk). cbn [bind].
    destruct (lookup_lt_is_Some_2 buffers i0 ltac:(lia)) as [buffer Hbuffer].
    unfold vec_at. rewrite Nat2Z.id, Hbuffer. cbn [bind].
    replace (Z.of_nat i0 + 1) with (Z.of_nat (S i0)) by lia.
    destruct (IH (S i0)) as (streams & -> & Hlens & Hstreams).
    + intros t os' Hos'. apply (Hknown (S t) os' Hos').
    + lia.
    + cbn [bind]. eexists. split; [done|]. split; [by simpl; rewrite Hlens|].
      intros [|t] os' st Hos' Hst; simpl in Hos', Hst; simplify_eq.
      * cbn. fold (dimensions os').
        pose proof (sizeOf_nonneg (elementType os')) as Hs.
        assert (0 <= dimensions os') by (unfold dimensions; lia).
        unfold in_size_t in Hrange.
        assert (dimensions os' <= dimensions os' * mb) by nia.
        assert (count * dimensions os' <= dimensions os' * mb) by nia.
        assert (0 <= count * dimensions os') by nia.
        rewrite (size_t_id (dimensions os')) by (unfold in_size_t; lia).
        rewrite size_t_id by (unfold in_size_t; lia).
        split; [done|]. split; [done|]. by rewrite Nat.add_0_r.
      * destruct (Hstreams t os' st Hos' Hst) as (? & ? & Hb).
        split; [done|]. split; [done|].
        by replace (i0 + S t)%nat with (S i0 + t)%nat by lia.
Qed.

(** The packer on a last batch that is not empty. *)
Lemma ReadMinibatch_last_batch (p : FrameModePacker) (images : Sequences)
    (transformer' : Transformer) :
  GetNextSequences (m_mbSize p) (m_transformer p) = Ok (images, transformer') ->
  m_endOfEpoch images = true -> m_data images <> [] -> fits p (m_data images) ->
  let count := Z.of_nat (length (m_data images)) in
  exists m p',
    ReadMinibatch p = Ok (m, p')
    /\ atEndOfEpoch m = true
    /\ length (minibatch m) = length (m_outputStreams p)
    /\ (forall (j : nat) os st,
          m_outputStreams p !! j = Some os -> minibatch m !! j = Some st ->
          dataSize st = count * dimensions os
          /\ layout st = {| numParallelSequences := count; numTimeSteps := 1 |}
          /\ m_streamBuffers p' !! j = Some (stream_data st))
    /\ (forall (j : nat) stream,
          m_inputStreams p !! j = Some stream ->
          exists buffer,
            m_streamBuffers p' !! j = Some buffer
            /\ take (Z.to_nat (dimensions stream) * length (m_data images)) buffer
               = concat (map (sample_bytes stream j) (m_data images))).
Proof.
  intros Hnext Hend Hdata Hfits count.
  unfold Packer.ReadMinibatch.
  rewrite (proj2 (Z.ltb_lt _ _) (fits_mbSize p _ Hfits)).
  assert (assert NDEBUG true = Ok tt) as -> by (by destruct NDEBUG).
  cbn [bind]. rewrite Hnext. cbn [bind]. rewrite Hend.
  destruct (pack_samples_packed p (m_data images) Hfits (m_data images) []
              (m_streamBuffers p) eq_refl eq_refl)
    as (buffers & Hpack & Hlen & Hpacked).
  { intros j stream Hstream.
    destruct (fits_input p _ Hfits j stream Hstream)
      as (_ & _ & _ & _ & buffer & Hbuffer & _).
    exists buffer, buffer. by rewrite Nat.mul_0_r, take_0. }
  change (Z.of_nat (length (@nil (list SequenceData)))) with 0 in Hpack.
  rewrite Hpack. cbn [bind]. fold count.
  assert (0 < count) as Hpos.
  { unfold count. destruct (m_data images); [done|]. simpl. lia. }
  rewrite (proj2 (Z.eqb_neq count 0)) by lia.
  destruct (output_streams_Ok buffers count (m_mbSize p)
              {| numParallelSequences := count; numTimeSteps := 1 |}
              ltac:(pose proof (fits_count p _ Hfits); unfold count; lia)
              (fits_mbSize p _ Hfits)
              (m_outputStreams p) 0%nat (fits_output p _ Hfits))
    as (streams & Hstreams & Hlens & Hout).
  { rewrite (fits_outputs p _ Hfits), Hlen. simpl. lia. }
  change (Z.of_nat 0) with 0 in Hstreams. rewrite Hstreams. cbn [bind].
  eexists. eexists. split; [done|]. cbn.
  split; [done|]. split; [done|]. split.
  - intros j os st Hos Hst. by apply Hout.
  - intros j stream Hstream.
    destruct (Hpacked j stream Hstream) as (b0 & b & _ & Hb & _ & Hprefix). eauto.
Qed.

(** ** The shim at the end of the epoch *)

Variable sizeofElemType : Z.

Local Abbreviation ReaderShim := (ReaderShim Transformer).
Local Abbreviation GetMinibatch :=
  (GetMinibatch NDEBUG Transformer GetNextSequences sizeofElemType).

Lemma GetMinibatch_after_end (sh : ReaderShim) (matrices : list (string * Matrix)) :
  shim_endOfEpoch sh = true -> GetMinibatch sh matrices = Ok (false, sh, matrices).
Proof. intros H. unfold Packer.GetMinibatch. by rewrite H. Qed.

Lemma GetMinibatch_at_end (sh sh' : ReaderShim) (matrices matrices' : list (string * Matrix))
    (b : bool) (m : Minibatch) (p' : FrameModePacker) :
  shim_endOfEpoch sh = false ->
  ReadMinibatch (m_reader sh) = Ok (m, p') -> atEndOfEpoch m = true ->
  GetMinibatch sh matrices = Ok (b, sh', matrices') ->
  shim_endOfEpoch sh' = true /\ m_reader sh' = p'
  /\ (b = true <-> minibatch m <> []).
Proof.
  intros Hnot Hread Hend H. unfold Packer.GetMinibatch in H.
  rewrite Hnot in H. destruct matrices as [|[name0 first] rest]; [done|].
  apply bind_Ok_inv in H as ([] & _ & H).
  rewrite Hread in H. cbn [bind] in H. rewrite Hend in H. cbn [andb] in H.
  destruct (bool_decide (minibatch m = [])) eqn:E.
  - apply bool_decide_eq_true in E. simplify_eq. cbn. by rewrite E.
  - apply bool_decide_eq_false in E.
    apply bind_Ok_inv in H as ([[ms names] l] & _ & H). simplify_eq. cbn. done.
Qed.

(** C7. When the transformer chain reports the end of the epoch with a
    batch of [n > 0] samples that fits the packer, [ReadMinibatch] returns
    a minibatch with [atEndOfEpoch = true] that has one stream per output
    stream, of [n] columns and [n] samples' worth of bytes, and each stream
    buffer starts with the bytes of the [n] samples in order. The
    [GetMinibatch] call that receives it records the end of the epoch (and
    returns true when there is a stream to hand out); the call after that
    returns false, leaves every matrix as it is and does not touch the
    reader. *)
Theorem partial_minibatch_then_end (sh : ReaderShim) (images : Sequences)
    (transformer' : Transformer) :
  let p := m_reader sh in
  let count := Z.of_nat (length (m_data images)) in
  GetNextSequences (m_mbSize p) (m_transformer p) = Ok (images, transformer') ->
  m_endOfEpoch images = true -> m_data images <> [] -> fits p (m_data images) ->
  exists m p',
    ReadMinibatch p = Ok (m, p')
    /\ atEndOfEpoch m = true
    /\ length (minibatch m) = length (m_outputStreams p)
    /\ (forall (j : nat) os st,
          m_outputStreams p !! j = Some os -> minibatch m !! j = Some st ->
          dataSize st = count * dimensions os
          /\ layout st = {| numParallelSequences := count; numTimeSteps := 1 |}
          /\ m_streamBuffers p' !! j = Some (stream_data st))
    /\ (forall (j : nat) stream,
          m_inputStreams p !! j = Some stream ->
          exists buffer,
            m_streamBuffers p' !! j = Some buffer
            /\ take (Z.to_nat (dimensions stream) * length (m_data images)) buffer
               = concat (map (sample_bytes stream j) (m_data images)))
    /\ forall matrices b sh' matrices',
         shim_endOfEpoch sh = false ->
         GetMinibatch sh matrices = Ok (b, sh', matrices') ->
         (b = true <-> m_outputStreams p <> [])
         /\ m_reader sh' = p'
         /\ forall matrices2, GetMinibatch sh' matrices2 = Ok (false, sh', matrices2).
Proof.
  intros p count Hnext Hend Hdata Hfits.
  destruct (ReadMinibatch_last_batch p images transformer' Hnext Hend Hdata Hfits)
    as (m & p' & Hread & Hflag & Hlen & Hout & Hin).
  exists m, p'. do 5 (split; [done|]).
  intros matrices b sh' matrices' Hnot Hget.
  destruct (GetMinibatch_at_end sh sh' matrices matrices' b m p' Hnot Hread Hflag Hget)
    as (Hend' & Hreader & Hb).
  split; [|split; [done|]].
  - rewrite Hb. split; intros H1 H2.
    + rewrite H2 in Hlen. by destruct (minibatch m).
    + rewrite H2 in Hlen. by destruct (m_outputStreams p).
  - intros matrices2. by apply GetMinibatch_after_end.
Qed.

End Packing.

(** ** A concrete pipeline *)

(** A transformer chain that plays back the batches it holds. *)
Definition playback (count : Z) (t : list Sequences)
    : outcome (Sequences * list Sequences) :=
  match t with
  | [] => Ok ({| m_endOfEpoch := true; m_data := [] |}, [])
  | batch :: rest => Ok (batch, rest)
  end.

Definition features : StreamDescription :=
  {| id := 0; name := "features"; storageType := dense;
     elementType := tfloat; numElements := 1 |}.

(** One sample of one [float], with the end of the epoch. *)
Definition last_batch : Sequences :=
  {| m_endOfEpoch := true;
     m_data := [ [ {| data := [Byte.x01; Byte.x02; Byte.x03; Byte.x04];
                      numberOfSamples := 1; indices := [] |} ] ] |}.

Definition packer_of_two : FrameModePacker (list Sequences) :=
  {| m_transformer := [last_batch];
     m_mbSize := 2;
     m_outputStreams := [features];
     m_inputStreams := [features];
     m_streamBuffers := [replicate 8 Byte.x00];
     m_minibatchLayout := {| numParallelSequences := 0; numTimeSteps := 0 |} |}.

Definition shim_of_two : ReaderShim (list Sequences) :=
  {| m_layout := {| numParallelSequences := 1; numTimeSteps := 0 |};
     m_reader := packer_of_two;
     m_streams := [features];
     m_nameToStreamId := {[ "features" := 0 ]};
     shim_endOfEpoch := false |}.

Definition caller_matrices : list (string * Matrix) :=
  [ ("features", {| deviceId := 0; numRows := 0; numCols := 0; values := [] |}) ].

Lemma last_batch_fits : fits (list Sequences) packer_of_two (m_data last_batch).
Proof.
  assert (Hd : dimensions features = 4) by reflexivity.
  split; cbn.
  - lia.
  - lia.
  - done.
  - done.
  - intros [|j] stream H; [|done]. injection H as <-. cbn.
    unfold in_size_t, SIZE_MAX. rewrite Hd. repeat split; try lia.
    eexists. split; [done|]. cbn. lia.
  - intros [|j] stream H; [|done]. injection H as <-. cbn.
    unfold in_size_t, SIZE_MAX. rewrite Hd. repeat split; lia.
  - intros [|i] sample H; [|done]. injection H as <-. split; [done|].
    intros [|j] sequence stream H1 H2; [|done].
    injection H1 as <-. injection H2 as <-. rewrite Hd. cbn. lia.
Defined.

Lemma partial_minibatch_then_end_witness :
  exists m p',
    ReadMinibatch false (list Sequences) playback packer_of_two = Ok (m, p')
    /\ atEndOfEpoch m = true
    /\ length (minibatch m) = 1%nat
    /\ (exists buffer,
          m_streamBuffers p' !! 0%nat = Some buffer
          /\ take 4 buffer = [Byte.x01; Byte.x02; Byte.x03; Byte.x04])
    /\ forall b sh' matrices',
         GetMinibatch false (list Sequences) playback 4 shim_of_two caller_matrices
           = Ok (b, sh', matrices') ->
         b = true
         /\ forall matrices2,
              GetMinibatch false (list Sequences) playback 4 sh' matrices2
              = Ok (false, sh', matrices2).
Proof.
  destruct (partial_minibatch_then_end false (list Sequences) playback 4
              shim_of_two last_batch [] eq_refl eq_refl ltac:(discriminate)
              last_batch_fits)
    as (m & p' & Hread & Hflag & Hlen & _ & Hin & Hshim).
  exists m, p'. split; [exact Hread|]. split; [exact Hflag|]. split; [exact Hlen|].
  split.
  - destruct (Hin 0%nat features eq_refl) as (buffer & Hb & Hprefix).
    exists buffer. split; [exact Hb|exact Hprefix].
  - intros b sh' matrices' Hget.
    destruct (Hshim caller_matrices b sh' matrices' eq_refl Hget) as (Hb & _ & Hnext).
    split; [|exact Hnext]. apply Hb. discriminate.
Defined.

Example GetMinibatch_twice :
  exists sh' matrices',
    GetMinibatch false (list Sequences) playback 4 shim_of_two caller_matrices
      = Ok (true, sh', matrices')
    /\ matrices'
       = [ ("features",
            {| deviceId := 0; numRows := 1; numCols := 1;
               values := [Byte.x01; Byte.x02; Byte.x03; Byte.x04] |}) ]
    /\ GetMinibatch false (list Sequences) playback 4 sh' matrices'
       = Ok (false, sh', matrices').
Proof.
  do 2 eexists. split; [vm_compute; reflexivity|]. split; reflexivity.
Qed.

End Packer.

(** * Further properties of the block randomizer *)

Module Shuffle.

Import BR.

Section Shuffle.

Variable RAND_MAX : Z.
Variable crand : Z -> nat -> Z.

Local Abbreviation rand := (rand RAND_MAX crand).
Local Abbreviation randomShuffle_loop := (randomShuffle_loop RAND_MAX crand).
Local Abbreviation randomShuffle := (randomShuffle RAND_MAX crand).

Lemma rand_Ok (begin end_ : Z) (g g' : Rng) (r : Z) :
  rand begin end_ g = Ok (r, g') ->
  seed g' = seed g /\ drawn g' = S (S (drawn g))
  /\ size_t (end_ - begin) <> 0
  /\ crand (seed g) (drawn g) * RAND_MAX + crand (seed g) (S (drawn g)) <= INT_MAX
  /\ exists k, 0 <= k < size_t (end_ - begin) /\ r = size_t (begin + k).
Proof.
  unfold BR.rand, c_rand. cbn [seed drawn].
  destruct (_ >? INT_MAX) eqn:Eprod; [done|].
  destruct (size_t (end_ - begin) =? 0) eqn:Erange; [done|].
  intros H. simplify_eq. cbn.
  apply Z.eqb_neq in Erange.
  split; [done|]. split; [done|]. split; [done|]. split; [lia|].
  eexists. split; [|done].
  apply Z.mod_pos_bound. pose proof (size_t_range (end_ - begin)) as [? _]. lia.
Qed.

(** X2. [rand(begin, end)] takes two numbers from the C generator and, when
    it returns, returns a position of the range: [begin <= r < end]. On an
    empty range ([end = begin]: a division by zero), and when the [int]
    expression [::rand() * RAND_MAX + ::rand()] exceeds [INT_MAX], its
    behaviour is undefined. *)
Theorem rand_in_range (begin end_ : Z) (g : Rng) :
  0 <= begin -> begin <= end_ <= SIZE_MAX ->
  (forall r g', rand begin end_ g = Ok (r, g') ->
     begin <= r < end_ /\ seed g' = seed g /\ drawn g' = (drawn g + 2)%nat)
  /\ (begin = end_ -> rand begin end_ g = Undefined)
  /\ (INT_MAX < crand (seed g) (drawn g) * RAND_MAX + crand (seed g) (S (drawn g)) ->
      rand begin end_ g = Undefined)
  /\ (begin < end_ ->
      crand (seed g) (drawn g) * RAND_MAX + crand (seed g) (S (drawn g)) <= INT_MAX ->
      exists r g', rand begin end_ g = Ok (r, g')).
Proof.
  intros Hb He.
  assert (size_t (end_ - begin) = end_ - begin) as Hrange
    by (apply size_t_id; unfold in_size_t; lia).
  split; [|split; [|split]].
  - intros r g' H. apply rand_Ok in H as (Hseed & Hdrawn & Hne & _ & k & Hk & ->).
    rewrite Hrange in Hk, Hne.
    rewrite size_t_id by (unfold in_size_t; lia). lia.
  - intros ->. unfold BR.rand, c_rand. cbn [seed drawn].
    rewrite Z.sub_diag. change (size_t 0) with 0. cbn.
    by destruct (_ >? INT_MAX).
  - intros Hover. unfold BR.rand, c_rand. cbn [seed drawn].
    by rewrite (proj2 (Z.gtb_lt _ _) Hover).
  - intros Hlt Hprod. unfold BR.rand, c_rand. cbn [seed drawn].
    destruct (_ >? INT_MAX) eqn:E; [apply Z.gtb_lt in E; lia|].
    rewrite Hrange. rewrite (proj2 (Z.eqb_neq _ _)) by lia. eauto.
Qed.

Lemma randomShuffle_loop_drawn {A : Type} (n : nat) :
  forall i (v v' : list A) g g',
    randomShuffle_loop n i v g = Ok (v', g') ->
    seed g' = seed g /\ drawn g' = (drawn g + 2 * n)%nat /\ length v' = length v.
Proof.
  induction n as [|n IH]; intros i v v' g g' H.
  - cbn in H. simplify_eq. split; [done|]. split; [lia|done].
  - cbn [BR.randomShuffle_loop] in H.
    apply bind_Ok_inv in H as ([irand g1] & Hrand & H).
    apply rand_Ok in Hrand as (Hseed & Hdrawn & _).
    destruct (irand =? i).
    + apply IH in H as (? & ? & ?). split; [congruence|]. split; [lia|done].
    + apply bind_Ok_inv in H as (v1 & Hswap & H).
      apply vec_swap_Ok in Hswap as (vi & vj & Hi & Hj & ->).
      apply IH in H as (? & ? & Hlen). rewrite !length_insert in Hlen.
      split; [congruence|]. split; [lia|done].
Qed.

(** X1. [randomShuffle] refuses a vector of more than [RAND_MAX * RAND_MAX]
    elements; when it returns, the vector holds the elements it held, in
    some order (nothing is lost or doubled), and the generator, seeded with
    the 32 low bits of [randomseed], has been asked for two numbers per
    element. *)
Theorem randomShuffle_permutes {A : Type} (v : list A) (randomseed : Z) :
  (size_t (RAND_MAX * RAND_MAX) < Z.of_nat (length v) ->
   randomShuffle v randomseed = RuntimeError)
  /\ forall v' g,
       randomShuffle v randomseed = Ok (v', g) ->
       v' ≡ₚ v
       /\ seed g = randomseed mod 4294967296
       /\ drawn g = (2 * length v)%nat.
Proof.
  split.
  - intros H. unfold BR.randomShuffle. by rewrite (proj2 (Z.gtb_lt _ _) H).
  - intros v' g H. split; [by eapply randomShuffle_Permutation|].
    unfold BR.randomShuffle in H. destruct (_ >? _); [done|].
    apply randomShuffle_loop_drawn in H as (Hseed & Hdrawn & _).
    cbn in Hseed, Hdrawn. done.
Qed.

End Shuffle.

Lemma rand_in_range_witness :
  (forall r g', rand 32767 msvc_rand 2 7 (srand 1) = Ok (r, g') ->
     2 <= r < 7 /\ seed g' = seed (srand 1) /\ drawn g' = (drawn (srand 1) + 2)%nat)
  /\ exists r g', rand 32767 msvc_rand 2 7 (srand 1) = Ok (r, g').
Proof.
  destruct (rand_in_range 32767 msvc_rand 2 7 (srand 1)) as (Hrange & _ & _ & Hreturns).
  - lia.
  - unfold SIZE_MAX. lia.
  - split; [exact Hrange|]. apply Hreturns; [lia|]. vm_compute. discriminate.
Defined.

Lemma randomShuffle_permutes_witness :
  randomShuffle 32767 msvc_rand [10; 11; 12; 13; 14] 0
    = Ok ([11; 13; 14; 10; 12], {| seed := 0; drawn := 10 |})
  /\ [11; 13; 14; 10; 12] ≡ₚ [10; 11; 12; 13; 14].
Proof.
  assert (randomShuffle 32767 msvc_rand [10; 11; 12; 13; 14] 0
          = Ok ([11; 13; 14; 10; 12], {| seed := 0; drawn := 10 |})) as H
    by (vm_compute; reflexivity).
  split; [exact H|].
  destruct (randomShuffle_permutes 32767 msvc_rand [10; 11; 12; 13; 14] 0) as [_ Hperm].
  exact (proj1 (Hperm _ _ H)).
Defined.

End Shuffle.

(** * The object the constructor builds *)

Module Construction.

Import BR.

(** The samples of a timeline. *)
Definition samples_of (timeline : Timeline) : Z :=
  foldr (fun d acc => numberOfSamples d + acc) 0 timeline.

(** [ChunkInformation{SIZE_MAX, SIZE_MAX}], the value the vector is filled
    with before the scan. *)
Definition blank : ChunkInformation :=
  {| sequencePositionStart := SIZE_MAX; samplePositionStart := SIZE_MAX |}.

(** The chunk information after [n] sequences of [ns] samples, the last of
    them in chunk [c], the first in chunk [c0]: the chunks [c0 .. c] start
    at increasing positions, the first of them at 0, and the chunks after
    [c] are still blank. *)
Record scanned (c0 N n c ns : Z) (ci : list ChunkInformation) : Prop := {
  scanned_length : length ci = Z.to_nat (N + 1);
  scanned_chunk : 0 <= c0 <= c /\ c < N;
  scanned_first : sequence_start ci c0 = 0 /\ chunk_start ci c0 = 0;
  scanned_ordered : forall k, c0 <= k < c ->
    sequence_start ci k < sequence_start ci (k + 1)
    /\ chunk_start ci k < chunk_start ci (k + 1);
  scanned_last : sequence_start ci c < n /\ chunk_start ci c < ns;
  scanned_blank : forall k, c < k <= N -> ci !! Z.to_nat k = Some blank
}.

Lemma starts_insert_ne ci (k c : Z) info :
  0 <= k -> 0 <= c -> k <> c ->
  sequence_start (<[Z.to_nat c := info]> ci) k = sequence_start ci k
  /\ chunk_start (<[Z.to_nat c := info]> ci) k = chunk_start ci k.
Proof.
  intros Hk Hc Hne. unfold sequence_start, chunk_start.
  by rewrite list_lookup_insert_ne by lia.
Qed.

Lemma starts_insert_eq ci (c : Z) info :
  (Z.to_nat c < length ci)%nat ->
  sequence_start (<[Z.to_nat c := info]> ci) c = sequencePositionStart info
  /\ chunk_start (<[Z.to_nat c := info]> ci) c = samplePositionStart info.
Proof.
  intros Hc. unfold sequence_start, chunk_start.
  by rewrite list_lookup_insert_eq by done.
Qed.

(** One pass of the loop of the constructor. *)
Lemma scan_step (c0 N n c ns : Z) (ci : list ChunkInformation) (d : SequenceDescription) :
  scanned c0 N n c ns ci ->
  id d = n -> c <= chunkId d <= c + 1 -> chunkId d < N ->
  1 <= numberOfSamples d -> 0 <= n <= SIZE_MAX -> 0 <= ns <= SIZE_MAX ->
  exists info ci',
    vec_at ci (chunkId d) = Ok info
    /\ vec_set ci (chunkId d)
         {| sequencePositionStart := Z.min (sequencePositionStart info) (id d);
            samplePositionStart := Z.min (samplePositionStart info) ns |} = Ok ci'
    /\ scanned c0 N (n + 1) (chunkId d) (ns + numberOfSamples d) ci'.
Proof.
  intros [Hlen Hc Hfirst Hord Hlast Hblank] Hid Hstep HN Hsamples Hn Hns.
  assert (Z.to_nat (chunkId d) < length ci)%nat as Hin by lia.
  destruct (lookup_lt_is_Some_2 ci _ Hin) as [info Hinfo].
  exists info. eexists. split; [by apply vec_at_Ok|].
  unfold vec_set. rewrite decide_True by done. split; [done|].
  destruct (decide (chunkId d = c)) as [Hsame|Hnext].
  - (* the chunk of the sequence before: its entry stays *)
    rewrite Hsame in *.
    assert (sequencePositionStart info = sequence_start ci c) as Hs
      by (unfold sequence_start; by rewrite Hinfo).
    assert (samplePositionStart info = chunk_start ci c) as Hp
      by (unfold chunk_start; by rewrite Hinfo).
    rewrite !Z.min_l by lia.
    rewrite list_insert_id by (by destruct info).
    split; try done; lia.
  - (* the next chunk: its entry is written *)
    assert (chunkId d = c + 1) as Hc1 by lia.
    rewrite (Hblank (chunkId d) ltac:(lia)) in Hinfo. simplify_eq. cbn.
    rewrite !Z.min_r by lia.
    set (ci' := <[Z.to_nat (chunkId d) := _]> ci).
    assert (forall k, 0 <= k -> k <> chunkId d ->
              sequence_start ci' k = sequence_start ci k
              /\ chunk_start ci' k = chunk_start ci k) as Hother
      by (intros; apply starts_insert_ne; lia).
    destruct (starts_insert_eq ci (chunkId d)
                {| sequencePositionStart := id d; samplePositionStart := ns |} Hin)
      as [Hseq Hsam]. fold ci' in Hseq, Hsam. cbn in Hseq, Hsam.
    split.
    + unfold ci'. by rewrite length_insert.
    + lia.
    + destruct (Hother c0 ltac:(lia) ltac:(lia)) as [-> ->]. done.
    + intros k Hk. destruct (decide (k = c)) as [->|Hne].
      * destruct (Hother c ltac:(lia) ltac:(lia)) as [-> ->].
        rewrite <- Hc1, Hseq, Hsam. lia.
      * destruct (Hother k ltac:(lia) ltac:(lia)) as [-> ->].
        destruct (Hother (k + 1) ltac:(lia) ltac:(lia)) as [-> ->].
        apply Hord. lia.
    + rewrite Hseq, Hsam. lia.
    + intros k Hk. unfold ci'. rewrite list_lookup_insert_ne by lia.
      apply Hblank. lia.
Qed.

(** The loop of the constructor from a scanned state on. *)
Lemma scan_timeline_scanned (c0 N : Z) (rest : Timeline) :
  forall n c ns ci maxN,
    scanned c0 N n c ns ci ->
    ids_from n rest -> chunk_steps c rest ->
    Forall (fun d => 1 <= numberOfSamples d) rest ->
    (forall d, d ∈ rest -> chunkId d < N) ->
    0 <= n -> n + Z.of_nat (length rest) <= SIZE_MAX ->
    0 <= ns -> ns + samples_of rest <= SIZE_MAX ->
    exists ci',
      scan_timeline rest ci maxN ns
        = Ok (ci', foldl (fun m d => Z.max m (numberOfSamples d)) maxN rest,
              ns + samples_of rest)
      /\ scanned c0 N (n + Z.of_nat (length rest))
           (default c (chunkId <$> last rest)) (ns + samples_of rest) ci'.
Proof.
  induction rest as [|d rest IH]; intros n c ns ci maxN Hs Hids Hsteps Hpos HN Hn Hlen Hns Hsum.
  - exists ci. cbn. rewrite !Z.add_0_r. done.
  - apply ids_from_cons in Hids as [Hid Hids]. destruct Hsteps as [Hstep Hsteps].
    apply Forall_cons in Hpos as [Hd Hpos].
    cbn [length samples_of foldr] in *. fold (samples_of rest) in *.
    assert (0 <= samples_of rest) as Hrest.
    { clear -Hpos. induction Hpos as [|x l Hx _ IHl]; cbn; [done|].
      fold (samples_of l). lia. }
    destruct (scan_step c0 N n c ns ci d Hs Hid Hstep (HN d ltac:(left)) Hd)
      as (info & ci1 & Hat & Hset & Hs1); [lia|lia|].
    cbn [scan_timeline]. rewrite Hat. cbn [bind]. rewrite Hset. cbn [bind].
    rewrite size_t_id by (unfold in_size_t; lia).
    destruct (IH (n + 1) (chunkId d) (ns + numberOfSamples d) ci1
                (Z.max maxN (numberOfSamples d)) Hs1 Hids Hsteps Hpos)
      as (ci' & Hscan & Hs').
    + intros d' Hd'. apply HN. by right.
    + lia.
    + lia.
    + lia.
    + lia.
    + exists ci'. rewrite Hscan. cbn [foldl].
      replace (ns + numberOfSamples d + samples_of rest)
        with (ns + (numberOfSamples d + samples_of rest)) by lia.
      split; [done|].
      replace (n + Z.of_nat (S (length rest))) with (n + 1 + Z.of_nat (length rest)) by lia.
      replace (ns + (numberOfSamples d + samples_of rest))
        with (ns + numberOfSamples d + samples_of rest) by lia.
      destruct rest as [|d' rest']; [exact Hs'|].
      rewrite last_cons_cons.
      destruct (last (d' :: rest')) as [b|] eqn:Hb; [exact Hs'|].
      by apply last_None in Hb.
Qed.


Lemma samples_of_nonneg (timeline : Timeline) :
  Forall (fun d => 1 <= numberOfSamples d) timeline -> 0 <= samples_of timeline.
Proof.
  induction 1 as [|x l Hx _ IHl]; cbn; [done|]. fold (samples_of l). lia.
Qed.

(** What the loop returns next to the chunk information, whatever that is. *)
Lemma scan_timeline_sums (timeline : Timeline) : forall ci maxN ns ci' maxN' ns',
  scan_timeline timeline ci maxN ns = Ok (ci', maxN', ns') ->
  Forall (fun d => 1 <= numberOfSamples d) timeline ->
  0 <= ns -> ns + samples_of timeline <= SIZE_MAX ->
  maxN' = foldl (fun m d => Z.max m (numberOfSamples d)) maxN timeline
  /\ ns' = ns + samples_of timeline.
Proof.
  induction timeline as [|d rest IH]; intros ci maxN ns ci' maxN' ns' H Hpos Hns Hsum.
  - cbn in H. simplify_eq. cbn. split; [done|lia].
  - apply Forall_cons in Hpos as [Hd Hpos].
    pose proof (samples_of_nonneg rest Hpos) as Hrest.
    cbn [samples_of foldr] in Hsum. fold (samples_of rest) in Hsum.
    cbn [scan_timeline] in H.
    apply bind_Ok_inv in H as (info & _ & H).
    apply bind_Ok_inv in H as (ci1 & _ & H).
    rewrite size_t_id in H by (unfold in_size_t; lia).
    apply IH in H as [-> ->]; [|done|lia|lia].
    cbn [foldl samples_of foldr]. fold (samples_of rest). split; [done|lia].
Qed.

Lemma foldl_max_ge (timeline : Timeline) : forall m,
  m <= foldl (fun m d => Z.max m (numberOfSamples d)) m timeline
  /\ forall d, d ∈ timeline ->
       numberOfSamples d <= foldl (fun m d => Z.max m (numberOfSamples d)) m timeline.
Proof.
  induction timeline as [|x rest IH]; intros m; cbn [foldl].
  - split; [done|]. intros d Hd. by apply elem_of_nil in Hd.
  - destruct (IH (Z.max m (numberOfSamples x))) as [Hm Hall]. split; [lia|].
    intros d [->|Hd]%elem_of_cons; [lia|by apply Hall].
Qed.

Lemma foldl_max_ones (timeline : Timeline) : forall m,
  Forall (fun d => numberOfSamples d = 1) timeline -> timeline <> [] -> m <= 1 ->
  foldl (fun m d => Z.max m (numberOfSamples d)) m timeline = 1.
Proof.
  induction timeline as [|x rest IH]; intros m Hall Hne Hm; [done|].
  apply Forall_cons in Hall as [Hx Hall]. cbn [foldl]. rewrite Hx.
  destruct rest as [|y rest']; [cbn; lia|].
  apply IH; [done|done|lia].
Qed.

(** Frame mode: the largest number of samples of a sequence is 1. *)
Lemma frame_mode_iff (timeline : Timeline) :
  Forall (fun d => 1 <= numberOfSamples d) timeline -> timeline <> [] ->
  (foldl (fun m d => Z.max m (numberOfSamples d)) 0 timeline =? 1) = true
  <-> Forall (fun d => numberOfSamples d = 1) timeline.
Proof.
  intros Hpos Hne. rewrite Z.eqb_eq. split.
  - intros Hmax. apply Forall_forall. intros d Hd.
    destruct (foldl_max_ge timeline 0) as [_ Hall]. specialize (Hall d Hd).
    rewrite Forall_forall in Hpos. specialize (Hpos d Hd). lia.
  - intros Hall. by apply foldl_max_ones.
Qed.

Section Constructor.

Variable NDEBUG : bool.

(** What a returning constructor has read from the timeline. *)
Lemma BlockRandomizer_new_inv (verbosity range : Z) (d : Deserializer)
    (s : BlockRandomizer) :
  BlockRandomizer_new NDEBUG verbosity range (Some d) = Ok s ->
  exists back ci maxN ns,
    last (GetSequenceDescriptions d) = Some back
    /\ scan_timeline (GetSequenceDescriptions d)
         (replicate (Z.to_nat (size_t (size_t (chunkId back + 1) + 1))) blank) 0 0
       = Ok (ci, maxN, ns)
    /\ (Z.to_nat (size_t (chunkId back + 1)) < length ci)%nat
    /\ s = {| m_verbosity := verbosity;
              m_randomizationRangeInSamples := range;
              m_deserializer := d;
              m_numSequences := size_t (id back + 1);
              m_numChunks := size_t (chunkId back + 1);
              m_numSamples := ns;
              m_frameMode := (maxN =? 1);
              m_chunkInformation :=
                <[Z.to_nat (size_t (chunkId back + 1)) :=
                    {| sequencePositionStart := size_t (id back + 1);
                       samplePositionStart := ns |}]> ci;
              m_sweep := SIZE_MAX;
              m_sweepStartInSamples := 0;
              m_randomizedChunks := [];
              m_sequencePositionToChunkIndex := [];
              m_randomTimeline := [];
              m_sequencePositionInSweep := SIZE_MAX;
              m_samplePositionInEpoch := SIZE_MAX;
              m_epochSize := SIZE_MAX;
              m_workerRank := 0;
              m_numberOfWorkers := 0;
              libc_rand := {| seed := 0; drawn := 0%nat |} |}.
Proof.
  unfold BlockRandomizer_new. intros H.
  apply bind_Ok_inv in H as ([] & _ & H).
  apply bind_Ok_inv in H as ([] & _ & H).
  apply bind_Ok_inv in H as (back & Hback & H).
  apply bind_Ok_inv in H as ([[ci maxN] ns] & Hscan & H).
  apply bind_Ok_inv in H as (ci' & Hset & H).
  apply vec_set_Ok in Hset as [Hlt ->].
  unfold vec_back in Hback.
  destruct (last (GetSequenceDescriptions d)) as [b|] eqn:Hlast; [|done].
  simplify_eq. exists back, ci, maxN, ns. done.
Qed.

(** The counts of a constructed object. *)
Lemma constructed_counts (verbosity range : Z) (d : Deserializer)
    (s : BlockRandomizer) :
  let timeline := GetSequenceDescriptions d in
  timeline_wf timeline -> IsValid timeline = true ->
  samples_of timeline <= SIZE_MAX ->
  BlockRandomizer_new NDEBUG verbosity range (Some d) = Ok s ->
  m_numSequences s = Z.of_nat (length timeline)
  /\ (exists back, last timeline = Some back /\ m_numChunks s = chunkId back + 1)
  /\ m_numSamples s = samples_of timeline
  /\ m_deserializer s = d
  /\ m_sweep s = SIZE_MAX.
Proof.
  intros timeline Hwf Hvalid Hsum Hnew.
  pose proof (proj1 (IsValid_iff_accepted timeline Hwf) Hvalid) as (Hids & Hsteps & Hpos).
  destruct Hwf as [_ Hshort].
  apply BlockRandomizer_new_inv in Hnew as (back & ci & maxN & ns & Hlast & Hscan & _ & ->).
  fold timeline in Hlast, Hscan. cbn.
  destruct (chunk_steps_last timeline 0 back Hsteps Hlast) as [Hb Hall].
  assert (back ∈ timeline) as Hin by (by apply last_Some_elem_of).
  assert (0 <= chunkId back) as Hb0 by (apply (Hall back Hin)).
  apply scan_timeline_sums in Hscan as [-> ->]; [|done|done|lia].
  assert (id back = Z.of_nat (length timeline) - 1) as Hid.
  { apply list_elem_of_lookup in Hin as [i Hi].
    assert (i = length timeline - 1)%nat as ->.
    { rewrite last_lookup in Hlast.
      destruct (decide (i = pred (length timeline))) as [->|Hne]; [lia|].
      exfalso. pose proof (lookup_lt_Some _ _ _ Hi) as Hlt.
      pose proof (Hids i back Hi) as H1.
      pose proof (Hids _ back Hlast) as H2. lia. }
    pose proof (lookup_lt_Some _ _ _ Hi) as Hlt.
    rewrite (Hids _ back Hi). lia. }
  assert (timeline <> []) as Hne by (intros E; by rewrite E in Hlast).
  split; [rewrite Hid, size_t_id; [lia|unfold in_size_t, SIZE_MAX in *; lia]|].
  split.
  { exists back. split; [done|]. apply size_t_id. unfold in_size_t, SIZE_MAX in *. lia. }
  split; [lia|]. done.
Qed.

(** X3. The members the constructor computes from a timeline [IsValid]
    accepts whose samples fit a [size_t]: [m_numSequences] is the number of
    sequences, [m_numChunks] is one more than the chunk id of the last
    sequence, [m_numSamples] is the sum of the sequences' samples, and
    [m_frameMode] holds exactly when every sequence has one sample. The
    epoch members start at [SIZE_MAX], the marker [GetNextSequences] asserts
    against. *)
Theorem BlockRandomizer_new_counts (verbosity range : Z) (d : Deserializer)
    (s : BlockRandomizer) :
  let timeline := GetSequenceDescriptions d in
  timeline_wf timeline -> IsValid timeline = true ->
  samples_of timeline <= SIZE_MAX ->
  BlockRandomizer_new NDEBUG verbosity range (Some d) = Ok s ->
  m_numSequences s = Z.of_nat (length timeline)
  /\ (exists back, last timeline = Some back /\ m_numChunks s = chunkId back + 1)
  /\ m_numSamples s = samples_of timeline
  /\ (m_frameMode s = true <-> Forall (fun d => numberOfSamples d = 1) timeline)
  /\ m_deserializer s = d
  /\ m_sweep s = SIZE_MAX /\ m_samplePositionInEpoch s = SIZE_MAX.
Proof.
  intros timeline Hwf Hvalid Hsum Hnew.
  destruct (constructed_counts verbosity range d s Hwf Hvalid Hsum Hnew)
    as (HnumSeq & Hchunks & HnumSamples & Hd & Hsweep).
  split; [exact HnumSeq|]. split; [exact Hchunks|]. split; [exact HnumSamples|].
  pose proof (proj1 (IsValid_iff_accepted timeline Hwf) Hvalid) as (_ & _ & Hpos).
  apply BlockRandomizer_new_inv in Hnew
    as (back & ci & maxN & ns & Hlast & Hscan & _ & ->).
  fold timeline in Hlast, Hscan.
  apply scan_timeline_sums in Hscan as [-> _]; [|done|done|lia].
  cbn. split; [|done].
  apply frame_mode_iff; [done|]. intros E. by rewrite E in Hlast.
Qed.

(** The first pass of the loop, on the blank vector. *)
Lemma scan_first (N : Z) (first : SequenceDescription) :
  id first = 0 -> 0 <= chunkId first < N -> 1 <= numberOfSamples first ->
  N + 1 <= SIZE_MAX ->
  let ci0 := replicate (Z.to_nat (N + 1)) blank in
  exists ci1,
    vec_at ci0 (chunkId first) = Ok blank
    /\ vec_set ci0 (chunkId first)
         {| sequencePositionStart := Z.min (sequencePositionStart blank) (id first);
            samplePositionStart := Z.min (samplePositionStart blank) 0 |} = Ok ci1
    /\ scanned (chunkId first) N 1 (chunkId first) (numberOfSamples first) ci1.
Proof.
  intros Hid Hc Hsamples HN ci0.
  assert (Z.to_nat (chunkId first) < length ci0)%nat as Hin
    by (unfold ci0; rewrite length_replicate; lia).
  eexists. split; [|split; [unfold vec_set; by rewrite decide_True by done|]].
  - apply vec_at_Ok. unfold ci0. apply lookup_replicate_2. lia.
  - cbn [blank sequencePositionStart samplePositionStart]. rewrite Hid.
    rewrite !Z.min_r by (unfold SIZE_MAX; lia).
    destruct (starts_insert_eq ci0 (chunkId first)
                {| sequencePositionStart := 0; samplePositionStart := 0 |} Hin)
      as [Hseq Hsam]. cbn in Hseq, Hsam.
    split.
    + rewrite length_insert. unfold ci0. by rewrite length_replicate.
    + lia.
    + done.
    + intros k Hk. lia.
    + rewrite Hseq, Hsam. lia.
    + intros k Hk. rewrite list_lookup_insert_ne by lia.
      unfold ci0. apply lookup_replicate_2. lia.
Qed.

(** The chunk information of a constructed object. *)
Lemma constructed_chunks (verbosity range : Z) (d : Deserializer)
    (s : BlockRandomizer) :
  let timeline := GetSequenceDescriptions d in
  timeline_wf timeline -> IsValid timeline = true ->
  samples_of timeline <= SIZE_MAX ->
  (exists first, head timeline = Some first /\ chunkId first = 0) ->
  BlockRandomizer_new NDEBUG verbosity range (Some d) = Ok s ->
  let ci := m_chunkInformation s in
  let N := m_numChunks s in
  0 < N < SIZE_MAX
  /\ Z.of_nat (length ci) = N + 1
  /\ sequence_start ci 0 = 0 /\ chunk_start ci 0 = 0
  /\ (forall k, 0 <= k < N ->
        sequence_start ci k < sequence_start ci (k + 1)
        /\ chunk_start ci k < chunk_start ci (k + 1))
  /\ sequence_start ci N = m_numSequences s
  /\ chunk_start ci N = m_numSamples s.
Proof.
  intros timeline Hwf Hvalid Hsum (first & Hhead & Hfirst) Hnew.
  destruct (constructed_counts verbosity range d s Hwf Hvalid Hsum Hnew)
    as (HnumSeq & (back' & Hlast' & HnumChunks) & HnumSamples & _).
  pose proof (proj1 (IsValid_iff_accepted timeline Hwf) Hvalid) as (Hids & Hsteps & Hpos).
  destruct Hwf as [_ Hshort].
  apply BlockRandomizer_new_inv in Hnew as (back & ci & maxN & ns & Hlast & Hscan & Hlt & ->).
  cbn [m_numSequences m_numChunks m_numSamples m_chunkInformation] in *.
  subst timeline. remember (GetSequenceDescriptions d) as timeline eqn:Htl in *.
  clear Htl. simplify_eq.
  destruct (chunk_steps_last timeline 0 back Hsteps Hlast) as [Hb Hall].
  assert (0 <= chunkId back) as Hb0
    by (apply (Hall back); by apply last_Some_elem_of).
  rewrite HnumChunks in *.
  destruct timeline as [|first' rest]; [done|].
  cbn in Hhead. simplify_eq.
  remember (chunkId back + 1) as N eqn:HN.
  rewrite (size_t_id (N + 1)) in Hscan by (unfold in_size_t, SIZE_MAX in *; lia).
  apply ids_from_cons in Hids as [Hid0 Hids]. destruct Hsteps as [_ Hsteps].
  apply Forall_cons in Hpos as [Hfirst_pos Hpos].
  cbn [samples_of foldr length] in *. fold (samples_of rest) in *.
  pose proof (samples_of_nonneg rest Hpos) as Hrest.
  destruct (scan_first N first Hid0 ltac:(lia) Hfirst_pos
              ltac:(unfold SIZE_MAX in *; lia)) as (ci1 & Hat & Hset & Hs1).
  cbn [scan_timeline] in Hscan.
  rewrite Hfirst in Hat, Hset, Hs1. rewrite Hfirst, Hat in Hscan. cbn [bind] in Hscan.
  change (samplePositionStart blank `min` 0) with (Z.min (samplePositionStart blank) 0) in Hset.
  rewrite Hset in Hscan. cbn [bind] in Hscan.
  rewrite Z.add_0_l in Hscan.
  rewrite size_t_id in Hscan by (unfold in_size_t; lia).
  destruct (scan_timeline_scanned 0 N rest 1 0 (numberOfSamples first) ci1
              (Z.max 0 (numberOfSamples first)) Hs1 Hids
              ltac:(by rewrite <- Hfirst) Hpos)
    as (ci' & Hscan' & Hs').
  { intros d' Hd'. specialize (Hall d' ltac:(by right)). lia. }
  { lia. }
  { unfold SIZE_MAX in *. lia. }
  { lia. }
  { lia. }
  rewrite Hscan' in Hscan. simplify_eq.
  remember (chunkId back + 1) as N eqn:HN.
  assert (default 0 (chunkId <$> last rest) = N - 1) as Hc.
  { destruct rest as [|d' rest'].
    - cbn in Hlast. injection Hlast as Hfb. cbn. rewrite <- Hfb in HN. lia.
    - rewrite last_cons_cons in Hlast. rewrite Hlast. cbn. lia. }
  rewrite Hc in Hs'. destruct Hs' as [Hlen' _ [Hf1 Hf2] Hord [Hl1 Hl2] _].
  set (sentinel := {| sequencePositionStart := size_t (id back + 1);
                      samplePositionStart := numberOfSamples first + samples_of rest |}).
  assert (forall k, 0 <= k < N ->
            sequence_start (<[Z.to_nat N := sentinel]> ci) k = sequence_start ci k
            /\ chunk_start (<[Z.to_nat N := sentinel]> ci) k = chunk_start ci k)
    as Hother by (intros; apply starts_insert_ne; lia).
  destruct (starts_insert_eq ci N sentinel Hlt) as [HseqN HsamN].
  cbn [sentinel sequencePositionStart samplePositionStart] in HseqN, HsamN.
  assert (forall k, 0 <= k < N ->
            sequence_start (<[Z.to_nat N := sentinel]> ci) k
            < sequence_start (<[Z.to_nat N := sentinel]> ci) (k + 1)
            /\ chunk_start (<[Z.to_nat N := sentinel]> ci) k
               < chunk_start (<[Z.to_nat N := sentinel]> ci) (k + 1)) as Hordered.
  { intros k Hk. destruct (Hother k Hk) as [-> ->].
    destruct (decide (k = N - 1)) as [->|Hne].
    - replace (N - 1 + 1) with N by lia. rewrite HseqN, HsamN, HnumSeq. lia.
    - destruct (Hother (k + 1) ltac:(lia)) as [-> ->]. apply Hord. lia. }
  destruct (Hother 0 ltac:(lia)) as [H0 H0'].
  cbn zeta.
  split; [unfold SIZE_MAX in *; lia|].
  split; [rewrite length_insert, Hlen'; lia|].
  split; [by rewrite H0, Hf1|]. split; [by rewrite H0', Hf2|].
  split; [exact Hordered|]. split; [exact HseqN|]. exact HsamN.
Qed.

(** X4. The chunk information the constructor builds from a timeline
    [IsValid] accepts that begins in chunk 0: one entry per chunk and the
    sentinel; chunk 0 starts at sequence 0 and sample 0, each chunk starts
    after the one before it, and the sentinel holds [m_numSequences] and
    [m_numSamples]. So the chunks partition the sequences and the samples
    of the timeline. *)
Theorem BlockRandomizer_new_chunks (verbosity range : Z) (d : Deserializer)
    (s : BlockRandomizer) :
  let timeline := GetSequenceDescriptions d in
  timeline_wf timeline -> IsValid timeline = true ->
  samples_of timeline <= SIZE_MAX ->
  (exists first, head timeline = Some first /\ chunkId first = 0) ->
  BlockRandomizer_new NDEBUG verbosity range (Some d) = Ok s ->
  let ci := m_chunkInformation s in
  let N := m_numChunks s in
  Z.of_nat (length ci) = N + 1
  /\ sequence_start ci 0 = 0 /\ chunk_start ci 0 = 0
  /\ (forall k, 0 <= k < N ->
        sequence_start ci k < sequence_start ci (k + 1)
        /\ chunk_start ci k < chunk_start ci (k + 1))
  /\ sequence_start ci N = m_numSequences s
  /\ chunk_start ci N = m_numSamples s
  /\ sequences_laid_out s
  /\ chunk_starts_ordered ci N.
Proof.
  intros timeline Hwf Hvalid Hsum Hfirst Hnew ci N.
  destruct (constructed_chunks verbosity range d s Hwf Hvalid Hsum Hfirst Hnew)
    as (HN & Hlen & Hseq0 & Hsam0 & Hordered & HseqN & HsamN).
  fold ci N in HN, Hlen, Hseq0, Hsam0, Hordered, HseqN, HsamN.
  split; [exact Hlen|]. split; [exact Hseq0|]. split; [exact Hsam0|].
  split; [exact Hordered|]. split; [exact HseqN|]. split; [exact HsamN|].
  split.
  - split; [fold N; lia|]. fold ci N. split.
    + intros k Hk. destruct (Hordered k Hk). lia.
    + rewrite HseqN, Hseq0. lia.
  - intros k Hk. destruct (Hordered k Hk) as [_ Hlt].
    split; [|lia].
    assert (forall j : nat, Z.of_nat j < N -> 0 <= chunk_start ci (Z.of_nat j)) as Hnn.
    { induction j as [|j IH]; intros Hj.
      - change (Z.of_nat 0) with 0. by rewrite Hsam0.
      - destruct (Hordered (Z.of_nat j) ltac:(lia)) as [_ Hstep].
        replace (Z.of_nat (S j)) with (Z.of_nat j + 1) by lia.
        specialize (IH ltac:(lia)). lia. }
    specialize (Hnn (Z.to_nat k) ltac:(lia)). by rewrite Z2Nat.id in Hnn by lia.
Qed.

(** The chunks of a constructed object partition its sequences. *)
Lemma constructed_laid_out (verbosity range : Z) (d : Deserializer)
    (s : BlockRandomizer) :
  let timeline := GetSequenceDescriptions d in
  timeline_wf timeline -> IsValid timeline = true ->
  samples_of timeline <= SIZE_MAX ->
  (exists first, head timeline = Some first /\ chunkId first = 0) ->
  BlockRandomizer_new NDEBUG verbosity range (Some d) = Ok s ->
  sequences_laid_out s /\ sequence_start (m_chunkInformation s) 0 = 0.
Proof.
  intros timeline Hwf Hvalid Hsum Hfirst Hnew.
  destruct (constructed_chunks verbosity range d s Hwf Hvalid Hsum Hfirst Hnew)
    as (HN & _ & Hseq0 & _ & Hordered & HseqN & _).
  split; [|exact Hseq0].
  split; [lia|]. split.
  - intros k Hk. destruct (Hordered k Hk). lia.
  - rewrite HseqN, Hseq0. lia.
Qed.

End Constructor.

Lemma BlockRandomizer_new_counts_witness :
  exists s,
    BlockRandomizer_new true 0 12 (corpus timeline_2x2) = Ok s
    /\ m_numSequences s = 4 /\ m_numSamples s = 4
    /\ (m_frameMode s = true
        <-> Forall (fun d => numberOfSamples d = 1) timeline_2x2).
Proof.
  eexists. split; [vm_compute; reflexivity|].
  lazymatch goal with |- m_numSequences ?x = _ /\ _ => pose (s0 := x) end.
  destruct (BlockRandomizer_new_counts true 0 12
              {| GetSequenceDescriptions := timeline_2x2; calls := [] |} s0
              timeline_2x2_wf eq_refl ltac:(by vm_compute) eq_refl)
    as (HnumSeq & _ & HnumSamples & Hframe & _).
  split; [exact HnumSeq|]. split; [exact HnumSamples|]. exact Hframe.
Defined.

Lemma BlockRandomizer_new_chunks_witness :
  exists s,
    BlockRandomizer_new true 0 12 (corpus timeline_2x2) = Ok s
    /\ sequences_laid_out s
    /\ chunk_starts_ordered (m_chunkInformation s) (m_numChunks s)
    /\ sequence_start (m_chunkInformation s) (m_numChunks s) = m_numSequences s.
Proof.
  eexists. split; [vm_compute; reflexivity|].
  lazymatch goal with |- sequences_laid_out ?x /\ _ => pose (s0 := x) end.
  destruct (BlockRandomizer_new_chunks true 0 12
              {| GetSequenceDescriptions := timeline_2x2; calls := [] |} s0
              timeline_2x2_wf eq_refl ltac:(by vm_compute)
              ltac:(by eexists) eq_refl)
    as (_ & _ & _ & _ & Hsentinel & _ & Hlaid & Hordered).
  split; [exact Hlaid|]. split; [exact Hordered|]. exact Hsentinel.
Defined.

End Construction.

(** * The randomized chunks *)

Module Chunks.

Import BR.

Section Chunks.

Variable NDEBUG : bool.
Variable RAND_MAX : Z.
Variable crand : Z -> nat -> Z.

Local Abbreviation RandomizeChunks := (RandomizeChunks NDEBUG RAND_MAX crand).

(** What [RandomizeChunks] builds, member by member. *)
Lemma RandomizeChunks_layout (s s' : BlockRandomizer) :
  RandomizeChunks s = Ok s' ->
  0 <= m_randomizationRangeInSamples s ->
  0 <= m_numChunks s < SIZE_MAX ->
  chunk_starts_ordered (m_chunkInformation s) (m_numChunks s) ->
  0 <= m_sweepStartInSamples s ->
  m_sweepStartInSamples s
    + (chunk_start (m_chunkInformation s) (m_numChunks s)
       - chunk_start (m_chunkInformation s) 0) <= SIZE_MAX ->
  let N := m_numChunks s in
  let chunks := m_randomizedChunks s' in
  exists indices,
    indices ≡ₚ seqZ 0 N
    /\ Z.of_nat (length chunks) = N + 1
    /\ (forall k : nat, Z.of_nat k <= N ->
          sampleStart chunks (Z.of_nat k)
          = laid (m_chunkInformation s) indices (m_sweepStartInSamples s) k)
    /\ (forall k : nat, Z.of_nat k < N ->
          originalChunkIndex <$> chunks !! k = indices !! k)
    /\ (forall c, 0 <= c < N ->
          window_spec chunks N (m_randomizationRangeInSamples s / 2) c).
Proof.
  intros H HW Hn Hci Hsweep Hend. cbn zeta.
  set (N := m_numChunks s) in *.
  pose proof (RandomizeChunks_starts_ordered NDEBUG RAND_MAX crand s s'
                H Hn Hci Hsweep Hend) as Hord.
  destruct (RandomizeChunks_original NDEBUG RAND_MAX crand s s' H)
    as (_ & _ & _ & _ & indices' & Hperm' & Horig').
  unfold BR.RandomizeChunks in H.
  apply bind_Ok_inv in H as ([indices g] & Hshuffle & H).
  apply bind_Ok_inv in H as ([[placed sp] sq] & Hplace & H).
  apply bind_Ok_inv in H as (chunks' & Hwin & H).
  apply bind_Ok_inv in H as (positions & _ & H).
  apply bind_Ok_inv in H as ([] & _ & H).
  simplify_eq. cbn in Hord |- *.
  pose proof (randomShuffle_Permutation _ _ _ _ _ _ Hshuffle) as Hperm.
  pose proof (place_chunks_length _ _ _ _ _ _ _ _ _ _ Hplace) as Hlen. cbn in Hlen.
  destruct (compute_windows_sampleStart _ _ _ _ _ _ Hwin) as [Hlen' HS].
  rewrite length_app in Hlen'. cbn in Hlen'.
  exists indices. split; [exact Hperm|]. split; [lia|].
  assert (laid (m_chunkInformation s) indices (m_sweepStartInSamples s) 0
          = m_sweepStartInSamples s) as Hlaid0.
  { unfold laid, total. rewrite take_0. cbn. lia. }
  pose proof Hplace as Hplace'.
  rewrite <- Hlaid0 in Hplace' at 1.
  apply (place_chunks_laid _ _ _ _ Hperm Hn Hci (conj Hsweep Hend)
           _ 0%nat) in Hplace' as [-> Hplaced]; [|lia|done|intros; lia].
  split; [|split].
  - intros k Hk. rewrite HS.
    destruct (decide (Z.of_nat k < N)) as [Hlt|Hge].
    + rewrite <- (Hplaced k) by lia.
      unfold sampleStart. rewrite !Nat2Z.id. by rewrite lookup_app_l by lia.
    + assert (k = Z.to_nat N) as -> by lia.
      unfold sampleStart. rewrite Nat2Z.id, lookup_app_r by lia.
      replace (Z.to_nat N - length placed)%nat with 0%nat by lia. done.
  - intros k Hk. rewrite (compute_windows_original _ _ _ _ _ _ Hwin k).
    rewrite lookup_app_l by lia.
    apply (place_chunks_original _ _ _ 0%nat _ _ [] _ _ _ eq_refl
             ltac:(intros; lia) Hplace). lia.
  - lazymatch type of Hwin with
    | compute_windows _ _ _ _ ?input = _ =>
        destruct (compute_windows_spec N (m_randomizationRangeInSamples s / 2)
                    ltac:(lia) ltac:(by apply Z.div_pos)
                    (Z.to_nat N) 0 input) as (chunks'' & Hwin' & Hdone & _)
    end.
    + destruct Hord as [Hr Hm].
      split; intros k Hk; rewrite <- !HS; auto.
    + rewrite length_app. simpl. lia.
    + lia.
    + lia.
    + intros c' Hc'. lia.
    + unfold N in Hwin'. rewrite Hwin in Hwin'. simplify_eq. exact Hdone.
Qed.

(** X5. When every chunk of the corpus has fewer samples than half the
    randomization range, each randomized chunk lies in its own window:
    [windowbegin(c) <= c < windowend(c) <= numChunks]. (A chunk of half the
    range or more can be left out of its window, and then no sequence is
    valid at its positions.) *)
Theorem RandomizeChunks_own_window (s s' : BlockRandomizer) :
  RandomizeChunks s = Ok s' ->
  0 <= m_randomizationRangeInSamples s ->
  0 <= m_numChunks s < SIZE_MAX ->
  chunk_starts_ordered (m_chunkInformation s) (m_numChunks s) ->
  0 <= m_sweepStartInSamples s ->
  m_sweepStartInSamples s
    + (chunk_start (m_chunkInformation s) (m_numChunks s)
       - chunk_start (m_chunkInformation s) 0) <= SIZE_MAX ->
  (forall o, 0 <= o < m_numChunks s ->
     chunk_samples (m_chunkInformation s) o < m_randomizationRangeInSamples s / 2) ->
  forall c, 0 <= c < m_numChunks s ->
    windowbegin_of (m_randomizedChunks s') c <= c
    /\ c < windowend_of (m_randomizedChunks s') c
    /\ windowend_of (m_randomizedChunks s') c <= m_numChunks s.
Proof.
  intros H HW Hn Hci Hsweep Hend Hsmall.
  destruct (RandomizeChunks_layout s s' H HW Hn Hci Hsweep Hend)
    as (indices & Hperm & Hlen & Hstart & _ & Hspec).
  set (chunks := m_randomizedChunks s') in *.
  set (N := m_numChunks s) in *.
  set (half := m_randomizationRangeInSamples s / 2) in *.
  assert (length indices = Z.to_nat N) as Hlen_indices
    by (rewrite (Permutation_length Hperm), length_seqZ; done).
  (* the samples of the randomized chunk [c] *)
  assert (forall c : nat, Z.of_nat c < N ->
            0 <= sampleStart chunks (Z.of_nat (S c)) - sampleStart chunks (Z.of_nat c)
            < half
            /\ sampleStart chunks (Z.of_nat (S c)) - sampleStart chunks (Z.of_nat c)
               <= SIZE_MAX) as Hsize.
  { intros c Hc. rewrite !Hstart by lia.
    pose proof (laid_range _ _ _ _ Hperm Hn Hci (conj Hsweep Hend) c (S c) ltac:(lia))
      as Hlaid.
    destruct (lookup_lt_is_Some_2 indices c ltac:(lia)) as [o Ho].
    assert (o ∈ indices) as Hin by (by eapply list_elem_of_lookup_2).
    assert (0 <= o < N) as Hrange by (rewrite Hperm, elem_of_seqZ in Hin; lia).
    pose proof (Hsmall o Hrange). pose proof (Hci o Hrange).
    assert (laid (m_chunkInformation s) indices (m_sweepStartInSamples s) (S c)
            = laid (m_chunkInformation s) indices (m_sweepStartInSamples s) c
              + chunk_samples (m_chunkInformation s) o) as Hnext.
    { unfold laid. rewrite (take_S_r _ _ _ Ho), total_app. cbn [total foldr]. lia. }
    unfold chunk_samples in *. lia. }
  assert (forall c : nat, Z.of_nat c < N ->
            Z.of_nat c < windowend_of chunks (Z.of_nat c)) as Hown.
  { induction c as [|c IH]; intros Hc.
    - destruct (Hspec 0 ltac:(lia)) as (_ & _ & _ & _ & H1). change (Z.of_nat 0) with 0. lia.
    - specialize (IH ltac:(lia)).
      destruct (Hspec (Z.of_nat (S c)) ltac:(lia)) as (_ & (Hle & Hstop & _) & _ & Hwe0 & _).
      cbn zeta in Hwe0, Hstop, Hle.
      rewrite (proj2 (Z.eqb_neq (Z.of_nat (S c)) 0)) in Hwe0 by lia.
      replace (Z.of_nat (S c) - 1) with (Z.of_nat c) in Hwe0 by lia.
      destruct (decide (windowend_of chunks (Z.of_nat (S c)) = Z.of_nat (S c)))
        as [Heq|Hne]; [|lia].
      exfalso. rewrite Heq in Hstop. specialize (Hstop Hc).
      pose proof (Hsize (S c) ltac:(lia)) as Hs.
      replace (Z.of_nat (S c) + 1) with (Z.of_nat (S (S c))) in Hstop by lia.
      rewrite size_t_id in Hstop by (unfold in_size_t; lia). lia. }
  intros c Hc.
  destruct (Hspec c Hc) as ((Hwb & _) & (Hle & _) & _).
  specialize (Hown (Z.to_nat c) ltac:(lia)). rewrite Z2Nat.id in Hown by lia.
  cbn zeta in Hwb, Hle. lia.
Qed.

End Chunks.

Lemma RandomizeChunks_own_window_witness :
  exists s s',
    BlockRandomizer_new false 0 6 (corpus timeline_3x2) = Ok s
    /\ RandomizeChunks false 32767 msvc_rand
         (set_m_sweepStartInSamples 0 (set_m_sweep 0 s)) = Ok s'
    /\ forall c, 0 <= c < 3 ->
         windowbegin_of (m_randomizedChunks s') c <= c
         /\ c < windowend_of (m_randomizedChunks s') c
         /\ windowend_of (m_randomizedChunks s') c <= 3.
Proof.
  eexists. eexists.
  split; [vm_compute; reflexivity|].
  lazymatch goal with |- RandomizeChunks _ _ _ ?x = _ /\ _ => pose (s0 := x) end.
  split; [vm_compute; reflexivity|].
  apply (RandomizeChunks_own_window false 32767 msvc_rand s0).
  - vm_compute. reflexivity.
  - vm_compute. discriminate.
  - vm_compute. split; [discriminate|reflexivity].
  - intros k Hk.
    assert (k = 0 \/ k = 1 \/ k = 2) as [->|[->| ->]] by (cbn in Hk; lia);
      vm_compute; split; discriminate.
  - vm_compute. discriminate.
  - vm_compute. discriminate.
  - intros o Ho.
    assert (o = 0 \/ o = 1 \/ o = 2) as [->|[->| ->]] by (cbn in Ho; lia);
      vm_compute; reflexivity.
Defined.

(** With a range of 2 the chunks of two samples are not smaller than half
    of it: the second randomized chunk gets the empty window [[1, 1)], and
    [Randomize] stops on its assertion, or draws from an empty range in a
    build without assertions. *)
Example Randomize_with_a_small_range :
  exists s,
    BlockRandomizer_new false 0 2 (corpus timeline_3x2) = Ok s
    /\ (exists s', RandomizeChunks false 32767 msvc_rand
                     (set_m_sweepStartInSamples 0 (set_m_sweep 0 s)) = Ok s'
                   /\ windowbegin_of (m_randomizedChunks s') 1 = 1
                   /\ windowend_of (m_randomizedChunks s') 1 = 1)
    /\ Randomize false 32767 msvc_rand 20
         (set_m_sweepStartInSamples 0 (set_m_sweep 0 s)) = AssertionFailed
    /\ Randomize true 32767 msvc_rand 20
         (set_m_sweepStartInSamples 0 (set_m_sweep 0 s)) = Undefined.
Proof.
  eexists. split; [vm_compute; reflexivity|]. split.
  - eexists. split; [vm_compute; reflexivity|]. split; reflexivity.
  - split; vm_compute; reflexivity.
Qed.

End Chunks.

(** * The randomized timeline of a sweep *)

Module Sweep.

Import BR.

(** What [Randomize] keeps of a sequence: all but the chunk id, which it
    rewrites. *)
Definition sequence_of (d : SequenceDescription) : Z * Z := (id d, numberOfSamples d).

(** The sequences of the original chunk [o] in the timeline. *)
Definition slice (ci : list ChunkInformation) (timeline : Timeline) (o : Z)
    : list SequenceDescription :=
  take (Z.to_nat (chunk_sequences ci o)) (drop (Z.to_nat (sequence_start ci o)) timeline).

Lemma copy_chunk_content (n : nat) : forall timeline (sp : nat) c acc acc',
  copy_chunk n timeline (Z.of_nat sp) c acc = Ok acc' ->
  sequence_of <$> acc'
  = (sequence_of <$> acc) ++ (sequence_of <$> take n (drop sp timeline)).
Proof.
  induction n as [|n IH]; intros timeline sp c acc acc' H.
  - cbn in H. simplify_eq. by rewrite take_0, app_nil_r.
  - cbn [copy_chunk] in H.
    apply bind_Ok_inv in H as (d & Hd & H).
    apply vec_at_Ok in Hd. rewrite Nat2Z.id in Hd.
    replace (Z.of_nat sp + 1) with (Z.of_nat (S sp)) in H by lia.
    apply IH in H. rewrite H, fmap_app, <- app_assoc. f_equal.
    rewrite (drop_S _ _ _ Hd). cbn. done.
Qed.

Lemma fill_randomTimeline_content timeline ci chunks indices numChunks (n : nat) :
  0 <= numChunks < SIZE_MAX ->
  (forall o, o ∈ indices -> 0 <= o < numChunks) ->
  (forall o, 0 <= o < numChunks -> 0 <= sequence_start ci o) ->
  (forall k : nat, (Z.of_nat k < numChunks) ->
     originalChunkIndex <$> chunks !! k = indices !! k) ->
  forall (c : nat) acc acc',
    Z.of_nat c + Z.of_nat n = numChunks ->
    length indices = Z.to_nat numChunks ->
    fill_randomTimeline n (Z.of_nat c) timeline ci chunks acc = Ok acc' ->
    sequence_of <$> acc'
    = (sequence_of <$> acc)
      ++ concat (map (fun o => sequence_of <$> slice ci timeline o) (drop c indices)).
Proof.
  intros Hn Hrange Hnonneg Horig.
  induction n as [|n IH]; intros c acc acc' Hc Hlen H.
  - cbn in H. simplify_eq. rewrite drop_ge by lia. cbn. by rewrite app_nil_r.
  - cbn [fill_randomTimeline] in H.
    apply bind_Ok_inv in H as (chunk & Hchunk & H).
    apply bind_Ok_inv in H as (this & Hthis & H).
    apply bind_Ok_inv in H as (next & Hnext & H).
    apply bind_Ok_inv in H as (acc1 & Hcopy & H).
    apply vec_at_Ok in Hchunk, Hthis, Hnext. rewrite Nat2Z.id in Hchunk.
    pose proof (Horig c ltac:(lia)) as Ho. rewrite Hchunk in Ho. cbn in Ho.
    symmetry in Ho.
    assert (originalChunkIndex chunk ∈ indices) as Hin
      by (by eapply list_elem_of_lookup_2).
    pose proof (Hrange _ Hin) as Hr.
    rewrite size_t_id in Hnext by (unfold in_size_t; lia).
    assert (sequencePositionStart next - sequencePositionStart this
            = chunk_sequences ci (originalChunkIndex chunk)) as Hseq.
    { unfold chunk_sequences, sequence_start. by rewrite Hnext, Hthis. }
    assert (sequencePositionStart this = sequence_start ci (originalChunkIndex chunk))
      as Hstart by (unfold sequence_start; by rewrite Hthis).
    rewrite Hseq, Hstart in Hcopy.
    rewrite <- (Z2Nat.id (sequence_start ci (originalChunkIndex chunk))) in Hcopy
      by (by apply Hnonneg).
    apply copy_chunk_content in Hcopy.
    replace (Z.of_nat c + 1) with (Z.of_nat (S c)) in H by lia.
    apply IH in H; [|lia|done].
    rewrite H, Hcopy, (drop_S _ _ _ Ho), <- app_assoc. done.
Qed.

Lemma concat_map_Permutation {A B : Type} (f : A -> list B) (l l' : list A) :
  l ≡ₚ l' -> concat (map f l) ≡ₚ concat (map f l').
Proof.
  induction 1 as [|x l l' _ IH|x y l|l l' l'' _ IH1 _ IH2]; cbn.
  - done.
  - by rewrite IH.
  - rewrite !app_assoc. f_equiv. apply Permutation_app_comm.
  - by rewrite IH1.
Qed.

(** The chunks [a], [a+1], ... one after the other are a stretch of the
    timeline. *)
Lemma concat_slices ci timeline (n : nat) : forall a,
  0 <= a ->
  (forall k, a <= k < a + Z.of_nat n ->
     0 <= sequence_start ci k <= sequence_start ci (k + 1)) ->
  concat (map (slice ci timeline) (seqZ a (Z.of_nat n)))
  = take (Z.to_nat (sequence_start ci (a + Z.of_nat n) - sequence_start ci a))
      (drop (Z.to_nat (sequence_start ci a)) timeline).
Proof.
  induction n as [|n IH]; intros a Ha Hord.
  - change (Z.of_nat 0) with 0. rewrite seqZ_nil, Z.add_0_r, Z.sub_diag by lia. done.
  - rewrite Nat2Z.inj_succ, seqZ_cons by lia. cbn [map concat].
    rewrite Z.pred_succ, IH; [|lia|intros k Hk; apply Hord; lia].
    pose proof (Hord a ltac:(lia)) as H0.
    assert (forall j : nat, (j <= S n)%nat ->
              sequence_start ci a <= sequence_start ci (a + Z.of_nat j)) as Hmono.
    { induction j as [|j IHj]; intros Hj.
      - rewrite Z.add_0_r. lia.
      - pose proof (Hord (a + Z.of_nat j) ltac:(lia)).
        replace (a + Z.of_nat (S j)) with (a + Z.of_nat j + 1) by lia.
        specialize (IHj ltac:(lia)). lia. }
    pose proof (Hmono (S n) ltac:(lia)) as Hlast.
    assert (sequence_start ci (a + 1) <= sequence_start ci (a + Z.of_nat (S n))) as Hrest.
    { clear -Hord Ha.
      assert (forall j : nat, (j <= n)%nat ->
                sequence_start ci (a + 1) <= sequence_start ci (a + 1 + Z.of_nat j)) as H.
      { induction j as [|j IHj]; intros Hj.
        - rewrite Z.add_0_r. lia.
        - pose proof (Hord (a + 1 + Z.of_nat j) ltac:(lia)).
          replace (a + 1 + Z.of_nat (S j)) with (a + 1 + Z.of_nat j + 1) by lia.
          specialize (IHj ltac:(lia)). lia. }
      specialize (H n ltac:(lia)).
      by replace (a + Z.of_nat (S n)) with (a + 1 + Z.of_nat n) by lia. }
    unfold slice at 1, chunk_sequences.
    replace (Z.succ a) with (a + 1) by lia.
    replace (a + 1 + Z.of_nat n) with (a + Z.succ (Z.of_nat n)) by lia.
    replace (a + Z.of_nat (S n)) with (a + Z.succ (Z.of_nat n)) in Hrest, Hlast by lia.
    set (s0 := sequence_start ci a) in *.
    set (s1 := sequence_start ci (a + 1)) in *.
    set (s2 := sequence_start ci (a + Z.succ (Z.of_nat n))) in *.
    replace (Z.to_nat s1) with (Z.to_nat s0 + Z.to_nat (s1 - s0))%nat by lia.
    rewrite <- drop_drop, take_take_drop. f_equal. lia.
Qed.

Section Sweep.

Variable NDEBUG : bool.
Variable RAND_MAX : Z.
Variable crand : Z -> nat -> Z.
Variable patience : nat.

Lemma shuffle_timeline_Permutation (n : nat) : forall i s tl g tl' g',
  shuffle_timeline RAND_MAX crand patience n i s tl g = Ok (tl', g') -> tl' ≡ₚ tl.
Proof.
  induction n as [|n IH]; intros i s tl g tl' g' H.
  - cbn in H. by simplify_eq.
  - cbn [shuffle_timeline] in H.
    apply bind_Ok_inv in H as (c & _ & H).
    apply bind_Ok_inv in H as (chunk & _ & H).
    apply bind_Ok_inv in H as (cb & _ & H).
    apply bind_Ok_inv in H as (ce & _ & H).
    apply bind_Ok_inv in H as ([tl1 g1] & Hpick & H).
    apply pick_Ok in Hpick as (j & di & dj & Hi & Hj & _ & _ & ->).
    apply IH in H. rewrite H. by apply Permutation_insert_swap.
Qed.

(** The sequences [Randomize] lays on the randomized timeline. *)
Lemma Randomize_Permutation (s s' : BlockRandomizer) :
  let timeline := GetSequenceDescriptions (m_deserializer s) in
  Randomize NDEBUG RAND_MAX crand patience s = Ok s' ->
  sequences_laid_out s ->
  sequence_start (m_chunkInformation s) 0 = 0 ->
  m_numSequences s = Z.of_nat (length timeline) ->
  sequence_of <$> m_randomTimeline s' ≡ₚ sequence_of <$> timeline.
Proof.
  intros timeline H (Hn & Hordered & Htotal) Hzero Hlength.
  unfold Randomize in H.
  apply bind_Ok_inv in H as (s1 & Hchunks & H).
  apply bind_Ok_inv in H as (tl & Hfill & H).
  apply bind_Ok_inv in H as ([] & _ & H).
  apply bind_Ok_inv in H as ([] & _ & H).
  apply bind_Ok_inv in H as ([tl' g] & Hshuffle & H).
  apply bind_Ok_inv in H as ([] & _ & H).
  simplify_eq. cbn [m_randomTimeline set_libc_rand set_m_randomTimeline].
  apply shuffle_timeline_Permutation in Hshuffle. rewrite Hshuffle.
  destruct (RandomizeChunks_original _ _ _ _ _ Hchunks)
    as (Hci & HnumChunks & _ & _ & indices & Hperm & Horig).
  rewrite Hci, HnumChunks in Hfill. fold timeline in Hfill.
  assert (length indices = Z.to_nat (m_numChunks s)) as Hlen
    by (rewrite (Permutation_length Hperm), length_seqZ; done).
  assert (forall k : nat, Z.of_nat k <= m_numChunks s ->
            0 <= sequence_start (m_chunkInformation s) (Z.of_nat k)) as Hnonneg.
  { induction k as [|k IH]; intros Hk.
    - change (Z.of_nat 0) with 0. lia.
    - pose proof (Hordered (Z.of_nat k) ltac:(lia)).
      replace (Z.of_nat (S k)) with (Z.of_nat k + 1) by lia.
      specialize (IH ltac:(lia)). lia. }
  apply (fill_randomTimeline_content _ _ _ indices (m_numChunks s) _ Hn)
    with (c := 0%nat) in Hfill.
  - rewrite Hfill, drop_0. cbn [fmap list_fmap app].
    rewrite (concat_map_Permutation _ _ _ Hperm).
    rewrite <- (Z2Nat.id (m_numChunks s)) at 1 by lia.
    assert (forall l : list Z,
              concat (map (fun o => sequence_of <$> slice (m_chunkInformation s) timeline o) l)
              = sequence_of <$> concat (map (slice (m_chunkInformation s) timeline) l)) as ->.
    { induction l as [|x l IH]; cbn; [done|]. by rewrite fmap_app, IH. }
    rewrite concat_slices.
    + rewrite Z.add_0_l, Z2Nat.id, Htotal, Hzero, Hlength by lia.
      change (Z.to_nat 0) with 0%nat. rewrite drop_0, Nat2Z.id, firstn_all. done.
    + lia.
    + intros k Hk. rewrite Z2Nat.id in Hk by lia.
      pose proof (Hnonneg (Z.to_nat k) ltac:(lia)) as H0.
      rewrite Z2Nat.id in H0 by lia.
      pose proof (Hordered k ltac:(lia)). lia.
  - intros o Ho. rewrite Hperm, elem_of_seqZ in Ho. lia.
  - intros o Ho. pose proof (Hnonneg (Z.to_nat o) ltac:(lia)) as H0.
    by rewrite Z2Nat.id in H0 by lia.
  - exact Horig.
  - lia.
  - exact Hlen.
Qed.

(** What [Randomize] leaves as it is. *)
Lemma Randomize_members (s s' : BlockRandomizer) :
  Randomize NDEBUG RAND_MAX crand patience s = Ok s' ->
  m_numSequences s' = m_numSequences s
  /\ m_numSamples s' = m_numSamples s
  /\ m_workerRank s' = m_workerRank s
  /\ m_numberOfWorkers s' = m_numberOfWorkers s
  /\ m_sweep s' = m_sweep s
  /\ m_sweepStartInSamples s' = m_sweepStartInSamples s
  /\ m_frameMode s' = m_frameMode s.
Proof.
  unfold Randomize, RandomizeChunks. intros H.
  apply bind_Ok_inv in H as (s1 & Hchunks & H).
  apply bind_Ok_inv in Hchunks as ([indices g] & _ & Hchunks).
  apply bind_Ok_inv in Hchunks as ([[chunks sp] sq] & _ & Hchunks).
  apply bind_Ok_inv in Hchunks as (chunks' & _ & Hchunks).
  apply bind_Ok_inv in Hchunks as (positions & _ & Hchunks).
  apply bind_Ok_inv in Hchunks as ([] & _ & Hchunks).
  apply bind_Ok_inv in H as (tl & _ & H).
  apply bind_Ok_inv in H as ([] & _ & H).
  apply bind_Ok_inv in H as ([] & _ & H).
  apply bind_Ok_inv in H as ([tl' g'] & _ & H).
  apply bind_Ok_inv in H as ([] & _ & H).
  by simplify_eq.
Qed.

(** X6. The randomized timeline of a sweep holds every sequence of the
    corpus once: apart from the chunk ids, which [Randomize] rewrites, it is
    a permutation of the timeline of the deserializer, so it has
    [m_numSequences] entries. [Randomize] changes neither the counts of the
    corpus nor the position in the epoch. (The chunks are to partition the
    timeline, as they do in a constructed randomizer.) *)
Theorem Randomize_permutes_the_timeline (s s' : BlockRandomizer) :
  let timeline := GetSequenceDescriptions (m_deserializer s) in
  Randomize NDEBUG RAND_MAX crand patience s = Ok s' ->
  sequences_laid_out s ->
  sequence_start (m_chunkInformation s) 0 = 0 ->
  m_numSequences s = Z.of_nat (length timeline) ->
  sequence_of <$> m_randomTimeline s' ≡ₚ sequence_of <$> timeline
  /\ Z.of_nat (length (m_randomTimeline s')) = m_numSequences s'
  /\ m_numSequences s' = m_numSequences s
  /\ m_numSamples s' = m_numSamples s
  /\ m_samplePositionInEpoch s' = m_samplePositionInEpoch s
  /\ m_epochSize s' = m_epochSize s.
Proof.
  intros timeline H Hlaid Hzero Hlength.
  pose proof (Randomize_Permutation s s' H Hlaid Hzero Hlength) as Hperm.
  pose proof (Randomize_members s s' H) as (Hn & Hsamples & _).
  pose proof (Randomize_cursor _ _ _ _ _ _ H) as [Hposition Hsize].
  split; [exact Hperm|]. split; [|done].
  apply Permutation_length in Hperm. rewrite !length_fmap in Hperm.
  rewrite Hperm, Hn. by fold timeline in Hlength.
Qed.

End Sweep.

Lemma Randomize_permutes_the_timeline_witness :
  exists s s',
    BlockRandomizer_new true 0 12 (corpus timeline_2x2) = Ok s
    /\ Randomize true 32767 msvc_rand 20
         (set_m_sweepStartInSamples 0 (set_m_sweep 0 s)) = Ok s'
    /\ sequence_of <$> m_randomTimeline s' ≡ₚ sequence_of <$> timeline_2x2
    /\ Z.of_nat (length (m_randomTimeline s')) = 4.
Proof.
  eexists. eexists.
  split; [vm_compute; reflexivity|].
  lazymatch goal with |- Randomize _ _ _ _ ?x = _ /\ _ => pose (s0 := x) end.
  split; [vm_compute; reflexivity|].
  lazymatch goal with
  | |- _ <$> m_randomTimeline ?y ≡ₚ _ /\ _ => pose (s1 := y)
  end.
  destruct (Randomize_permutes_the_timeline true 32767 msvc_rand 20 s0 s1)
    as (Hperm & Hlen & _).
  - vm_compute. reflexivity.
  - split; [vm_compute; split; [discriminate|reflexivity]|].
    split; [|vm_compute; reflexivity].
    intros k Hk.
    assert (k = 0 \/ k = 1) as [->| ->] by (cbn in Hk; lia); vm_compute; discriminate.
  - reflexivity.
  - reflexivity.
  - split; [exact Hperm|]. exact (eq_trans Hlen eq_refl).
Defined.

End Sweep.

(** * The reads of an epoch *)

Module Epoch.

Import BR.
Import Construction Sweep.

Lemma samples_of_app (l1 l2 : Timeline) :
  samples_of (l1 ++ l2) = samples_of l1 + samples_of l2.
Proof.
  unfold samples_of. induction l1 as [|d l1 IH]; cbn; [done|].
  fold (samples_of (l1 ++ l2)) in *. lia.
Qed.

Lemma samples_of_sequences (l : Timeline) :
  samples_of l = foldr Z.add 0 ((sequence_of <$> l).*2).
Proof. unfold samples_of. induction l as [|d l IH]; cbn; [done|]. by rewrite IH. Qed.

Lemma sum_Permutation (l l' : list Z) :
  l ≡ₚ l' -> foldr Z.add 0 l = foldr Z.add 0 l'.
Proof. induction 1; cbn; lia. Qed.

Lemma ids_from_seqZ (timeline : Timeline) : forall k,
  ids_from k timeline -> id <$> timeline = seqZ k (Z.of_nat (length timeline)).
Proof.
  induction timeline as [|d rest IH]; intros k H; [done|].
  apply ids_from_cons in H as [Hid H].
  cbn [length fmap list_fmap]. rewrite Nat2Z.inj_succ, seqZ_cons by lia.
  rewrite Hid. f_equal. rewrite Z.pred_succ. by apply IH.
Qed.

Lemma original_ids_length (tl : Timeline) (ids : list Z) : forall o,
  original_ids tl ids = Ok o -> length o = length ids.
Proof.
  induction ids as [|i ids IH]; intros o H; cbn in H; [by simplify_eq|].
  apply bind_Ok_inv in H as (d & _ & H).
  apply bind_Ok_inv in H as (o' & Ho' & H).
  simplify_eq. cbn. f_equal. by apply IH.
Qed.

Lemma original_ids_seq (tl : Timeline) (j : nat) : forall (k : nat) o,
  original_ids tl (Z.of_nat <$> seq k j) = Ok o -> o = id <$> take j (drop k tl).
Proof.
  induction j as [|j IH]; intros k o H; cbn in H; [by simplify_eq|].
  apply bind_Ok_inv in H as (d & Hd & H).
  apply bind_Ok_inv in H as (o' & Ho' & H).
  apply vec_at_Ok in Hd. rewrite Nat2Z.id in Hd.
  apply IH in Ho'. simplify_eq.
  by rewrite (drop_S _ _ _ Hd).
Qed.

Section Epoch.

Variable NDEBUG : bool.
Variable RAND_MAX : Z.
Variable crand : Z -> nat -> Z.
Variable patience : nat.

Local Abbreviation Randomize := (Randomize NDEBUG RAND_MAX crand patience).
Local Abbreviation RandomizeIfNewSweepIsEntered :=
  (RandomizeIfNewSweepIsEntered NDEBUG RAND_MAX crand patience).
Local Abbreviation StartEpoch := (StartEpoch NDEBUG RAND_MAX crand patience).
Local Abbreviation AdvanceToNextPositionForThisWorker :=
  (AdvanceToNextPositionForThisWorker NDEBUG RAND_MAX crand patience).
Local Abbreviation select_ids := (select_ids NDEBUG RAND_MAX crand patience).
Local Abbreviation GetNextSequences :=
  (GetNextSequences NDEBUG RAND_MAX crand patience).

(** The calls of [GetNextSequences] up to the one that reports the end of
    the epoch, and the data they return, one after the other. *)
Inductive reads (fuel : nat) (count : Z) :
    BlockRandomizer -> list Z -> BlockRandomizer -> Prop :=
  | reads_last s r s' :
      GetNextSequences fuel count s = Ok (r, s') ->
      m_endOfEpoch r = true ->
      reads fuel count s (m_data r) s'
  | reads_more s r s1 rest s' :
      GetNextSequences fuel count s = Ok (r, s1) ->
      m_endOfEpoch r = false ->
      reads fuel count s1 rest s' ->
      reads fuel count s (m_data r ++ rest) s'.

(** ** The size of a batch and the flag *)

Lemma Advance_result (fuel : nat) : forall s e s1,
  AdvanceToNextPositionForThisWorker fuel s = Ok (e, s1) ->
  e = (m_epochSize s1 <=? m_samplePositionInEpoch s1)
  /\ m_epochSize s1 = m_epochSize s.
Proof.
  induction fuel as [|fuel IH]; intros s e s1 H; [done|].
  cbn [BR.AdvanceToNextPositionForThisWorker] in H.
  destruct (m_samplePositionInEpoch s <? m_epochSize s); [|by simplify_eq].
  apply bind_Ok_inv in H as (x & Hx & H).
  apply bind_Ok_inv in H as (d & _ & H).
  apply RandomizeIfNewSweepIsEntered_cursor in Hx as [_ Hx].
  destruct (m_numberOfWorkers x =? 0); [done|].
  destruct (chunkId d mod m_numberOfWorkers x =? m_workerRank x).
  - by simplify_eq.
  - apply IH in H as [-> H]. split; [done|]. by rewrite H.
Qed.

Lemma select_ids_result (fuel n : nat) : forall s sel e s1,
  select_ids fuel n s = Ok (sel, e, s1) ->
  (length sel <= n)%nat
  /\ (e = false -> length sel = n)
  /\ (e = true -> m_epochSize s1 <= m_samplePositionInEpoch s1)
  /\ m_epochSize s1 = m_epochSize s.
Proof.
  induction n as [|n IH]; intros s sel e s1 H.
  - cbn in H. by simplify_eq.
  - cbn [BR.select_ids] in H.
    apply bind_Ok_inv in H as ([e0 x] & Hadv & H).
    apply Advance_result in Hadv as [-> Hx].
    destruct (m_epochSize x <=? m_samplePositionInEpoch x) eqn:Hend.
    + simplify_eq. cbn. split; [lia|]. split; [done|]. split; [|done].
      intros _. by apply Z.leb_le.
    + apply bind_Ok_inv in H as ([] & _ & H).
      apply bind_Ok_inv in H as (d & _ & H).
      apply bind_Ok_inv in H as ([[sel' e'] y] & Hsel & H).
      apply IH in Hsel as (Hle & Hfull & Hflag & Hsize).
      simplify_eq. cbn [length].
      split; [lia|]. split; [intros E; by rewrite Hfull|]. split; [done|].
      by rewrite Hsize.
Qed.

(** X7. A batch of [GetNextSequences] never holds more than [count]
    sequences, and it holds fewer only when the call reports the end of the
    epoch; the flag is set only when the sample position has reached the
    size of the epoch, which the call does not change. *)
Theorem GetNextSequences_batch (fuel : nat) (count : Z) (s s' : BlockRandomizer)
    (result : Sequences) :
  GetNextSequences fuel count s = Ok (result, s') ->
  (length (m_data result) <= Z.to_nat count)%nat
  /\ (m_endOfEpoch result = false -> length (m_data result) = Z.to_nat count)
  /\ (m_endOfEpoch result = true -> m_epochSize s' <= m_samplePositionInEpoch s')
  /\ m_epochSize s' = m_epochSize s.
Proof.
  unfold BR.GetNextSequences. intros H.
  apply bind_Ok_inv in H as ([] & _ & H).
  apply bind_Ok_inv in H as ([[sel e] s1] & Hsel & H).
  apply select_ids_result in Hsel as (Hle & Hfull & Hflag & Hsize).
  destruct (sel.*1) as [|i0 ids'] eqn:Hids.
  - apply fmap_nil_inv in Hids as ->. simplify_eq. cbn in *. done.
  - apply bind_Ok_inv in H as (c0 & _ & H).
    apply bind_Ok_inv in H as (chunk0 & _ & H).
    apply bind_Ok_inv in H as (idsback & _ & H).
    apply bind_Ok_inv in H as (c1 & _ & H).
    apply bind_Ok_inv in H as (chunk1 & _ & H).
    apply bind_Ok_inv in H as (d & _ & H).
    apply bind_Ok_inv in H as (originalIds & Horig & H).
    apply original_ids_length in Horig.
    rewrite <- Hids, length_fmap in Horig.
    simplify_eq. cbn [m_data m_endOfEpoch]. rewrite Horig. done.
Qed.

(** The position at a reported end. *)
Lemma GetNextSequences_at_end (fuel : nat) (count : Z) (s s' : BlockRandomizer)
    (result : Sequences) :
  GetNextSequences fuel count s = Ok (result, s') ->
  m_endOfEpoch result = true ->
  m_epochSize s' <= m_samplePositionInEpoch s'.
Proof.
  unfold BR.GetNextSequences. intros H Hend.
  apply bind_Ok_inv in H as ([] & _ & H).
  apply bind_Ok_inv in H as ([[sel e] s1] & Hsel & H).
  apply select_ids_result in Hsel as (_ & _ & Hflag & _).
  destruct (sel.*1) as [|i0 ids'].
  - simplify_eq. by apply Hflag.
  - repeat (apply bind_Ok_inv in H as (? & _ & H)).
    simplify_eq. by apply Hflag.
Qed.

(** X8. Once a call has reported the end of the epoch, every later call
    for one sequence or more reports it again, with no data, and leaves the
    object, the deserializer in it included, as it is. A call for no
    sequence returns no data and never reports the end. (In a debug build
    both stop on the assertion when the sample position is the marker
    [SIZE_MAX].) *)
Theorem GetNextSequences_after_the_end :
  (forall (fuel : nat) (count : Z) (s s' : BlockRandomizer) (result : Sequences),
     GetNextSequences fuel count s = Ok (result, s') ->
     m_endOfEpoch result = true ->
     forall (fuel' : nat) (count' : Z), (1 <= fuel')%nat -> 1 <= count' ->
       GetNextSequences fuel' count' s'
       = (_ <- assert NDEBUG (negb (m_samplePositionInEpoch s' =? SIZE_MAX));;
          Ok ({| m_endOfEpoch := true; m_data := [] |}, s')))
  /\ (forall (fuel : nat) (count : Z) (s : BlockRandomizer),
        count <= 0 ->
        GetNextSequences fuel count s
        = (_ <- assert NDEBUG (negb (m_samplePositionInEpoch s =? SIZE_MAX));;
           Ok ({| m_endOfEpoch := false; m_data := [] |}, s))).
Proof.
  split.
  - intros fuel count s s' result H Hend fuel' count' Hfuel Hcount.
    apply GetNextSequences_at_end in H; [|done].
    unfold BR.GetNextSequences.
    destruct (assert NDEBUG _); try done. cbn [bind].
    destruct fuel' as [|fuel']; [lia|].
    destruct (Z.to_nat count') as [|n] eqn:Hn; [lia|].
    cbn [BR.select_ids BR.AdvanceToNextPositionForThisWorker].
    assert ((m_samplePositionInEpoch s' <? m_epochSize s') = false) as ->
      by (apply Z.ltb_ge; lia).
    assert ((m_epochSize s' <=? m_samplePositionInEpoch s') = true) as ->
      by (apply Z.leb_le; lia).
    done.
  - intros fuel count s Hcount. unfold BR.GetNextSequences.
    destruct (assert NDEBUG _); try done. cbn [bind].
    replace (Z.to_nat count) with 0%nat by lia. done.
Qed.

(** X13. [GetNextSequences] on a randomizer no epoch was started on: the
    constructor leaves the sample position and the epoch size at
    [SIZE_MAX], so a debug build stops on the assertion, and a release
    build reports the end of the epoch with no data and changes nothing. *)
Theorem GetNextSequences_before_StartEpoch (verbosity range : Z)
    (deserializer : option Deserializer) (s : BlockRandomizer)
    (fuel : nat) (count : Z) :
  BlockRandomizer_new NDEBUG verbosity range deserializer = Ok s ->
  (1 <= fuel)%nat -> 1 <= count ->
  GetNextSequences fuel count s
  = if NDEBUG then Ok ({| m_endOfEpoch := true; m_data := [] |}, s)
    else AssertionFailed.
Proof.
  intros Hnew Hfuel Hcount.
  destruct deserializer as [d|];
    [|unfold BlockRandomizer_new in Hnew;
      apply bind_Ok_inv in Hnew as ([] & _ & Hnew); done].
  apply BlockRandomizer_new_inv in Hnew
    as (back & ci & maxN & ns & _ & _ & _ & ->).
  unfold BR.GetNextSequences.
  cbn [m_samplePositionInEpoch]. rewrite Z.eqb_refl. cbn [negb].
  unfold assert. destruct NDEBUG; [|done]. cbn [bind].
  destruct fuel as [|fuel]; [lia|].
  destruct (Z.to_nat count) as [|n] eqn:Hn; [lia|].
  cbn [BR.select_ids BR.AdvanceToNextPositionForThisWorker
       m_samplePositionInEpoch m_epochSize].
  rewrite Z.ltb_irrefl, Z.leb_refl. done.
Qed.

(** X14. Where [StartEpoch] puts the cursor: the epoch size is
    [m_numSamples] when the whole data is requested and [totalSize]
    otherwise, the sample position in the epoch is 0, and epoch [index]
    starts at the global sample position [epochSize * index]: in the sweep
    of that position, at that position's offset in the sweep. The timeline
    is randomized again only when the sweep is not the current one. *)
Theorem StartEpoch_cursor (config : EpochConfiguration) (s s' : BlockRandomizer) :
  let epochSize :=
    if totalSize config =? requestDataSize then m_numSamples s
    else totalSize config in
  let timeframe := size_t (epochSize * index config) in
  StartEpoch config s = Ok s' ->
  m_numSamples s <> 0
  /\ m_workerRank s' = workerRank config
  /\ m_numberOfWorkers s' = numberOfWorkers config
  /\ m_epochSize s' = epochSize
  /\ m_samplePositionInEpoch s' = 0
  /\ m_sweep s' = timeframe / m_numSamples s
  /\ m_sequencePositionInSweep s' = timeframe mod m_numSamples s
  /\ m_numSamples s' = m_numSamples s
  /\ (m_sweep s = timeframe / m_numSamples s ->
      m_randomTimeline s' = m_randomTimeline s
      /\ m_randomizedChunks s' = m_randomizedChunks s)
  /\ (NDEBUG = false -> m_frameMode s = true /\ timeframe <> SIZE_MAX).
Proof.
  intros epochSize timeframe H. unfold BR.StartEpoch in H. cbn zeta in H.
  fold epochSize in H.
  lazymatch type of H with
  | context [RandomizeForGlobalSamplePosition _ _ _ _ _ ?sx] => set (x := sx) in *
  end.
  assert (m_epochSize x = epochSize) as Hsize by reflexivity.
  assert (m_numSamples x = m_numSamples s) as Hsamples by reflexivity.
  assert (m_sweep x = m_sweep s) as Hsweep by reflexivity.
  rewrite Hsize in H. fold timeframe in H.
  apply bind_Ok_inv in H as ([] & Hframe & H).
  apply bind_Ok_inv in H as ([] & Htime & H).
  unfold BR.RandomizeForGlobalSamplePosition in H.
  rewrite Hsamples, Hsweep in H.
  destruct (m_numSamples s =? 0) eqn:Hzero; [done|]. apply Z.eqb_neq in Hzero.
  apply bind_Ok_inv in H as (y & Hy & H).
  assert (NDEBUG = false -> m_frameMode s = true /\ timeframe <> SIZE_MAX) as Hdebug.
  { intros E. rewrite E in Hframe, Htime. unfold assert in Hframe, Htime.
    change (m_frameMode x) with (m_frameMode s) in Hframe.
    destruct (m_frameMode s); [|done]. split; [done|].
    destruct (timeframe =? SIZE_MAX) eqn:E'; [done|]. by apply Z.eqb_neq. }
  destruct (m_sweep s =? timeframe / m_numSamples s) eqn:Esweep; cbn [negb] in Hy.
  - apply Z.eqb_eq in Esweep. injection Hy as <-. injection H as <-.
    cbn. split; [done|]. do 4 (split; [done|]).
    split; [done|]. split; [done|]. split; [done|]. split; [done|]. exact Hdebug.
  - apply Z.eqb_neq in Esweep.
    pose proof (Randomize_cursor _ _ _ _ _ _ Hy) as [Hposition Hepoch].
    pose proof (Randomize_members _ _ _ _ _ _ Hy)
      as (_ & Hns & Hr & HN & Hsw & _).
    injection H as <-. cbn in *.
    rewrite Hns.
    split; [done|]. do 4 (split; [done|]).
    split; [done|]. split; [done|]. split; [done|]. split; [done|]. exact Hdebug.
Qed.

(** ** One sweep, one worker *)

(** The object of the one worker of a sweep that has read the first [k]
    sequences of the randomized timeline [tl]. *)
Definition reading (tl : Timeline) (k : nat) (x : BlockRandomizer) : Prop :=
  m_randomTimeline x = tl
  /\ m_numSequences x = Z.of_nat (length tl)
  /\ m_sequencePositionInSweep x = Z.of_nat k
  /\ m_samplePositionInEpoch x = samples_of (take k tl)
  /\ m_epochSize x = samples_of tl
  /\ m_workerRank x = 0 /\ m_numberOfWorkers x = 1
  /\ (k <= length tl)%nat.

Section OneSweep.

Variable tl : Timeline.
Hypothesis Hpositive : Forall (fun d => 1 <= numberOfSamples d) tl.
Hypothesis Hfit : samples_of tl <= SIZE_MAX.
Hypothesis Hshort : Z.of_nat (length tl) < SIZE_MAX.

Lemma samples_of_take (k : nat) (d : SequenceDescription) :
  tl !! k = Some d ->
  0 <= samples_of (take k tl)
  /\ samples_of (take (S k) tl) = samples_of (take k tl) + numberOfSamples d
  /\ samples_of (take (S k) tl) <= samples_of tl
  /\ 1 <= numberOfSamples d.
Proof.
  intros Hd.
  assert (Forall (fun d => 1 <= numberOfSamples d) (take k tl)) as H1
    by (by apply Forall_take).
  assert (Forall (fun d => 1 <= numberOfSamples d) (drop (S k) tl)) as H2
    by (by apply Forall_drop).
  apply samples_of_nonneg in H1, H2.
  assert (samples_of (take (S k) tl) = samples_of (take k tl) + numberOfSamples d) as E1.
  { rewrite (take_S_r _ _ _ Hd), samples_of_app. cbn. lia. }
  assert (samples_of tl = samples_of (take (S k) tl) + samples_of (drop (S k) tl)) as E2
    by (by rewrite <- samples_of_app, take_drop).
  assert (1 <= numberOfSamples d) as H3.
  { rewrite Forall_forall in Hpositive. apply Hpositive.
    by eapply list_elem_of_lookup_2. }
  lia.
Qed.

Lemma reading_Advance (fuel k : nat) (x y : BlockRandomizer) (e : bool) :
  reading tl k x ->
  AdvanceToNextPositionForThisWorker fuel x = Ok (e, y) ->
  y = x
  /\ (e = true -> k = length tl)
  /\ (e = false -> exists d, tl !! k = Some d).
Proof.
  intros (Htl & Hn & Hk & Hsp & He & Hr & HN & Hle) H.
  destruct fuel as [|fuel]; [done|].
  cbn [BR.AdvanceToNextPositionForThisWorker] in H.
  rewrite Hsp, He in H.
  destruct (samples_of (take k tl) <? samples_of tl) eqn:Hlt.
  - apply Z.ltb_lt in Hlt.
    assert (k < length tl)%nat as Hin.
    { destruct (decide (k < length tl)%nat); [done|].
      rewrite take_ge in Hlt by lia. lia. }
    destruct (lookup_lt_is_Some_2 tl k Hin) as [d Hd].
    unfold BR.RandomizeIfNewSweepIsEntered in H. rewrite Hn, Hk in H.
    assert ((Z.of_nat (length tl) <=? Z.of_nat k) = false) as E
      by (apply Z.leb_gt; lia).
    rewrite E in H. cbn [bind] in H. rewrite Htl, Hk in H.
    assert (vec_at tl (Z.of_nat k) = Ok d) as E'
      by (apply vec_at_Ok; by rewrite Nat2Z.id).
    rewrite E' in H. cbn [bind] in H. rewrite HN, Hr, Z.mod_1_r in H.
    cbn in H. rewrite Hsp, He in H. injection H as <- <-.
    split; [done|]. split; [|by eauto].
    intros E2. apply Z.leb_le in E2. lia.
  - apply Z.ltb_ge in Hlt. injection H as <- <-.
    split; [done|]. split.
    + intros _. destruct (decide (k = length tl)); [done|].
      destruct (lookup_lt_is_Some_2 tl k ltac:(lia)) as [d Hd].
      pose proof (samples_of_take k d Hd). lia.
    + intros E. apply Z.leb_gt in E. lia.
Qed.

Lemma reading_move_past (k : nat) (x : BlockRandomizer) (d : SequenceDescription) :
  reading tl k x -> tl !! k = Some d -> reading tl (S k) (move_past d x).
Proof.
  intros (Htl & Hn & Hk & Hsp & He & Hr & HN & Hle) Hd.
  pose proof (samples_of_take k d Hd) as (H0 & H1 & H2 & H3).
  pose proof (lookup_lt_Some _ _ _ Hd) as Hin.
  unfold reading, move_past. cbn. rewrite Hk, Hsp.
  rewrite !size_t_id by (unfold in_size_t; lia).
  repeat split; try done; lia.
Qed.

Lemma reading_select_ids (fuel n : nat) : forall (k : nat) x sel e y,
  reading tl k x ->
  select_ids fuel n x = Ok (sel, e, y) ->
  exists j : nat,
    reading tl (k + j) y
    /\ sel.*1 = Z.of_nat <$> seq k j
    /\ (e = true -> (k + j)%nat = length tl).
Proof.
  induction n as [|n IH]; intros k x sel e y Hx H.
  - cbn in H. simplify_eq. exists 0%nat. rewrite Nat.add_0_r. done.
  - cbn [BR.select_ids] in H.
    apply bind_Ok_inv in H as ([e0 x0] & Hadv & H).
    destruct (reading_Advance _ _ _ _ _ Hx Hadv) as (-> & Hend & Hmore).
    destruct e0.
    + simplify_eq. exists 0%nat. rewrite Nat.add_0_r.
      split; [done|]. split; [done|]. intros _. by apply Hend.
    + apply bind_Ok_inv in H as ([] & _ & H).
      apply bind_Ok_inv in H as (d & Hd & H).
      apply bind_Ok_inv in H as ([[sel' e'] y'] & Hsel & H).
      pose proof Hx as (Htl & _ & Hk & _).
      rewrite Htl, Hk in Hd. apply vec_at_Ok in Hd. rewrite Nat2Z.id in Hd.
      eapply IH in Hsel as (j & Hy & Hids & Hflag);
        [|apply (reading_move_past k x d); done].
      clear Htl.
      simplify_eq. exists (S j).
      replace (k + S j)%nat with (S k + j)%nat by lia.
      split; [done|]. split; [|done].
      cbn. by rewrite Hk, Hids.
Qed.

Lemma reading_GetNextSequences (fuel : nat) (count : Z) (k : nat)
    (x y : BlockRandomizer) (r : Sequences) :
  reading tl k x ->
  GetNextSequences fuel count x = Ok (r, y) ->
  exists j : nat,
    reading tl (k + j) y
    /\ m_data r = id <$> take j (drop k tl)
    /\ (m_endOfEpoch r = true -> (k + j)%nat = length tl).
Proof.
  intros Hx H. unfold BR.GetNextSequences in H.
  apply bind_Ok_inv in H as ([] & _ & H).
  apply bind_Ok_inv in H as ([[sel e] s1] & Hsel & H).
  destruct (reading_select_ids _ _ _ _ _ _ _ Hx Hsel) as (j & Hy & Hids & Hflag).
  destruct (sel.*1) as [|i0 ids'] eqn:Hsel1.
  - destruct j; [|done]. simplify_eq. exists 0%nat. done.
  - apply bind_Ok_inv in H as (c0 & _ & H).
    apply bind_Ok_inv in H as (chunk0 & _ & H).
    apply bind_Ok_inv in H as (idsback & _ & H).
    apply bind_Ok_inv in H as (c1 & _ & H).
    apply bind_Ok_inv in H as (chunk1 & _ & H).
    apply bind_Ok_inv in H as (d & _ & H).
    apply bind_Ok_inv in H as (originalIds & Horig & H).
    destruct Hy as (Htl & Hy). rewrite Htl, Hids in Horig.
    apply original_ids_seq in Horig.
    simplify_eq. exists j. done.
Qed.

Lemma reading_reads (fuel : nat) (count : Z) (x y : BlockRandomizer)
    (out : list Z) :
  reads fuel count x out y ->
  forall k : nat, reading tl k x ->
    out = id <$> drop k tl /\ reading tl (length tl) y.
Proof.
  induction 1 as [s r s' H Hend|s r s1 rest s' H Hmore _ IH]; intros k Hx.
  - destruct (reading_GetNextSequences _ _ _ _ _ _ Hx H) as (j & Hy & -> & Hflag).
    specialize (Hflag Hend). rewrite Hflag in Hy. split; [|done].
    rewrite take_ge; [done|]. rewrite length_drop. lia.
  - destruct (reading_GetNextSequences _ _ _ _ _ _ Hx H) as (j & Hy & -> & _).
    destruct (IH _ Hy) as [-> Hend]. split; [|done].
    rewrite <- fmap_app. f_equal.
    rewrite <- drop_drop. apply take_drop.
Qed.

End OneSweep.

(** The first sweep an epoch starts in. *)
Lemma StartEpoch_first_sweep (config : EpochConfiguration) (s0 s1 : BlockRandomizer) :
  totalSize config = requestDataSize -> index config = 0 ->
  m_sweep s0 = SIZE_MAX ->
  StartEpoch config s0 = Ok s1 ->
  exists s',
    Randomize
      (set_m_sweepStartInSamples 0
         (set_m_sweep 0
            (set_m_samplePositionInEpoch 0
               (set_m_epochSize (m_numSamples s0)
                  (set_m_numberOfWorkers (numberOfWorkers config)
                     (set_m_workerRank (workerRank config)
                        (set_m_deserializer
                           (call StartEpochCall (m_deserializer s0)) s0)))))))
    = Ok s'
    /\ s1 = set_m_sequencePositionInSweep 0 s'.
Proof.
  intros Htotal Hindex Hsweep H. unfold BR.StartEpoch in H.
  rewrite Htotal, Z.eqb_refl, Hindex in H. cbn zeta in H.
  lazymatch type of H with
  | context [set_m_epochSize ?n _] => change n with (m_numSamples s0) in H
  end.
  lazymatch goal with
  | |- exists s', Randomize (_ 0 (_ 0 ?sx)) = _ /\ _ => set (x := sx) in *
  end.
  apply bind_Ok_inv in H as ([] & _ & H).
  apply bind_Ok_inv in H as ([] & _ & H).
  unfold BR.RandomizeForGlobalSamplePosition in H.
  assert (size_t 0 = 0) as E0 by reflexivity.
  assert ((SIZE_MAX =? 0) = false) as E1 by reflexivity.
  assert (m_sweep x = SIZE_MAX) as E2 by exact Hsweep.
  destruct (m_numSamples x =? 0); [done|].
  rewrite Z.mul_0_r, E0, Zdiv_0_l, E2, E1 in H.
  cbn [negb] in H. rewrite Z.mul_0_l, E0 in H.
  apply bind_Ok_inv in H as (s' & Hrand & H).
  exists s'. split; [exact Hrand|]. rewrite Zmod_0_l in H. by simplify_eq.
Qed.

(** X9. An epoch over the whole corpus, read by one worker from a newly
    constructed randomizer, returns every sequence of the corpus exactly
    once: the data of the calls of [GetNextSequences], up to the one that
    reports the end, are the original ids along the randomized timeline of
    the first sweep, a permutation of [0 .. numSequences - 1]. *)
Theorem epoch_reads_every_sequence_once (verbosity range : Z) (d : Deserializer)
    (config : EpochConfiguration) (s0 s1 s' : BlockRandomizer)
    (fuel : nat) (count : Z) (out : list Z) :
  let timeline := GetSequenceDescriptions d in
  timeline_wf timeline -> IsValid timeline = true ->
  samples_of timeline <= SIZE_MAX ->
  (exists first, head timeline = Some first /\ chunkId first = 0) ->
  BlockRandomizer_new NDEBUG verbosity range (Some d) = Ok s0 ->
  workerRank config = 0 -> numberOfWorkers config = 1 ->
  totalSize config = requestDataSize -> index config = 0 ->
  StartEpoch config s0 = Ok s1 ->
  reads fuel count s1 out s' ->
  out = id <$> m_randomTimeline s1
  /\ out ≡ₚ seqZ 0 (Z.of_nat (length timeline))
  /\ m_samplePositionInEpoch s' = m_epochSize s'.
Proof.
  intros timeline Hwf Hvalid Hsum Hfirst Hnew Hrank Hworkers Htotal Hindex
    Hstart Hreads.
  destruct (constructed_counts NDEBUG verbosity range d s0 Hwf Hvalid Hsum Hnew)
    as (HnumSeq & _ & HnumSamples & Hd & Hsweep).
  destruct (constructed_laid_out NDEBUG verbosity range d s0 Hwf Hvalid Hsum Hfirst Hnew)
    as [Hlaid Hzero].
  pose proof (proj1 (IsValid_iff_accepted timeline Hwf) Hvalid) as (Hids & _ & Hpos).
  destruct Hwf as [_ Hshort].
  apply (StartEpoch_first_sweep _ _ _ Htotal Hindex Hsweep) in Hstart
    as (x & Hrand & ->).
  pose proof (Randomize_cursor _ _ _ _ _ _ Hrand) as [Hsp He].
  pose proof (Randomize_members _ _ _ _ _ _ Hrand) as (Hn & _ & Hr & HN & _).
  apply Randomize_Permutation in Hrand; [|exact Hlaid|exact Hzero|].
  2:{ cbn. rewrite Hd. exact HnumSeq. }
  cbn in Hrand, Hsp, He, Hn, Hr, HN. rewrite Hd in Hrand. fold timeline in Hrand.
  set (tl := m_randomTimeline x) in *.
  assert (samples_of tl = samples_of timeline) as Hsamples.
  { rewrite !samples_of_sequences. apply sum_Permutation. by rewrite Hrand. }
  assert (length tl = length timeline) as Hlength.
  { apply Permutation_length in Hrand. by rewrite !length_fmap in Hrand. }
  assert (Forall (fun d => 1 <= numberOfSamples d) tl) as Hpos'.
  { apply Forall_forall. intros d0 Hd0.
    assert (sequence_of d0 ∈ sequence_of <$> timeline) as Hin.
    { rewrite <- Hrand. apply list_elem_of_fmap. eauto. }
    apply list_elem_of_fmap in Hin as (d1 & Heq & Hd1).
    rewrite Forall_forall in Hpos. specialize (Hpos d1 Hd1).
    unfold sequence_of in Heq. injection Heq as _ Heq. by rewrite Heq. }
  assert (reading tl 0 (set_m_sequencePositionInSweep 0 x)) as Hx.
  { unfold reading. cbn. fold tl.
    rewrite Hsp, He, Hn, Hr, HN, HnumSeq, Hlength, HnumSamples, Hsamples.
    repeat split; try done. lia. }
  destruct (reading_reads tl Hpos' ltac:(lia) ltac:(unfold SIZE_MAX in *; lia)
              _ _ _ _ _ Hreads 0%nat Hx) as [-> Hend].
  rewrite drop_0. split; [done|]. split.
  - rewrite <- (ids_from_seqZ timeline 0 Hids).
    assert (id <$> tl = (sequence_of <$> tl).*1) as ->
      by (rewrite <- list_fmap_compose; done).
    assert (id <$> timeline = (sequence_of <$> timeline).*1) as ->
      by (rewrite <- list_fmap_compose; done).
    by rewrite Hrand.
  - destruct Hend as (_ & _ & _ & -> & -> & _). by rewrite firstn_all.
Qed.

End Epoch.

Lemma GetNextSequences_batch_witness :
  exists s0 s1 result s2,
    BlockRandomizer_new true 0 12 (corpus timeline_2x2) = Ok s0
    /\ StartEpoch true 32767 msvc_rand 20 one_sweep s0 = Ok s1
    /\ GetNextSequences true 32767 msvc_rand 20 5 3 s1 = Ok (result, s2)
    /\ m_endOfEpoch result = false
    /\ length (m_data result) = 3%nat
    /\ m_epochSize s2 = 4.
Proof.
  do 4 eexists.
  split; [vm_compute; reflexivity|].
  split; [vm_compute; reflexivity|].
  lazymatch goal with
  | |- GetNextSequences _ _ _ _ _ _ ?s1 = _ /\ _ => pose (x1 := s1)
  end.
  split; [vm_compute; reflexivity|].
  split; [reflexivity|].
  lazymatch goal with
  | |- length (m_data ?r) = _ /\ m_epochSize ?s2 = _ =>
      pose proof (GetNextSequences_batch true 32767 msvc_rand 20 5 3 x1 s2 r
                    ltac:(vm_compute; reflexivity)) as (_ & Hfull & _ & Hsize)
  end.
  split; [exact (Hfull eq_refl)|]. exact (eq_trans Hsize eq_refl).
Defined.

Lemma GetNextSequences_after_the_end_witness :
  exists s0 s1 r1 s2 r2 s3,
    BlockRandomizer_new true 0 12 (corpus timeline_2x2) = Ok s0
    /\ StartEpoch true 32767 msvc_rand 20 one_sweep s0 = Ok s1
    /\ GetNextSequences true 32767 msvc_rand 20 5 3 s1 = Ok (r1, s2)
    /\ GetNextSequences true 32767 msvc_rand 20 5 3 s2 = Ok (r2, s3)
    /\ m_endOfEpoch r2 = true /\ length (m_data r2) = 1%nat
    /\ GetNextSequences true 32767 msvc_rand 20 1 3 s3
       = Ok ({| m_endOfEpoch := true; m_data := [] |}, s3)
    /\ GetNextSequences true 32767 msvc_rand 20 0 0 s3
       = Ok ({| m_endOfEpoch := false; m_data := [] |}, s3).
Proof.
  do 6 eexists.
  split; [vm_compute; reflexivity|].
  split; [vm_compute; reflexivity|].
  split; [vm_compute; reflexivity|].
  lazymatch goal with
  | |- GetNextSequences _ _ _ _ _ _ ?s2 = _ /\ _ => pose (x2 := s2)
  end.
  split; [vm_compute; reflexivity|].
  lazymatch goal with
  | |- m_endOfEpoch ?r2 = _ /\ _ => pose (q2 := r2)
  end.
  split; [reflexivity|]. split; [reflexivity|].
  destruct (GetNextSequences_after_the_end true 32767 msvc_rand 20) as [Hend Hnone].
  lazymatch goal with
  | |- GetNextSequences _ _ _ _ _ _ ?s3 = _ /\ _ => pose (x3 := s3)
  end.
  split.
  - apply (Hend 5%nat 3 x2 x3 q2
             ltac:(vm_compute; reflexivity) eq_refl 1%nat 3 ltac:(lia) ltac:(lia)).
  - apply (Hnone 0%nat 0 x3). lia.
Defined.

Lemma GetNextSequences_before_StartEpoch_witness :
  (exists s,
     BlockRandomizer_new true 0 12 (corpus timeline_2x2) = Ok s
     /\ GetNextSequences true 32767 msvc_rand 20 1 2 s
        = Ok ({| m_endOfEpoch := true; m_data := [] |}, s))
  /\ (exists s,
        BlockRandomizer_new false 0 12 (corpus timeline_2x2) = Ok s
        /\ GetNextSequences false 32767 msvc_rand 20 1 2 s = AssertionFailed).
Proof.
  split.
  - eexists. split; [vm_compute; reflexivity|].
    apply (GetNextSequences_before_StartEpoch true 32767 msvc_rand 20 0 12
             (corpus timeline_2x2)); [vm_compute; reflexivity|lia|lia].
  - eexists. split; [vm_compute; reflexivity|].
    apply (GetNextSequences_before_StartEpoch false 32767 msvc_rand 20 0 12
             (corpus timeline_2x2)); [vm_compute; reflexivity|lia|lia].
Defined.

(** The second epoch of two samples over four sequences. *)
Definition second_half : EpochConfiguration :=
  {| workerRank := 0; numberOfWorkers := 1; minibatchSize := 2;
     totalSize := 2; index := 1 |}.

Lemma StartEpoch_cursor_witness :
  exists s s',
    BlockRandomizer_new false 0 12 (corpus timeline_2x2) = Ok s
    /\ StartEpoch false 32767 msvc_rand 20 second_half s = Ok s'
    /\ m_epochSize s' = 2 /\ m_samplePositionInEpoch s' = 0
    /\ m_sweep s' = 0 /\ m_sequencePositionInSweep s' = 2.
Proof.
  do 2 eexists.
  split; [vm_compute; reflexivity|].
  lazymatch goal with
  | |- StartEpoch _ _ _ _ _ ?s = _ /\ _ => pose (x := s)
  end.
  split; [vm_compute; reflexivity|].
  lazymatch goal with
  | |- m_epochSize ?s' = _ /\ _ => pose (x' := s')
  end.
  pose proof (StartEpoch_cursor false 32767 msvc_rand 20 second_half x x'
                ltac:(vm_compute; reflexivity))
    as (_ & _ & _ & Hsize & Hposition & Hsweep & Hsequence & _).
  split; [exact Hsize|]. split; [exact Hposition|].
  split; [exact Hsweep|]. exact Hsequence.
Defined.

Lemma epoch_reads_every_sequence_once_witness :
  exists s0 s1 out s',
    BlockRandomizer_new true 0 12 (corpus timeline_2x2) = Ok s0
    /\ StartEpoch true 32767 msvc_rand 20 one_sweep s0 = Ok s1
    /\ reads true 32767 msvc_rand 20 5 3 s1 out s'
    /\ out ≡ₚ [0; 1; 2; 3].
Proof.
  do 4 eexists.
  split; [vm_compute; reflexivity|].
  lazymatch goal with
  | |- StartEpoch _ _ _ _ _ ?s0 = _ /\ _ => pose (x0 := s0)
  end.
  split; [vm_compute; reflexivity|].
  lazymatch goal with
  | |- reads _ _ _ _ _ _ ?s1 _ _ /\ _ => pose (x1 := s1)
  end.
  split.
  - eapply reads_more; [vm_compute; reflexivity|reflexivity|].
    eapply reads_last; [vm_compute; reflexivity|reflexivity].
  - lazymatch goal with
    | |- ?out ≡ₚ _ => pose (o := out)
    end.
    assert (exists s', reads true 32767 msvc_rand 20 5 3 x1 o s') as [s' Hreads].
    { unfold o. eexists.
      eapply reads_more; [vm_compute; reflexivity|reflexivity|].
      eapply reads_last; [vm_compute; reflexivity|reflexivity]. }
    destruct (epoch_reads_every_sequence_once true 32767 msvc_rand 20 0 12
                {| GetSequenceDescriptions := timeline_2x2; calls := [] |}
                one_sweep x0 x1 s' 5 3 o timeline_2x2_wf eq_refl
                ltac:(by vm_compute) ltac:(by eexists) eq_refl
                eq_refl eq_refl eq_refl eq_refl eq_refl Hreads)
      as (_ & Hperm & _).
    exact Hperm.
Defined.

End Epoch.

(** * The blocks of the heap memory provider *)

Module HeapBlocks.

Import HeapMemoryProvider.

(** The first multiple of [a] at or after [x]. *)
Lemma align_up (a x : Z) :
  0 < a ->
  let aligned := (x + a - 1) / a * a in
  x <= aligned < x + a /\ aligned mod a = 0.
Proof.
  intros Ha. cbn zeta.
  pose proof (Z.div_mod (x + a - 1) a ltac:(lia)) as Hdiv.
  pose proof (Z.mod_pos_bound (x + a - 1) a Ha) as Hmod.
  split; [nia|]. by apply Z_mod_mult.
Qed.

Lemma is_power_of_two_spec (a : Z) :
  is_power_of_two a = true <-> exists k, 0 <= k /\ a = 2 ^ k.
Proof.
  unfold is_power_of_two. rewrite andb_true_iff, Z.ltb_lt, Z.eqb_eq. split.
  - intros [Hpos E]. exists (Z.log2 a). split; [apply Z.log2_nonneg|exact E].
  - intros (k & Hk & ->). split; [by apply Z.pow_pos_nonneg|].
    by rewrite Z.log2_pow2.
Qed.

(** The pointer of [Alloc] for one element or more: the first multiple of
    the alignment after the saved pointer's word at the start of the new
    block. *)
Lemma Alloc_pointer (elementSize numberOfElements : Z) (h : Heap) :
  let alignment := Z.max elementSize size_of_first_pointer in
  let needed := size_of_first_pointer + (elementSize * numberOfElements + alignment) in
  let p := (next_block h + size_of_first_pointer + alignment - 1)
           / alignment * alignment in
  1 <= elementSize -> 1 <= numberOfElements ->
  is_power_of_two alignment = true ->
  needed <= SIZE_MAX -> 0 <= next_block h ->
  Alloc elementSize numberOfElements h
  = Ok (p,
        {| blocks := <[next_block h := needed]> (blocks h);
           words := <[p - size_of_first_pointer := next_block h]> (words h);
           next_block := next_block h + (needed + 15) / 16 * 16 |},
        [New (next_block h) needed;
         WriteWord (p - size_of_first_pointer) (next_block h)])
  /\ next_block h + size_of_first_pointer <= p
     < next_block h + size_of_first_pointer + alignment
  /\ p mod alignment = 0.
Proof.
  intros alignment needed p Hes Hn Hpow Hfit Hbase.
  assert (8 <= alignment) as Ha by (unfold alignment, size_of_first_pointer; lia).
  assert (elementSize <= elementSize * numberOfElements) as Hone by nia.
  destruct (align_up alignment (next_block h + size_of_first_pointer) ltac:(lia))
    as [Hrange Hmod].
  fold p in Hrange, Hmod. split; [|done].
  unfold Alloc, operator_new. cbn zeta. fold alignment.
  unfold needed, size_of_first_pointer in Hfit.
  rewrite (size_t_id (elementSize * numberOfElements + alignment))
    by (unfold in_size_t; lia).
  rewrite size_t_id by (unfold in_size_t, size_of_first_pointer; lia).
  fold needed. unfold std_align. rewrite Hpow. cbn zeta. fold p. cbn [bind].
  assert ((p - (next_block h + size_of_first_pointer) + elementSize
           <=? elementSize * numberOfElements + alignment) = true) as ->
    by (apply Z.leb_le; lia).
  unfold size_of_first_pointer in Hrange.
  assert ((p =? nullptr) = false) as ->
    by (apply Z.eqb_neq; unfold nullptr; lia).
  reflexivity.
Qed.

(** X10. [Alloc] of one element or more, when the sizes do not wrap
    around [size_t] and the alignment, the larger of the element size and
    the size of a pointer, is a power of two: the pointer returned is not
    null and is a multiple of the alignment; the word before it lies
    inside the new block and holds the address of the block; and the array
    of [numberOfElements] elements ends inside the block. When the
    alignment is no power of two (an element size above 8 that is none)
    the call to [std::align] is undefined. *)
Theorem Alloc_block (elementSize numberOfElements : Z) (h : Heap) :
  let alignment := Z.max elementSize size_of_first_pointer in
  let needed := size_of_first_pointer + (elementSize * numberOfElements + alignment) in
  ((exists k, 0 <= k /\ alignment = 2 ^ k) ->
   1 <= elementSize -> 1 <= numberOfElements ->
   needed <= SIZE_MAX -> 0 <= next_block h ->
   exists p h1,
     Alloc elementSize numberOfElements h
     = Ok (p, h1, [New (next_block h) needed;
                   WriteWord (p - size_of_first_pointer) (next_block h)])
     /\ p <> nullptr /\ p mod alignment = 0
     /\ next_block h + size_of_first_pointer <= p
     /\ p + elementSize * numberOfElements <= next_block h + needed
     /\ blocks h1 !! next_block h = Some needed
     /\ words h1 !! (p - size_of_first_pointer) = Some (next_block h)
     /\ next_block h + needed <= next_block h1)
  /\ ((forall k, 0 <= k -> alignment <> 2 ^ k) ->
      Alloc elementSize numberOfElements h = Undefined).
Proof.
  intros alignment needed. split; cycle 1.
  { intros Hnot. unfold Alloc, operator_new. cbn zeta. fold alignment.
    unfold std_align.
    destruct (is_power_of_two alignment) eqn:E; [|reflexivity].
    apply is_power_of_two_spec in E as (k & Hk & E). by destruct (Hnot k Hk). }
  intros Hpow%is_power_of_two_spec Hes Hn Hfit Hbase.
  destruct (Alloc_pointer elementSize numberOfElements h Hes Hn Hpow Hfit Hbase)
    as (Halloc & Hrange & Hmod).
  fold alignment needed in Halloc, Hrange, Hmod.
  set (p := (next_block h + size_of_first_pointer + alignment - 1)
            / alignment * alignment) in *.
  exists p. eexists. split; [exact Halloc|]. cbn [blocks words next_block].
  unfold size_of_first_pointer in Hrange.
  split; [unfold nullptr; lia|]. split; [exact Hmod|].
  split; [unfold size_of_first_pointer; lia|].
  split; [unfold needed, size_of_first_pointer; lia|].
  split; [by rewrite lookup_insert_eq|].
  split; [by rewrite lookup_insert_eq|].
  pose proof (Z.div_mod (needed + 15) 16 ltac:(lia)) as Hdiv.
  pose proof (Z.mod_pos_bound (needed + 15) 16 ltac:(lia)) as Hrem.
  lia.
Qed.

(** X11. [Free] of a pointer [Alloc] has returned gives back exactly the
    block [Alloc] took: the blocks are those before the [Alloc] (the address
    of the new block was free). The saved word stays, so a second [Free] of
    the pointer finds no block to delete: its behaviour is undefined. *)
Theorem Alloc_Free_round_trip (elementSize numberOfElements : Z) (h h1 : Heap)
    (p : Z) (trace : list Access) :
  Alloc elementSize numberOfElements h = Ok (p, h1, trace) ->
  blocks h !! next_block h = None ->
  exists h2,
    Free p h1 = Ok (h2, [ReadWord (p - size_of_first_pointer); Delete (next_block h)])
    /\ blocks h2 = blocks h
    /\ words h2 = <[p - size_of_first_pointer := next_block h]> (words h)
    /\ Free p h2 = Undefined.
Proof.
  intros Halloc Hfresh.
  destruct (Free_Alloc _ _ _ _ _ _ Halloc) as [Hp Hfree].
  unfold Alloc, operator_new in Halloc. cbn zeta in Halloc.
  apply bind_Ok_inv in Halloc as (q & _ & Halloc).
  destruct (q =? nullptr) eqn:E; [done|]. injection Halloc as Hp' <- _.
  eexists. split; [exact Hfree|]. cbn [blocks words].
  split; [by rewrite delete_insert_id|]. split; [by rewrite Hp'|].
  unfold Free. rewrite (proj2 (Z.eqb_neq _ _) Hp). cbn [blocks words].
  rewrite <- Hp', lookup_insert_eq, lookup_delete_eq. done.
Qed.

(** X12. [Alloc] for no element at all, in a block aligned to 16 bytes,
    as [operator new] returns them. With elements of up to 8 bytes the
    call returns the address after the saved pointer. With larger elements
    its behaviour is undefined: for a size that is a power of two (16, 32,
    ...) [std::align] finds no room for one element after the saved
    pointer and returns null, and the saved pointer is written before the
    null pointer; for any other size the alignment handed to [std::align]
    is no power of two. *)
Theorem Alloc_no_elements (elementSize : Z) (h : Heap) :
  next_block h mod 16 = 0 -> 0 <= next_block h ->
  ((exists k, 4 <= k /\ elementSize = 2 ^ k) -> elementSize + 16 <= SIZE_MAX ->
   std_align elementSize elementSize (next_block h + size_of_first_pointer)
     elementSize = Ok nullptr
   /\ Alloc elementSize 0 h = Undefined)
  /\ (8 < elementSize -> (forall k, 0 <= k -> elementSize <> 2 ^ k) ->
      std_align elementSize elementSize (next_block h + size_of_first_pointer)
        elementSize = Undefined
      /\ Alloc elementSize 0 h = Undefined)
  /\ (1 <= elementSize <= 8 ->
      exists h1 trace,
        Alloc elementSize 0 h
        = Ok (next_block h + size_of_first_pointer, h1, trace)).
Proof.
  intros Hbase Hnonneg. split; [|split].
  - intros (k & Hk & ->) Hfit.
    assert (2 ^ k = 16 * 2 ^ (k - 4)) as Hpow.
    { replace k with (4 + (k - 4)) at 1 by lia. rewrite Z.pow_add_r by lia. done. }
    assert (0 < 2 ^ (k - 4)) as Hq by (apply Z.pow_pos_nonneg; lia).
    assert (is_power_of_two (2 ^ k) = true) as Htwo
      by (apply is_power_of_two_spec; exists k; split; [lia|done]).
    set (a := 2 ^ k) in *.
    assert (std_align a a (next_block h + size_of_first_pointer) a = Ok nullptr)
      as Halign.
    { unfold std_align. rewrite Htwo. cbn zeta.
      destruct (align_up a (next_block h + size_of_first_pointer) ltac:(lia))
        as [Hrange Hmod].
      set (p := (next_block h + size_of_first_pointer + a - 1) / a * a) in *.
      assert (p mod 16 = 0) as Hp16.
      { apply Z.mod_divide in Hmod; [|lia]. destruct Hmod as [c Hc].
        rewrite Hc, Hpow.
        replace (c * (16 * 2 ^ (k - 4))) with (c * 2 ^ (k - 4) * 16) by lia.
        by apply Z_mod_mult. }
      assert (p <> next_block h + size_of_first_pointer) as Hne.
      { intros E. rewrite E in Hp16. unfold size_of_first_pointer in Hp16.
        rewrite <- Z.add_mod_idemp_l, Hbase in Hp16 by lia. done. }
      assert ((p - (next_block h + size_of_first_pointer) + a <=? a) = false) as ->
        by (apply Z.leb_gt; lia).
      done. }
    split; [exact Halign|].
    unfold Alloc, operator_new. cbn zeta.
    assert (Z.max a size_of_first_pointer = a) as ->
      by (unfold size_of_first_pointer; lia).
    rewrite Z.mul_0_r, Z.add_0_l.
    rewrite (size_t_id a) by (unfold in_size_t; lia).
    rewrite Halign. done.
  - intros Hbig Hnot.
    assert (std_align elementSize elementSize
              (next_block h + size_of_first_pointer) elementSize = Undefined)
      as Halign.
    { unfold std_align.
      destruct (is_power_of_two elementSize) eqn:E; [|reflexivity].
      apply is_power_of_two_spec in E as (k & Hk & E). by destruct (Hnot k Hk). }
    split; [exact Halign|].
    unfold Alloc, operator_new. cbn zeta.
    assert (Z.max elementSize size_of_first_pointer = elementSize) as ->
      by (unfold size_of_first_pointer; lia).
    unfold std_align in *.
    destruct (is_power_of_two elementSize); [done|]. reflexivity.
  - intros Hes.
    unfold Alloc, operator_new. cbn zeta.
    assert (Z.max elementSize size_of_first_pointer = 8) as ->
      by (unfold size_of_first_pointer; lia).
    rewrite Z.mul_0_r, Z.add_0_l. unfold std_align.
    change (is_power_of_two 8) with true. cbn zeta.
    assert ((next_block h + size_of_first_pointer + 8 - 1) / 8 * 8
            = next_block h + size_of_first_pointer) as ->.
    { unfold size_of_first_pointer.
      apply Z.mod_divide in Hbase; [|lia]. destruct Hbase as [c ->].
      replace (c * 16 + 8 + 8 - 1) with ((2 * c + 1) * 8 + 7) by lia.
      rewrite Z.div_add_l by lia. change (7 / 8) with 0. lia. }
    rewrite Z.sub_diag, Z.add_0_l.
    change (size_t 8) with 8.
    rewrite (proj2 (Z.leb_le elementSize 8)) by lia. cbn [bind].
    assert ((next_block h + size_of_first_pointer =? nullptr) = false) as ->
      by (apply Z.eqb_neq; unfold nullptr, size_of_first_pointer; lia).
    by do 2 eexists.
Qed.

Lemma Alloc_block_witness :
  (exists p h1,
     Alloc 16 10 empty_heap = Ok (p, h1, [New 4096 184; WriteWord (p - 8) 4096])
     /\ p <> nullptr /\ p mod 16 = 0 /\ 4096 + 8 <= p /\ p + 160 <= 4096 + 184)
  /\ Alloc 12 10 empty_heap = Undefined.
Proof.
  destruct (Alloc_block 16 10 empty_heap) as [Hpow Hnot]. split.
  - destruct (Hpow ltac:(exists 4; split; [lia|reflexivity]) ltac:(lia) ltac:(lia)
                ltac:(by vm_compute) ltac:(by vm_compute))
      as (p & h1 & Halloc & Hnull & Haligned & Hafter & Hinside & _).
    exists p, h1. split; [exact Halloc|]. split; [exact Hnull|].
    split; [exact Haligned|]. split; [exact Hafter|]. exact Hinside.
  - destruct (Alloc_block 12 10 empty_heap) as [_ H]. apply H.
    intros k Hk E. change (Z.max 12 size_of_first_pointer) with 12 in E.
    destruct (decide (k <= 3)) as [Hle|Hgt].
    + assert (2 ^ k <= 2 ^ 3) by (apply Z.pow_le_mono_r; lia). lia.
    + assert (2 ^ 4 <= 2 ^ k) by (apply Z.pow_le_mono_r; lia). lia.
Defined.

Lemma Alloc_Free_round_trip_witness :
  exists p h1 trace h2,
    Alloc 4 10 empty_heap = Ok (p, h1, trace)
    /\ Free p h1 = Ok (h2, [ReadWord (p - 8); Delete 4096])
    /\ blocks h2 = ∅
    /\ Free p h2 = Undefined.
Proof.
  destruct (Alloc 4 10 empty_heap) as [[[p h1] trace]| | | | |] eqn:Halloc;
    try (vm_compute in Halloc; discriminate).
  destruct (Alloc_Free_round_trip 4 10 empty_heap h1 p trace Halloc eq_refl)
    as (h2 & Hfree & Hblocks & _ & Hagain).
  exists p, h1, trace, h2. split; [reflexivity|]. split; [exact Hfree|].
  split; [exact Hblocks|]. exact Hagain.
Defined.

Lemma Alloc_no_elements_witness :
  Alloc 16 0 empty_heap = Undefined
  /\ Alloc 24 0 empty_heap = Undefined
  /\ exists h1 trace, Alloc 4 0 empty_heap = Ok (4104, h1, trace).
Proof.
  destruct (Alloc_no_elements 16 empty_heap eq_refl ltac:(by vm_compute))
    as (Hnull & _ & _).
  destruct (Alloc_no_elements 24 empty_heap eq_refl ltac:(by vm_compute))
    as (_ & Hrequires & _).
  destruct (Alloc_no_elements 4 empty_heap eq_refl ltac:(by vm_compute))
    as (_ & _ & Hreturns).
  split; [|split].
  - apply Hnull; [exists 4; split; [lia|reflexivity]|by vm_compute].
  - apply Hrequires; [lia|]. intros k Hk E.
    destruct (decide (k <= 4)) as [Hle|Hgt].
    + assert (2 ^ k <= 2 ^ 4) by (apply Z.pow_le_mono_r; lia). lia.
    + assert (2 ^ 5 <= 2 ^ k) by (apply Z.pow_le_mono_r; lia). lia.
  - apply Hreturns. lia.
Defined.

End HeapBlocks.

(** * The minibatches the shim hands out *)

Module Shim.

Import Packer.

(** The stream a matrix name stands for: [m_nameToStreamId[name]], which
    is 0 for a name the map does not hold. *)
Definition stream_of (names : gmap string Z) (mxname : string) : Z :=
  default 0 (names !! mxname).

Lemma stream_of_insert (names : gmap string Z) (a b : string) :
  stream_of (<[a := stream_of names a]> names) b = stream_of names b.
Proof.
  unfold stream_of. destruct (decide (a = b)) as [->|Hne].
  - by rewrite lookup_insert_eq.
  - by rewrite lookup_insert_ne.
Qed.

Lemma sizeOf_known (type : ElementType) : known_type type -> 1 <= sizeOf type.
Proof. destruct type; cbn; intros; try done; lia. Qed.

Section Shim.

Variable NDEBUG : bool.
Variable Transformer : Type.
Variable GetNextSequences : Z -> Transformer -> outcome (Sequences * Transformer).
Variable sizeofElemType : Z.

Local Abbreviation FrameModePacker := (FrameModePacker Transformer).
Local Abbreviation ReaderShim := (ReaderShim Transformer).
Local Abbreviation ReadMinibatch := (ReadMinibatch NDEBUG Transformer GetNextSequences).
Local Abbreviation GetMinibatch :=
  (GetMinibatch NDEBUG Transformer GetNextSequences sizeofElemType).
Local Abbreviation fits := (fits Transformer).
Local Abbreviation copy_to_matrices := (copy_to_matrices NDEBUG sizeofElemType).

(** The packer on a batch that is not empty, at the end of the epoch or
    before it. *)
Lemma ReadMinibatch_batch (p : FrameModePacker) (images : Sequences)
    (transformer' : Transformer) :
  GetNextSequences (m_mbSize p) (m_transformer p) = Ok (images, transformer') ->
  m_data images <> [] -> fits p (m_data images) ->
  let count := Z.of_nat (length (m_data images)) in
  exists m p',
    ReadMinibatch p = Ok (m, p')
    /\ atEndOfEpoch m = m_endOfEpoch images
    /\ m_transformer p' = transformer'
    /\ length (minibatch m) = length (m_outputStreams p)
    /\ (forall (j : nat) os st,
          m_outputStreams p !! j = Some os -> minibatch m !! j = Some st ->
          layout st = {| numParallelSequences := count; numTimeSteps := 1 |}
          /\ m_streamBuffers p' !! j = Some (stream_data st))
    /\ (forall (j : nat) stream,
          m_inputStreams p !! j = Some stream ->
          exists buffer,
            m_streamBuffers p' !! j = Some buffer
            /\ dimensions stream * m_mbSize p <= Z.of_nat (length buffer)
            /\ take (Z.to_nat (dimensions stream) * length (m_data images)) buffer
               = concat (map (sample_bytes stream j) (m_data images))).
Proof.
  intros Hnext Hdata Hfits count.
  unfold Packer.ReadMinibatch.
  rewrite (proj2 (Z.ltb_lt _ _) (fits_mbSize _ p _ Hfits)).
  assert (assert NDEBUG true = Ok tt) as -> by (by destruct NDEBUG).
  cbn [bind]. rewrite Hnext. cbn [bind].
  destruct (pack_samples_packed NDEBUG _ p (m_data images) Hfits (m_data images) []
              (m_streamBuffers p) eq_refl eq_refl)
    as (buffers & Hpack & Hlen & Hpacked).
  { intros j stream Hstream.
    destruct (fits_input _ p _ Hfits j stream Hstream)
      as (_ & _ & _ & _ & buffer & Hbuffer & _).
    exists buffer, buffer. by rewrite Nat.mul_0_r, take_0. }
  change (Z.of_nat (length (@nil (list SequenceData)))) with 0 in Hpack.
  rewrite Hpack. cbn [bind]. fold count.
  assert (0 < count) as Hpos.
  { unfold count. destruct (m_data images); [done|]. simpl. lia. }
  rewrite (proj2 (Z.eqb_neq count 0)) by lia.
  destruct (output_streams_Ok buffers count (m_mbSize p)
              {| numParallelSequences := count; numTimeSteps := 1 |}
              ltac:(pose proof (fits_count _ p _ Hfits); unfold count; lia)
              (fits_mbSize _ p _ Hfits)
              (m_outputStreams p) 0%nat (fits_output _ p _ Hfits))
    as (streams & Hstreams & Hlens & Hout).
  { rewrite (fits_outputs _ p _ Hfits), Hlen. simpl. lia. }
  change (Z.of_nat 0) with 0 in Hstreams. rewrite Hstreams. cbn [bind].
  eexists. eexists. split; [done|]. cbn.
  split; [by destruct (m_endOfEpoch images)|]. split; [done|]. split; [done|]. split.
  - intros j os st Hos Hst. destruct (Hout j os st Hos Hst) as (_ & Hl & Hb). done.
  - intros j stream Hstream.
    destruct (Hpacked j stream Hstream) as (b0 & b & Hb0 & Hb & Hblen & Hprefix).
    destruct (fits_input _ p _ Hfits j stream Hstream)
      as (_ & _ & _ & _ & buffer & Hbuffer & Hcap).
    exists b. split; [done|]. split; [|done].
    rewrite Hblen. by simplify_eq.
Qed.

(** The matrix the copy loop leaves for a matrix of the caller: the
    elements of the stream the name stands for. *)
Definition delivered (m : Minibatch) (streams : list StreamDescription)
    (names : gmap string Z) (a b : string * Matrix) : Prop :=
  a.1 = b.1
  /\ exists st description,
       minibatch m !! Z.to_nat (stream_of names a.1) = Some st
       /\ streams !! Z.to_nat (stream_of names a.1) = Some description
       /\ b.2 = {| deviceId := deviceId a.2;
                   numRows := numElements description;
                   numCols := GetNumCols (layout st);
                   values :=
                     take (Z.to_nat (size_t (numElements description
                                             * GetNumCols (layout st))
                                     * sizeofElemType))
                       (stream_data st) |}.

Lemma copy_to_matrices_delivered (m : Minibatch) (streams : list StreamDescription)
    (matrices : list (string * Matrix)) :
  forall (names : gmap string Z) (l : MBLayout),
    Forall (fun a : string * Matrix =>
              (NDEBUG = false -> is_Some (names !! a.1))
              /\ exists st description,
                   minibatch m !! Z.to_nat (stream_of names a.1) = Some st
                   /\ streams !! Z.to_nat (stream_of names a.1) = Some description
                   /\ 0 <= size_t (numElements description * GetNumCols (layout st))
                           * sizeofElemType
                      <= Z.of_nat (length (stream_data st)))
           matrices ->
    exists matrices' names' l',
      copy_to_matrices m streams matrices names l = Ok (matrices', names', l')
      /\ Forall2 (delivered m streams names) matrices matrices'
      /\ (forall mxname, stream_of names' mxname = stream_of names mxname)
      /\ (forall mxname, is_Some (names' !! mxname)
            <-> is_Some (names !! mxname) \/ mxname ∈ matrices.*1).
Proof.
  induction matrices as [|[mxname mx] rest IH]; intros names l Hall.
  - exists [], names, l. split; [done|]. split; [constructor|]. split; [done|].
    intros mxname. cbn. rewrite elem_of_nil. tauto.
  - apply Forall_cons in Hall as [(Hknown & st & description & Hst & Hdesc & Hlen) Hall].
    cbn [fst snd] in *.
    cbn [Packer.copy_to_matrices].
    assert (assert NDEBUG (bool_decide (is_Some (names !! mxname))) = Ok tt) as ->.
    { unfold assert. destruct NDEBUG; [done|].
      by rewrite bool_decide_eq_true_2 by (by apply Hknown). }
    cbn [bind]. fold (stream_of names mxname).
    unfold vec_at. rewrite Hst, Hdesc. cbn [bind].
    unfold SetValue, read_bytes. change (Z.to_nat 0) with 0%nat.
    rewrite decide_True by lia. cbn [bind]. rewrite drop_0.
    destruct (IH (<[mxname := stream_of names mxname]> names) (layout st))
      as (rest' & names' & l' & Hcopy & Hrest & Hnames & Hsome).
    { eapply Forall_impl; [exact Hall|].
      intros [n x] (Hk & st' & d' & Hst' & Hd' & Hlen'). cbn [fst snd] in *.
      rewrite stream_of_insert. split; [|by eauto].
      intros E. destruct (decide (mxname = n)) as [->|Hne].
      - by rewrite lookup_insert_eq.
      - rewrite lookup_insert_ne by done. by apply Hk. }
    unfold vec_at in Hcopy. rewrite Hcopy. cbn [bind].
    eexists. exists names', l'. split; [done|]. split.
    + constructor.
      * split; [done|]. exists st, description. done.
      * eapply Forall2_impl; [exact Hrest|].
        intros [n x] [n' x'] (Hn & st' & d' & Hst' & Hd' & Hx').
        cbn [fst snd] in *. rewrite stream_of_insert in Hst', Hd'.
        split; [done|]. exists st', d'. done.
    + split.
      * intros n. by rewrite Hnames, stream_of_insert.
      * intros n. rewrite Hsome. cbn [fmap list_fmap fst]. rewrite elem_of_cons.
        destruct (decide (mxname = n)) as [->|Hne].
        -- rewrite lookup_insert_eq. split; [by eauto|]. intros _. left. by eexists.
        -- rewrite lookup_insert_ne by done. split; [tauto|].
           intros [H|[H|H]]; [tauto|congruence|tauto].
Qed.

(** In a build with assertions the copy loop stops at the first matrix
    whose name [m_nameToStreamId] does not hold. *)
Lemma copy_to_matrices_unknown (m : Minibatch) (streams : list StreamDescription)
    (matrices : list (string * Matrix)) :
  NDEBUG = false ->
  forall (names : gmap string Z) (l : MBLayout),
    Forall (fun a : string * Matrix =>
              exists st description,
                minibatch m !! Z.to_nat (stream_of names a.1) = Some st
                /\ streams !! Z.to_nat (stream_of names a.1) = Some description
                /\ 0 <= size_t (numElements description * GetNumCols (layout st))
                        * sizeofElemType
                   <= Z.of_nat (length (stream_data st)))
           matrices ->
    (exists a, a ∈ matrices /\ names !! a.1 = None) ->
    copy_to_matrices m streams matrices names l = AssertionFailed.
Proof.
  intros Hdebug.
  induction matrices as [|[mxname mx] rest IH]; intros names l Hall (a & Ha & Hnone).
  - by apply elem_of_nil in Ha.
  - cbn [Packer.copy_to_matrices]. fold (stream_of names mxname).
    destruct (decide (is_Some (names !! mxname))) as [Hname|Hname]; cycle 1.
    { assert (assert NDEBUG (bool_decide (is_Some (names !! mxname)))
              = AssertionFailed) as ->; [|done].
      unfold assert. rewrite Hdebug. by rewrite bool_decide_eq_false_2. }
    assert (assert NDEBUG (bool_decide (is_Some (names !! mxname))) = Ok tt) as ->.
    { unfold assert. rewrite bool_decide_eq_true_2 by done. by destruct NDEBUG. }
    cbn [bind].
    apply Forall_cons in Hall as [(st & description & Hst & Hdesc & Hlen) Hall].
    cbn [fst] in Hst, Hdesc.
    unfold vec_at. rewrite Hst, Hdesc. cbn [bind].
    unfold SetValue, read_bytes. change (Z.to_nat 0) with 0%nat.
    rewrite decide_True by lia. cbn [bind].
    assert (copy_to_matrices m streams rest
              (<[mxname := stream_of names mxname]> names) (layout st)
            = AssertionFailed) as Hrest; [apply IH|].
    3: { unfold vec_at in Hrest. by rewrite Hrest. }
    + eapply Forall_impl; [exact Hall|].
      intros [n x] (st' & d' & Hst' & Hd' & Hlen'). cbn [fst snd] in *.
      rewrite stream_of_insert. by eauto.
    + apply elem_of_cons in Ha as [->|Ha].
      * cbn [fst] in Hnone. rewrite Hnone in Hname. by destruct Hname.
      * exists a. split; [done|].
        rewrite lookup_insert_ne; [done|]. intros E.
        rewrite E, Hnone in Hname. by destruct Hname.
Qed.

(** X15. A batch that is not empty, through the packer and the shim:
    [GetMinibatch] returns true, and every matrix of the caller comes back
    under its name with one row per element of a sample and one column per
    sample of the batch, holding the bytes of the samples of its stream, one
    sample after the other. The stream of a matrix is the one its name
    stands for in [m_nameToStreamId]; a name that is not there stands for
    stream 0 in a release build, which also enters it in the map, and in a
    debug build the call stops on the assertion. The shim records the end
    of the epoch when the batch carries it. *)
Theorem GetMinibatch_delivers_the_batch (sh : ReaderShim) (images : Sequences)
    (transformer' : Transformer) (matrices : list (string * Matrix)) :
  let p := m_reader sh in
  let count := Z.of_nat (length (m_data images)) in
  shim_endOfEpoch sh = false ->
  matrices <> [] ->
  (forall a b, a ∈ matrices -> b ∈ matrices -> deviceId a.2 = deviceId b.2) ->
  GetNextSequences (m_mbSize p) (m_transformer p) = Ok (images, transformer') ->
  m_data images <> [] -> fits p (m_data images) -> m_mbSize p <= SIZE_MAX ->
  m_inputStreams p = m_streams sh -> m_outputStreams p = m_streams sh ->
  (forall a, a ∈ matrices ->
     0 <= stream_of (m_nameToStreamId sh) a.1
     /\ exists description,
          m_streams sh !! Z.to_nat (stream_of (m_nameToStreamId sh) a.1)
          = Some description
          /\ sizeofElemType = sizeOf (elementType description)) ->
  (NDEBUG = false ->
   (exists a, a ∈ matrices /\ m_nameToStreamId sh !! a.1 = None) ->
   GetMinibatch sh matrices = AssertionFailed)
  /\ ((NDEBUG = false ->
       forall a, a ∈ matrices -> is_Some (m_nameToStreamId sh !! a.1)) ->
      exists sh' matrices',
        GetMinibatch sh matrices = Ok (true, sh', matrices')
        /\ shim_endOfEpoch sh' = m_endOfEpoch images
        /\ m_layout sh' = {| numParallelSequences := count; numTimeSteps := 1 |}
        /\ m_transformer (m_reader sh') = transformer'
        /\ (forall mxname, stream_of (m_nameToStreamId sh') mxname
                           = stream_of (m_nameToStreamId sh) mxname)
        /\ (forall mxname, is_Some (m_nameToStreamId sh' !! mxname)
              <-> is_Some (m_nameToStreamId sh !! mxname) \/ mxname ∈ matrices.*1)
        /\ Forall2
             (fun a b : string * Matrix =>
                a.1 = b.1
                /\ deviceId b.2 = deviceId a.2
                /\ numCols b.2 = count
                /\ exists description,
                     let j := Z.to_nat (stream_of (m_nameToStreamId sh) a.1) in
                     m_streams sh !! j = Some description
                     /\ numRows b.2 = numElements description
                     /\ values b.2
                        = concat (map (sample_bytes description j) (m_data images)))
             matrices matrices').
Proof.
  intros p count Hnot Hsome Hdevice Hnext Hdata Hfits Hmb Hin Hout Hnames.
  destruct (ReadMinibatch_batch p images transformer' Hnext Hdata Hfits)
    as (m & p' & Hread & Hflag & Htransformer & Hlen & Hstreams & Hbuffers).
  fold count in Hstreams.
  assert (0 < count <= m_mbSize p) as Hcount.
  { pose proof (fits_count _ p _ Hfits). unfold count.
    destruct (m_data images); [done|]. cbn [length] in *. lia. }
  assert (forall a, a ∈ matrices ->
            exists st description,
              let j := Z.to_nat (stream_of (m_nameToStreamId sh) a.1) in
              minibatch m !! j = Some st
              /\ m_streams sh !! j = Some description
              /\ sizeofElemType = sizeOf (elementType description)
              /\ layout st = {| numParallelSequences := count; numTimeSteps := 1 |}
              /\ in_size_t (numElements description * count)
              /\ 0 <= dimensions description * count
                 <= Z.of_nat (length (stream_data st))
              /\ take (Z.to_nat (dimensions description * count)) (stream_data st)
                 = concat (map (sample_bytes description j) (m_data images)))
    as Hstream.
  { intros a Ha. destruct (Hnames a Ha) as (Hsid & description & Hdesc & Hsize).
    set (j := Z.to_nat (stream_of (m_nameToStreamId sh) a.1)) in *.
    assert (j < length (minibatch m))%nat as Hj.
    { rewrite Hlen, Hout. by eapply lookup_lt_Some. }
    destruct (lookup_lt_is_Some_2 _ _ Hj) as [st Hst].
    exists st, description. cbn zeta. fold j.
    rewrite <- Hout in Hdesc.
    destruct (Hstreams j description st Hdesc Hst) as [Hlayout Hdata'].
    destruct (fits_output _ p _ Hfits j description Hdesc) as (Hknown & Hn & Hrange).
    rewrite Hout, <- Hin in Hdesc.
    destruct (Hbuffers j description Hdesc) as (buffer & Hbuffer & Hcap & Hprefix).
    rewrite Hin in Hdesc.
    assert (buffer = stream_data st) as -> by congruence.
    pose proof (sizeOf_known _ Hknown) as Hone.
    unfold in_size_t, dimensions in *.
    split; [done|]. split; [done|]. split; [done|]. split; [done|].
    set (n := numElements description) in *.
    set (z := sizeOf (elementType description)) in *.
    assert (0 <= n * count <= n * m_mbSize p) as H1 by nia.
    assert (n * m_mbSize p <= n * z * m_mbSize p) as H2 by nia.
    assert (0 <= n * z) as H3 by nia.
    assert (0 <= n * z * count <= n * z * m_mbSize p) as H4 by nia.
    split; [lia|]. split; [lia|].
    rewrite <- Hprefix. f_equal. unfold count.
    rewrite Z2Nat.inj_mul, Nat2Z.id by nia. done. }
  assert (GetMinibatch sh matrices
          = ('(matrices', names', l') <-
               copy_to_matrices m (m_streams sh) matrices (m_nameToStreamId sh)
                 (m_layout sh);;
             Ok (true,
                 {| m_layout := l'; m_reader := p'; m_streams := m_streams sh;
                    m_nameToStreamId := names';
                    shim_endOfEpoch := if atEndOfEpoch m then true else false |},
                 matrices'))) as Hget.
  { unfold Packer.GetMinibatch. rewrite Hnot.
    destruct matrices as [|[name0 first] rest] eqn:Hmatrices; [done|].
    rewrite <- Hmatrices in *.
    assert (forallb (fun mx : string * Matrix => deviceId mx.2 =? deviceId first)
              matrices = true) as ->.
    { apply forallb_forall. intros a Ha. apply Z.eqb_eq.
      apply (Hdevice a (name0, first)).
      - by apply list_elem_of_In.
      - rewrite Hmatrices. by left. }
    assert (assert NDEBUG true = Ok tt) as -> by (by destruct NDEBUG).
    cbn [bind]. fold p. rewrite Hread. cbn [bind].
    assert (minibatch m <> []) as Hstreams_some.
    { destruct (Hstream (name0, first) ltac:(rewrite Hmatrices; by left))
        as (st & _ & Hst & _).
      intros E. by rewrite E in Hst. }
    rewrite (bool_decide_eq_false_2 _ Hstreams_some), andb_false_r.
    cbn [m_streams m_nameToStreamId m_layout]. reflexivity. }
  assert (Forall (fun a : string * Matrix =>
                    exists st description,
                      minibatch m !! Z.to_nat (stream_of (m_nameToStreamId sh) a.1)
                      = Some st
                      /\ m_streams sh !! Z.to_nat (stream_of (m_nameToStreamId sh) a.1)
                         = Some description
                      /\ 0 <= size_t (numElements description * GetNumCols (layout st))
                              * sizeofElemType
                         <= Z.of_nat (length (stream_data st)))
            matrices) as Hroom.
  { apply Forall_forall. intros a Ha.
    destruct (Hstream a Ha)
      as (st & description & Hst & Hdesc & Hsize & Hlayout & Hrange & Hfit & _).
    exists st, description. split; [done|]. split; [done|].
    rewrite Hlayout. unfold GetNumCols. cbn [numParallelSequences numTimeSteps].
    rewrite Z.mul_1_r, (size_t_id count) by (unfold in_size_t; lia).
    rewrite size_t_id by done. rewrite Hsize.
    unfold dimensions in Hfit. lia. }
  split.
  { intros Hdebug Hunknown. rewrite Hget.
    by rewrite (copy_to_matrices_unknown m (m_streams sh) matrices Hdebug
                  (m_nameToStreamId sh) (m_layout sh) Hroom Hunknown). }
  intros Hknown. rewrite Hget.
  destruct (copy_to_matrices_delivered m (m_streams sh) matrices
              (m_nameToStreamId sh) (m_layout sh))
    as (matrices' & names' & l' & Hcopy & Hdelivered & Hsame & Hentered).
  { rewrite Forall_forall in Hroom. apply Forall_forall. intros a Ha.
    split; [intros Hdebug; by apply Hknown|]. by apply Hroom. }
  rewrite Hcopy. cbn [bind].
  do 2 eexists. split; [reflexivity|].
  cbn [shim_endOfEpoch m_layout m_reader m_nameToStreamId].
  split; [rewrite Hflag; by destruct (m_endOfEpoch images)|].
  split.
  { (* the layout is the one of the last matrix' stream *)
    clear -Hcopy Hstream Hsome.
    assert (forall ms names l ms' names'' l'',
              copy_to_matrices m (m_streams sh) ms names l = Ok (ms', names'', l'') ->
              (forall mxname, stream_of names mxname
                              = stream_of (m_nameToStreamId sh) mxname) ->
              (forall a, a ∈ ms -> a ∈ matrices) ->
              ms <> [] \/ l = {| numParallelSequences := count; numTimeSteps := 1 |} ->
              l'' = {| numParallelSequences := count; numTimeSteps := 1 |}) as Hlast.
    { induction ms as [|[n x] ms IH]; intros names l ms' names'' l'' H Hsame Hsub Hl.
      - cbn in H. destruct Hl as [Hl|Hl]; [done|]. by simplify_eq.
      - cbn [Packer.copy_to_matrices] in H.
        apply bind_Ok_inv in H as ([] & _ & H).
        apply bind_Ok_inv in H as (st & Hst & H).
        apply bind_Ok_inv in H as (d & _ & H).
        apply bind_Ok_inv in H as (x' & _ & H).
        apply bind_Ok_inv in H as ([[ms1 names1] l1] & Hrec & H).
        simplify_eq.
        apply (IH _ _ _ _ _ Hrec).
        + intros mxname. fold (stream_of names n).
          by rewrite stream_of_insert, Hsame.
        + intros a Ha. apply Hsub. by right.
        + right. fold (stream_of names n) in Hst. rewrite Hsame in Hst.
          destruct (Hstream (n, x) ltac:(apply Hsub; by left))
            as (st' & _ & Hst' & _ & _ & Hlayout & _).
          cbn [fst] in Hst'. apply vec_at_Ok in Hst. congruence. }
    apply (Hlast _ _ _ _ _ _ Hcopy); [done|done|by left]. }
  split; [done|]. split; [exact Hsame|]. split; [exact Hentered|].
  clear Hcopy.
  assert (forall ms ms' : list (string * Matrix),
            Forall2 (delivered m (m_streams sh) (m_nameToStreamId sh)) ms ms' ->
            (forall a, a ∈ ms -> a ∈ matrices) ->
            Forall2
              (fun a b : string * Matrix =>
                 a.1 = b.1 /\ deviceId b.2 = deviceId a.2 /\ numCols b.2 = count
                 /\ exists description,
                      let j := Z.to_nat (stream_of (m_nameToStreamId sh) a.1) in
                      m_streams sh !! j = Some description
                      /\ numRows b.2 = numElements description
                      /\ values b.2
                         = concat (map (sample_bytes description j) (m_data images)))
              ms ms') as Hgoal; [|by apply Hgoal].
  intros ms ms' H.
  induction H as [|a b ms0 ms0' (Hname & st & d & Hst & Hd & Hb) _ IH];
    intros Hsub; constructor.
  - destruct (Hstream a ltac:(apply Hsub; by left))
      as (st' & d' & Hst' & Hd' & Hsize & Hlayout & Hrange & Hfit & Hbytes).
    cbn zeta in *.
    assert (st' = st) as -> by congruence. assert (d' = d) as -> by congruence.
    rewrite Hb. cbn [deviceId numRows numCols values].
    rewrite Hlayout. unfold GetNumCols. cbn [numParallelSequences numTimeSteps].
    rewrite Z.mul_1_r, (size_t_id count) by (unfold in_size_t; lia).
    split; [done|]. split; [done|]. split; [done|].
    exists d. split; [done|]. split; [done|].
    rewrite size_t_id by done. rewrite Hsize, <- Hbytes.
    unfold dimensions. f_equal. lia.
  - apply IH. intros a' Ha'. apply Hsub. by right.
Qed.

(** X16. The calls of [GetMinibatch] that hand out nothing. With no matrix
    at all the first statement dereferences [matrices.begin()] of an empty
    map: undefined behaviour, unless the epoch has ended. When the reader
    returns an empty batch the call returns false and leaves every matrix
    as it is, whether or not the batch carries the end of the epoch: only
    the flag of the shim tells the two apart. *)
Theorem GetMinibatch_hands_out_nothing (sh : ReaderShim) :
  (shim_endOfEpoch sh = false -> GetMinibatch sh [] = Undefined)
  /\ forall (images : Sequences) (transformer' : Transformer)
       (matrices : list (string * Matrix)),
       let p := m_reader sh in
       shim_endOfEpoch sh = false -> matrices <> [] ->
       (forall a b, a ∈ matrices -> b ∈ matrices -> deviceId a.2 = deviceId b.2) ->
       0 < m_mbSize p ->
       GetNextSequences (m_mbSize p) (m_transformer p) = Ok (images, transformer') ->
       m_data images = [] ->
       exists sh',
         GetMinibatch sh matrices = Ok (false, sh', matrices)
         /\ shim_endOfEpoch sh' = m_endOfEpoch images
         /\ m_streamBuffers (m_reader sh') = m_streamBuffers p
         /\ m_transformer (m_reader sh') = transformer'
         /\ m_nameToStreamId sh' = m_nameToStreamId sh
         /\ m_layout sh' = m_layout sh.
Proof.
  split.
  - intros Hnot. unfold Packer.GetMinibatch. by rewrite Hnot.
  - intros images transformer' matrices p Hnot Hsome Hdevice Hmb Hnext Hdata.
    unfold Packer.GetMinibatch. rewrite Hnot.
    destruct matrices as [|[name0 first] rest] eqn:Hmatrices; [done|].
    rewrite <- Hmatrices in *.
    assert (forallb (fun mx : string * Matrix => deviceId mx.2 =? deviceId first)
              matrices = true) as ->.
    { apply forallb_forall. intros a Ha. apply Z.eqb_eq.
      apply (Hdevice a (name0, first)).
      - by apply list_elem_of_In.
      - rewrite Hmatrices. by left. }
    assert (assert NDEBUG true = Ok tt) as Htrue by (by destruct NDEBUG).
    rewrite Htrue. cbn [bind]. fold p.
    unfold Packer.ReadMinibatch.
    rewrite (proj2 (Z.ltb_lt _ _) Hmb), Htrue. cbn [bind].
    rewrite Hnext. cbn [bind]. rewrite Hdata. cbn [pack_samples bind length].
    change (Z.of_nat 0 =? 0) with true. cbn [bind minibatch atEndOfEpoch].
    rewrite bool_decide_eq_true_2 by done.
    destruct (m_endOfEpoch images); cbn [andb]; eexists; (split; [reflexivity|]);
      cbn; rewrite ?Hnot; done.
Qed.

End Shim.

(** A batch of two samples before the end of the epoch. *)
Definition two_samples : Sequences :=
  {| m_endOfEpoch := false;
     m_data := [ [ {| data := [Byte.x01; Byte.x02; Byte.x03; Byte.x04];
                      numberOfSamples := 1; indices := [] |} ];
                 [ {| data := [Byte.x05; Byte.x06; Byte.x07; Byte.x08];
                      numberOfSamples := 1; indices := [] |} ] ] |}.

Definition empty_batch : Sequences :=
  {| m_endOfEpoch := false; m_data := [] |}.

Definition shim_with (batches : list Sequences) : ReaderShim (list Sequences) :=
  {| m_layout := {| numParallelSequences := 1; numTimeSteps := 0 |};
     m_reader :=
       {| m_transformer := batches;
          m_mbSize := 2;
          m_outputStreams := [features];
          m_inputStreams := [features];
          m_streamBuffers := [replicate 8 Byte.x00];
          m_minibatchLayout := {| numParallelSequences := 0; numTimeSteps := 0 |} |};
     m_streams := [features];
     m_nameToStreamId := {[ "features" := 0 ]};
     shim_endOfEpoch := false |}.

Lemma two_samples_fit :
  fits (list Sequences) (m_reader (shim_with [two_samples])) (m_data two_samples).
Proof.
  assert (Hd : dimensions features = 4) by reflexivity.
  split; cbn.
  - lia.
  - lia.
  - done.
  - done.
  - intros [|j] stream H; [|done]. injection H as <-. cbn.
    unfold in_size_t, SIZE_MAX. rewrite Hd. repeat split; try lia.
    eexists. split; [done|]. cbn. lia.
  - intros [|j] stream H; [|done]. injection H as <-. cbn.
    unfold in_size_t, SIZE_MAX. rewrite Hd. repeat split; lia.
  - intros [|[|i]] sample H; [| |done]; injection H as <-; (split; [done|]);
      intros [|j] sequence stream H1 H2; try done;
      injection H1 as <-; injection H2 as <-; rewrite Hd; cbn; lia.
Defined.

(** A matrix under a name the shim does not know. *)
Definition stray_matrices : list (string * Matrix) :=
  [("labels", {| deviceId := 0; numRows := 0; numCols := 0; values := [] |})].

Lemma GetMinibatch_delivers_the_batch_witness :
  (exists sh' mx',
     GetMinibatch false (list Sequences) playback 4 (shim_with [two_samples])
       caller_matrices = Ok (true, sh', [("features", mx')])
     /\ shim_endOfEpoch sh' = false
     /\ numRows mx' = 1 /\ numCols mx' = 2
     /\ values mx' = [Byte.x01; Byte.x02; Byte.x03; Byte.x04;
                      Byte.x05; Byte.x06; Byte.x07; Byte.x08])
  /\ GetMinibatch false (list Sequences) playback 4 (shim_with [two_samples])
       stray_matrices = AssertionFailed.
Proof.
  split.
  - destruct (GetMinibatch_delivers_the_batch false (list Sequences) playback 4
                (shim_with [two_samples]) two_samples [] caller_matrices
                eq_refl ltac:(discriminate)) as [_ Hknown].
    + intros a b Ha Hb. apply list_elem_of_singleton in Ha, Hb. by subst.
    + reflexivity.
    + discriminate.
    + exact two_samples_fit.
    + by vm_compute.
    + reflexivity.
    + reflexivity.
    + intros a Ha. apply list_elem_of_singleton in Ha. subst a.
      split; [done|]. exists features. split; reflexivity.
    + destruct Hknown as (sh' & matrices' & Hget & Hflag & _ & _ & _ & _ & Hall).
      { intros _ a Ha. apply list_elem_of_singleton in Ha. subst a. by eexists. }
      inversion Hall as [|a [n' mx'] ms ms' (Hn & _ & Hcols & d & Hd & Hrows & Hvalues)
                          Hrest]; subst.
      inversion Hrest; subst. cbn [fst snd] in *. subst n'.
      injection Hd as <-.
      exists sh', mx'. split; [exact Hget|]. split; [exact Hflag|].
      split; [exact Hrows|]. split; [exact Hcols|]. exact Hvalues.
  - destruct (GetMinibatch_delivers_the_batch false (list Sequences) playback 4
                (shim_with [two_samples]) two_samples [] stray_matrices
                eq_refl ltac:(discriminate)) as [Hunknown _].
    + intros a b Ha Hb. apply list_elem_of_singleton in Ha, Hb. by subst.
    + reflexivity.
    + discriminate.
    + exact two_samples_fit.
    + by vm_compute.
    + reflexivity.
    + reflexivity.
    + intros a Ha. apply list_elem_of_singleton in Ha. subst a.
      split; [done|]. exists features. split; reflexivity.
    + apply Hunknown; [reflexivity|].
      eexists. split; [by apply list_elem_of_singleton|reflexivity].
Defined.

Lemma GetMinibatch_hands_out_nothing_witness :
  GetMinibatch false (list Sequences) playback 4 (shim_with [empty_batch]) []
  = Undefined
  /\ exists sh',
       GetMinibatch false (list Sequences) playback 4 (shim_with [empty_batch])
         caller_matrices = Ok (false, sh', caller_matrices)
       /\ shim_endOfEpoch sh' = false.
Proof.
  destruct (GetMinibatch_hands_out_nothing false (list Sequences) playback 4
              (shim_with [empty_batch])) as [Hnone Hempty].
  split; [by apply Hnone|].
  destruct (Hempty empty_batch [] caller_matrices eq_refl ltac:(discriminate))
    as (sh' & Hget & Hflag & _).
  - intros a b Ha Hb. apply list_elem_of_singleton in Ha, Hb. by subst.
  - by vm_compute.
  - reflexivity.
  - reflexivity.
  - exists sh'. split; [exact Hget|exact Hflag].
Defined.

End Shim.

(** * The stream buffers of the packer *)

Module PackerBuffers.

Import HeapMemoryProvider Packer.

Section Constructor.

Variable NDEBUG : bool.

(** The transformer chain and its [GetStreams]. *)
Variable Transformer : Type.
Variable GetStreams : Transformer -> list StreamDescription.

(** The layout [std::make_shared<MBLayout>()] builds. *)
Variable new_layout : MBLayout.

(** The content of memory that has just been allocated, [n] bytes from
    [address] on: nothing is known of it but its size. *)
Variable fresh : Z -> Z -> list Byte.byte.
Hypothesis fresh_length : forall address n, length (fresh address n) = Z.to_nat n.

(** [AllocateBuffer], on the heap provider: the buffer is the memory from
    the pointer [Alloc] returns to the end of its block. *)
Definition AllocateBuffer (numElements elementSize : Z) (h : Heap)
    : outcome (list Byte.byte * Heap) :=
  '(p, h1, _) <- Alloc elementSize numElements h;;
  base <- (match words h1 !! (p - size_of_first_pointer) with
           | Some base => Ok base
           | None => Undefined
           end);;
  size <- (match blocks h1 !! base with
           | Some size => Ok size
           | None => Undefined
           end);;
  Ok (fresh p (base + size - p), h1).

Definition float_or_double (type : ElementType) : bool :=
  match type with
  | tfloat | tdouble => true
  | _ => false
  end.

(** The loop of the constructor over [streams]. *)
Fixpoint allocate_buffers (mbSize : Z) (streams : list StreamDescription) (h : Heap)
    : outcome (list (list Byte.byte) * Heap) :=
  match streams with
  | [] => Ok ([], h)
  | stream :: rest =>
      _ <- assert NDEBUG (float_or_double (elementType stream));;
      elementSize <- GetSizeByType (elementType stream);;
      '(buffer, h1) <- AllocateBuffer (size_t (mbSize * numElements stream))
                         elementSize h;;
      '(buffers, h2) <- allocate_buffers mbSize rest h1;;
      Ok (buffer :: buffers, h2)
  end.

Definition is_sparse (type : StorageType) : bool :=
  match type with
  | sparse_csc => true
  | _ => false
  end.

Definition FrameModePacker_new (h : Heap) (transformer : Transformer)
    (minibatchSize : Z) (streams : list StreamDescription)
    : outcome (FrameModePacker Transformer * Heap) :=
  let inputStreams := GetStreams transformer in
  _ <- assert NDEBUG (Z.of_nat (length inputStreams) =? Z.of_nat (length streams));;
  _ <- assert NDEBUG (forallb (fun s => negb (is_sparse (storageType s))) streams);;
  '(buffers, h') <- allocate_buffers minibatchSize streams h;;
  Ok ({| m_transformer := transformer;
         m_mbSize := minibatchSize;
         m_outputStreams := streams;
         m_inputStreams := inputStreams;
         m_streamBuffers := buffers;
         m_minibatchLayout := new_layout |}, h').

(** A stream the packer is built for: dense, of [float] or [double], with
    a minibatch of samples that fits a [size_t] after the bookkeeping of
    the provider. *)
Definition packable (mbSize : Z) (stream : StreamDescription) : Prop :=
  storageType stream = dense
  /\ float_or_double (elementType stream) = true
  /\ 1 <= numElements stream
  /\ dimensions stream * mbSize + 16 <= SIZE_MAX.

Lemma AllocateBuffer_room (numElements elementSize : Z) (h : Heap) :
  1 <= numElements -> 4 <= elementSize <= 8 ->
  elementSize * numElements + 16 <= SIZE_MAX -> 0 <= next_block h ->
  exists buffer h1,
    AllocateBuffer numElements elementSize h = Ok (buffer, h1)
    /\ elementSize * numElements <= Z.of_nat (length buffer)
    /\ next_block h < next_block h1
    /\ blocks h1 = <[next_block h := 16 + elementSize * numElements]> (blocks h).
Proof.
  intros Hn Hes Hfit Hbase.
  destruct (HeapBlocks.Alloc_pointer elementSize numElements h ltac:(lia) Hn)
    as (Halloc & Hrange & _).
  { replace (Z.max elementSize size_of_first_pointer) with 8
      by (unfold size_of_first_pointer; lia).
    reflexivity. }
  { unfold size_of_first_pointer. lia. }
  { done. }
  assert (Z.max elementSize size_of_first_pointer = 8) as Ha
    by (unfold size_of_first_pointer; lia).
  rewrite Ha in Halloc, Hrange.
  set (p := (next_block h + size_of_first_pointer + 8 - 1) / 8 * 8) in *.
  unfold size_of_first_pointer in Hrange, Halloc.
  unfold AllocateBuffer. rewrite Halloc. cbn [bind blocks words].
  unfold size_of_first_pointer. rewrite lookup_insert_eq. cbn [bind].
  rewrite lookup_insert_eq. cbn [bind].
  do 2 eexists. split; [reflexivity|]. cbn [next_block blocks].
  rewrite fresh_length.
  assert (0 <= elementSize * numElements) by nia.
  split; [lia|]. split; [|f_equal; lia].
  pose proof (Z.div_mod (8 + (elementSize * numElements + 8) + 15) 16 ltac:(lia)).
  pose proof (Z.mod_pos_bound (8 + (elementSize * numElements + 8) + 15) 16 ltac:(lia)).
  lia.
Qed.

Lemma allocate_buffers_room (mbSize : Z) (streams : list StreamDescription) :
  0 < mbSize ->
  Forall (packable mbSize) streams ->
  forall h, 0 <= next_block h ->
    exists buffers h',
      allocate_buffers mbSize streams h = Ok (buffers, h')
      /\ length buffers = length streams
      /\ next_block h <= next_block h'
      /\ forall (j : nat) stream,
           streams !! j = Some stream ->
           exists buffer,
             buffers !! j = Some buffer
             /\ dimensions stream * mbSize <= Z.of_nat (length buffer).
Proof.
  intros Hmb. induction 1 as [|stream rest (Hdense & Htype & Hn & Hfit) _ IH];
    intros h Hbase.
  - exists [], h. split; [done|]. split; [done|]. split; [lia|]. done.
  - cbn [allocate_buffers]. rewrite Htype.
    assert (assert NDEBUG true = Ok tt) as -> by (by destruct NDEBUG). cbn [bind].
    assert (GetSizeByType (elementType stream) = Ok (sizeOf (elementType stream))
            /\ 4 <= sizeOf (elementType stream) <= 8) as [-> Hsize].
    { destruct (elementType stream); try done; cbn; split; (done || lia). }
    cbn [bind]. unfold dimensions in Hfit.
    set (z := sizeOf (elementType stream)) in *.
    assert (0 <= numElements stream * mbSize
            <= numElements stream * z * mbSize) as Hrange by nia.
    rewrite size_t_id by (unfold in_size_t; lia).
    destruct (AllocateBuffer_room (mbSize * numElements stream) z h)
      as (buffer & h1 & -> & Hroom & Hnext & _); [nia|lia|nia|lia|].
    cbn [bind].
    destruct (IH h1 ltac:(lia)) as (buffers & h' & -> & Hlen & Hnext' & Hrooms).
    cbn [bind]. exists (buffer :: buffers), h'.
    split; [done|]. split; [by cbn; rewrite Hlen|]. split; [lia|].
    intros [|j] stream' Hstream'; cbn in Hstream'.
    + injection Hstream' as <-. exists buffer. split; [done|].
      unfold dimensions. fold z. nia.
    + by apply Hrooms.
Qed.

(** X17. The packer the constructor builds over the heap provider, for
    dense streams of [float] or [double] with the streams of the transformer
    chain: every stream gets a buffer with room for [minibatchSize] samples,
    so every batch of at most [minibatchSize] samples of one dense sequence
    per stream fits the packer, in the sense the packing theorems ask for. *)
Theorem FrameModePacker_new_fits (h : Heap) (transformer : Transformer)
    (minibatchSize : Z) (streams : list StreamDescription) :
  0 < minibatchSize -> 0 <= next_block h ->
  GetStreams transformer = streams ->
  Forall (packable minibatchSize) streams ->
  exists p h',
    FrameModePacker_new h transformer minibatchSize streams = Ok (p, h')
    /\ m_transformer p = transformer /\ m_mbSize p = minibatchSize
    /\ m_inputStreams p = streams /\ m_outputStreams p = streams
    /\ length (m_streamBuffers p) = length streams
    /\ (forall (j : nat) stream,
          streams !! j = Some stream ->
          exists buffer,
            m_streamBuffers p !! j = Some buffer
            /\ dimensions stream * minibatchSize <= Z.of_nat (length buffer))
    /\ forall samples : list (list SequenceData),
         Z.of_nat (length samples) <= minibatchSize ->
         (forall (i : nat) sample,
            samples !! i = Some sample ->
            length sample = length streams
            /\ forall (j : nat) sequence stream,
                 sample !! j = Some sequence -> streams !! j = Some stream ->
                 numberOfSamples sequence = 1
                 /\ dimensions stream <= Z.of_nat (length (data sequence))) ->
         fits Transformer p samples.
Proof.
  intros Hmb Hbase Hstreams Hpackable.
  destruct (allocate_buffers_room minibatchSize streams Hmb Hpackable h Hbase)
    as (buffers & h' & Hallocate & Hlen & _ & Hroom).
  unfold FrameModePacker_new. cbn zeta. rewrite Hstreams, Z.eqb_refl.
  assert (forallb (fun s => negb (is_sparse (storageType s))) streams = true) as ->.
  { apply forallb_forall. intros s Hs. apply list_elem_of_In in Hs.
    rewrite Forall_forall in Hpackable. destruct (Hpackable s Hs) as (-> & _). done. }
  assert (assert NDEBUG true = Ok tt) as -> by (by destruct NDEBUG). cbn [bind].
  rewrite Hallocate. cbn [bind].
  do 2 eexists. split; [reflexivity|].
  cbn [m_transformer m_mbSize m_inputStreams m_outputStreams m_streamBuffers].
  do 5 (split; [done|]). split; [exact Hroom|].
  intros samples Hcount Hsamples.
  assert (forall (j : nat) stream,
            streams !! j = Some stream ->
            known_type (elementType stream) /\ 0 <= numElements stream
            /\ in_size_t (dimensions stream * minibatchSize)) as Hknown.
  { intros j stream Hstream. rewrite Forall_forall in Hpackable.
    destruct (Hpackable stream ltac:(by eapply list_elem_of_lookup_2))
      as (_ & Htype & Hn & Hfit).
    split; [by destruct (elementType stream)|]. split; [lia|].
    unfold in_size_t, dimensions in *. split; [|lia].
    assert (0 <= sizeOf (elementType stream)) by apply sizeOf_nonneg. nia. }
  split; cbn [m_transformer m_mbSize m_inputStreams m_outputStreams m_streamBuffers].
  - done.
  - done.
  - done.
  - done.
  - intros j stream Hstream. destruct (Hknown j stream Hstream) as (? & ? & ?).
    rewrite Forall_forall in Hpackable.
    destruct (Hpackable stream ltac:(by eapply list_elem_of_lookup_2)) as (? & _).
    split; [done|]. split; [done|]. split; [done|]. split; [done|].
    by apply Hroom.
  - exact Hknown.
  - intros i sample Hsample. destruct (Hsamples i sample Hsample) as [Hk Hseq].
    split; [by rewrite Hlen|]. exact Hseq.
Qed.

(** X18. The element types the constructor refuses: a stream that is
    neither of [float] nor of [double] stops a debug build on the
    assertion; in a release build a type [GetSizeByType] does not know is
    its [RuntimeError], raised when the loop reaches the stream. *)
Theorem FrameModePacker_new_element_type (h : Heap) (transformer : Transformer)
    (minibatchSize : Z) (good rest : list StreamDescription)
    (bad : StreamDescription) :
  0 < minibatchSize -> 0 <= next_block h ->
  length (GetStreams transformer) = length (good ++ bad :: rest) ->
  Forall (packable minibatchSize) good ->
  Forall (fun s => storageType s <> sparse_csc) (bad :: rest) ->
  float_or_double (elementType bad) = false ->
  (NDEBUG = false ->
   FrameModePacker_new h transformer minibatchSize (good ++ bad :: rest)
   = AssertionFailed)
  /\ (NDEBUG = true -> forall code, elementType bad = other_element code ->
      FrameModePacker_new h transformer minibatchSize (good ++ bad :: rest)
      = RuntimeError).
Proof.
  intros Hmb Hbase Hlen Hgood Hdense Hbad.
  assert ((NDEBUG = true -> exists code, elementType bad = other_element code) ->
          forall h0, 0 <= next_block h0 ->
            allocate_buffers minibatchSize (good ++ bad :: rest) h0
            = if NDEBUG then RuntimeError else AssertionFailed) as Hloop.
  { intros Hcase. clear Hlen.
    induction Hgood as [|stream good' Hstream _ IH]; intros h0 Hbase0.
    - cbn [app allocate_buffers]. rewrite Hbad. unfold assert.
      destruct NDEBUG; [|done]. cbn [bind].
      destruct (Hcase eq_refl) as [code ->]. done.
    - cbn [app allocate_buffers].
      destruct Hstream as (_ & Htype & Hn & Hfit). rewrite Htype.
      assert (assert NDEBUG true = Ok tt) as -> by (by destruct NDEBUG).
      cbn [bind].
      assert (GetSizeByType (elementType stream) = Ok (sizeOf (elementType stream))
              /\ 4 <= sizeOf (elementType stream) <= 8) as [-> Hsize].
      { destruct (elementType stream); try done; cbn; split; (done || lia). }
      cbn [bind]. unfold dimensions in Hfit.
      set (z := sizeOf (elementType stream)) in *.
      assert (0 <= numElements stream * minibatchSize
              <= numElements stream * z * minibatchSize) as Hrange by nia.
      rewrite size_t_id by (unfold in_size_t; lia).
      destruct (AllocateBuffer_room (minibatchSize * numElements stream) z h0)
        as (buffer & h1 & -> & _ & Hnext & _); [nia|lia|nia|lia|].
      cbn [bind]. rewrite (IH h1) by lia. by destruct NDEBUG. }
  assert (forallb (fun s => negb (is_sparse (storageType s))) (good ++ bad :: rest)
          = true) as Hsparse.
  { apply forallb_forall. intros s Hs. apply list_elem_of_In in Hs.
    apply elem_of_app in Hs as [Hs|Hs].
    - rewrite Forall_forall in Hgood. destruct (Hgood s Hs) as (-> & _). done.
    - rewrite Forall_forall in Hdense. specialize (Hdense s Hs).
      by destruct (storageType s). }
  unfold FrameModePacker_new. cbn zeta.
  rewrite Hlen, Z.eqb_refl, Hsparse.
  split.
  - intros E. rewrite (Hloop ltac:(by rewrite E) h Hbase), E. done.
  - intros E code Hcode. rewrite (Hloop ltac:(by eauto) h Hbase), E. done.
Qed.

End Constructor.

(** Memory that has just been allocated, read as zeros. *)
Definition zeros (address n : Z) : list Byte.byte := replicate (Z.to_nat n) Byte.x00.

Lemma zeros_length (address n : Z) : length (zeros address n) = Z.to_nat n.
Proof. apply length_replicate. Qed.

Definition no_layout : MBLayout := {| numParallelSequences := 0; numTimeSteps := 0 |}.

Definition labels : StreamDescription :=
  {| id := 1; name := "labels"; storageType := dense;
     elementType := other_element 7; numElements := 1 |}.

Lemma FrameModePacker_new_fits_witness :
  exists p h',
    FrameModePacker_new false (list Sequences) (fun _ => [features]) no_layout zeros
      HeapMemoryProvider.empty_heap [] 2 [features] = Ok (p, h')
    /\ m_mbSize p = 2
    /\ (exists buffer, m_streamBuffers p !! 0%nat = Some buffer
                       /\ 8 <= Z.of_nat (length buffer))
    /\ fits (list Sequences) p (m_data Shim.two_samples).
Proof.
  destruct (FrameModePacker_new_fits false (list Sequences) (fun _ => [features])
              no_layout zeros zeros_length HeapMemoryProvider.empty_heap [] 2
              [features] ltac:(lia) ltac:(by vm_compute) eq_refl)
    as (p & h' & Hnew & _ & Hmb & _ & _ & _ & Hroom & Hfits).
  - constructor; [|constructor].
    split; [done|]. split; [done|]. split; [by vm_compute|by vm_compute].
  - exists p, h'. split; [exact Hnew|]. split; [exact Hmb|]. split.
    + destruct (Hroom 0%nat features eq_refl) as (buffer & Hbuffer & Hlen).
      exists buffer. split; [exact Hbuffer|exact Hlen].
    + assert (Hd : dimensions features = 4) by reflexivity.
      apply Hfits; [cbn; lia|].
      intros [|[|i]] sample H; [| |done]; injection H as <-; (split; [done|]);
        intros [|j] sequence stream H1 H2; try done;
        injection H1 as <-; injection H2 as <-; rewrite Hd; cbn; lia.
Defined.

Lemma FrameModePacker_new_element_type_witness :
  FrameModePacker_new false (list Sequences) (fun _ => [features; labels]) no_layout
    zeros HeapMemoryProvider.empty_heap [] 2 [features; labels] = AssertionFailed
  /\ FrameModePacker_new true (list Sequences) (fun _ => [features; labels]) no_layout
       zeros HeapMemoryProvider.empty_heap [] 2 [features; labels] = RuntimeError.
Proof.
  assert (Forall (packable 2) [features]) as Hgood.
  { constructor; [|constructor].
    split; [done|]. split; [done|]. split; [by vm_compute|by vm_compute]. }
  assert (Forall (fun s => storageType s <> sparse_csc) [labels]) as Hdense
    by (constructor; [done|constructor]).
  split.
  - destruct (FrameModePacker_new_element_type false (list Sequences)
                (fun _ => [features; labels]) no_layout zeros zeros_length
                HeapMemoryProvider.empty_heap [] 2 [features] [] labels
                ltac:(lia) ltac:(by vm_compute) eq_refl Hgood Hdense eq_refl)
      as [Hdebug _].
    by apply Hdebug.
  - destruct (FrameModePacker_new_element_type true (list Sequences)
                (fun _ => [features; labels]) no_layout zeros zeros_length
                HeapMemoryProvider.empty_heap [] 2 [features] [] labels
                ltac:(lia) ltac:(by vm_compute) eq_refl Hgood Hdense eq_refl)
      as [_ Hrelease].
    by apply (Hrelease eq_refl 7).
Defined.

End PackerBuffers.

(** * The crop transformer *)

Module ImageCrop.

Import Transformers.

(** What [InitFromConfig] reads from the configuration of the stream: the
    text of [cropType] and [jitterType] (empty when the key is missing),
    the [double]s [cropRatio[0]] and [cropRatio[1]], and the [int]
    [std::stoi] reads from [hflip] when that key exists. *)
Record Config := {
  cropType : string;
  cropRatio0 : float;
  cropRatio1 : float;
  jitterType : string;
  hflip : option Z
}.

Record CropTransformer := {
  m_cropType : CropType;
  m_cropRatioMin : float;
  m_cropRatioMax : float;
  m_jitterType : RatioJitterType;
  m_hFlip : bool
}.

(** [0 < r && r <= 1.0]. *)
Definition valid_ratio (r : float) : bool :=
  PrimFloat.ltb 0 r && PrimFloat.leb r 1.

Definition InitFromConfig (config : Config) : outcome CropTransformer :=
  type <- ParseCropType (cropType config);;
  let cropRatioMin := cropRatio0 config in
  let cropRatioMax := cropRatio1 config in
  if negb (valid_ratio cropRatioMin) || negb (valid_ratio cropRatioMax)
     || PrimFloat.ltb cropRatioMax cropRatioMin
  then RuntimeError
  else
    jitter <- ParseJitterType (jitterType config);;
    Ok {| m_cropType := type;
          m_cropRatioMin := cropRatioMin;
          m_cropRatioMax := cropRatioMax;
          m_jitterType := jitter;
          m_hFlip := match hflip config with
                     | None => match type with Random => true | Center => false end
                     | Some n => negb (n =? 0)
                     end |}.

Section Apply.

Variable NDEBUG : bool.

(** The engine and the distributions drawn from it. *)
Variable mt19937 : Type.
Variable UniIntT : Z -> Z -> mt19937 -> Z * mt19937.
Variable UniRealT : float -> float -> mt19937 -> float * mt19937.
Variable bernoulli : mt19937 -> bool * mt19937.

(** OpenCV: [mat(rect)], the part of a matrix in a rectangle, and
    [cv::flip(mat, mat, 1)], the flip around the vertical axis. *)
Variable Elem : Type.
Variable cv_roi : Mean.Mat Elem -> Rect -> outcome (Mean.Mat Elem).
Variable cv_flip : Mean.Mat Elem -> Mean.Mat Elem.

(** [Apply(cv::Mat&)], with the engine the call takes from [m_rngs] and
    gives back. *)
Definition Apply (t : CropTransformer) (mat : Mean.Mat Elem) (rng : mt19937)
    : outcome (Mean.Mat Elem * mt19937) :=
  '(ratio, rng1) <-
    (match m_jitterType t with
     | JitterNone => Ok (m_cropRatioMin t, rng)
     | UniRatio =>
         if PrimFloat.eqb (m_cropRatioMin t) (m_cropRatioMax t)
         then Ok (m_cropRatioMin t, rng)
         else
           let '(ratio, rng') := UniRealT (m_cropRatioMin t) (m_cropRatioMax t) rng in
           _ <- assert NDEBUG (PrimFloat.leb (m_cropRatioMin t) ratio
                               && PrimFloat.ltb ratio (m_cropRatioMax t));;
           Ok (ratio, rng')
     | _ => RuntimeError
     end);;
  '(rect, rng2) <- GetCropRect NDEBUG mt19937 UniIntT (m_cropType t)
                     (Mean.rows mat) (Mean.cols mat) ratio rng1;;
  mat1 <- cv_roi mat rect;;
  if m_hFlip t then
    let '(flip, rng3) := bernoulli rng2 in
    Ok (if flip then cv_flip mat1 else mat1, rng3)
  else Ok (mat1, rng2).

End Apply.

(** ** The configurations accepted *)



(** ** The crop *)

Section Cropping.

Variable NDEBUG : bool.
Variable mt19937 : Type.
Variable UniIntT : Z -> Z -> mt19937 -> Z * mt19937.
Variable UniRealT : float -> float -> mt19937 -> float * mt19937.
Variable bernoulli : mt19937 -> bool * mt19937.
Variable Elem : Type.
Variable cv_roi : Mean.Mat Elem -> Rect -> outcome (Mean.Mat Elem).
Variable cv_flip : Mean.Mat Elem -> Mean.Mat Elem.

(** The contract of [std::uniform_int_distribution]. *)
Hypothesis UniIntT_range :
  forall a b g, a <= b -> a <= (UniIntT a b g).1 <= b.

(** OpenCV: the part of a matrix in a rectangle that lies in the matrix
    has the size of the rectangle and the channels of the matrix; a flip
    keeps the shape. *)
Hypothesis cv_roi_inside :
  forall mat r,
    0 <= x r -> 0 <= width r -> x r + width r <= Mean.cols mat ->
    0 <= y r -> 0 <= height r -> y r + height r <= Mean.rows mat ->
    exists part,
      cv_roi mat r = Ok part
      /\ Mean.rows part = height r /\ Mean.cols part = width r
      /\ Mean.channels part = Mean.channels mat.
Hypothesis cv_flip_shape :
  forall mat,
    Mean.rows (cv_flip mat) = Mean.rows mat
    /\ Mean.cols (cv_flip mat) = Mean.cols mat
    /\ Mean.channels (cv_flip mat) = Mean.channels mat.

Local Abbreviation GetCropRect := (GetCropRect NDEBUG mt19937 UniIntT).
Local Abbreviation Apply :=
  (Apply NDEBUG mt19937 UniIntT UniRealT bernoulli Elem cv_roi cv_flip).

(** The rectangle of a valid ratio lies in the image. *)
Lemma GetCropRect_inside (type : CropType) (crow ccol : Z) (cropRatio : float)
    (rng : mt19937) :
  0 < crow <= BR.INT_MAX -> 0 < ccol <= BR.INT_MAX ->
  valid_ratio cropRatio = true ->
  exists S rect rng',
    cropSize_of crow ccol cropRatio = Ok S
    /\ 0 <= S <= Z.min crow ccol
    /\ GetCropRect type crow ccol cropRatio rng = Ok (rect, rng')
    /\ width rect = S /\ height rect = S
    /\ 0 <= x rect <= ccol - S /\ 0 <= y rect <= crow - S
    /\ (type = Center ->
        rng' = rng /\ x rect = (ccol - S) / 2 /\ y rect = (crow - S) / 2).
Proof.
  intros Hrow Hcol Hvalid. pose proof Hvalid as Hratio.
  unfold valid_ratio in Hvalid. apply andb_true_iff in Hvalid as [Hlt Hle].
  destruct (product_value (Z.min crow ccol) cropRatio ltac:(lia) Hlt Hle)
    as (q & Hq & Hq0 & Hqm).
  destruct (Qfloor_within q _ Hq0 Hqm) as [HS0 HSm].
  set (S := Qfloor q) in *.
  assert (cropSize_of crow ccol cropRatio = Ok S) as Hsize.
  { unfold cropSize_of, double_to_int. rewrite Hq.
    rewrite (proj2 (Qle_bool_iff 0 q) Hq0). fold S.
    unfold BR.INT_MAX in *.
    rewrite (proj2 (andb_true_iff _ _)); [done|].
    split; apply Z.leb_le; lia. }
  exists S. unfold Transformers.GetCropRect.
  rewrite !(assert_true NDEBUG), Hsize
    by (rewrite ?Hlt, ?Hle; try apply Z.ltb_lt; lia || done).
  cbn [bind]. destruct type.
  - rewrite !Z.quot_div_nonneg by lia.
    assert (0 <= (ccol - S) / 2 <= ccol - S) as Hx
      by (split; [apply Z.div_pos; lia|apply Z.div_le_upper_bound; lia]).
    assert (0 <= (crow - S) / 2 <= crow - S) as Hy
      by (split; [apply Z.div_pos; lia|apply Z.div_le_upper_bound; lia]).
    rewrite !(assert_true NDEBUG)
      by (apply andb_true_iff; split; apply Z.leb_le; lia).
    cbn [bind]. do 2 eexists. split; [done|]. split; [done|].
    split; [reflexivity|]. cbn. done.
  - pose proof (UniIntT_range 0 (ccol - S) rng ltac:(lia)) as H1.
    destruct (UniIntT 0 (ccol - S) rng) as [xOff rng1] eqn:E1.
    pose proof (UniIntT_range 0 (crow - S) rng1 ltac:(lia)) as H2.
    destruct (UniIntT 0 (crow - S) rng1) as [yOff rng2] eqn:E2.
    cbn [fst snd] in *.
    rewrite !(assert_true NDEBUG)
      by (apply andb_true_iff; split; apply Z.leb_le; lia).
    cbn [bind]. do 2 eexists. split; [done|]. split; [done|].
    split; [reflexivity|]. cbn. done.
Qed.

(** X20. [Apply] of a crop transformer [InitFromConfig] has returned, on
    an image of at least one row and one column. With the jitter types
    [unilength] and [uniarea], which the configuration accepts, every call
    raises a [RuntimeError]. Without jitter (type [none], or [uniratio]
    with equal ratios) the call returns a square image of side
    [S = int(min(rows, cols) * cropRatioMin)], between 0 and the smaller
    side of the image, with the channels of the image; for the center crop
    without flip it is the part of the image at
    [((cols - S) / 2, (rows - S) / 2)], and no random number is drawn. *)
Theorem Apply_crops (config : Config) (t : CropTransformer)
    (mat : Mean.Mat Elem) (rng : mt19937) :
  InitFromConfig config = Ok t ->
  0 < Mean.rows mat <= BR.INT_MAX -> 0 < Mean.cols mat <= BR.INT_MAX ->
  (m_jitterType t = UniLength \/ m_jitterType t = UniArea ->
   Apply t mat rng = RuntimeError)
  /\ (m_jitterType t = JitterNone
      \/ (m_jitterType t = UniRatio
          /\ PrimFloat.eqb (m_cropRatioMin t) (m_cropRatioMax t) = true) ->
      exists S cropped rng',
        cropSize_of (Mean.rows mat) (Mean.cols mat) (m_cropRatioMin t) = Ok S
        /\ 0 <= S <= Z.min (Mean.rows mat) (Mean.cols mat)
        /\ Apply t mat rng = Ok (cropped, rng')
        /\ Mean.rows cropped = S /\ Mean.cols cropped = S
        /\ Mean.channels cropped = Mean.channels mat
        /\ (m_cropType t = Center -> m_hFlip t = false ->
            rng' = rng
            /\ cv_roi mat {| x := (Mean.cols mat - S) / 2;
                             y := (Mean.rows mat - S) / 2;
                             width := S; height := S |} = Ok cropped)).
Proof.
  intros Hinit Hrows Hcols.
  assert (valid_ratio (m_cropRatioMin t) = true) as Hvalid.
  { unfold InitFromConfig in Hinit.
    apply bind_Ok_inv in Hinit as (type & _ & Hinit). cbn zeta in Hinit.
    destruct (valid_ratio (cropRatio0 config)) eqn:E; [|done].
    destruct (_ || _); [done|].
    apply bind_Ok_inv in Hinit as (jitter & _ & Hinit). by simplify_eq. }
  split.
  - intros [H|H]; unfold ImageCrop.Apply; by rewrite H.
  - intros Hjitter.
    destruct (GetCropRect_inside (m_cropType t) _ _ _ rng Hrows Hcols Hvalid)
      as (S & rect & rng' & Hsize & HS & Hrect & Hw & Hh & Hx & Hy & Hcenter).
    destruct (cv_roi_inside mat rect) as (part & Hpart & Hprows & Hpcols & Hpch);
      [lia..|].
    exists S.
    assert (ImageCrop.Apply NDEBUG mt19937 UniIntT UniRealT bernoulli Elem cv_roi
              cv_flip t mat rng
            = if m_hFlip t
              then let '(flip, rng3) := bernoulli rng' in
                   Ok (if flip then cv_flip part else part, rng3)
              else Ok (part, rng')) as ->.
    { unfold ImageCrop.Apply.
      destruct Hjitter as [->|[-> ->]]; cbn [bind]; rewrite Hrect; cbn [bind];
        rewrite Hpart; done. }
    destruct (m_hFlip t) eqn:Hflip.
    + destruct (bernoulli rng') as [flip rng3].
      destruct (cv_flip_shape part) as (Hfr & Hfc & Hfch).
      destruct flip; do 2 eexists; (split; [done|]); (split; [done|]);
        (split; [reflexivity|]); (split; [lia|]); (split; [lia|]);
        (split; [congruence|]); intros _ E; done.
    + exists part, rng'. split; [done|]. split; [done|]. split; [done|].
      split; [lia|]. split; [lia|]. split; [done|].
      intros Htype _. destruct (Hcenter Htype) as (-> & Hx' & Hy').
      split; [done|]. rewrite <- Hpart. f_equal.
      destruct rect as [rx ry rw rh]. cbn in *. congruence.
Qed.

End Cropping.

(** ** An image and its parts *)

(** The part of a matrix of one channel in a rectangle, row by row; an
    error when the rectangle does not lie in the matrix. *)
Definition part_of (mat : Mean.Mat Z) (r : Rect) : outcome (Mean.Mat Z) :=
  if (0 <=? x r) && (0 <=? width r) && (x r + width r <=? Mean.cols mat)
     && (0 <=? y r) && (0 <=? height r) && (y r + height r <=? Mean.rows mat)
  then
    Ok {| Mean.rows := height r; Mean.cols := width r;
          Mean.channels := Mean.channels mat;
          Mean.data :=
            flat_map
              (fun i : nat =>
                 take (Z.to_nat (width r))
                   (drop (Z.to_nat ((y r + Z.of_nat i) * Mean.cols mat + x r))
                      (Mean.data mat)))
              (seq 0 (Z.to_nat (height r))) |}
  else RuntimeError.

(** The rows of a matrix of one channel, each in reverse. *)
Definition mirrored (mat : Mean.Mat Z) : Mean.Mat Z :=
  {| Mean.rows := Mean.rows mat; Mean.cols := Mean.cols mat;
     Mean.channels := Mean.channels mat;
     Mean.data :=
       flat_map
         (fun i : nat =>
            reverse (take (Z.to_nat (Mean.cols mat))
                       (drop (i * Z.to_nat (Mean.cols mat)) (Mean.data mat))))
         (seq 0 (Z.to_nat (Mean.rows mat))) |}.

Lemma part_of_inside (mat : Mean.Mat Z) (r : Rect) :
  0 <= x r -> 0 <= width r -> x r + width r <= Mean.cols mat ->
  0 <= y r -> 0 <= height r -> y r + height r <= Mean.rows mat ->
  exists part,
    part_of mat r = Ok part
    /\ Mean.rows part = height r /\ Mean.cols part = width r
    /\ Mean.channels part = Mean.channels mat.
Proof.
  intros. unfold part_of.
  rewrite !(proj2 (Z.leb_le _ _)) by lia. cbn [andb].
  eexists. split; [reflexivity|]. done.
Defined.

Lemma mirrored_shape (mat : Mean.Mat Z) :
  Mean.rows (mirrored mat) = Mean.rows mat
  /\ Mean.cols (mirrored mat) = Mean.cols mat
  /\ Mean.channels (mirrored mat) = Mean.channels mat.
Proof. done. Defined.

(** A gray image of 2 rows and 4 columns. *)
Definition gray_2x4 : Mean.Mat Z :=
  {| Mean.rows := 2; Mean.cols := 4; Mean.channels := 1;
     Mean.data := [11; 12; 13; 14; 21; 22; 23; 24] |}.

Definition center_half : Config :=
  {| cropType := "Center"; cropRatio0 := 0.5%float; cropRatio1 := 0.5%float;
     jitterType := ""; hflip := None |}.

Definition random_unilength : Config :=
  {| cropType := "random"; cropRatio0 := 0.5%float; cropRatio1 := 1%float;
     jitterType := "UniLength"; hflip := Some 1 |}.



Lemma Apply_crops_witness :
  (exists t cropped,
     InitFromConfig center_half = Ok t
     /\ Apply false Z counter_draw (fun a b g => (a, g)) (fun g => (Z.odd g, g + 1))
          Z part_of mirrored t gray_2x4 7 = Ok (cropped, 7)
     /\ Mean.rows cropped = 1 /\ Mean.cols cropped = 1
     /\ part_of gray_2x4 {| x := 1; y := 0; width := 1; height := 1 |} = Ok cropped)
  /\ (exists t,
        InitFromConfig random_unilength = Ok t
        /\ Apply false Z counter_draw (fun a b g => (a, g)) (fun g => (Z.odd g, g + 1))
             Z part_of mirrored t gray_2x4 7 = RuntimeError).
Proof.
  split.
  - destruct (InitFromConfig center_half) as [t| | | | |] eqn:Hinit;
      try (vm_compute in Hinit; discriminate).
    assert (m_cropType t = Center /\ m_hFlip t = false /\ m_jitterType t = JitterNone
            /\ m_cropRatioMin t = 0.5%float) as (Htype & Hflip & Hjitter & Hratio)
      by (vm_compute in Hinit; injection Hinit as <-; done).
    destruct (Apply_crops false Z counter_draw (fun a b g => (a, g))
                (fun g => (Z.odd g, g + 1)) Z part_of mirrored counter_draw_range
                part_of_inside mirrored_shape center_half t gray_2x4 7 Hinit
                ltac:(by vm_compute) ltac:(by vm_compute)) as [_ Hcrop].
    destruct (Hcrop (or_introl Hjitter))
      as (S & cropped & rng' & Hsize & _ & Happly & Hrows & Hcols & _ & Hcenter).
    rewrite Hratio in Hsize. vm_compute in Hsize. injection Hsize as <-.
    destruct (Hcenter Htype Hflip) as [-> Hpart].
    exists t, cropped. split; [reflexivity|]. split; [exact Happly|].
    split; [exact Hrows|]. split; [exact Hcols|]. exact Hpart.
  - destruct (InitFromConfig random_unilength) as [t| | | | |] eqn:Hinit;
      try (vm_compute in Hinit; discriminate).
    assert (m_jitterType t = UniLength) as Hjitter
      by (vm_compute in Hinit; injection Hinit as <-; done).
    destruct (Apply_crops false Z counter_draw (fun a b g => (a, g))
                (fun g => (Z.odd g, g + 1)) Z part_of mirrored counter_draw_range
                part_of_inside mirrored_shape random_unilength t gray_2x4 7 Hinit
                ltac:(by vm_compute) ltac:(by vm_compute)) as [Herror _].
    exists t. split; [reflexivity|]. apply Herror. by left.
Defined.

End ImageCrop.

(** * The base of the image transformers *)

Module BaseTransformer.

(** OpenCV's depths of [float] and [double]. *)
Definition CV_32F : Z := 5.
Definition CV_64F : Z := 6.

(** [static_cast<int>] of a [size_t]: the value modulo 2^32, as an
    [int]. *)
Definition to_int (z : Z) : Z := (z + 2147483648) mod 4294967296 - 2147483648.

(** [ImageLayout]: what [ImageLayoutWHC(width, height, channels)] builds
    and [GetWidth], [GetHeight] and [GetNumChannels] read (the class is not
    among the sources). *)
Record ImageLayout := ImageLayoutWHC {
  GetWidth : Z;
  GetHeight : Z;
  GetNumChannels : Z
}.

Section Base.

Variable NDEBUG : bool.

(** The pixels behind a data pointer. *)
Variable Data : Type.

Record DenseSequenceData := {
  sampleLayout : ImageLayout;
  numberOfSamples : Z;
  data : Data
}.

Record Sequences := {
  m_endOfEpoch : bool;
  m_data : list (list DenseSequenceData)
}.

(** A [cv::Mat] header: [cv::Mat(rows, cols, CV_MAKETYPE(depth, channels),
    data)]. *)
Record Mat := {
  rows : Z;
  cols : Z;
  depth : Z;
  channels : Z;
  ptr : Data
}.

(** The transformer after this one in the chain. *)
Variable Next : Type.
Variable next_GetNextSequences : Z -> Next -> outcome (Sequences * Next).

(** [Apply(cv::Mat&)] of the derived class, and the state it works on
    (its engines and its configuration). *)
Variable Derived : Type.
Variable Apply_mat : Mat -> Derived -> outcome (Mat * Derived).

Record BaseTransformer := {
  m_next : option Next;
  m_streams : list Packer.StreamDescription;
  m_featureStreamIds : list Z;
  m_buffer : list (list Mat);
  derived : Derived
}.

(** [Apply(sequence, stream, buffer)]: the new sequence and the matrix left
    in [buffer]. *)
Definition Apply (sequence : DenseSequenceData) (stream : Packer.StreamDescription)
    (d : Derived) : outcome (DenseSequenceData * Mat * Derived) :=
  let rows_ := to_int (GetWidth (sampleLayout sequence)) in
  let columns := to_int (GetHeight (sampleLayout sequence)) in
  let channels_ := to_int (GetNumChannels (sampleLayout sequence)) in
  typeId <- (match Packer.elementType stream with
             | Packer.tdouble => Ok CV_64F
             | Packer.tfloat => Ok CV_32F
             | _ => RuntimeError
             end);;
  let buffer := {| rows := rows_; cols := columns; depth := typeId;
                   channels := channels_; ptr := data sequence |} in
  '(buffer', d') <- Apply_mat buffer d;;
  Ok ({| sampleLayout := ImageLayoutWHC (cols buffer') (rows buffer') (channels buffer');
         numberOfSamples := numberOfSamples sequence;
         data := ptr buffer' |},
      buffer', d').

Definition is_dense (type : Packer.StorageType) : bool :=
  match type with
  | Packer.dense => true
  | _ => false
  end.

(** The loop over [j], on the feature stream ids still to go; [row] is
    [m_buffer[i]] from index [j] on, already resized. *)
Fixpoint apply_features (streams : list Packer.StreamDescription) (ids : list Z)
    (sample : list DenseSequenceData) (d : Derived)
    : outcome (list DenseSequenceData * list Mat * Derived) :=
  match ids with
  | [] => Ok (sample, [], d)
  | id :: rest =>
      stream <- vec_at streams id;;
      _ <- assert NDEBUG (is_dense (Packer.storageType stream));;
      sequence <- vec_at sample id;;
      '(sequence', buffer, d1) <- Apply sequence stream d;;
      sample1 <- vec_set sample id sequence';;
      '(sample2, buffers, d2) <- apply_features streams rest sample1 d1;;
      Ok (sample2, buffer :: buffers, d2)
  end.

(** The loop over [i], the iterations in the order of the indices (the
    order in which one thread goes through the parallel loop). *)
Fixpoint apply_samples (streams : list Packer.StreamDescription) (ids : list Z)
    (samples : list (list DenseSequenceData)) (d : Derived)
    : outcome (list (list DenseSequenceData) * list (list Mat) * Derived) :=
  match samples with
  | [] => Ok ([], [], d)
  | sample :: rest =>
      _ <- assert NDEBUG (Z.of_nat (length sample) =? Z.of_nat (length streams));;
      '(sample', row, d1) <- apply_features streams ids sample d;;
      '(rest', buffer, d2) <- apply_samples streams ids rest d1;;
      Ok (sample' :: rest', row :: buffer, d2)
  end.

Definition GetNextSequences (count : Z) (t : BaseTransformer)
    : outcome (Sequences * BaseTransformer) :=
  _ <- assert NDEBUG (bool_decide (is_Some (m_next t)));;
  match m_next t with
  | None => Undefined
  | Some next =>
      '(samples, next') <- next_GetNextSequences count next;;
      if m_endOfEpoch samples then
        Ok (samples,
            {| m_next := Some next'; m_streams := m_streams t;
               m_featureStreamIds := m_featureStreamIds t;
               m_buffer := m_buffer t; derived := derived t |})
      else
        '(data', buffer, d') <-
          apply_samples (m_streams t) (m_featureStreamIds t) (m_data samples)
            (derived t);;
        Ok ({| m_endOfEpoch := m_endOfEpoch samples; m_data := data' |},
            {| m_next := Some next'; m_streams := m_streams t;
               m_featureStreamIds := m_featureStreamIds t;
               m_buffer := buffer; derived := d' |})
  end.

(** ** What a batch goes through *)


(** The sequence of a matrix: as wide as the matrix has columns and as high
    as it has rows, with the number of samples of [sequence]. *)
Definition sequence_of (sequence : DenseSequenceData) (buffer : Mat)
    : DenseSequenceData :=
  {| sampleLayout := ImageLayoutWHC (cols buffer) (rows buffer) (channels buffer);
     numberOfSamples := numberOfSamples sequence;
     data := ptr buffer |}.




Section OneStream.

Variables (streams : list Packer.StreamDescription) (fid : Z).
Variables (stream : Packer.StreamDescription) (typeId : Z).

Hypothesis stream_fid : streams !! Z.to_nat fid = Some stream.
Hypothesis stream_type :
  Packer.elementType stream = Packer.tfloat /\ typeId = CV_32F
  \/ Packer.elementType stream = Packer.tdouble /\ typeId = CV_64F.



End OneStream.


End Base.

Arguments sampleLayout {Data} _.
Arguments numberOfSamples {Data} _.
Arguments data {Data} _.
Arguments m_endOfEpoch {Data} _.
Arguments m_data {Data} _.
Arguments rows {Data} _.
Arguments cols {Data} _.
Arguments depth {Data} _.
Arguments channels {Data} _.
Arguments ptr {Data} _.
Arguments m_next {Data Next Derived} _.
Arguments m_streams {Data Next Derived} _.
Arguments m_featureStreamIds {Data Next Derived} _.
Arguments m_buffer {Data Next Derived} _.
Arguments derived {Data Next Derived} _.

(** ** A chain of two *)

(** A source that plays back the batches it holds. *)
Definition playback (count : Z) (batches : list (Sequences (list Z)))
    : outcome (Sequences (list Z) * list (Sequences (list Z))) :=
  match batches with
  | [] => Ok ({| m_endOfEpoch := true; m_data := [] |}, [])
  | batch :: rest => Ok (batch, rest)
  end.












End BaseTransformer.

(** * The scale transformer *)

Module ImageScale.

Import Transformers.

(** OpenCV: [CV_MAKETYPE(depth, cn)], and the type of a matrix. *)
Definition CV_MAKETYPE (depth cn : Z) : Z := Z.land depth 7 + Z.shiftl (cn - 1) 3.

Definition mat_type {Data : Type} (mat : BaseTransformer.Mat Data) : Z :=
  CV_MAKETYPE (BaseTransformer.depth mat) (BaseTransformer.channels mat).



Section Apply.

Variable NDEBUG : bool.
Variable mt19937 : Type.
Variable UniIntT : Z -> Z -> mt19937 -> Z * mt19937.

(** OpenCV: [mat.convertTo(mat, rtype)] and
    [cv::resize(mat, mat, cv::Size(width, height), 0, 0, interpolation)]. *)
Variable Data : Type.
Variable cv_convertTo : BaseTransformer.Mat Data -> Z -> BaseTransformer.Mat Data.
Variable cv_resize :
  BaseTransformer.Mat Data -> Z -> Z -> Z -> outcome (BaseTransformer.Mat Data).

(** [Apply(cv::Mat&)]; [m_dataType] is the depth [Initialize] derives from
    the element type of the feature stream. *)
Definition Apply (t : Scale.ScaleTransformer) (m_dataType : Z)
    (mat : BaseTransformer.Mat Data) (rng : mt19937)
    : outcome (BaseTransformer.Mat Data * mt19937) :=
  let mat1 :=
    if negb (mat_type mat =? CV_MAKETYPE m_dataType (Scale.m_imgChannels t))
    then cv_convertTo mat m_dataType else mat in
  _ <- assert NDEBUG (0 <? Z.of_nat (length (Scale.m_interp t)));;
  let '(index, rng') :=
    UniIntT 0 (BaseTransformer.to_int (Z.of_nat (length (Scale.m_interp t))) - 1) rng in
  interpolation <- vec_at (Scale.m_interp t) index;;
  mat2 <- cv_resize mat1 (BaseTransformer.to_int (Scale.m_imgWidth t))
            (BaseTransformer.to_int (Scale.m_imgHeight t)) interpolation;;
  Ok (mat2, rng').

(** The contract of [std::uniform_int_distribution]. *)
Hypothesis UniIntT_range :
  forall a b g, a <= b -> a <= (UniIntT a b g).1 <= b.

(** OpenCV: a conversion changes the depth and nothing else of the header;
    a matrix that is not empty is resized to a size that is not empty, and
    keeps its depth and channels. *)
Hypothesis cv_convertTo_header :
  forall mat rtype,
    BaseTransformer.rows (cv_convertTo mat rtype) = BaseTransformer.rows mat
    /\ BaseTransformer.cols (cv_convertTo mat rtype) = BaseTransformer.cols mat
    /\ BaseTransformer.channels (cv_convertTo mat rtype) = BaseTransformer.channels mat
    /\ BaseTransformer.depth (cv_convertTo mat rtype) = rtype.
Hypothesis cv_resize_size :
  forall mat w h interpolation,
    0 < BaseTransformer.rows mat -> 0 < BaseTransformer.cols mat -> 0 < w -> 0 < h ->
    exists resized,
      cv_resize mat w h interpolation = Ok resized
      /\ BaseTransformer.rows resized = h /\ BaseTransformer.cols resized = w
      /\ BaseTransformer.channels resized = BaseTransformer.channels mat
      /\ BaseTransformer.depth resized = BaseTransformer.depth mat.


End Apply.

(** ** An image resized *)





(** A gray image of 2 rows and 4 columns, of bytes. *)
Definition gray_2x4 : BaseTransformer.Mat (list Z) :=
  {| BaseTransformer.rows := 2; BaseTransformer.cols := 4;
     BaseTransformer.depth := 0; BaseTransformer.channels := 1;
     BaseTransformer.ptr := [11; 12; 13; 14; 21; 22; 23; 24] |}.



End ImageScale.
